(* ===== verification/_CoqProject ===== *)
-Q . S2P
Prelude.v
RustStr.v
Message.v
Net.v
Response.v
Stream.v
Forward.v
SecurityGuard.v
Acl.v
RateLimit.v
G711.v
Storage.v
Sdp.v
Media.v
World.v
Settings.v
Gateway.v
VoicemailSdp.v
VoicemailMedia.v
NoAnswer.v
Mwi.v
Voicemail.v
HttpApi.v
Webhooks.v
Email.v
Auth.v
Presence.v
ConferenceMedia.v
Recorder.v
Conference.v
Registrar.v
Accounts.v
Frames.v
Mailboxes.v
Proxy.v
Portal.v
Handler.v
Rooms.v
WebSocket.v
Server.v
Calls.v
Stats.v
Reload.v
Firewall.v
Router.v
Metrics.v
OpenApi.v
Client.v
Scenario.v
EndToEnd.v
Testing.v
SipTests.v
MediaTests.v
ServiceTests.v
ClientTests.v
