(* ===== verification/Prelude.v ===== *)
(** * SIP3: a verification development

    SIP3 is a SIP registrar and proxy with voicemail, conferences, presence and a WebRTC
    gateway, written in Rust over tokio and MySQL.  This library models the code under
    [src/backend/src/] and proves what makes it correct, and where it is not.  This file is
    the prelude: text literals, results, the digests, machine integers, list lemmas and
    tactics used everywhere.

    ** The program and the files that model it

    A datagram or a stream message is parsed ([sip/message.rs]: [Message]; the stream is cut
    into messages by [sip/tcp_server.rs]: [Stream]), dispatched ([sip/handler.rs]: [Handler])
    and answered with a response ([sip/response.rs]: [Response]).

    - [RustStr], [Net]: what the code uses of Rust's [str], of [from_utf8_lossy], and of the
      printing and parsing of socket addresses.
    - [Message], [Response], [Forward]: parsing and printing; the forwarded INVITE and CANCEL of
      [sip/proxy.rs].
    - [SecurityGuard], [Acl] ([security_guard.rs], [acl.rs]), [RateLimit]
      ([api/rate_limit.rs]): failure windows and blocks, access rules, the API limiter.
    - [Sdp], [Media] ([sip/media.rs]): session descriptions, the RTP relay and its ports.
    - [G711], [Storage] ([sip/g711.rs], [storage/voicemail.rs]): codecs, WAV files, the store.
    - [World]: the state of the whole server (tables, shared maps, sockets, spawned tasks, sent
      messages), the handler monad, frame and totality lemmas; also [sip/transport.rs] and the
      enqueueing of webhook events.
    - [Webhooks] ([api/webhook_dispatcher.rs], [api/webhooks.rs]): the outbox and its worker.
    - [Gateway] ([sip/webrtc_gateway.rs]), [VoicemailSdp], [VoicemailMedia], [NoAnswer], [Mwi],
      [Voicemail] ([sip/voicemail*.rs]), [Presence], [ConferenceMedia], [Recorder],
      [Conference] ([sip/conference*.rs]), [Registrar], [Proxy]: the services, one file each;
      [NoAnswer] holds the timer of a ringing call as a transition system between await points.
    - [Frames]: what the services leave alone.  [Handler]: routing and relaying.  [Server]
      ([sip/server.rs], [sip/call_cleanup.rs]): the receive loop, the background tasks and
      the server as a transition system.
    - The HTTP API, over the same [World]: [HttpApi] ([api/mod.rs], [api/jwt.rs]: tokens, the
      two middlewares, [Api] results), [Auth] ([api/auth.rs], [api/admin_users.rs]), [Accounts]
      ([api/accounts.rs]), [Rooms] ([api/conferences.rs]), [Mailboxes] ([api/voicemail.rs]),
      [Firewall] ([api/acl.rs], [api/security.rs]), [Portal] ([api/messages.rs],
      [api/turn.rs]), [Calls] ([api/status.rs]), [Stats] ([api/stats.rs]).  [Email]
      ([api/email_worker.rs]) is the second outbox.  [Settings] ([config.rs]) loads the
      configuration, [Reload] ([config_watch.rs]) keeps it at run time, and [Router]
      ([api/mod.rs]) joins them: every route with its handler and the layers around it.
      [Metrics] ([api/metrics.rs]) and [OpenApi] ([api/openapi.rs]) are what is exported.
    - [WebSocket] ([sip/ws_server.rs], with the loop of [sip/tcp_server.rs]): the connections
      of browsers and TLS clients and their entries in the registry of streams.
    - [Client] ([test_client/endpoint.rs]): the repository's own SIP client, run against
      [Handler]; [Scenario] (the rest of [test_client], [bin/headless_call_tester.rs]): two of
      them on one server, with their RTP probes and the scenarios of the tester; [EndToEnd]: what
      those scenarios come to for any two accounts.
    - [SipTests], [MediaTests], [ServiceTests], [ClientTests], over [Testing]: the repository's
      own unit tests, with their names, inputs and assertions, run on these definitions.

    Each handler is one definition in the monad [M] of [World], a function from [World] to a
    value, an error (what [?] propagates) or a panic, and the next [World].

    ** What is proved

    - The whole server: nobody but a user changes that user's registration, whatever the
      message ([Handler.registrations_change_only]); the dispatcher answers every request and
      never fails ([Handler.process_sip_msg_answers]); dialogs and IVR sessions stay consistent
      in every state reached by handling messages and tasks one at a time
      ([Server.reachable_consistent]); an INVITE flood ends at the firewall
      ([Server.invite_flood_reaches_firewall]).
    - Calls: admission, forwarding, relaying, ending; the forwarded request parses back to the
      caller's; a ringing call whose callee does not answer before the timer is entered is never
      answered twice, in any interleaving with the timer.
    - Registration: nonces, digests, the effect of REGISTER; reading the parameters of a
      digest header terminates; an account made through the API can register; the client and
      the server complete a registration, and for any two accounts the tester's registration and
      message scenarios pass on this server.
    - Guards: the failure guard, the limiter and the access list equal their specifications
      over histories.
    - Media: ports are never shared, an allocation succeeds when a pair is free, SDP rewriting
      touches only what it should, the mix is the clamped sum, *6 is the parity of its uses, the
      WebRTC bridge sends to whoever sent last, a played message goes to one listener.
    - Voicemail: the PIN guards the mailbox, recordings are bounded, single-source and dropped
      when cancelled; what is played and recorded again survives up to the codec.
    - Streams and outboxes: messages survive any segmentation; the registry names exactly the
      connections that last registered at their address, in any interleaving; webhook deliveries
      and mails are state machines, and a drain posts each due delivery once.
    - The API: a login is a session for exactly its lifetime, an administrator always remains,
      accounts, mailboxes, rooms and rules keep their well-formedness over any sequence of
      requests, what is sent or uploaded is what is read, the export is the call log.  Without
      credentials nothing changes, over all routes ([Router.anonymous_changes_nothing]).  The
      exported gauge of a room is its size; with a driver that decodes DECIMAL columns the
      dashboard counts every call once.
    - Flaws: theorems on what the code does where it means something else (busy callers with
      voicemail, CANCEL, torn stream reads, leaked ports, PINs that cannot be typed, ...), and
      interleavings in which handlers that run at the same time break what each of them keeps.

    ** How the code is modelled

    - Text is bytes; widths are kept where they matter ([Int]); clocks are in nanoseconds, SQL
      times in seconds; SQL text comparison is byte equality.
    - A handler runs to its end at one clock value: the theorems on the handlers and on
      [Server.server_step] are about messages and tasks that are handled one at a time.  Where
      interleaving decides, the steps are split: [NoAnswer.Protocol] at the await points of the
      timer, [WebSocket.stream_step] and [Stream.pump_step] at the branches of [select!],
      [Media] and [ConferenceMedia] packet by packet.  What handlers at the same time can break
      is shown on their critical sections: [Server.concurrent_invites_disagree],
      [Server.concurrent_next_and_delete], [Voicemail.concurrent_deletes_panic],
      [Conference.concurrent_invites_overbook], [Auth.concurrent_deletes_lock_out].
    - [w_faults] says which of the coming queries and sends fail; [w_random] are the random
      bytes.  Theorems that name neither hold for all of them.
    - What the driver makes of a column depends on the database: [SqlDecimal] is the decoding of
      sums and averages, [w_json_strings] whether a JSON column can be read into a [String].
    - The calls of the HTTP client and of the gauge of participants are recorded in [World]
      ([w_posts], [w_participants_gauge]) beside the messages sent.
    - A file that was written without an error is there: [write_all] without [flush] could lose
      a late error, which is not modelled.
    - A hash map's iteration order is arbitrary: [HeaderOrder] for headers, [map_to_list]
      elsewhere, and no theorem depends on it.
    - Crates are class parameters with their documented laws: [Digests], [IpNets], [Bcrypt],
      [WebRtc], [WebhookIo], [Jwt], [BcryptHash], [Smtp], [TurnIo], [Csv], [SqlDecimal],
      [Prometheus], [ConfigCrate]; each has an instance for the examples.
    - UDP ports in use are explicit: [taken_ports]; [w_other_ports] holds the sockets of other
      processes and those whose session is gone while their task still runs.
    - Loops that are not structural take fuel: the stream reader the length of the stream
      (each turn takes a byte, [Stream.read_message_fuel]), the port allocators the number of
      pairs the code tries, the recorders the number of packets.

    ** What is not modelled

    JSON and the text format of metrics (the router takes the texts of [/api/metrics] and of
    the API description as parameters), TLS, the HTTP and WebSocket framing, listeners and
    process start-up.  The media tasks are modelled one packet at a time and are not steps of
    [Server.server_step]: they do not touch the state of calls ([Metrics.room_step] adds those of
    conferences).  The test client's time-outs are not modelled: a wait on a queue that stays
    empty fails. *)

From stdpp Require Export base gmap strings list numbers sorting relations.
From Stdlib Require Export ZArith Ascii.

(** ** Text

    A Rust [&str]/[String] is modelled by its bytes.  ["..."] literals of
    [str_scope] elaborate to lists of characters. *)

Abbreviation str := (list ascii).

Declare Scope str_scope.
Delimit Scope str_scope with str.

Inductive str_literal :=
  | lit_nil
  | lit_cons (c : ascii) (l : str_literal).

Fixpoint literal_of_bytes (b : list Byte.byte) : str_literal :=
  match b with
  | nil => lit_nil
  | cons x t => lit_cons (ascii_of_byte x) (literal_of_bytes t)
  end.

Fixpoint bytes_of_literal (l : str_literal) : list Byte.byte :=
  match l with
  | lit_nil => nil
  | lit_cons x t => cons (byte_of_ascii x) (bytes_of_literal t)
  end.

#[warnings="-via-type-mismatch"]
String Notation list literal_of_bytes bytes_of_literal
  (via str_literal mapping [[nil] => lit_nil, [cons] => lit_cons]) : str_scope.

(** ** Results

    [anyhow::Result]: the error is the text the code would log. *)

Inductive result (A : Type) : Type :=
  | Ok (a : A)
  | Err (e : str).
Arguments Ok {A} a.
Arguments Err {A} e.

#[export] Instance result_ret : MRet result := fun A a => Ok a.
#[export] Instance result_bind : MBind result := fun A B f m =>
  match m with Ok a => f a | Err e => Err e end.

Definition is_ok {A} (r : result A) : bool :=
  match r with Ok _ => true | Err _ => false end.

(** [opt.ok_or_else(|| e)] *)
Definition ok_or {A} (o : option A) (e : str) : result A :=
  match o with Some a => Ok a | None => Err e end.

(** [res.ok()] *)
Definition ok_opt {A} (r : result A) : option A :=
  match r with Ok a => Some a | Err _ => None end.

(** Code that can panic: an out-of-range slice, a failed [expect]. *)
Inductive outcome (A : Type) : Type :=
  | Done (a : A)
  | Panic.
Arguments Done {A} a.
Arguments Panic {A}.

Definition done_or {A} (d : A) (o : outcome A) : A :=
  match o with Done a => a | Panic => d end.
Definition is_done {A} (o : outcome A) : bool :=
  match o with Done _ => true | Panic => false end.

Lemma is_done_eq {A} (d : A) o : is_done o = true -> o = Done (done_or d o).
Proof. by destruct o. Qed.

(** ** Third-party digests

    The [md5] and [sha1] crates are parameters: a digest is printed as
    lower-case hexadecimal text of a fixed length. *)

Class Digests := {
  md5_hex : str -> str;
  sha1_hex : str -> str;
}.

Definition is_lower_hex (c : ascii) : bool :=
  bool_decide (c ∈ ("0123456789abcdef"%str : str)).

Class DigestLaws `{Digests} : Prop := {
  md5_hex_length s : length (md5_hex s) = 32;
  md5_hex_chars s : Forall (fun c => is_lower_hex c = true) (md5_hex s);
  sha1_hex_length s : length (sha1_hex s) = 40;
  sha1_hex_chars s : Forall (fun c => is_lower_hex c = true) (sha1_hex s);
}.

(** A concrete instance, for examples: the last characters, made hexadecimal and padded. *)
Definition toy_hex (n : nat) (s : str) : str :=
  take n (map (fun c => if is_lower_hex c then c else "f"%char) (reverse s) ++
          replicate n "0"%char).

Definition toy_digests : Digests := {| md5_hex := toy_hex 32; sha1_hex := toy_hex 40 |}.

Lemma toy_hex_length n s : length (toy_hex n s) = n.
Proof. unfold toy_hex. rewrite length_take, length_app, length_replicate. lia. Qed.

Lemma toy_hex_chars n s : Forall (fun c => is_lower_hex c = true) (toy_hex n s).
Proof.
  unfold toy_hex. apply Forall_take, Forall_app. split; [|by apply Forall_replicate].
  apply Forall_map, Forall_true. intros c. by destruct (is_lower_hex c) eqn:E.
Qed.

Lemma toy_digests_laws : @DigestLaws toy_digests.
Proof. split; intros s; apply toy_hex_length || apply toy_hex_chars. Qed.

(** ** Machine integers

    Integers are [Z]; the operations that can leave a width are written
    with the width's wrap-around or saturation. *)

Module Int.
Open Scope Z_scope.

Definition u8_max : Z := 255.
Definition u16_max : Z := 65535.
Definition u32_max : Z := 4294967295.
Definition u64_max : Z := 18446744073709551615.
Definition i16_min : Z := -32768.
Definition i16_max : Z := 32767.
Definition i32_min : Z := -2147483648.
Definition i32_max : Z := 2147483647.

Definition wrap_u8 (z : Z) : Z := z mod 2 ^ 8.
Definition wrap_u16 (z : Z) : Z := z mod 2 ^ 16.
Definition wrap_u32 (z : Z) : Z := z mod 2 ^ 32.
Definition wrap_i16 (z : Z) : Z := (z + 2 ^ 15) mod 2 ^ 16 - 2 ^ 15.

Definition clamp (lo hi z : Z) : Z := Z.min hi (Z.max lo z).
Definition sat_sub (a b : Z) : Z := Z.max 0 (a - b).

Definition is_u8 (z : Z) : Prop := 0 <= z <= u8_max.
Definition is_u16 (z : Z) : Prop := 0 <= z <= u16_max.
Definition is_u32 (z : Z) : Prop := 0 <= z <= u32_max.
Definition is_i16 (z : Z) : Prop := i16_min <= z <= i16_max.
End Int.

(** ** Automation *)

Create HintDb sip3.

(** Case analysis on every [match] and [if] of the goal, closing what
    simplification closes. *)
Ltac crush_match := repeat (case_match; simplify_eq/=); try done.

(** Prove a decidable closed proposition by computing its decision. *)
Ltac by_decide :=
  match goal with |- ?P => apply (bool_decide_eq_true_1 P); vm_compute; reflexivity end.

(** Resolve every [decide] of the goal whose proposition is closed. *)
Ltac decide_lits :=
  repeat match goal with
  | |- context [@decide ?P ?dec] =>
      first [ rewrite (@decide_True _ P dec) by by_decide
            | rewrite (@decide_False _ P dec) by by_decide ]
  end.

Lemma Some_bind {A B} (x : A) (f : A -> option B) : Some x ≫= f = f x.
Proof. done. Qed.

(** Run the binds of the option monad whose argument is known. *)
Ltac bind_some := rewrite ?Some_bind; cbv beta iota.

(** [lia] with division and remainder by constants. *)
Ltac div_lia := Z.to_euclidean_division_equations; lia.

(** Turn boolean tests of the code into propositions. *)
Ltac bool_simpl :=
  repeat match goal with
  | H : (_ && _)%bool = true |- _ => apply andb_true_iff in H as [? ?]
  | H : (_ || _)%bool = false |- _ => apply orb_false_iff in H as [? ?]
  | H : negb _ = true |- _ => apply negb_true_iff in H
  | H : negb _ = false |- _ => apply negb_false_iff in H
  | H : bool_decide _ = true |- _ => apply bool_decide_eq_true_1 in H
  | H : bool_decide _ = false |- _ => apply bool_decide_eq_false_1 in H
  | H : (_ =? _)%Z = true |- _ => apply Z.eqb_eq in H
  | H : (_ =? _)%Z = false |- _ => apply Z.eqb_neq in H
  | H : (_ <=? _)%Z = true |- _ => apply Z.leb_le in H
  | H : (_ <=? _)%Z = false |- _ => apply Z.leb_gt in H
  | H : (_ <? _)%Z = true |- _ => apply Z.ltb_lt in H
  | H : (_ <? _)%Z = false |- _ => apply Z.ltb_ge in H
  end.

(** ** Lists *)

Section lists.
Context {A : Type}.
Implicit Types (l : list A) (p : A -> bool).

Fixpoint drop_while p l : list A :=
  match l with
  | [] => []
  | x :: l' => if p x then drop_while p l' else l
  end.

(** [Iterator::find]. *)
Fixpoint find_first p l : option A :=
  match l with
  | [] => None
  | x :: l' => if p x then Some x else find_first p l'
  end.

(** [Iterator::find_map]. *)
Fixpoint find_map {B} (f : A -> option B) l : option B :=
  match l with
  | [] => None
  | x :: l' => match f x with Some b => Some b | None => find_map f l' end
  end.

Lemma drop_while_suffix p l : drop_while p l `suffix_of` l.
Proof.
  induction l as [|x l IH]; simpl; [done|].
  case_match; [by apply suffix_cons_r|done].
Qed.

Lemma Forall_drop_while (P : A -> Prop) p l : Forall P l -> Forall P (drop_while p l).
Proof.
  destruct (drop_while_suffix p l) as [k Hk]. intros Hl. rewrite Hk in Hl.
  by apply Forall_app in Hl as [_ ?].
Qed.

Lemma drop_while_hd p l x k : drop_while p l = x :: k -> p x = false.
Proof. induction l as [|y l IH]; simpl; [done|]. case_match; naive_solver. Qed.

Lemma drop_while_id p x l : p x = false -> drop_while p (x :: l) = x :: l.
Proof. simpl. by intros ->. Qed.

Lemma drop_while_all p l : Forall (fun x => p x = true) l -> drop_while p l = [].
Proof. induction 1 as [|x l Hx _ IH]; simpl; [done|]. by rewrite Hx. Qed.

Lemma drop_while_app_all p l k :
  Forall (fun x => p x = true) l -> drop_while p (l ++ k) = drop_while p k.
Proof. induction 1 as [|x l Hx _ IH]; simpl; [done|]. by rewrite Hx. Qed.

Lemma find_first_Some p l x : find_first p l = Some x -> x ∈ l /\ p x = true.
Proof.
  induction l as [|y l IH]; simpl; [done|]. case_match; set_solver.
Qed.

Lemma find_first_None p l : find_first p l = None <-> Forall (fun x => p x = false) l.
Proof.
  induction l as [|y l IH]; simpl; [split; [constructor|done]|].
  rewrite Forall_cons. destruct (p y); naive_solver.
Qed.

Lemma filter_Forall_id (P : A -> Prop) `{!forall x, Decision (P x)} l :
  Forall P l -> filter P l = l.
Proof.
  induction 1 as [|x l Hx _ IH]; [done|]. rewrite filter_cons_True by done. by rewrite IH.
Qed.

Lemma Forall_filter_keep (P Q : A -> Prop) `{!forall x, Decision (Q x)} l :
  Forall P l -> Forall P (filter Q l).
Proof. rewrite !Forall_forall. intros Hl x [_ Hx]%list_elem_of_filter. by apply Hl. Qed.

Lemma filter_ext_elem (P Q : A -> Prop) `{!forall x, Decision (P x), !forall x, Decision (Q x)} l :
  (forall x, x ∈ l -> P x <-> Q x) -> filter P l = filter Q l.
Proof.
  induction l as [|x l IH]; intros HPQ; [done|]. rewrite !filter_cons, IH by set_solver.
  do 2 case_decide; set_solver.
Qed.
End lists.

(** ** Tables: lists of rows with a key *)

Section tables.
Context {A K : Type}.

Lemma elem_of_map (f : A -> K) l k : k ∈ map f l <-> exists x, k = f x /\ x ∈ l.
Proof.
  rewrite list_elem_of_In, in_map_iff. setoid_rewrite list_elem_of_In. naive_solver.
Qed.

Lemma NoDup_map_filter (f : A -> K) (P : A -> Prop) `{!forall x, Decision (P x)} l :
  NoDup (map f l) -> NoDup (map f (filter P l)).
Proof.
  induction l as [|x l IH]; [done|]. cbn [map]. intros [Hx Hl]%NoDup_cons. rewrite filter_cons.
  case_decide; [|by apply IH]. cbn [map]. apply NoDup_cons. split; [|by apply IH].
  intros (y & Hy & Hin)%elem_of_map. apply Hx, elem_of_map. exists y. split; [done|].
  by apply list_elem_of_filter in Hin as [_ ?].
Qed.

Lemma NoDup_map_snoc (f : A -> K) l x :
  NoDup (map f l) -> f x ∉ map f l -> NoDup (map f (l ++ [x])).
Proof.
  intros Hl Hx. rewrite map_app. apply NoDup_app. split_and!; [done| |by apply NoDup_singleton].
  intros k Hk ->%list_elem_of_singleton. done.
Qed.

(** An update that keeps the key. *)
Lemma map_update_key (f : A -> K) (g : A -> A) l : (forall x, f (g x) = f x) -> map f (map g l) = map f l.
Proof. intros Hg. rewrite map_map. by apply map_ext. Qed.

(** An update that finds no row. *)
Lemma map_update_none (p : A -> bool) (g : A -> A) l :
  Forall (fun x => p x = false) l -> map (fun x => if p x then g x else x) l = l.
Proof. induction 1 as [|x l Hx _ IH]; cbn; [done|]. by rewrite Hx, IH. Qed.

(** With a key, a row is found by it. *)
Lemma NoDup_map_inj (f : A -> K) l x y : NoDup (map f l) -> x ∈ l -> y ∈ l -> f x = f y -> x = y.
Proof.
  intros Hn [i Hi]%list_elem_of_lookup [j Hj]%list_elem_of_lookup Hxy.
  assert (i = j) as ->; [|congruence].
  eapply NoDup_lookup; [exact Hn|rewrite list_lookup_fmap, Hi; done|].
  by rewrite list_lookup_fmap, Hj, Hxy.
Qed.
End tables.

(** [AUTO_INCREMENT]: a key above every key of the table. *)
Definition next_id (ids : list Z) : Z := (1 + foldr Z.max 0 ids)%Z.

Lemma next_id_gt ids i : i ∈ ids -> (i < next_id ids)%Z.
Proof.
  unfold next_id. induction ids as [|j ids IH]; [by intros ?%not_elem_of_nil|]. cbn [foldr].
  intros [->|Hi]%elem_of_cons; [lia|]. specialize (IH Hi). lia.
Qed.

Lemma next_id_fresh ids : next_id ids ∉ ids.
Proof. intros Hi%next_id_gt. lia. Qed.

#[export] Hint Resolve Forall_drop_while : sip3.
