(* ===== verification/RustStr.v ===== *)
(** * The part of Rust's [str] API the program uses

    One definition per method of [core::str]/[alloc::string] that the modelled
    code calls, on byte strings, with the lemmas the components share.  The
    Unicode-aware methods ([trim], [to_lowercase], [split_whitespace]) follow
    their ASCII behaviour: a byte above 127 is neither white space nor a cased
    letter, so the model is exact on ASCII text. *)

From S2P Require Import Prelude.

Open Scope str_scope.

Module Str.

(** ** Characters *)

Definition LF : ascii := "010"%char.
Definition CR : ascii := "013"%char.
Definition TAB : ascii := "009"%char.
Definition SP : ascii := " "%char.
Definition NUL : ascii := "000"%char.
Definition BACKSLASH : ascii := "092"%char.
Definition DQUOTE : ascii := "034"%char.
Definition crlf : str := [CR; LF].

Definition code (c : ascii) : Z := Z.of_N (N_of_ascii c).

(** [char::is_whitespace] *)
Definition is_ws (c : ascii) : bool :=
  ((9 <=? code c) && (code c <=? 13) || (code c =? 32))%Z.

(** [char::is_ascii_digit] *)
Definition is_digit (c : ascii) : bool := ((48 <=? code c) && (code c <=? 57))%Z.

Definition to_lower_char (c : ascii) : ascii :=
  if ((65 <=? code c) && (code c <=? 90))%Z
  then ascii_of_N (N_of_ascii c + 32) else c.

Definition to_upper_char (c : ascii) : ascii :=
  if ((97 <=? code c) && (code c <=? 122))%Z
  then ascii_of_N (N_of_ascii c - 32) else c.

(** [to_lowercase], [to_ascii_lowercase] *)
Definition to_lower (s : str) : str := map to_lower_char s.
(** [to_uppercase], [to_ascii_uppercase] *)
Definition to_upper (s : str) : str := map to_upper_char s.

Definition eq_ignore_case (a b : str) : bool :=
  bool_decide (to_lower a = to_lower b).

(** [s.len()]: the length in bytes. *)
Definition len (s : str) : Z := Z.of_nat (length s).

Definition is_empty (s : str) : bool := match s with [] => true | _ => false end.

(** ** Prefixes, suffixes, substrings *)

Fixpoint strip_prefix (p s : str) : option str :=
  match p, s with
  | [], _ => Some s
  | c :: p', d :: s' => if decide (c = d) then strip_prefix p' s' else None
  | _ :: _, [] => None
  end.

Definition starts_with (p s : str) : bool :=
  match strip_prefix p s with Some _ => true | None => false end.

Definition strip_suffix (p s : str) : option str :=
  reverse <$> strip_prefix (reverse p) (reverse s).

Definition ends_with (p s : str) : bool :=
  match strip_suffix p s with Some _ => true | None => false end.

Fixpoint contains (p s : str) : bool :=
  starts_with p s || match s with [] => false | _ :: s' => contains p s' end.

(** [s.find(pat)] for a string pattern: the byte index of the first match. *)
Fixpoint find_str (p s : str) : option nat :=
  if starts_with p s then Some 0
  else match s with [] => None | _ :: s' => S <$> find_str p s' end.

Fixpoint find_char (c : ascii) (s : str) : option nat :=
  match s with
  | [] => None
  | d :: s' => if decide (c = d) then Some 0 else S <$> find_char c s'
  end.

(** [s.trim_start_matches(pat)]: strip the prefix as often as it occurs.  The
    fuel is the length: each round removes at least one byte. *)
Fixpoint trim_start_matches_go (fuel : nat) (p s : str) : str :=
  match fuel with
  | 0 => s
  | S fuel' =>
      match strip_prefix p s with
      | Some s' => trim_start_matches_go fuel' p s'
      | None => s
      end
  end.
Definition trim_start_matches (p s : str) : str :=
  trim_start_matches_go (length s) p s.

(** ** Trimming *)

Definition trim_start (s : str) : str := drop_while is_ws s.
Definition trim_end (s : str) : str := reverse (drop_while is_ws (reverse s)).
Definition trim (s : str) : str := trim_end (trim_start s).

(** [s.trim_matches(c)] *)
Definition trim_matches (c : ascii) (s : str) : str :=
  reverse (drop_while (fun d => bool_decide (d = c))
    (reverse (drop_while (fun d => bool_decide (d = c)) s))).

(** ** Splitting and joining *)

Definition cons_head (c : ascii) (ps : list str) : list str :=
  match ps with [] => [[c]] | p :: ps' => (c :: p) :: ps' end.

(** [s.split(c)]: never empty. *)
Fixpoint split_char (c : ascii) (s : str) : list str :=
  match s with
  | [] => [[]]
  | d :: s' => if decide (d = c) then [] :: split_char c s'
               else cons_head d (split_char c s')
  end.

(** [s.split(pat)] for a string pattern: [skip] bytes of the current match are
    still to be dropped. *)
Fixpoint split_str_go (p : str) (skip : nat) (s : str) : list str :=
  match s with
  | [] => [[]]
  | d :: s' =>
      match skip with
      | S k => split_str_go p k s'
      | 0 => if starts_with p s then [] :: split_str_go p (length p - 1) s'
             else cons_head d (split_str_go p 0 s')
      end
  end.
Definition split_str (p s : str) : list str := split_str_go p 0 s.

Fixpoint split_once (c : ascii) (s : str) : option (str * str) :=
  match s with
  | [] => None
  | d :: s' => if decide (d = c) then Some ([], s')
               else '(a, b) ← split_once c s'; Some (d :: a, b)
  end.

(** [s.splitn(n, c)] *)
Fixpoint splitn (n : nat) (c : ascii) (s : str) : list str :=
  match n with
  | 0 => []
  | 1 => [s]
  | S n' => match split_once c s with
            | Some (a, b) => a :: splitn n' c b
            | None => [s]
            end
  end.

(** [s.split_whitespace()] *)
Fixpoint words_go (cur : str) (s : str) : list str :=
  match s with
  | [] => if is_empty cur then [] else [reverse cur]
  | d :: s' =>
      if is_ws d then (if is_empty cur then [] else [reverse cur]) ++ words_go [] s'
      else words_go (d :: cur) s'
  end.
Definition split_whitespace (s : str) : list str := words_go [] s.

(** [parts.join(sep)] *)
Fixpoint join (sep : str) (ps : list str) : str :=
  match ps with
  | [] => []
  | [p] => p
  | p :: ps' => p ++ sep ++ join sep ps'
  end.

(** [s.lines()]: pieces ended by a line feed lose it and one carriage return
    before it; an unterminated last piece is kept as it is, if not empty. *)
Definition strip_cr (l : str) : str :=
  match strip_suffix [CR] l with Some l' => l' | None => l end.

Fixpoint lines_of_pieces (ps : list str) : list str :=
  match ps with
  | [] => []
  | [last] => if is_empty last then [] else [last]
  | p :: ps' => strip_cr p :: lines_of_pieces ps'
  end.
Definition lines (s : str) : list str := lines_of_pieces (split_char LF s).

(** ** Numbers *)

Open Scope Z_scope.

(** [char::to_digit(radix)] *)
Definition to_digit (radix : Z) (c : ascii) : option Z :=
  let n := code c in
  let d := if (48 <=? n) && (n <=? 57) then n - 48
           else if (97 <=? n) && (n <=? 122) then n - 87
           else if (65 <=? n) && (n <=? 90) then n - 55
           else radix in
  if d <? radix then Some d else None.

Fixpoint parse_digits (radix acc : Z) (s : str) : option Z :=
  match s with
  | [] => Some acc
  | c :: s' => d ← to_digit radix c; parse_digits radix (acc * radix + d) s'
  end.

(** [T::from_str_radix] for an unsigned [T] with maximum [max]: an optional
    plus sign, at least one digit, no overflow. *)
Definition parse_radix (radix max : Z) (s : str) : option Z :=
  let s' := match s with "+"%char :: t => t | _ => s end in
  if is_empty s' then None
  else v ← parse_digits radix 0 s'; if v <=? max then Some v else None.

Definition parse_u8 : str -> option Z := parse_radix 10 Int.u8_max.
Definition parse_u16 : str -> option Z := parse_radix 10 Int.u16_max.
Definition parse_u32 : str -> option Z := parse_radix 10 Int.u32_max.
Definition parse_u64 : str -> option Z := parse_radix 10 Int.u64_max.

Definition digit_char (d : Z) : ascii :=
  ascii_of_N (Z.to_N (if d <? 10 then 48 + d else 87 + d)).

(** Digits of a non-negative number, most significant first. *)
Fixpoint digits_go (fuel : nat) (radix n : Z) (acc : str) : str :=
  match fuel with
  | O => acc
  | S fuel' =>
      let acc' := digit_char (n mod radix) :: acc in
      if n <? radix then acc' else digits_go fuel' radix (n / radix) acc'
  end.
Definition show_radix (radix n : Z) : str :=
  digits_go (S (Z.to_nat (Z.log2 n))) radix n [].

(** [{}] and [{:x}] of an unsigned integer. *)
Definition show_dec : Z -> str := show_radix 10.
Definition show_hex : Z -> str := show_radix 16.
Definition show_int (n : Z) : str :=
  if n <? 0 then "-"%char :: show_dec (- n) else show_dec n.

(** [{:0wx}] *)
Definition pad_left (w : nat) (s : str) : str := replicate (w - length s) "0"%char ++ s.
Definition show_hex_pad (w : nat) (n : Z) : str := pad_left w (show_hex n).

Close Scope Z_scope.

(** ** Facts: characters *)

Lemma to_lower_char_idemp c : to_lower_char (to_lower_char c) = to_lower_char c.
Proof. by destruct c as [[] [] [] [] [] [] [] []]. Qed.

Lemma to_lower_idemp s : to_lower (to_lower s) = to_lower s.
Proof.
  unfold to_lower. rewrite map_map. apply map_ext. apply to_lower_char_idemp.
Qed.

Lemma to_lower_app s t : to_lower (s ++ t) = to_lower s ++ to_lower t.
Proof. apply map_app. Qed.

Lemma is_digit_not_ws c : is_digit c = true -> is_ws c = false.
Proof. by destruct c as [[] [] [] [] [] [] [] []]. Qed.

(** ** Facts: prefixes and substrings *)

Lemma strip_prefix_Some p s r : strip_prefix p s = Some r <-> s = p ++ r.
Proof.
  revert s. induction p as [|c p IH]; intros [|d s]; simpl; [naive_solver..|].
  case_decide as Hc; [subst; rewrite IH; naive_solver|naive_solver].
Qed.

Lemma strip_prefix_app p r : strip_prefix p (p ++ r) = Some r.
Proof. by apply strip_prefix_Some. Qed.

Lemma starts_with_spec p s : starts_with p s = true <-> exists r, s = p ++ r.
Proof.
  unfold starts_with. split.
  - case_match eqn:H; [|done]. intros _. eexists. by apply strip_prefix_Some.
  - intros [r ->]. by rewrite strip_prefix_app.
Qed.

Lemma starts_with_app p r : starts_with p (p ++ r) = true.
Proof. apply starts_with_spec. eauto. Qed.

Lemma strip_suffix_Some p s r : strip_suffix p s = Some r <-> s = r ++ p.
Proof.
  unfold strip_suffix. rewrite fmap_Some. split.
  - intros (x & Hx & ->). apply strip_prefix_Some in Hx.
    apply (f_equal reverse) in Hx. by rewrite reverse_involutive, reverse_app,
      reverse_involutive in Hx.
  - intros ->. exists (reverse r). rewrite reverse_involutive, strip_prefix_Some.
    by rewrite reverse_app.
Qed.

Lemma contains_spec p s : contains p s = true <-> exists a b, s = a ++ p ++ b.
Proof.
  induction s as [|c s IH]; simpl; rewrite orb_true_iff, starts_with_spec.
  - split; [intros [[r ?]|?]; [exists [], r; done|done]|].
    intros (a & b & Hab). left. symmetry in Hab. apply app_nil in Hab as [-> ?]. eauto.
  - rewrite IH. split.
    + intros [[r Hr]|(a & b & ->)]; [by exists [], r|by exists (c :: a), b].
    + intros ([|x a] & b & Hab); simplify_eq/=; [left|right]; eauto.
Qed.

Lemma contains_app_r p a s : contains p s = true -> contains p (a ++ s) = true.
Proof.
  rewrite !contains_spec. intros (x & y & ->). exists (a ++ x), y. by rewrite app_assoc.
Qed.

Lemma contains_app_l p s b : contains p s = true -> contains p (s ++ b) = true.
Proof.
  rewrite !contains_spec. intros (x & y & ->). exists x, (y ++ b). by rewrite <-!app_assoc.
Qed.

Lemma contains_refl p : contains p p = true.
Proof. apply contains_spec. exists [], []. by rewrite app_nil_r. Qed.

(** ** Facts: splitting *)

Lemma split_char_nonempty c s : split_char c s <> [].
Proof. destruct s; simpl; [done|]. case_decide; [done|]. by destruct (split_char c s). Qed.

Lemma split_char_app c l s :
  c ∉ l -> split_char c (l ++ c :: s) = l :: split_char c s.
Proof.
  induction l as [|d l IH]; simpl; intros Hc; [by rewrite decide_True|].
  rewrite decide_False by set_solver. by rewrite IH by set_solver.
Qed.

Lemma split_char_single c l : c ∉ l -> split_char c l = [l].
Proof.
  induction l as [|d l IH]; simpl; intros Hc; [done|].
  rewrite decide_False by set_solver. by rewrite IH by set_solver.
Qed.

Lemma split_char_pieces c s : Forall (fun p => c ∉ p) (split_char c s).
Proof.
  induction s as [|d s IH]; simpl; [repeat constructor; set_solver|].
  case_decide; [constructor; [set_solver|done]|].
  destruct IH; simpl; repeat constructor; set_solver.
Qed.

Lemma join_cons_nonempty sep p ps :
  ps <> [] -> join sep (p :: ps) = p ++ sep ++ join sep ps.
Proof. by destruct ps. Qed.

Lemma join_cons_head sep c ps :
  ps <> [] -> join sep (cons_head c ps) = c :: join sep ps.
Proof. destruct ps as [|p [|q ps]]; done. Qed.

Lemma join_split_char c s : join [c] (split_char c s) = s.
Proof.
  induction s as [|d s IH]; simpl; [done|]. case_decide as Hd.
  - rewrite join_cons_nonempty by apply split_char_nonempty. simpl. by rewrite IH, Hd.
  - rewrite join_cons_head by apply split_char_nonempty. by rewrite IH.
Qed.

Lemma split_char_join c ps :
  ps <> [] -> Forall (fun p => c ∉ p) ps -> split_char c (join [c] ps) = ps.
Proof.
  induction ps as [|p [|q ps] IH]; intros Hne Hps; [done|..].
  - inversion Hps; subst. by apply split_char_single.
  - inversion Hps; subst. rewrite join_cons_nonempty by done. cbn [app].
    rewrite split_char_app by done. by rewrite IH.
Qed.

Lemma split_once_app c a b : c ∉ a -> split_once c (a ++ c :: b) = Some (a, b).
Proof.
  induction a as [|d a IH]; simpl; intros Hc; [by rewrite decide_True|].
  rewrite decide_False by set_solver. by rewrite IH by set_solver.
Qed.

Lemma split_once_Some c s a b :
  split_once c s = Some (a, b) <-> s = a ++ c :: b /\ c ∉ a.
Proof.
  split; [|intros [-> ?]; by apply split_once_app].
  revert a b. induction s as [|d s IH]; intros a b; simpl; [done|].
  case_decide as Hd; [intros; simplify_eq/=; set_solver|].
  destruct (split_once c s) as [[a' b']|]; simpl; [|done]. intros. simplify_eq/=.
  destruct (IH a' b eq_refl) as [-> ?]. set_solver.
Qed.

Lemma split_once_None c s : c ∉ s -> split_once c s = None.
Proof.
  intros Hc. destruct (split_once c s) as [[a b]|] eqn:H; [|done].
  apply split_once_Some in H as [-> _]. set_solver.
Qed.

Lemma split_once_is_None c s : split_once c s = None -> c ∉ s.
Proof.
  induction s as [|d s IH]; simpl; [set_solver|]. case_decide; [done|].
  destruct (split_once c s) as [[]|]; [done|]. set_solver.
Qed.

Lemma find_char_app c a b : c ∉ a -> find_char c (a ++ c :: b) = Some (length a).
Proof.
  induction a as [|d a IH]; simpl; intros Hc; [by rewrite decide_True|].
  rewrite decide_False by set_solver. by rewrite IH by set_solver.
Qed.

Lemma find_char_Some c s n :
  find_char c s = Some n -> s = take n s ++ c :: drop (S n) s /\ c ∉ take n s.
Proof.
  revert n. induction s as [|d s IH]; intros n; simpl; [done|].
  case_decide; [intros; simplify_eq/=; set_solver|].
  destruct (find_char c s) as [m|]; [|done]. intros. simplify_eq/=.
  destruct (IH m eq_refl) as [Hs Hc]. split; [by f_equal|set_solver].
Qed.

Lemma find_char_None c s : c ∉ s -> find_char c s = None.
Proof.
  intros Hc. destruct (find_char c s) eqn:H; [|done].
  apply find_char_Some in H as [H _]. rewrite H in Hc. set_solver.
Qed.

(** ** Facts: lines *)

Lemma strip_cr_app l : strip_cr (l ++ [CR]) = l.
Proof.
  unfold strip_cr. by rewrite (proj2 (strip_suffix_Some [CR] (l ++ [CR]) l)).
Qed.

Lemma strip_cr_elem l c : c ∈ strip_cr l -> c ∈ l.
Proof.
  unfold strip_cr. case_match eqn:H; [|done]. apply strip_suffix_Some in H. set_solver.
Qed.

Lemma lines_of_pieces_cons p ps :
  ps <> [] -> lines_of_pieces (p :: ps) = strip_cr p :: lines_of_pieces ps.
Proof. by destruct ps. Qed.

Lemma lines_lf l s : LF ∉ l -> lines (l ++ LF :: s) = strip_cr l :: lines s.
Proof.
  intros Hl. unfold lines. rewrite split_char_app by done.
  apply lines_of_pieces_cons, split_char_nonempty.
Qed.

Lemma lines_crlf l s : LF ∉ l -> lines (l ++ crlf ++ s) = l :: lines s.
Proof.
  intros Hl. unfold crlf. rewrite (app_assoc l [CR; LF] s).
  replace (l ++ [CR; LF]) with ((l ++ [CR]) ++ [LF]) by by rewrite <-app_assoc.
  rewrite <-app_assoc. cbn [app]. rewrite lines_lf, strip_cr_app; [done|].
  apply not_elem_of_app. split; [done|]. by apply not_elem_of_cons; split; [|set_solver].
Qed.

Lemma lines_nil : lines [] = [].
Proof. done. Qed.

Lemma lines_last l : LF ∉ l -> l <> [] -> lines l = [l].
Proof. intros ? ?. unfold lines. rewrite split_char_single by done. by destruct l. Qed.

Lemma lines_no_lf s : Forall (fun l => LF ∉ l) (lines s).
Proof.
  unfold lines. pose proof (split_char_pieces LF s) as H.
  induction (split_char LF s) as [|p ps IH]; [constructor|].
  inversion H; subst. destruct ps as [|q ps].
  - simpl. destruct (is_empty p); repeat constructor; done.
  - rewrite lines_of_pieces_cons by done. constructor; [|by apply IH].
    intros Hp%strip_cr_elem. done.
Qed.

(** Text made of lines that are all ended by CR LF. *)
Definition terminated (ls : list str) : str := concat (map (fun l => l ++ crlf) ls).

Lemma terminated_cons l ls : terminated (l :: ls) = l ++ crlf ++ terminated ls.
Proof. unfold terminated. simpl. by rewrite <-app_assoc. Qed.

Lemma terminated_app ls ks : terminated (ls ++ ks) = terminated ls ++ terminated ks.
Proof. unfold terminated. by rewrite map_app, concat_app. Qed.

Lemma lines_terminated ls s :
  Forall (fun l => LF ∉ l) ls -> lines (terminated ls ++ s) = ls ++ lines s.
Proof.
  induction 1 as [|l ls Hl _ IH]; [done|].
  rewrite terminated_cons, <-!app_assoc, lines_crlf by done. by rewrite IH.
Qed.

(** ** Facts: trimming *)

Lemma trim_start_Forall (P : ascii -> Prop) s : Forall P s -> Forall P (trim_start s).
Proof. apply Forall_drop_while. Qed.

Lemma trim_Forall (P : ascii -> Prop) s : Forall P s -> Forall P (trim s).
Proof.
  intros. unfold trim, trim_end. apply Forall_reverse, Forall_drop_while, Forall_reverse.
  by apply trim_start_Forall.
Qed.

Lemma trim_elem c s : c ∈ trim s -> c ∈ s.
Proof.
  revert c. apply (Forall_forall (fun c => c ∈ s)). apply trim_Forall.
  by apply Forall_forall.
Qed.

Lemma trim_ws_l w s : Forall (fun c => is_ws c = true) w -> trim (w ++ s) = trim s.
Proof. intros. unfold trim, trim_start. by rewrite drop_while_app_all. Qed.

Lemma trim_end_prefix s : exists w, s = trim_end s ++ w.
Proof.
  unfold trim_end. destruct (drop_while_suffix is_ws (reverse s)) as [k Hk].
  exists (reverse k). rewrite <-reverse_app, <-Hk. by rewrite reverse_involutive.
Qed.

Lemma trim_end_snoc s c : is_ws c = false -> trim_end (s ++ [c]) = s ++ [c].
Proof.
  intros Hc. unfold trim_end. rewrite reverse_snoc, drop_while_id by done.
  by rewrite <-reverse_snoc, reverse_involutive.
Qed.

Lemma trim_end_idemp s : trim_end (trim_end s) = trim_end s.
Proof.
  unfold trim_end. rewrite reverse_involutive.
  destruct (drop_while is_ws (reverse s)) as [|c k] eqn:H; [done|].
  by rewrite drop_while_id by by eapply drop_while_hd.
Qed.

Lemma trim_start_trim s : trim_start (trim s) = trim s.
Proof.
  unfold trim, trim_start. destruct (trim_end_prefix (drop_while is_ws s)) as [w Hw].
  destruct (trim_end (drop_while is_ws s)) as [|c k]; [done|].
  by rewrite drop_while_id by by eapply drop_while_hd.
Qed.

Lemma trim_idemp s : trim (trim s) = trim s.
Proof. unfold trim at 1. rewrite trim_start_trim. unfold trim. apply trim_end_idemp. Qed.

Lemma trim_id c s d :
  is_ws c = false -> is_ws d = false -> trim (c :: s ++ [d]) = c :: s ++ [d].
Proof.
  intros Hc Hd. unfold trim, trim_start. rewrite drop_while_id by done.
  change (c :: s ++ [d]) with ((c :: s) ++ [d]). by apply trim_end_snoc.
Qed.

Lemma trim_app_no_ws c s w :
  is_ws c = false -> Forall (fun c => is_ws c = false) w -> w <> [] ->
  trim (c :: s ++ w) = c :: s ++ w.
Proof.
  intros Hc Hw Hne. destruct w as [|d w _] using rev_ind; [done|].
  apply Forall_app in Hw as [_ Hd]. inversion Hd; subst.
  rewrite app_assoc. by apply trim_id.
Qed.

Lemma trim_no_ws s : Forall (fun c => is_ws c = false) s -> trim s = s.
Proof.
  intros Hs. destruct s as [|c s]; [done|]. inversion Hs; subst.
  destruct s as [|d s _] using rev_ind.
  - unfold trim, trim_start. simpl. rewrite H1. apply (trim_end_snoc []). done.
  - apply Forall_app in H2 as [_ Hd]. inversion Hd; subst. by apply trim_id.
Qed.

(** ** Facts: numbers *)

Open Scope Z_scope.

Lemma to_digit_digit_char radix d :
  0 <= d < radix -> radix <= 16 -> to_digit radix (digit_char d) = Some d.
Proof.
  intros Hd Hr. assert (Hd' : exists n : nat, (n < 16)%nat /\ d = Z.of_nat n).
  { exists (Z.to_nat d). lia. }
  destruct Hd' as (n & Hn & ->). unfold to_digit.
  do 16 (destruct n as [|n]; [
    match goal with |- context [code ?c] =>
      let v := eval vm_compute in (code c) in change (code c) with v end;
    cbv -[Z.ltb]; rewrite (proj2 (Z.ltb_lt _ radix)) by (cbn in Hd; lia); done|]). lia.
Qed.

Lemma digit_char_digit d : 0 <= d < 10 -> is_digit (digit_char d) = true.
Proof.
  intros Hd. assert (Hd' : exists n : nat, (n < 10)%nat /\ d = Z.of_nat n).
  { exists (Z.to_nat d). lia. }
  destruct Hd' as (n & Hn & ->). do 10 (destruct n as [|n]; [done|]). lia.
Qed.

Lemma parse_digits_app radix acc s t :
  parse_digits radix acc (s ++ t) = a ← parse_digits radix acc s; parse_digits radix a t.
Proof.
  revert acc. induction s as [|c s IH]; intros acc; simpl; [done|].
  destruct (to_digit radix c); simpl; [apply IH|done].
Qed.

Lemma parse_digits_go radix fuel n acc :
  2 <= radix <= 16 -> 0 <= n < 2 ^ Z.of_nat fuel ->
  parse_digits radix 0 (digits_go fuel radix n acc) = parse_digits radix n acc.
Proof.
  intros Hr. revert n acc. induction fuel as [|fuel IH]; intros n acc Hn.
  { change (2 ^ Z.of_nat 0) with 1 in Hn. assert (n = 0) as -> by lia. done. }
  cbn [digits_go]. pose proof (Z.div_mod n radix ltac:(lia)).
  pose proof (Z.mod_pos_bound n radix ltac:(lia)).
  destruct (n <? radix) eqn:E; bool_simpl.
  - cbn [parse_digits]. rewrite to_digit_digit_char by lia. simpl.
    f_equal. rewrite Z.mod_small by lia. lia.
  - rewrite IH. 
    + cbn [parse_digits]. rewrite to_digit_digit_char by lia. simpl. f_equal. lia.
    + rewrite Nat2Z.inj_succ, Z.pow_succ_r in Hn by lia. split; [apply Z.div_pos; lia|].
      apply Z.div_lt_upper_bound; [lia|]. nia.
Qed.

Lemma digits_go_nonempty fuel radix n acc : digits_go (S fuel) radix n acc <> [].
Proof.
  revert n acc. induction fuel as [|fuel IH]; intros n acc; simpl; [by case_match|].
  case_match; [done|]. apply IH.
Qed.

Lemma digits_go_Forall (P : ascii -> Prop) fuel radix n acc :
  2 <= radix -> (forall d, 0 <= d < radix -> P (digit_char d)) ->
  Forall P acc -> Forall P (digits_go fuel radix n acc).
Proof.
  intros Hr HP. revert n acc. induction fuel as [|fuel IH]; intros n acc Hacc; [done|].
  cbn [digits_go]. pose proof (Z.mod_pos_bound n radix ltac:(lia)).
  case_match; [|apply IH]; constructor; auto.
Qed.

Lemma show_dec_digits n : Forall (fun c => is_digit c = true) (show_dec n).
Proof. apply digits_go_Forall; [lia|apply digit_char_digit|constructor]. Qed.

Lemma show_dec_nonempty n : show_dec n <> [].
Proof. apply digits_go_nonempty. Qed.

Lemma show_dec_no_ws n : Forall (fun c => is_ws c = false) (show_dec n).
Proof.
  eapply Forall_impl; [apply show_dec_digits|]. intros c. apply is_digit_not_ws.
Qed.

Lemma show_dec_not_elem n c : is_digit c = false -> c ∉ show_dec n.
Proof.
  intros Hc Hin. pose proof (show_dec_digits n) as H. rewrite Forall_forall in H.
  apply H in Hin. congruence.
Qed.

Lemma show_radix_fuel n : 0 <= n -> n < 2 ^ Z.of_nat (S (Z.to_nat (Z.log2 n))).
Proof.
  intros Hn. pose proof (Z.log2_nonneg n).
  rewrite Nat2Z.inj_succ, Z2Nat.id by lia.
  destruct (decide (n = 0)) as [->|]; [done|]. apply Z.log2_spec. lia.
Qed.

(** A number that starts with a digit has no sign to strip. *)
Lemma parse_radix_unsigned radix max s v :
  head s <> Some "+"%char -> s <> [] -> parse_digits radix 0 s = Some v -> v <= max ->
  parse_radix radix max s = Some v.
Proof.
  intros Hh Hs Hv Hmax. unfold parse_radix.
  assert (match s with "+"%char :: t => t | _ => s end = s) as ->.
  { destruct s as [|c s]; [done|]. by destruct c as [[] [] [] [] [] [] [] []]. }
  destruct s as [|c s]; [done|]. cbn [is_empty]. rewrite Hv. simpl.
  by rewrite (proj2 (Z.leb_le v max)) by lia.
Qed.

Lemma head_digit (P : ascii -> Prop) (s : str) :
  Forall P s -> ~ P "+"%char -> head s <> Some "+"%char.
Proof. intros Hs HP. destruct Hs as [|c s Hc]; [done|]. simpl. congruence. Qed.

Lemma to_digit_nonneg radix c d : to_digit radix c = Some d -> 0 <= radix -> 0 <= d.
Proof. unfold to_digit. intros Hd Hr. repeat case_match; simplify_eq; bool_simpl; lia. Qed.

Lemma parse_digits_nonneg radix acc s v :
  0 <= radix -> 0 <= acc -> parse_digits radix acc s = Some v -> 0 <= v.
Proof.
  intros Hr. revert acc. induction s as [|c s IH]; intros acc Ha E; simpl in E; [by simplify_eq|].
  destruct (to_digit radix c) as [d|] eqn:Ed; [|done]. simpl in E.
  apply to_digit_nonneg in Ed; [|done]. eapply IH; [|exact E]. nia.
Qed.

(** A parsed number fits its type. *)
Lemma parse_radix_bounds radix max s v :
  0 <= radix -> parse_radix radix max s = Some v -> 0 <= v <= max.
Proof.
  intros Hr. unfold parse_radix. case_match; [done|].
  match goal with |- parse_digits _ _ ?t ≫= _ = _ -> _ =>
    destruct (parse_digits radix 0 t) as [u|] eqn:E end; [|done].
  simpl. apply parse_digits_nonneg in E; [|lia..]. destruct (u <=? max) eqn:Eu; [|done]. bool_simpl.
  intros [= <-]. lia.
Qed.

Lemma parse_digits_show radix n :
  2 <= radix <= 16 -> 0 <= n -> parse_digits radix 0 (show_radix radix n) = Some n.
Proof.
  intros Hr Hn. unfold show_radix. rewrite parse_digits_go; [done|lia|].
  pose proof (show_radix_fuel n). lia.
Qed.

(** Printing then parsing a number that fits the type gives it back. *)
Lemma parse_show_dec max n : 0 <= n <= max -> parse_radix 10 max (show_dec n) = Some n.
Proof.
  intros Hn. apply parse_radix_unsigned; [|apply show_dec_nonempty| |lia].
  - eapply head_digit; [apply show_dec_digits|done].
  - apply parse_digits_show; lia.
Qed.

Lemma digits_go_length fuel radix n acc k :
  2 <= radix -> 0 <= n < radix ^ Z.of_nat (S k) ->
  (length (digits_go fuel radix n acc) <= S k + length acc)%nat.
Proof.
  intros Hr. revert fuel n acc. induction k as [|k IH]; intros fuel n acc Hn;
    (destruct fuel as [|fuel]; [simpl; lia|]); cbn [digits_go].
  - rewrite (proj2 (Z.ltb_lt n radix)) by (change (Z.of_nat 1) with 1 in Hn; lia). simpl. lia.
  - case_match; [simpl; lia|]. etrans; [apply IH|simpl; lia].
    rewrite (Nat2Z.inj_succ (S k)), Z.pow_succ_r in Hn by lia.
    split; [apply Z.div_pos; lia|]. apply Z.div_lt_upper_bound; lia.
Qed.

Lemma show_hex_pad_length k n :
  0 <= n < 16 ^ Z.of_nat (S k) -> length (show_hex_pad (S k) n) = S k.
Proof.
  intros Hn. unfold show_hex_pad, pad_left. rewrite length_app, length_replicate.
  pose proof (digits_go_length (S (Z.to_nat (Z.log2 n))) 16 n [] k ltac:(lia) Hn) as Hl.
  change (digits_go _ 16 n []) with (show_hex n) in Hl. simpl in Hl. lia.
Qed.

Lemma parse_digits_zeros radix k s :
  0 < radix <= 16 -> parse_digits radix 0 (replicate k "0"%char ++ s) = parse_digits radix 0 s.
Proof.
  intros Hr. induction k as [|k IH]; [done|]. cbn [replicate app parse_digits].
  change "0"%char with (digit_char 0). rewrite to_digit_digit_char by lia.
  rewrite Some_bind. apply IH.
Qed.

Lemma show_hex_pad_head k n : head (show_hex_pad (S k) n) <> Some "+"%char.
Proof.
  apply (head_digit (fun c => c <> "+"%char)); [|by intros []].
  unfold show_hex_pad, pad_left. apply Forall_app. split; [by apply Forall_replicate|].
  apply digits_go_Forall; [lia| |constructor]. intros d Hd Hp.
  pose proof (to_digit_digit_char 16 d Hd ltac:(lia)) as Ht. by rewrite Hp in Ht.
Qed.

(** The same for zero-padded hexadecimal. *)
Lemma parse_show_hex_pad max k n :
  0 <= n < 16 ^ Z.of_nat (S k) -> n <= max ->
  parse_radix 16 max (show_hex_pad (S k) n) = Some n.
Proof.
  intros Hn Hmax. apply parse_radix_unsigned; [apply show_hex_pad_head| | |done].
  - pose proof (show_hex_pad_length k n Hn) as Hl. by destruct (show_hex_pad (S k) n).
  - unfold show_hex_pad, pad_left. rewrite parse_digits_zeros by lia.
    apply parse_digits_show; lia.
Qed.

Close Scope Z_scope.

(** ** [String::from_utf8_lossy] *)

Definition between (lo hi : Z) (c : ascii) : bool := ((lo <=? code c) && (code c <=? hi))%Z.

Definition is_cont (c : ascii) : bool := between 128 191 c.

(** The byte after the first, in a sequence of three or four bytes. *)
Definition second_ok (b c : ascii) : bool :=
  if (code b =? 224)%Z then between 160 191 c
  else if (code b =? 237)%Z then between 128 159 c
  else if (code b =? 240)%Z then between 144 191 c
  else if (code b =? 244)%Z then between 128 143 c
  else is_cont c.

(** How many of the next [n] bytes are continuation bytes, up to the first that is not. *)
Fixpoint conts (n : nat) (s : str) : nat :=
  match n, s with
  | S n', c :: s' => if is_cont c then S (conts n' s') else O
  | _, _ => O
  end.

(** Is the sequence at the start of [b :: s] a character, and how many bytes after [b] belong
    to it? *)
Definition utf8_seq (b : ascii) (s : str) : bool * nat :=
  let extra := if between 194 223 b then 1%nat else if between 224 239 b then 2%nat
               else if between 240 244 b then 3%nat else O in
  if (code b <? 128)%Z then (true, O)
  else match extra, s with
    | O, _ => (false, O)
    | _, [] => (false, O)
    | S n, c :: s' =>
        if second_ok b c then let k := conts n s' in (bool_decide (k = n), S k)
        else (false, O)
    end.

(** U+FFFD *)
Definition replacement : str := ["239"%char; "191"%char; "189"%char].

Fixpoint utf8_lossy (fuel : nat) (s : str) : str :=
  match fuel, s with
  | S fuel', b :: s' =>
      let '(ok, k) := utf8_seq b s' in
      (if ok then b :: take k s' else replacement) ++ utf8_lossy fuel' (drop k s')
  | _, _ => []
  end.

Definition from_utf8_lossy (s : str) : str := utf8_lossy (length s) s.

(** [str::from_utf8(..).is_ok()] *)
Fixpoint utf8_check (fuel : nat) (s : str) : bool :=
  match fuel, s with
  | _, [] => true
  | O, _ => false
  | S fuel', b :: s' => let '(ok, k) := utf8_seq b s' in ok && utf8_check fuel' (drop k s')
  end.

Definition valid_utf8 (s : str) : bool := utf8_check (length s) s.

Lemma valid_utf8_ascii s : Forall (fun c => code c < 128)%Z s -> valid_utf8 s = true.
Proof.
  unfold valid_utf8. induction 1 as [|c s Hc _ IH]; [done|]. cbn [length utf8_check]. unfold utf8_seq.
  replace (code c <? 128)%Z with true by (symmetry; by apply Z.ltb_lt). by rewrite drop_0.
Qed.

(** Valid text is kept as it is. *)
Lemma utf8_lossy_valid fuel s : utf8_check fuel s = true -> utf8_lossy fuel s = s.
Proof.
  revert s. induction fuel as [|fuel IH]; intros [|b s]; [done..|]. cbn [utf8_check utf8_lossy].
  destruct (utf8_seq b s) as [ok k]. intros [-> Hc]%andb_true_iff. rewrite (IH _ Hc).
  cbn [app]. by rewrite take_drop.
Qed.

Lemma from_utf8_lossy_valid s : valid_utf8 s = true -> from_utf8_lossy s = s.
Proof. apply utf8_lossy_valid. Qed.
End Str.

#[export] Hint Resolve Str.trim_Forall Str.trim_start_Forall Str.show_dec_no_ws : sip3.
