(* ===== verification/Message.v ===== *)
(** * SIP messages: [backend/src/sip/message.rs]

    The request/response parser, the header and URI helpers, the parser of
    [Authorization] parameters and the removal of the proxy's own [Via]. *)

From S2P Require Import Prelude RustStr.

Open Scope str_scope.

(** ** The message *)

Definition SIP_ALLOW_METHODS : str :=
  "REGISTER, INVITE, ACK, BYE, CANCEL, OPTIONS, INFO, REFER, NOTIFY, SUBSCRIBE, MESSAGE".

Record SipMessage := {
  method : option str;
  request_uri : option str;
  status_code : option Z;
  headers : gmap str (list str);
  body : str;
  raw : str;
}.

Definition normalize_header_name (name : str) : str :=
  let lower := Str.to_lower (Str.trim name) in
  if decide (lower = "f") then "from"
  else if decide (lower = "t") then "to"
  else if decide (lower = "v") then "via"
  else if decide (lower = "c") then "content-type"
  else if decide (lower = "l") then "content-length"
  else if decide (lower = "i") then "call-id"
  else if decide (lower = "m") then "contact"
  else if decide (lower = "e") then "content-encoding"
  else lower.

(** ** Parsing *)

(** The mutable variables of the header loop. *)
Record ParseState := {
  ps_headers : gmap str (list str);
  ps_in_headers : bool;
  ps_body : list str;
  ps_last_key : option str;
}.

Definition parse_init : ParseState :=
  {| ps_headers := ∅; ps_in_headers := true; ps_body := []; ps_last_key := None |}.

(** [headers.entry(name).or_default().push(value)] *)
Definition push_header (name value : str) (hs : gmap str (list str)) : gmap str (list str) :=
  <[name := default [] (hs !! name) ++ [value]]> hs.

(** [last.push(' '); last.push_str(line.trim())] on the last value of [key]. *)
Definition fold_header (key line : str) (hs : gmap str (list str)) : gmap str (list str) :=
  match hs !! key with
  | Some vals =>
      match last vals with
      | Some v => <[key := removelast vals ++ [v ++ [Str.SP] ++ Str.trim line]]> hs
      | None => hs
      end
  | None => hs
  end.

(** One iteration of [for line in lines]. *)
Definition parse_line (st : ParseState) (line : str) : ParseState :=
  let 'Build_ParseState hs in_hs bl lk := st in
  if in_hs then
    if Str.is_empty line then Build_ParseState hs false bl lk
    else if Str.starts_with [Str.SP] line || Str.starts_with [Str.TAB] line then
      match lk with
      | Some key => Build_ParseState (fold_header key line hs) true bl lk
      | None => st
      end
    else match Str.split_once ":" line with
      | Some (n, v) =>
          let name := normalize_header_name n in
          Build_ParseState (push_header name (Str.trim v) hs) true bl (Some name)
      | None => st
      end
  else Build_ParseState hs false (bl ++ [line]) lk.

Definition parse (raw : str) : result SipMessage :=
  match Str.lines raw with
  | [] => Err "Empty SIP message"
  | first_line :: rest =>
      let parts := Str.splitn 3 Str.SP first_line in
      if length parts <? 2 then Err ("Invalid SIP first line: " ++ first_line)
      else
        let is_response := Str.starts_with "SIP/2.0" first_line in
        let st := foldl parse_line parse_init rest in
        Ok {|
          method := if is_response then None else parts !! 0;
          request_uri := if is_response then None else parts !! 1;
          status_code := if is_response then parts !! 1 ≫= Str.parse_u16 else None;
          headers := ps_headers st;
          body := Str.join Str.crlf (ps_body st);
          raw := raw;
        |}
  end.

(** ** Accessors *)

Definition all_headers_vec (m : SipMessage) (name : str) : list str :=
  default [] (headers m !! normalize_header_name name).

Definition header (m : SipMessage) (name : str) : option str :=
  headers m !! normalize_header_name name ≫= head.

Definition call_id (m : SipMessage) : option str := header m "call-id".
Definition from_header (m : SipMessage) : option str := header m "from".
Definition to_header (m : SipMessage) : option str := header m "to".
Definition contact (m : SipMessage) : option str := header m "contact".
Definition via_headers (m : SipMessage) : list str := all_headers_vec m "via".
Definition cseq (m : SipMessage) : option str := header m "cseq".
Definition expires (m : SipMessage) : option Z := header m "expires" ≫= Str.parse_u32.
Definition user_agent (m : SipMessage) : option str := header m "user-agent".
Definition authorization (m : SipMessage) : option str := header m "authorization".

(** ** URIs *)

Definition extract_uri (addr : str) : option str :=
  let bracketed :=
    start ← Str.find_char "<" addr;
    end_rel ← Str.find_char ">" (drop start addr);
    Some (Str.trim (take (end_rel - 1) (drop (start + 1) addr))) in
  match bracketed with
  | Some uri => Some uri
  | None =>
      let uri := Str.trim (default addr (head (Str.split_char ";" addr))) in
      if Str.starts_with "sip:" uri || Str.starts_with "sips:" uri || Str.starts_with "tel:" uri
      then Some uri else None
  end.

Definition without_scheme (uri : str) : str :=
  Str.trim_start_matches "sips:" (Str.trim_start_matches "sip:" uri).

Definition uri_username (uri : str) : option str :=
  let w := without_scheme uri in
  if decide ("@"%char ∈ w) then head (Str.split_char "@" w) else None.

Definition uri_host (uri : str) : option str :=
  let w := without_scheme uri in
  let part := if decide ("@"%char ∈ w) then default w (Str.split_char "@" w !! 1) else w in
  let host := default part (head (Str.split_char ";" part)) in
  Some (default host (head (Str.split_char "?" host))).

(** ** Authorization parameters *)

Definition is_auth_sep (c : ascii) : bool :=
  bool_decide (c = ","%char) || bool_decide (c = Str.SP) || bool_decide (c = Str.TAB).

(** The scan of a quoted value from the byte after the opening quote: the value
    and what is left, from the closing quote on.  A backslash skips the byte
    after it, so a backslash that ends the text leaves [pos] past the end and
    the slice [rest[val_start..pos]] panics. *)
Fixpoint scan_quoted (s : str) : outcome (str * str) :=
  match s with
  | [] => Done ([], [])
  | c :: s' =>
      if decide (c = Str.DQUOTE) then Done ([], s)
      else if decide (c = Str.BACKSLASH) then
        match s' with
        | [] => Panic
        | d :: s'' =>
            match scan_quoted s'' with
            | Done (v, r) => Done (c :: d :: v, r)
            | Panic => Panic
            end
        end
      else match scan_quoted s' with
        | Done (v, r) => Done (c :: v, r)
        | Panic => Panic
        end
  end.

(** One round of the outer [while pos < len] loop, on the text from [pos] on:
    [None] when the loop ends, the text after the parameter and the parameters
    otherwise. *)
Definition auth_step (s : str) (params : gmap str str)
    : option (outcome (str * gmap str str)) :=
  let s := drop_while is_auth_sep s in
  match Str.split_once "=" s with
  | None => None
  | Some (k, v) =>
      let key := Str.to_lower (Str.trim k) in
      if decide (head v = Some Str.DQUOTE) then
        match scan_quoted (drop 1 v) with
        | Panic => Some Panic
        | Done (val, r) => Some (Done (drop 1 r, <[key := val]> params))
        end
      else
        let val := default v (head (Str.split_char "," v)) in
        Some (Done (drop (length val) v, <[key := Str.trim val]> params))
  end.

(** The loop.  Each round consumes at least the [=] sign, so the length of the
    text is enough fuel ([auth_params_go_fuel]). *)
Fixpoint auth_params_go (fuel : nat) (s : str) (params : gmap str str)
    : outcome (gmap str str) :=
  match fuel with
  | 0 => Done params
  | S fuel' =>
      match auth_step s params with
      | None => Done params
      | Some Panic => Panic
      | Some (Done (s', params')) => auth_params_go fuel' s' params'
      end
  end.

Definition parse_auth_params (hdr : str) : outcome (gmap str str) :=
  match Str.find_char Str.SP hdr with
  | None => Done ∅
  | Some pos =>
      let rest := Str.trim (drop (pos + 1) hdr) in
      auth_params_go (length rest) rest ∅
  end.

Definition quoted (s : str) : str := [Str.DQUOTE] ++ s ++ [Str.DQUOTE].

Definition make_www_authenticate (realm nonce : str) : str :=
  "Digest realm=" ++ quoted realm ++ ", nonce=" ++ quoted nonce ++
  ", algorithm=MD5, qop=" ++ quoted "auth".

(** ** Removing the proxy's Via *)

Definition is_proxy_via (sip_domain line : str) : bool :=
  let lower := Str.to_lower (Str.trim_start line) in
  (Str.starts_with "via:" lower || Str.starts_with "v:" lower)
  && Str.contains sip_domain line.

Fixpoint remove_first (p : str -> bool) (ls : list str) : list str :=
  match ls with
  | [] => []
  | l :: ls' => if p l then ls' else l :: remove_first p ls'
  end.

Definition strip_proxy_via (raw sip_domain : str) : str :=
  Str.join Str.crlf (remove_first (is_proxy_via sip_domain) (Str.split_str Str.crlf raw)).

(** ** Facts: header names *)

Lemma normalize_header_name_trim n :
  normalize_header_name (Str.trim n) = normalize_header_name n.
Proof. unfold normalize_header_name. by rewrite Str.trim_idemp. Qed.

Lemma push_header_lookup n v hs k :
  push_header n v hs !! k =
  if decide (n = k) then Some (default [] (hs !! n) ++ [v]) else hs !! k.
Proof. unfold push_header. by rewrite lookup_insert. Qed.

(** ** Facts: rendering and parsing

    A header field as the program writes it, and the multimap it parses to. *)

Definition header_line (f : str * str) : str := f.1 ++ ": " ++ f.2.

Definition wf_name (n : str) : Prop :=
  ":"%char ∉ n /\ Str.LF ∉ n /\ head n <> Some Str.SP /\ head n <> Some Str.TAB.

Definition wf_field (f : str * str) : Prop := wf_name f.1 /\ Str.LF ∉ f.2.

#[export] Instance wf_name_dec n : Decision (wf_name n).
Proof. unfold wf_name. apply _. Defined.
#[export] Instance wf_field_dec f : Decision (wf_field f).
Proof. unfold wf_field. apply _. Defined.

(** The values the fields give to the normalised name [k], in order. *)
Definition values_for (k : str) (fs : list (str * str)) : list str :=
  map (fun f => Str.trim f.2) (filter (fun f => normalize_header_name f.1 = k) fs).

Definition push_fields (hs : gmap str (list str)) (fs : list (str * str))
    : gmap str (list str) :=
  foldl (fun hs f => push_header (normalize_header_name f.1) (Str.trim f.2) hs) hs fs.

Lemma push_fields_lookup hs fs k :
  push_fields hs fs !! k =
  match values_for k fs with
  | [] => hs !! k
  | vs => Some (default [] (hs !! k) ++ vs)
  end.
Proof.
  revert hs. induction fs as [|f fs IH]; intros hs; [done|].
  unfold push_fields. cbn [foldl]. fold (push_fields (push_header
    (normalize_header_name f.1) (Str.trim f.2) hs) fs). rewrite IH.
  rewrite push_header_lookup. unfold values_for. rewrite filter_cons.
  case_decide as Hk; [|done]. rewrite Hk. cbn [map].
  destruct (map _ _); cbn [default from_option id]; [done|]. by rewrite <-app_assoc.
Qed.

Lemma push_fields_values fs k :
  default [] (push_fields ∅ fs !! k) = values_for k fs.
Proof. rewrite push_fields_lookup, lookup_empty. by destruct (values_for k fs). Qed.

Lemma header_line_no_lf f : wf_field f -> Str.LF ∉ header_line f.
Proof.
  intros [(_ & Hn & _) Hv]. unfold header_line. rewrite !not_elem_of_app. split; [done|].
  split; [|done]. by_decide.
Qed.

Lemma parse_line_field hs bl lk f :
  wf_field f ->
  parse_line (Build_ParseState hs true bl lk) (header_line f) =
  Build_ParseState (push_header (normalize_header_name f.1) (Str.trim f.2) hs) true bl
    (Some (normalize_header_name f.1)).
Proof.
  destruct f as [n v]. intros [(Hc & _ & Hsp & Htab) _]. cbn [fst snd] in *.
  unfold header_line, parse_line. cbn [fst snd].
  assert (Hne : Str.is_empty (n ++ ": " ++ v) = false) by by destruct n.
  assert (forall c, head n <> Some c -> c <> ":"%char ->
    Str.starts_with [c] (n ++ ": " ++ v) = false) as Hst.
  { intros c Hhd Hcol. unfold Str.starts_with. destruct n as [|d n]; cbn.
    - by rewrite decide_False.
    - rewrite decide_False; [done|]. intros ->. by destruct Hhd. }
  rewrite Hne, !Hst by done. cbn [orb].
  change (": " ++ v) with (":"%char :: " " ++ v). rewrite Str.split_once_app by done.
  by rewrite (Str.trim_ws_l " ") by repeat constructor.
Qed.

Lemma parse_fields hs bl lk fs :
  Forall wf_field fs ->
  exists lk', foldl parse_line (Build_ParseState hs true bl lk) (map header_line fs) =
    Build_ParseState (push_fields hs fs) true bl lk'.
Proof.
  intros Hfs. revert hs lk. induction Hfs as [|f fs Hf _ IH]; intros hs lk; [by eexists|].
  cbn [map foldl]. rewrite parse_line_field by done. apply IH.
Qed.

Lemma parse_body hs bl lk ls :
  foldl parse_line (Build_ParseState hs false bl lk) ls =
  Build_ParseState hs false (bl ++ ls) lk.
Proof.
  revert bl. induction ls as [|l ls IH]; intros bl; cbn [foldl]; [by rewrite app_nil_r|].
  cbn [parse_line]. rewrite IH. by rewrite <-app_assoc.
Qed.

(** A whole message as the program renders one. *)
Definition render (first : str) (fs : list (str * str)) (b : str) : str :=
  Str.terminated (first :: map header_line fs ++ [[]]) ++ b.

Lemma parse_render first fs b :
  Str.LF ∉ first -> Str.SP ∈ first -> Forall wf_field fs ->
  let parts := Str.splitn 3 Str.SP first in
  let resp := Str.starts_with "SIP/2.0" first in
  parse (render first fs b) = Ok {|
    method := if resp then None else parts !! 0;
    request_uri := if resp then None else parts !! 1;
    status_code := if resp then parts !! 1 ≫= Str.parse_u16 else None;
    headers := push_fields ∅ fs;
    body := Str.join Str.crlf (Str.lines b);
    raw := render first fs b |}.
Proof.
  intros Hlf Hsp Hfs. cbn zeta. unfold parse. unfold render at 1.
  rewrite Str.lines_terminated.
  - cbn [app]. assert (length (Str.splitn 3 Str.SP first) <? 2 = false) as ->.
    { cbn [Str.splitn].
      destruct (Str.split_once Str.SP first) as [[a c]|] eqn:E;
        [|by apply Str.split_once_is_None in E].
      cbn [length]. by destruct (Str.split_once Str.SP c) as [[]|]. }
    rewrite <-app_assoc, foldl_app. unfold parse_init.
    destruct (parse_fields ∅ [] None fs Hfs) as [lk' ->]. cbn [app foldl].
    change (parse_line _ []) with (Build_ParseState (push_fields ∅ fs) false [] lk').
    by rewrite parse_body.
  - constructor; [done|]. apply Forall_app. split; [|repeat constructor; set_solver].
    apply Forall_map. eapply Forall_impl; [done|]. apply header_line_no_lf.
Qed.

(** ** Facts: what parsing guarantees *)

Definition headers_no_lf (hs : gmap str (list str)) : Prop :=
  map_Forall (fun _ vs => Forall (fun v => Str.LF ∉ v) vs) hs.

Lemma trim_no_lf s : Str.LF ∉ s -> Str.LF ∉ Str.trim s.
Proof. intros Hs Hin. by apply Str.trim_elem in Hin. Qed.

Lemma push_header_no_lf n v hs :
  headers_no_lf hs -> Str.LF ∉ v -> headers_no_lf (push_header n v hs).
Proof.
  intros Hhs Hv k vs. rewrite push_header_lookup. case_decide; [|apply Hhs].
  intros; simplify_eq. apply Forall_app. split; [|by repeat constructor].
  destruct (hs !! k) as [ws|] eqn:E; [by apply (Hhs k)|constructor].
Qed.

Lemma Forall_removelast {A} (P : A -> Prop) (l : list A) : Forall P l -> Forall P (removelast l).
Proof.
  induction 1 as [|x l Hx Hl IH]; [constructor|]. destruct l; [constructor|].
  by constructor.
Qed.

Lemma fold_header_no_lf k l hs :
  headers_no_lf hs -> Str.LF ∉ l -> headers_no_lf (fold_header k l hs).
Proof.
  intros Hhs Hl. unfold fold_header. destruct (hs !! k) as [vs|] eqn:E; [|done].
  destruct (last vs) as [v|] eqn:Hlast; [|done]. pose proof (Hhs _ _ E) as Hvs.
  apply map_Forall_insert_2; [|done]. apply Forall_app. split; [by apply Forall_removelast|].
  repeat constructor. rewrite !not_elem_of_app. split; [|split].
  - rewrite Forall_forall in Hvs. apply Hvs. apply last_Some in Hlast as [? ->]. set_solver.
  - by apply not_elem_of_cons; split; [|set_solver].
  - by apply trim_no_lf.
Qed.

Lemma parse_line_no_lf st l :
  headers_no_lf (ps_headers st) -> Str.LF ∉ l -> headers_no_lf (ps_headers (parse_line st l)).
Proof.
  intros Hst Hl. destruct st as [hs ih bl lk]. unfold parse_line. cbn [ps_headers] in *.
  repeat case_match; subst; cbn [ps_headers]; try done.
  - by apply fold_header_no_lf.
  - apply push_header_no_lf; [done|].
    match goal with H : Str.split_once _ _ = _ |- _ => apply Str.split_once_Some in H as [-> _] end.
    apply trim_no_lf. set_solver.
Qed.

(** Header values of a parsed message contain no line feed: they can be copied
    into another message without injecting a header. *)
Lemma parse_no_lf raw m : parse raw = Ok m -> headers_no_lf (headers m).
Proof.
  unfold parse. pose proof (Str.lines_no_lf raw) as Hls.
  destruct (Str.lines raw) as [|l ls]; [done|]. inversion Hls as [|? ? _ Hrest]; subst.
  case_match; [done|]. intros; simplify_eq/=. clear Hls.
  assert (headers_no_lf (ps_headers parse_init)) as Hinit by apply map_Forall_empty.
  revert Hinit. generalize parse_init. induction Hrest as [|k ks Hk _ IH]; intros st Hst; [done|].
  cbn [foldl]. apply IH. by apply parse_line_no_lf.
Qed.

(** ** Facts: looking up rendered fields *)

Lemma values_for_app k fs gs : values_for k (fs ++ gs) = values_for k fs ++ values_for k gs.
Proof. unfold values_for. by rewrite filter_app, map_app. Qed.

Lemma values_for_const k n vs :
  values_for k (map (fun v => (n, v)) vs) =
  if decide (normalize_header_name n = k) then map Str.trim vs else [].
Proof.
  unfold values_for. induction vs as [|v vs IH]; [by case_decide|].
  cbn [map]. rewrite filter_cons. cbn [fst]. case_decide; cbn [map snd]; by rewrite IH.
Qed.

Lemma values_for_opt k n o :
  values_for k (option_list ((fun v => (n, v)) <$> o)) =
  if decide (normalize_header_name n = k) then map Str.trim (option_list o) else [].
Proof. destruct o as [v|]; [apply (values_for_const k n [v])|by case_decide]. Qed.

Lemma values_for_one k n v :
  values_for k [(n, v)] = if decide (normalize_header_name n = k) then [Str.trim v] else [].
Proof. apply (values_for_const k n [v]). Qed.

Lemma header_values m name : header m name = head (all_headers_vec m name).
Proof.
  unfold header, all_headers_vec. by destruct (headers m !! normalize_header_name name).
Qed.

(** ** Facts: the Via stack *)

Lemma split_str_crlf l s :
  Str.LF ∉ l -> Str.split_str Str.crlf (l ++ Str.crlf ++ s) = l :: Str.split_str Str.crlf s.
Proof.
  unfold Str.split_str. induction l as [|d l IH]; intros Hl; [done|].
  cbn [app Str.split_str_go].
  assert (Str.starts_with Str.crlf (d :: l ++ Str.crlf ++ s) = false) as ->.
  { unfold Str.starts_with. cbn. case_decide; [|done].
    destruct l as [|e l]; [done|]. cbn. rewrite decide_False; [done|]. set_solver. }
  rewrite IH by set_solver. done.
Qed.

Lemma split_str_crlf_terminated ls s :
  Forall (fun l => Str.LF ∉ l) ls ->
  Str.split_str Str.crlf (Str.terminated ls ++ s) = ls ++ Str.split_str Str.crlf s.
Proof.
  induction 1 as [|l ls Hl _ IH]; [done|].
  rewrite Str.terminated_cons, <-!app_assoc, split_str_crlf by done. by rewrite IH.
Qed.

Lemma split_str_go_nonempty p k s : Str.split_str_go p k s <> [].
Proof.
  revert k. induction s as [|d s IH]; intros k; [done|]. cbn.
  destruct k; [|apply IH]. case_match; [done|]. by destruct (Str.split_str_go p 0 s).
Qed.

Lemma join_terminated ls ps :
  ps <> [] -> Str.join Str.crlf (ls ++ ps) = Str.terminated ls ++ Str.join Str.crlf ps.
Proof.
  intros Hps. induction ls as [|l ls IH]; [done|].
  rewrite Str.terminated_cons, <-!app_assoc, <-IH. cbn [app].
  apply Str.join_cons_nonempty. by destruct ls.
Qed.

Lemma join_split_str_crlf s : Str.join Str.crlf (Str.split_str Str.crlf s) = s.
Proof.
  unfold Str.split_str. induction s as [s IH] using (well_founded_induction
    (well_founded_ltof _ (@length ascii))). unfold ltof in IH.
  destruct s as [|d s]; [done|]. cbn [Str.split_str_go].
  destruct (Str.starts_with Str.crlf (d :: s)) eqn:E.
  - apply Str.starts_with_spec in E as [r Hr]. injection Hr as -> ->.
    change (length Str.crlf - 1) with 1. cbn [Str.split_str_go].
    rewrite Str.join_cons_nonempty by apply split_str_go_nonempty. cbn [app].
    rewrite IH by (simpl; lia). done.
  - rewrite Str.join_cons_head by apply split_str_go_nonempty.
    rewrite IH by (simpl; lia). done.
Qed.

Lemma remove_first_skip p ls ks :
  Forall (fun l => p l = false) ls -> remove_first p (ls ++ ks) = ls ++ remove_first p ks.
Proof. induction 1 as [|l ls Hl _ IH]; [done|]. cbn. by rewrite Hl, IH. Qed.

Definition is_via_line (line : str) : bool :=
  let lower := Str.to_lower (Str.trim_start line) in
  Str.starts_with "via:" lower || Str.starts_with "v:" lower.

Lemma is_proxy_via_line dom l : is_proxy_via dom l = is_via_line l && Str.contains dom l.
Proof. done. Qed.

(** Removing the proxy's Via from a message whose topmost Via is the proxy's
    leaves the message as it was before the Via was pushed. *)
Lemma strip_proxy_via_render first pv fs b dom :
  Str.LF ∉ first -> is_via_line first = false -> Str.LF ∉ pv -> Str.contains dom pv = true ->
  Forall wf_field fs ->
  strip_proxy_via (render first (("Via", pv) :: fs) b) dom = render first fs b.
Proof.
  intros Hf Hfv Hpv Hdom Hfs. unfold strip_proxy_via, render.
  assert (Forall (fun l => Str.LF ∉ l) (map header_line fs ++ [[]])) as Hls.
  { apply Forall_app. split; [|repeat constructor; set_solver].
    apply Forall_map. eapply Forall_impl; [done|]. apply header_line_no_lf. }
  rewrite split_str_crlf_terminated.
  - cbn [map app remove_first]. rewrite is_proxy_via_line, Hfv. cbn [andb].
    assert (is_proxy_via dom (header_line ("Via", pv)) = true) as ->.
    { rewrite is_proxy_via_line. apply andb_true_iff. split; [done|].
      unfold header_line. do 2 apply Str.contains_app_r. done. }
    change (first :: ?l) with ([first] ++ l) at 1. rewrite app_assoc.
    rewrite join_terminated by apply split_str_go_nonempty. by rewrite join_split_str_crlf.
  - constructor; [done|]. constructor; [|done]. apply header_line_no_lf.
    split; [by_decide|done].
Qed.

(** ** Facts: Authorization parameters *)

Lemma scan_quoted_app v r :
  Str.DQUOTE ∉ v -> Str.BACKSLASH ∉ v ->
  scan_quoted (v ++ Str.DQUOTE :: r) = Done (v, Str.DQUOTE :: r).
Proof.
  induction v as [|c v IH]; intros Hq Hb; cbn; [done|].
  rewrite !decide_False by set_solver. by rewrite IH by set_solver.
Qed.

Lemma scan_quoted_trailing_backslash v :
  Str.DQUOTE ∉ v -> Str.BACKSLASH ∉ v -> scan_quoted (v ++ [Str.BACKSLASH]) = Panic.
Proof.
  induction v as [|c v IH]; intros Hq Hb; cbn; [done|].
  rewrite !decide_False by set_solver. by rewrite IH by set_solver.
Qed.

Lemma scan_quoted_no_backslash s :
  Str.BACKSLASH ∉ s -> exists v r, scan_quoted s = Done (v, r) /\ s = v ++ r.
Proof.
  induction s as [|c s IH]; intros Hs; cbn; [by exists [], []|].
  case_decide; [by exists [], (c :: s)|]. rewrite decide_False by set_solver.
  destruct IH as (v & r & -> & ->); [set_solver|]. by exists (c :: v), r.
Qed.

(** A quoted value and its rest make up the text; the scan panics only at a backslash that
    ends it. *)
Lemma scan_quoted_spec s :
  match scan_quoted s with
  | Done (v, r) => s = v ++ r
  | Panic => last s = Some Str.BACKSLASH
  end.
Proof.
  induction s as [s IH] using (induction_ltof1 _ (@length ascii)); unfold ltof in IH.
  destruct s as [|c s]; [done|]. cbn. case_decide; [done|]. case_decide; subst.
  - destruct s as [|d s]; [done|]. specialize (IH s ltac:(simpl; lia)).
    destruct (scan_quoted s) as [[v r]|]; [by subst|]. by destruct s.
  - specialize (IH s ltac:(simpl; lia)).
    destruct (scan_quoted s) as [[v r]|]; [by subst|]. by destruct s.
Qed.

Lemma scan_quoted_length s v r : scan_quoted s = Done (v, r) -> length r <= length s.
Proof.
  intros E. pose proof (scan_quoted_spec s) as Hs. rewrite E in Hs. subst. rewrite length_app. lia.
Qed.

(** One round of the loop on a quoted parameter. *)
Lemma auth_step_quoted k v r params :
  "="%char ∉ k -> drop_while is_auth_sep (k ++ "=" ++ quoted v ++ r) = k ++ "=" ++ quoted v ++ r ->
  Str.DQUOTE ∉ v -> Str.BACKSLASH ∉ v ->
  auth_step (k ++ "=" ++ quoted v ++ r) params =
  Some (Done (r, <[Str.to_lower (Str.trim k) := v]> params)).
Proof.
  intros Hk Hsep Hq Hb. unfold auth_step. rewrite Hsep.
  change ("=" ++ ?x) with ("="%char :: x). rewrite Str.split_once_app by done.
  unfold quoted. rewrite <-!app_assoc. cbn [app head]. rewrite decide_True by done.
  change (drop 1 (_ :: ?x)) with x. by rewrite scan_quoted_app.
Qed.

(** One round of the loop on an unquoted parameter followed by another one. *)
Lemma auth_step_plain k v r params :
  "="%char ∉ k -> drop_while is_auth_sep (k ++ "=" ++ v ++ "," ++ r) = k ++ "=" ++ v ++ "," ++ r ->
  ","%char ∉ v -> head v <> Some Str.DQUOTE -> v <> [] ->
  auth_step (k ++ "=" ++ v ++ "," ++ r) params =
  Some (Done ("," ++ r, <[Str.to_lower (Str.trim k) := Str.trim v]> params)).
Proof.
  intros Hk Hsep Hc Hq Hv. unfold auth_step. rewrite Hsep.
  change ("=" ++ ?x) with ("="%char :: x). rewrite Str.split_once_app by done.
  rewrite decide_False by by destruct v.
  change ("," ++ r) with (","%char :: r).
  rewrite Str.split_char_app by done. cbn [head default from_option id].
  by rewrite drop_app_length.
Qed.

(** Separators before a parameter are skipped. *)
Lemma auth_step_sep w s params :
  Forall (fun c => is_auth_sep c = true) w -> auth_step (w ++ s) params = auth_step s params.
Proof. intros Hw. unfold auth_step. by rewrite drop_while_app_all. Qed.

Lemma suffix_no_elem {A} (x : A) l k : l `suffix_of` k -> x ∉ k -> x ∉ l.
Proof. intros [z ->]. set_solver. Qed.

Lemma auth_step_no_backslash s params :
  Str.BACKSLASH ∉ s ->
  match auth_step s params with
  | None => True
  | Some Panic => False
  | Some (Done (s', _)) => Str.BACKSLASH ∉ s'
  end.
Proof.
  intros Hs. unfold auth_step.
  apply (suffix_no_elem _ _ _ (drop_while_suffix is_auth_sep s)) in Hs.
  destruct (Str.split_once "=" _) as [[k v]|] eqn:E; [|done].
  apply Str.split_once_Some in E as [E _]. rewrite E in Hs. clear E s.
  assert (Str.BACKSLASH ∉ v) as Hv by set_solver. case_decide.
  - destruct (scan_quoted_no_backslash (drop 1 v)) as (w & r & -> & Hr).
    + eapply suffix_no_elem; [apply suffix_drop|done].
    + apply (suffix_no_elem _ _ _ (suffix_drop v 1)) in Hv. rewrite Hr in Hv.
      eapply suffix_no_elem; [apply suffix_drop|]. set_solver.
  - by eapply suffix_no_elem; [apply suffix_drop|].
Qed.

Lemma auth_params_go_no_backslash fuel s params :
  Str.BACKSLASH ∉ s -> exists ps, auth_params_go fuel s params = Done ps.
Proof.
  revert s params. induction fuel as [|fuel IH]; intros s params Hs; [by eexists|].
  cbn [auth_params_go]. pose proof (auth_step_no_backslash s params Hs) as Hstep.
  destruct (auth_step s params) as [[[]|]|]; naive_solver.
Qed.

Lemma drop_while_length {A} (p : A -> bool) l : length (drop_while p l) <= length l.
Proof. by apply suffix_length, drop_while_suffix. Qed.

Lemma auth_step_shrinks s params s' params' :
  auth_step s params = Some (Done (s', params')) -> length s' < length s.
Proof.
  unfold auth_step. pose proof (drop_while_length is_auth_sep s) as Hd.
  destruct (Str.split_once "=" _) as [[k v]|] eqn:E; [|done].
  apply Str.split_once_Some in E as [E _]. apply (f_equal length) in E.
  rewrite length_app in E. simpl in E. case_decide.
  - destruct (scan_quoted (drop 1 v)) as [[w r]|] eqn:E2; [|done].
    apply scan_quoted_length in E2. rewrite length_drop in E2. intros. simplify_eq.
    rewrite length_drop. lia.
  - intros. simplify_eq. rewrite length_drop. lia.
Qed.

(** The length of the text is enough fuel: more changes nothing. *)
Lemma auth_params_go_fuel n fuel s params :
  length s <= fuel -> auth_params_go (n + fuel) s params = auth_params_go fuel s params.
Proof.
  revert n s params. induction fuel as [|fuel IH]; intros n s params Hs.
  - destruct s; [|simpl in Hs; lia]. by destruct n.
  - replace (n + S fuel) with (S (n + fuel)) by lia. cbn [auth_params_go].
    destruct (auth_step s params) as [[[s' params']|]|] eqn:E; [|done..].
    apply auth_step_shrinks in E. apply IH. lia.
Qed.

(** The loop as the code has it, with no bound on its rounds: [auth_loop n s ps r] when from
    the text [s] it runs [n] full rounds and then ends with [r]. *)
Inductive auth_loop : nat -> str -> gmap str str -> outcome (gmap str str) -> Prop :=
  | auth_loop_end s params : auth_step s params = None -> auth_loop 0 s params (Done params)
  | auth_loop_panic s params : auth_step s params = Some Panic -> auth_loop 0 s params Panic
  | auth_loop_round n s params s' params' r :
      auth_step s params = Some (Done (s', params')) -> auth_loop n s' params' r ->
      auth_loop (S n) s params r.

Lemma auth_loop_total fuel s params :
  length s <= fuel ->
  exists n, n <= length s /\ auth_loop n s params (auth_params_go fuel s params).
Proof.
  revert s params. induction fuel as [|fuel IH]; intros s params Hs.
  - destruct s; [|simpl in Hs; lia]. exists 0. split; [done|]. by constructor.
  - cbn [auth_params_go]. destruct (auth_step s params) as [[[s' params']|]|] eqn:E.
    + pose proof (auth_step_shrinks _ _ _ _ E). destruct (IH s' params') as (n & Hn & Hl); [lia|].
      exists (S n). split; [lia|]. by econstructor.
    + exists 0. split; [lia|]. by constructor.
    + exists 0. split; [lia|]. by constructor.
Qed.

Lemma auth_loop_functional n s params r m r' :
  auth_loop n s params r -> auth_loop m s params r' -> r' = r.
Proof.
  intros H. revert m r'. induction H as [s ps E|s ps E|n s ps s' ps' r E _ IH]; intros m r' H';
    inversion H' as [? ? E'|? ? E'|m' ? ? t' qs' ? E' Hl]; subst; try congruence.
  rewrite E in E'. injection E' as <- <-. by eapply IH.
Qed.

Lemma suffix_last {A} (l k : list A) x : l `suffix_of` k -> last l = Some x -> last k = Some x.
Proof. intros [z ->] Hl. by rewrite last_app, Hl. Qed.

Lemma auth_step_suffix s params :
  match auth_step s params with
  | None => True
  | Some Panic => last s = Some Str.BACKSLASH
  | Some (Done (s', _)) => s' `suffix_of` s
  end.
Proof.
  unfold auth_step. pose proof (drop_while_suffix is_auth_sep s) as Hd.
  destruct (Str.split_once "=" _) as [[k v]|] eqn:E; [|done].
  apply Str.split_once_Some in E as [E _].
  assert (v `suffix_of` s) as Hv.
  { etrans; [|exact Hd]. rewrite E. exists (k ++ ["="%char]). by rewrite <-app_assoc. }
  case_decide.
  - pose proof (scan_quoted_spec (drop 1 v)) as Hq.
    destruct (scan_quoted (drop 1 v)) as [[w r]|].
    + etrans; [apply suffix_drop|]. etrans; [by exists w|]. etrans; [apply suffix_drop|done].
    + eapply suffix_last; [|exact Hq]. etrans; [apply suffix_drop|done].
  - etrans; [apply suffix_drop|done].
Qed.

Lemma auth_params_go_panic fuel s params :
  auth_params_go fuel s params = Panic -> last s = Some Str.BACKSLASH.
Proof.
  revert s params. induction fuel as [|fuel IH]; intros s params; [done|]. cbn [auth_params_go].
  pose proof (auth_step_suffix s params) as Hs.
  destruct (auth_step s params) as [[[s' params']|]|]; [|done..].
  intros Hp. by eapply suffix_last, IH.
Qed.

(** ** Properties *)

(** C39: reading the parameters of a digest header terminates.  On every header the loop of
    [parse_auth_params], which the code bounds only by its position in the text, ends after no
    more rounds than the text has bytes and has a single outcome, the one the model computes;
    it is a panic only when the text ends in a backslash. *)
Theorem parse_auth_params_terminates hdr pos :
  Str.find_char Str.SP hdr = Some pos ->
  let rest := Str.trim (drop (pos + 1) hdr) in
  (exists n, n <= length rest /\ auth_loop n rest ∅ (parse_auth_params hdr)) /\
  (forall n r, auth_loop n rest ∅ r -> r = parse_auth_params hdr) /\
  (parse_auth_params hdr = Panic -> last rest = Some Str.BACKSLASH).
Proof.
  intros Hpos rest. unfold parse_auth_params. rewrite Hpos.
  destruct (auth_loop_total (length rest) rest ∅) as (n & Hn & Hl); [done|]. split_and!.
  - by exists n.
  - intros m r Hm. by eapply (auth_loop_functional _ _ _ _ _ _ Hl) in Hm as ->.
  - apply auth_params_go_panic.
Qed.

Lemma parse_auth_params_terminates_witness :
  Str.find_char Str.SP "Digest nonce=1, qop=auth" = Some 6 /\
  (forall n r, auth_loop n "nonce=1, qop=auth" ∅ r ->
    r = Done (<["qop" := "auth"]> {["nonce" := "1"]})).
Proof.
  split; [by vm_compute|].
  destruct (parse_auth_params_terminates "Digest nonce=1, qop=auth" 6) as (_ & H & _);
    [by vm_compute|]. intros n r Hl.
  etrans; [apply (H n r); exact Hl|]. by vm_compute.
Defined.

(** [parse_auth_params] never panics on a header value without a backslash. *)
Theorem parse_auth_params_safe hdr :
  Str.BACKSLASH ∉ hdr -> exists ps, parse_auth_params hdr = Done ps.
Proof.
  intros Hb. unfold parse_auth_params. destruct (Str.find_char _ _); [|by eexists].
  apply auth_params_go_no_backslash. intros Hin%Str.trim_elem.
  apply (suffix_no_elem _ _ _ (suffix_drop hdr (n + 1))) in Hb. done.
Qed.

Lemma parse_auth_params_safe_witness :
  exists ps, parse_auth_params "Digest username=alice, nonce=abc" = Done ps.
Proof. apply parse_auth_params_safe. by_decide. Defined.

(** A quoted value that ends in a backslash with no closing quote makes
    [parse_auth_params] slice past the end of the text and panic. *)
Theorem parse_auth_params_panics v :
  Str.DQUOTE ∉ v -> Str.BACKSLASH ∉ v ->
  parse_auth_params ("Digest nonce=" ++ [Str.DQUOTE] ++ v ++ [Str.BACKSLASH]) = Panic.
Proof.
  intros Hq Hb. unfold parse_auth_params.
  change ("Digest nonce=" ++ ?x) with ("Digest" ++ Str.SP :: "nonce=" ++ x).
  rewrite Str.find_char_app by by_decide.
  change (drop (length "Digest" + 1) _) with ("nonce" ++ "=" ++ Str.DQUOTE :: v ++ [Str.BACKSLASH]).
  assert (Str.trim ("nonce" ++ "=" ++ Str.DQUOTE :: v ++ [Str.BACKSLASH]) =
    "nonce" ++ "=" ++ Str.DQUOTE :: v ++ [Str.BACKSLASH]) as ->
    by exact (Str.trim_id "n" ("once=" ++ Str.DQUOTE :: v) Str.BACKSLASH eq_refl eq_refl).
  rewrite <-(auth_params_go_fuel 1) by done. cbn [plus auth_params_go].
  unfold auth_step. change (drop_while is_auth_sep ?s) with s.
  change ("=" ++ ?x) with ("="%char :: x). rewrite Str.split_once_app by by_decide.
  rewrite decide_True by done. change (drop 1 (_ :: ?x)) with x. by rewrite scan_quoted_trailing_backslash.
Qed.

Lemma parse_auth_params_panics_witness :
  parse_auth_params ("Digest nonce=" ++ [Str.DQUOTE] ++ "abc" ++ [Str.BACKSLASH]) = Panic.
Proof. apply parse_auth_params_panics; by_decide. Defined.

(** The challenge written by [make_www_authenticate] parses back to its
    realm, nonce, algorithm and qop. *)
Theorem www_authenticate_roundtrip realm nonce :
  Str.DQUOTE ∉ realm -> Str.BACKSLASH ∉ realm -> Str.DQUOTE ∉ nonce -> Str.BACKSLASH ∉ nonce ->
  parse_auth_params (make_www_authenticate realm nonce) =
  Done (<["qop" := "auth"]> (<["algorithm" := "MD5"]>
        (<["nonce" := nonce]> (<["realm" := realm]> ∅)))).
Proof.
  intros Hr1 Hr2 Hn1 Hn2. unfold parse_auth_params, make_www_authenticate.
  set (tail := ", nonce=" ++ quoted nonce ++ ", algorithm=MD5, qop=" ++ quoted "auth").
  change ("Digest realm=" ++ ?x) with ("Digest" ++ Str.SP :: "realm=" ++ x).
  rewrite Str.find_char_app by by_decide.
  change (drop (length "Digest" + 1) _) with ("realm" ++ "=" ++ quoted realm ++ tail).
  assert (Str.trim ("realm" ++ "=" ++ quoted realm ++ tail) =
    "realm" ++ "=" ++ quoted realm ++ tail) as ->.
  { assert ("realm" ++ "=" ++ quoted realm ++ tail = "r"%char :: (("ealm=" ++ quoted realm ++
      ", nonce=" ++ quoted nonce ++ ", algorithm=MD5, qop=" ++ [Str.DQUOTE] ++ "auth")
      ++ [Str.DQUOTE])) as ->.
    { unfold tail, quoted. rewrite <-!app_assoc. done. }
    by apply Str.trim_id. }
  rewrite <-(auth_params_go_fuel 4) by done.
  change (4 + ?n) with (S (S (S (S n)))). cbn [auth_params_go].
  rewrite auth_step_quoted by (done || by_decide).
  change tail with (", " ++ "nonce" ++ "=" ++ quoted nonce ++
    (", " ++ "algorithm" ++ "=" ++ "MD5" ++ "," ++ (" qop=" ++ quoted "auth"))).
  rewrite auth_step_sep, auth_step_quoted by (done || by_decide || by repeat constructor).
  rewrite auth_step_sep, auth_step_plain by (done || by_decide || by repeat constructor).
  change ("," ++ " qop=" ++ quoted "auth") with (", " ++ "qop" ++ "=" ++ quoted "auth" ++ []).
  rewrite auth_step_sep, auth_step_quoted by (done || by_decide || by repeat constructor).
  by destruct (length _).
Qed.

Lemma www_authenticate_roundtrip_witness :
  parse_auth_params (make_www_authenticate "sip.example.com" "abc123") =
  Done (<["qop" := "auth"]> (<["algorithm" := "MD5"]>
        (<["nonce" := "abc123"]> (<["realm" := "sip.example.com"]> ∅)))).
Proof. apply www_authenticate_roundtrip; by_decide. Defined.
