(* ===== verification/Net.v ===== *)
(** * Addresses: the part of [core::net] the program uses

    [IpAddr] and [SocketAddr] with their [Display] and [FromStr]
    implementations.  The flow label and the scope id of an IPv6 socket address
    are taken to be zero. *)

From S2P Require Import Prelude RustStr.

Open Scope str_scope.

Inductive IpAddr :=
  | V4 (a b c d : Z)
  | V6 (segments : list Z).

Record SocketAddr := { ip : IpAddr; port : Z }.

#[export] Instance IpAddr_eq_dec : EqDecision IpAddr.
Proof. solve_decision. Defined.
#[export] Instance IpAddr_countable : Countable IpAddr.
Proof.
  refine (inj_countable'
    (fun x => match x with V4 a b c d => inl (a, b, c, d) | V6 s => inr s end)
    (fun x => match x with inl (a, b, c, d) => V4 a b c d | inr s => V6 s end) _).
  by intros [].
Defined.
#[export] Instance SocketAddr_eq_dec : EqDecision SocketAddr.
Proof. solve_decision. Defined.
#[export] Instance SocketAddr_countable : Countable SocketAddr.
Proof.
  refine (inj_countable' (fun x => (ip x, port x))
    (fun '(i, p) => {| ip := i; port := p |}) _).
  by intros [].
Defined.

Definition wf_ip (i : IpAddr) : Prop :=
  match i with
  | V4 a b c d => Int.is_u8 a /\ Int.is_u8 b /\ Int.is_u8 c /\ Int.is_u8 d
  | V6 s => length s = 8 /\ Forall Int.is_u16 s
  end.
Definition wf_addr (s : SocketAddr) : Prop := wf_ip (ip s) /\ Int.is_u16 (port s).

Definition is_v4 (i : IpAddr) : bool := match i with V4 _ _ _ _ => true | V6 _ => false end.

(** ** Display *)

Definition show_v4 (a b c d : Z) : str :=
  Str.show_dec a ++ "." ++ Str.show_dec b ++ "." ++ Str.show_dec c ++ "." ++ Str.show_dec d.

(** The first longest run of zero segments: its start and length. *)
Fixpoint zero_runs (i : nat) (cur best : nat * nat) (s : list Z) : nat * nat :=
  match s with
  | [] => best
  | x :: s' =>
      if (x =? 0)%Z then
        let cur := if cur.2 =? 0 then (i, 1) else (cur.1, S cur.2) in
        zero_runs (S i) cur (if best.2 <? cur.2 then cur else best) s'
      else zero_runs (S i) (0, 0) best s'
  end.

Definition show_segments (s : list Z) : str := Str.join ":" (map Str.show_hex s).

(** [to_ipv4_mapped] *)
Definition to_ipv4_mapped (s : list Z) : option IpAddr :=
  match drop 6 s with
  | [g; h] =>
      if decide (take 6 s = [0; 0; 0; 0; 0; 65535]%Z)
      then Some (V4 (Z.shiftr g 8) (Z.land g 255) (Z.shiftr h 8) (Z.land h 255)) else None
  | _ => None
  end.

Definition show_v6 (s : list Z) : str :=
  match to_ipv4_mapped s with
  | Some (V4 a b c d) => "::ffff:" ++ show_v4 a b c d
  | _ =>
      let '(start, n) := zero_runs 0 (0, 0) (0, 0) s in
      if 1 <? n then show_segments (take start s) ++ "::" ++ show_segments (drop (start + n) s)
      else show_segments s
  end.

Definition show_ip (i : IpAddr) : str :=
  match i with V4 a b c d => show_v4 a b c d | V6 s => show_v6 s end.

(** ** Parsing

    [core::net::parser]: a parser consumes a prefix of the text. *)

Definition parser (A : Type) : Type := str -> option (A * str).

Definition read_given_char (c : ascii) : parser unit := fun s =>
  match s with d :: s' => if decide (c = d) then Some (tt, s') else None | [] => None end.

(** The digits at the head of the text, their value and their number. *)
Fixpoint read_digits (radix acc : Z) (n : nat) (s : str) : Z * nat * str :=
  match s with
  | c :: s' =>
      match Str.to_digit radix c with
      | Some d => read_digits radix (acc * radix + d) (S n) s'
      | None => (acc, n, s)
      end
  | [] => (acc, n, s)
  end.

Definition read_number (radix : Z) (max_digits : option nat) (allow_zero_prefix : bool)
    (max : Z) : parser Z := fun s =>
  let '(v, n, r) := read_digits radix 0 0 s in
  let leading_zero := bool_decide (head s = Some "0"%char) in
  if n =? 0 then None
  else if match max_digits with Some m => m <? n | None => false end then None
  else if negb allow_zero_prefix && leading_zero && (1 <? n) then None
  else if (v <=? max)%Z then Some (v, r) else None.

Definition read_sep {A} (c : ascii) (p : parser A) : parser A := fun s =>
  '(_, s') ← read_given_char c s; p s'.

Definition read_octet : parser Z := read_number 10 (Some 3) false Int.u8_max.

Definition read_v4 : parser IpAddr := fun s =>
  '(a, s) ← read_octet s;
  '(b, s) ← read_sep "." read_octet s;
  '(c, s) ← read_sep "." read_octet s;
  '(d, s) ← read_sep "." read_octet s;
  Some (V4 a b c d, s).

Definition read_group : parser Z := read_number 16 (Some 4) true Int.u16_max.

(** [read_groups]: up to [limit] groups from index [i] on, a trailing IPv4
    address counting for two; whether one was read is the flag. *)
Fixpoint read_groups (limit i : nat) (s : str) : list Z * bool * str :=
  match limit with
  | 0 => ([], false, s)
  | S limit' =>
      let sep {A} (p : parser A) : parser A := if i =? 0 then p else read_sep ":" p in
      let v4 := if 0 <? limit' then sep read_v4 s else None in
      match v4 with
      | Some (V4 a b c d, r) => ([Z.lor (Z.shiftl a 8) b; Z.lor (Z.shiftl c 8) d], true, r)
      | _ =>
          match sep read_group s with
          | Some (g, r) =>
              let '(gs, f, r') := read_groups limit' (S i) r in (g :: gs, f, r')
          | None => ([], false, s)
          end
      end
  end.

Definition read_v6 : parser IpAddr := fun s =>
  let '(hd, hd_v4, r) := read_groups 8 0 s in
  if length hd =? 8 then Some (V6 hd, r)
  else if hd_v4 then None
  else
    '(_, r) ← read_given_char ":" r;
    '(_, r) ← read_given_char ":" r;
    let '(tl, _, r) := read_groups (8 - (length hd + 1)) 0 r in
    Some (V6 (hd ++ replicate (8 - length hd - length tl) 0%Z ++ tl), r).

Definition read_port : parser Z := read_sep ":" (read_number 10 None true Int.u16_max).

Definition read_socket_v4 : parser SocketAddr := fun s =>
  '(i, s) ← read_v4 s; '(p, s) ← read_port s; Some ({| ip := i; port := p |}, s).

Definition read_socket_v6 : parser SocketAddr := fun s =>
  '(_, s) ← read_given_char "[" s;
  '(i, s) ← read_v6 s;
  '(_, s) ← read_given_char "]" s;
  '(p, s) ← read_port s;
  Some ({| ip := i; port := p |}, s).

(** [parse_with]: the parser must consume the whole text. *)
Definition parse_with {A} (p : parser A) (s : str) : option A :=
  match p s with Some (a, []) => Some a | _ => None end.

Definition por {A} (p q : parser A) : parser A := fun s =>
  match p s with Some x => Some x | None => q s end.

Definition parse_ip : str -> option IpAddr := parse_with (por read_v4 read_v6).
Definition parse_addr : str -> option SocketAddr :=
  parse_with (por read_socket_v4 read_socket_v6).

(** [format!("{}:{}", ip, port).parse::<SocketAddr>()] *)
Definition addr_text (ip_text : str) (p : Z) : str := ip_text ++ ":" ++ Str.show_dec p.

Example show_v6_loopback : show_ip (V6 [0;0;0;0;0;0;0;1]%Z) = "::1".
Proof. reflexivity. Qed.
Example parse_v6_doc : parse_ip "2001:db8::1" = Some (V6 [8193;3512;0;0;0;0;0;1]%Z).
Proof. reflexivity. Qed.
Example parse_v6_mapped : parse_ip "::ffff:1.2.3.4" = Some (V6 [0;0;0;0;0;65535;258;772]%Z).
Proof. reflexivity. Qed.
Example parse_addr_v6_ex :
  parse_addr "[::1]:5060" = Some {| ip := V6 [0;0;0;0;0;0;0;1]%Z; port := 5060 |}.
Proof. reflexivity. Qed.

(** ** Facts: reading back what is printed *)

(** What follows a number: nothing, or a character that is not a digit. *)
Definition stops (radix : Z) (r : str) : Prop :=
  match r with [] => True | c :: _ => Str.to_digit radix c = None end.

Lemma read_digits_app radix acc n s r v :
  Str.parse_digits radix acc s = Some v -> stops radix r ->
  read_digits radix acc n (s ++ r) = (v, n + length s, r).
Proof.
  revert acc n. induction s as [|c s IH]; intros acc n Hs Hr; cbn in Hs |- *.
  - simplify_eq/=. rewrite Nat.add_0_r. destruct r as [|c r]; [done|]. cbn in Hr |- *.
    by rewrite Hr.
  - destruct (Str.to_digit radix c); cbn in Hs; [|done]. rewrite (IH _ _ Hs Hr).
    by rewrite Nat.add_succ_r.
Qed.

Lemma parse_digits_show_dec n : (0 <= n)%Z -> Str.parse_digits 10 0 (Str.show_dec n) = Some n.
Proof.
  intros Hn. unfold Str.show_dec, Str.show_radix.
  rewrite Str.parse_digits_go; [done|lia|pose proof (Str.show_radix_fuel n); lia].
Qed.

(** The octets print as at most three digits without a leading zero. *)
Lemma show_octet_shape a :
  Int.is_u8 a ->
  length (Str.show_dec a) <= 3 /\
  (head (Str.show_dec a) = Some "0"%char -> length (Str.show_dec a) <= 1).
Proof.
  intros Ha.
  assert (forallb (fun a => (length (Str.show_dec a) <=? 3) &&
    (negb (bool_decide (head (Str.show_dec a) = Some "0"%char)) ||
     (length (Str.show_dec a) <=? 1))) (seqZ 0 256) = true) as H by (vm_compute; reflexivity).
  rewrite forallb_forall in H. specialize (H a).
  rewrite <-list_elem_of_In, elem_of_seqZ in H.
  destruct (andb_prop _ _ (H ltac:(unfold Int.is_u8, Int.u8_max in Ha; lia))) as [H1 H2].
  split; [by apply Nat.leb_le|]. intros Hh. rewrite bool_decide_eq_true_2 in H2 by done.
  by apply Nat.leb_le.
Qed.

Lemma head_app_nonempty {A} (s r : list A) : s <> [] -> head (s ++ r) = head s.
Proof. by destruct s. Qed.

Lemma read_octet_show a r :
  Int.is_u8 a -> stops 10 r -> read_octet (Str.show_dec a ++ r) = Some (a, r).
Proof.
  intros Ha Hr. unfold read_octet, read_number.
  rewrite (read_digits_app 10 0 0 _ r a);
    [|apply parse_digits_show_dec; apply Ha|done].
  pose proof (Str.show_dec_nonempty a) as Hne. pose proof (show_octet_shape a Ha) as [H3 H1].
  rewrite head_app_nonempty by done. cbn [plus].
  destruct (length (Str.show_dec a)) as [|k] eqn:El; [by apply nil_length_inv in El|].
  rewrite (proj2 (Nat.eqb_neq (S k) 0)) by done.
  rewrite (proj2 (Nat.ltb_ge 3 (S k))) by done. cbn [negb andb].
  case_bool_decide as Hz.
  - rewrite (proj2 (Nat.ltb_ge 1 (S k))) by (by apply H1). cbn [andb].
    by rewrite (proj2 (Z.leb_le a Int.u8_max)) by apply Ha.
  - by rewrite (proj2 (Z.leb_le a Int.u8_max)) by apply Ha.
Qed.

Lemma read_sep_show {A} (p : parser A) (c : ascii) s : read_sep c p (c :: s) = p s.
Proof. unfold read_sep, read_given_char. by rewrite decide_True. Qed.

Lemma read_v4_show a b c d r :
  wf_ip (V4 a b c d) -> stops 10 r -> read_v4 (show_v4 a b c d ++ r) = Some (V4 a b c d, r).
Proof.
  intros (Ha & Hb & Hc & Hd) Hr. unfold read_v4, show_v4. rewrite <-!app_assoc.
  do 3 (rewrite read_octet_show by done; bind_some; cbn [app]; rewrite read_sep_show).
  by rewrite read_octet_show.
Qed.

Lemma read_port_show p :
  Int.is_u16 p -> read_port (":" ++ Str.show_dec p) = Some (p, []).
Proof.
  intros Hp. unfold read_port. cbn [app]. rewrite read_sep_show. unfold read_number.
  rewrite <-(app_nil_r (Str.show_dec p)).
  rewrite (read_digits_app 10 0 0 _ [] p);
    [|apply parse_digits_show_dec; apply Hp|done].
  pose proof (Str.show_dec_nonempty p) as Hne.
  destruct (length (Str.show_dec p)) as [|k] eqn:El; [by apply nil_length_inv in El|].
  cbn [plus Nat.eqb negb andb]. by rewrite (proj2 (Z.leb_le p Int.u16_max)) by apply Hp.
Qed.

Lemma parse_ip_show_v4 a b c d :
  wf_ip (V4 a b c d) -> parse_ip (show_ip (V4 a b c d)) = Some (V4 a b c d).
Proof.
  intros H. unfold parse_ip, parse_with, por, show_ip.
  rewrite <-(app_nil_r (show_v4 _ _ _ _)). by rewrite read_v4_show.
Qed.

(** An IPv4 source address printed with its port is read back. *)
Lemma parse_addr_v4 a b c d p :
  wf_ip (V4 a b c d) -> Int.is_u16 p ->
  parse_addr (addr_text (show_ip (V4 a b c d)) p) = Some {| ip := V4 a b c d; port := p |}.
Proof.
  intros H Hp. unfold parse_addr, parse_with, por, addr_text, show_ip, read_socket_v4.
  rewrite read_v4_show by done. bind_some. by rewrite read_port_show.
Qed.

(** ** Facts: an IPv6 address printed without brackets is not a socket address *)

Lemma read_number_suffix radix md z max s v r :
  read_number radix md z max s = Some (v, r) -> r `suffix_of` s.
Proof.
  unfold read_number.
  assert (forall acc n, (read_digits radix acc n s).2 `suffix_of` s) as Hd.
  { induction s as [|c s IH]; intros acc n; cbn; [done|].
    case_match; [apply suffix_cons_r, IH|done]. }
  specialize (Hd 0%Z 0). destruct (read_digits _ _ _ _) as [[? ?] r'].
  intros. crush_match.
Qed.

Lemma read_v4_needs_dot s x : read_v4 s = Some x -> "."%char ∈ s.
Proof.
  unfold read_v4. destruct (read_octet s) as [[a s1]|] eqn:E; [|done].
  apply read_number_suffix in E as [k ->]. cbn. intros H. apply elem_of_app. right.
  destruct s1 as [|c s1]; [done|]. unfold read_sep, read_given_char in H. cbn in H.
  case_decide; [subst; set_solver|done].
Qed.

Lemma parse_addr_none s :
  "."%char ∉ s -> head s <> Some "["%char -> parse_addr s = None.
Proof.
  intros Hd Hb. unfold parse_addr, parse_with, por, read_socket_v4.
  destruct (read_v4 s) as [x|] eqn:E; [by apply read_v4_needs_dot in E|]. cbn.
  unfold read_socket_v6, read_given_char. destruct s as [|c s]; [done|].
  case_decide; [by subst|done].
Qed.

Definition is_hex_char (c : ascii) : bool :=
  match Str.to_digit 16 c with Some _ => true | None => false end.

Lemma show_hex_chars n : Forall (fun c => is_hex_char c = true) (Str.show_hex n).
Proof.
  apply Str.digits_go_Forall; [lia| |constructor]. intros d Hd. unfold is_hex_char.
  by rewrite Str.to_digit_digit_char.
Qed.

Definition is_v6_char (c : ascii) : bool := is_hex_char c || bool_decide (c = ":"%char).

Lemma show_segments_chars s : Forall (fun c => is_v6_char c = true) (show_segments s).
Proof.
  unfold show_segments. induction s as [|x [|y s] IH]; [constructor|..].
  - eapply Forall_impl; [apply show_hex_chars|]. intros c Hc. unfold is_v6_char. by rewrite Hc.
  - cbn [map]. rewrite Str.join_cons_nonempty by done. apply Forall_app. split.
    + eapply Forall_impl; [apply show_hex_chars|]. intros c Hc. unfold is_v6_char.
      by rewrite Hc.
    + by constructor.
Qed.

Lemma no_char c s :
  is_v6_char c = false -> Forall (fun c => is_v6_char c = true) s -> c ∉ s.
Proof. intros Hc Hs Hin. rewrite Forall_forall in Hs. apply Hs in Hin. congruence. Qed.

Lemma show_v6_general s :
  "."%char ∉ show_v6 s /\ "["%char ∉ show_v6 s \/ exists t, show_v6 s = "::ffff:" ++ t.
Proof.
  assert (forall z : nat * nat, let '(start, n) := z in
    Forall (fun c => is_v6_char c = true)
      (if 1 <? n then show_segments (take start s) ++ "::" ++ show_segments (drop (start + n) s)
       else show_segments s)) as Hgen.
  { intros [start n]. case_match; [|apply show_segments_chars].
    apply Forall_app; split; [apply show_segments_chars|].
    repeat constructor. apply show_segments_chars. }
  specialize (Hgen (zero_runs 0 (0, 0) (0, 0) s)).
  assert (show_v6 s = (let '(start, n) := zero_runs 0 (0, 0) (0, 0) s in
      if 1 <? n then show_segments (take start s) ++ "::" ++ show_segments (drop (start + n) s)
      else show_segments s) \/ exists t, show_v6 s = "::ffff:" ++ t) as [->|?]; [|left|by right].
  - unfold show_v6. destruct (to_ipv4_mapped s) as [[]|]; [right; by eexists|by left..].
  - destruct (zero_runs _ _ _ _). by split; apply no_char.
Qed.

Lemma parse_addr_v6 s p : parse_addr (addr_text (show_ip (V6 s)) p) = None.
Proof.
  unfold addr_text, show_ip. destruct (show_v6_general s) as [[Hd Hb]|[t ->]].
  - apply parse_addr_none.
    + rewrite !not_elem_of_app. split; [done|]. split; [by_decide|].
      by apply Str.show_dec_not_elem.
    + destruct (show_v6 s) as [|c k]; [done|]. cbn. set_solver.
  - unfold parse_addr, parse_with, por, read_socket_v4. rewrite <-!app_assoc.
    assert (forall r, read_v4 ("::ffff:" ++ r) = None) as -> by done. done.
Qed.
