(* ===== verification/Response.v ===== *)
(** * Responses: [backend/src/sip/response.rs]

    The response builder, the response skeleton copied from a request, and the
    proof that what is built parses back. *)

From S2P Require Import Prelude RustStr Message.

Open Scope str_scope.

(** ** The builder *)

Record SipResponseBuilder := {
  rb_status_code : Z;
  rb_reason : str;
  rb_headers : list (str * str);
  rb_body : str;
}.

Definition builder_new (status_code : Z) (reason : str) : SipResponseBuilder :=
  {| rb_status_code := status_code; rb_reason := reason; rb_headers := []; rb_body := [] |}.

Definition builder_header (b : SipResponseBuilder) (name value : str) : SipResponseBuilder :=
  {| rb_status_code := rb_status_code b; rb_reason := rb_reason b;
     rb_headers := rb_headers b ++ [(name, value)]; rb_body := rb_body b |}.

Definition builder_body (b : SipResponseBuilder) (bd : str) : SipResponseBuilder :=
  {| rb_status_code := rb_status_code b; rb_reason := rb_reason b;
     rb_headers := rb_headers b; rb_body := bd |}.

Definition build (b : SipResponseBuilder) : str :=
  "SIP/2.0 " ++ Str.show_dec (rb_status_code b) ++ " " ++ rb_reason b ++ Str.crlf ++
  concat (map (fun '(name, value) => name ++ ": " ++ value ++ Str.crlf) (rb_headers b)) ++
  "Content-Length: " ++ Str.show_dec (Str.len (rb_body b)) ++ Str.crlf ++
  Str.crlf ++ rb_body b.

(** [if let Some(v) = value { builder = builder.header(name, v) }] *)
Definition builder_header_opt (b : SipResponseBuilder) (name : str) (value : option str)
    : SipResponseBuilder :=
  match value with Some v => builder_header b name v | None => b end.

Definition base_response (req : SipMessage) (status_code : Z) (reason : str)
    : SipResponseBuilder :=
  let builder := builder_new status_code reason in
  let builder := foldl (fun b via => builder_header b "Via" via) builder (via_headers req) in
  let builder := builder_header_opt builder "From" (from_header req) in
  let builder := builder_header_opt builder "To" (to_header req) in
  let builder := builder_header_opt builder "Call-ID" (call_id req) in
  let builder := builder_header_opt builder "CSeq" (cseq req) in
  builder_header builder "Server" "SIP3/0.1.0".

Definition finalize_response (msg : SipMessage) (response : result str) (mth : str)
    : result (option str) :=
  match response with
  | Ok resp => Ok (Some resp)
  | Err _ => Ok (Some (build (base_response msg 500 "Internal Server Error")))
  end.

(** ** What a builder renders *)

Definition status_line (b : SipResponseBuilder) : str :=
  "SIP/2.0 " ++ Str.show_dec (rb_status_code b) ++ " " ++ rb_reason b.

Definition builder_fields (b : SipResponseBuilder) : list (str * str) :=
  rb_headers b ++ [("Content-Length", Str.show_dec (Str.len (rb_body b)))].

Lemma build_render b : build b = render (status_line b) (builder_fields b) (rb_body b).
Proof.
  unfold build, render, builder_fields. rewrite Str.terminated_cons.
  rewrite Str.terminated_app, map_app, Str.terminated_app. unfold status_line.
  rewrite <-!app_assoc. do 5 f_equal.
  assert (forall hs, concat (map (fun '(n, v) => n ++ ": " ++ v ++ Str.crlf) hs) =
    Str.terminated (map header_line hs)) as ->.
  { induction hs as [|[n v] hs IH]; [done|]. cbn [map concat]. rewrite IH.
    rewrite Str.terminated_cons. unfold header_line. cbn [fst snd]. by rewrite <-!app_assoc. }
  f_equal. unfold Str.terminated, header_line. cbn [map concat fst snd].
  by rewrite <-!app_assoc.
Qed.

(** A builder that can be parsed back: a [u16] status and single-line fields. *)
Definition wf_builder (b : SipResponseBuilder) : Prop :=
  Int.is_u16 (rb_status_code b) /\ Str.LF ∉ rb_reason b /\ Forall wf_field (rb_headers b).

Lemma builder_fields_wf b : wf_builder b -> Forall wf_field (builder_fields b).
Proof.
  intros (_ & _ & Hhs). apply Forall_app. split; [done|]. repeat constructor; cbn [fst snd].
  all: try by_decide.
  by apply Str.show_dec_not_elem.
Qed.

Lemma status_line_parts b :
  Str.splitn 3 Str.SP (status_line b) = ["SIP/2.0"; Str.show_dec (rb_status_code b); rb_reason b].
Proof.
  unfold status_line. cbn [Str.splitn].
  change ("SIP/2.0 " ++ ?s) with ("SIP/2.0" ++ Str.SP :: s).
  rewrite Str.split_once_app by by_decide.
  change (" " ++ ?s) with (Str.SP :: s).
  rewrite Str.split_once_app by by apply Str.show_dec_not_elem. done.
Qed.

Lemma build_parses b :
  wf_builder b ->
  parse (build b) = Ok {|
    method := None; request_uri := None;
    status_code := Some (rb_status_code b);
    headers := push_fields ∅ (builder_fields b);
    body := Str.join Str.crlf (Str.lines (rb_body b));
    raw := build b |}.
Proof.
  intros Hb. rewrite build_render, parse_render.
  - rewrite status_line_parts. destruct Hb as [Hc _].
    assert (Str.starts_with "SIP/2.0" (status_line b) = true) as -> by done.
    assert (["SIP/2.0"; Str.show_dec (rb_status_code b); rb_reason b] !! 1 ≫= Str.parse_u16
      = Some (rb_status_code b)) as -> by exact (Str.parse_show_dec _ _ Hc).
    done.
  - destruct Hb as (_ & Hr & _). unfold status_line. rewrite !not_elem_of_app.
    repeat split; [by_decide|by apply Str.show_dec_not_elem|
      by_decide|done].
  - unfold status_line. apply elem_of_app. left. by_decide.
  - by apply builder_fields_wf.
Qed.

(** ** The skeleton copied from the request *)

Definition base_fields (req : SipMessage) : list (str * str) :=
  map (fun v => ("Via", v)) (via_headers req) ++
  option_list ((fun v => ("From", v)) <$> from_header req) ++
  option_list ((fun v => ("To", v)) <$> to_header req) ++
  option_list ((fun v => ("Call-ID", v)) <$> call_id req) ++
  option_list ((fun v => ("CSeq", v)) <$> cseq req) ++
  [("Server", "SIP3/0.1.0")].

Lemma builder_header_opt_headers b n v :
  rb_headers (builder_header_opt b n v) = rb_headers b ++ option_list ((fun v => (n, v)) <$> v).
Proof. destruct v; [done|]. cbn. by rewrite app_nil_r. Qed.

Lemma builder_via_fold b vs :
  foldl (fun b via => builder_header b "Via" via) b vs =
  {| rb_status_code := rb_status_code b; rb_reason := rb_reason b;
     rb_headers := rb_headers b ++ map (fun v => ("Via", v)) vs; rb_body := rb_body b |}.
Proof.
  revert b. induction vs as [|v vs IH]; intros b; cbn [foldl map].
  - rewrite app_nil_r. by destruct b.
  - rewrite IH. unfold builder_header. cbn. by rewrite <-app_assoc.
Qed.

Lemma builder_header_opt_same b n v :
  rb_status_code (builder_header_opt b n v) = rb_status_code b /\
  rb_reason (builder_header_opt b n v) = rb_reason b /\
  rb_body (builder_header_opt b n v) = rb_body b.
Proof. by destruct v. Qed.

Lemma base_response_eq req code reason :
  base_response req code reason =
  {| rb_status_code := code; rb_reason := reason;
     rb_headers := base_fields req; rb_body := [] |}.
Proof.
  unfold base_response. rewrite builder_via_fold. unfold builder_header.
  repeat match goal with |- context [rb_status_code (builder_header_opt ?b ?n ?v)] =>
    destruct (builder_header_opt_same b n v) as (-> & -> & ->) end.
  cbn [rb_status_code rb_reason rb_body builder_new]. f_equal.
  rewrite !builder_header_opt_headers. cbn [rb_headers builder_new]. unfold base_fields.
  by rewrite <-!app_assoc.
Qed.

(** A response whose fields are well formed whenever the request was parsed. *)
Lemma all_headers_vec_no_lf m n :
  headers_no_lf (headers m) -> Forall (fun v => Str.LF ∉ v) (all_headers_vec m n).
Proof.
  intros Hm. unfold all_headers_vec. destruct (headers m !! _) eqn:E; [|constructor].
  by apply (Hm _ _ E).
Qed.

Lemma header_no_lf m n v : headers_no_lf (headers m) -> header m n = Some v -> Str.LF ∉ v.
Proof.
  intros Hm. rewrite header_values. pose proof (all_headers_vec_no_lf m n Hm) as Hall.
  destruct (all_headers_vec m n); [done|]. inversion Hall; subst. intros; by simplify_eq/=.
Qed.

Lemma wf_field_const n vs :
  wf_name n -> Forall (fun v => Str.LF ∉ v) vs -> Forall wf_field (map (fun v => (n, v)) vs).
Proof.
  intros Hn Hvs. apply Forall_map. eapply Forall_impl; [done|]. by intros v Hv.
Qed.

Lemma wf_field_opt m n name :
  wf_name n -> headers_no_lf (headers m) ->
  Forall wf_field (option_list ((fun v => (n, v)) <$> header m name)).
Proof.
  intros Hn Hm. destruct (header m name) as [v|] eqn:E; [|constructor].
  repeat constructor; [apply Hn..|]. by eapply header_no_lf.
Qed.

Lemma base_fields_wf req : headers_no_lf (headers req) -> Forall wf_field (base_fields req).
Proof.
  intros Hreq. unfold base_fields. repeat (apply Forall_app; split).
  1: by apply wf_field_const, all_headers_vec_no_lf; [by_decide|].
  1-4: by apply wf_field_opt; [by_decide|].
  by_decide.
Qed.

Lemma base_response_wf req code reason :
  headers_no_lf (headers req) -> Int.is_u16 code -> Str.LF ∉ reason ->
  wf_builder (base_response req code reason).
Proof.
  intros Hreq Hc Hr. rewrite base_response_eq.
  split; [exact Hc|]. split; [exact Hr|]. by apply base_fields_wf.
Qed.

(** ** Responses answer the request they are built from *)

Lemma builder_all_headers b m n :
  headers m = push_fields ∅ (builder_fields b) ->
  all_headers_vec m n = values_for (normalize_header_name n) (builder_fields b).
Proof. intros Hm. unfold all_headers_vec. rewrite Hm. apply push_fields_values. Qed.

Lemma builder_header_lookup b m n :
  headers m = push_fields ∅ (builder_fields b) ->
  header m n = head (values_for (normalize_header_name n) (builder_fields b)).
Proof. intros Hm. rewrite header_values. by erewrite builder_all_headers. Qed.

Ltac values_simpl :=
  unfold builder_fields; cbn [rb_headers rb_body]; unfold base_fields;
  rewrite ?values_for_app, ?values_for_const, ?values_for_opt, ?values_for_one; decide_lits;
  rewrite ?app_nil_l, ?app_nil_r.

(** C36: the skeleton all responses start from is a well-formed SIP response to its request: for
    any request that parsed, the text of [base_response], built without further headers, parses
    back to a response with the given status, with the request's Via stack, From, To, Call-ID
    and CSeq up to outer white space, and with an empty body of length 0. *)
Theorem base_response_roundtrip raw req code reason :
  parse raw = Ok req -> Int.is_u16 code -> Str.LF ∉ reason ->
  exists resp, parse (build (base_response req code reason)) = Ok resp /\
    method resp = None /\ status_code resp = Some code /\
    via_headers resp = map Str.trim (via_headers req) /\
    from_header resp = Str.trim <$> from_header req /\
    to_header resp = Str.trim <$> to_header req /\
    call_id resp = Str.trim <$> call_id req /\
    cseq resp = Str.trim <$> cseq req /\
    header resp "Content-Length" = Some "0" /\ body resp = [].
Proof.
  intros Hraw Hc Hr. apply parse_no_lf in Hraw.
  eexists. split; [by apply build_parses, base_response_wf|].
  unfold via_headers, from_header, to_header, call_id, cseq.
  match goal with |- context [all_headers_vec ?m _] =>
    match m with Build_SipMessage _ _ _ _ _ _ =>
      pose proof (fun n => builder_all_headers (base_response req code reason) m n eq_refl) as HA;
      pose proof (fun n => builder_header_lookup (base_response req code reason) m n eq_refl) as HH
    end end.
  rewrite HA, !HH, base_response_eq. values_simpl.
  repeat split; unfold from_header, to_header, call_id, cseq; by destruct (header _ _).
Qed.

Definition demo_request : str := render "OPTIONS sip:sip.example.com SIP/2.0"
  [("Via", "SIP/2.0/UDP 10.0.0.5;branch=z9hG4bK1"); ("From", "<sip:alice@sip.example.com>;tag=1");
   ("To", "<sip:sip.example.com>"); ("Call-ID", "c1"); ("CSeq", "7 OPTIONS")] "".

Lemma base_response_roundtrip_witness :
  exists req resp, parse demo_request = Ok req /\
    parse (build (base_response req 404 "Not Found")) = Ok resp /\ status_code resp = Some 404%Z /\
    call_id resp = Some "c1".
Proof.
  destruct (parse demo_request) as [req|e] eqn:E;
    [|vm_compute in E; discriminate E].
  destruct (base_response_roundtrip demo_request req 404 "Not Found" E)
    as (resp & Hp & _ & Hs & _ & _ & _ & Hc & _).
  - split; vm_compute; discriminate.
  - by_decide.
  - exists req, resp. split; [reflexivity|]. split; [exact Hp|]. split; [exact Hs|]. rewrite Hc.
    vm_compute in E. injection E as <-. vm_compute. reflexivity.
Defined.
