(* ===== verification/Stream.v ===== *)
(** * Messages on a byte stream: [backend/src/sip/tcp_server.rs]

    How the TLS server cuts the bytes of a connection into SIP messages, and the loop that
    reads messages and writes the queued ones of the same connection. *)

From S2P Require Import Prelude RustStr Net Message Response.

Open Scope str_scope.
Open Scope Z_scope.

(** ** Reading one message *)

(** [read_line]: the bytes up to the next line feed, included, or up to the end. *)
Fixpoint read_line (s : str) : str * str :=
  match s with
  | [] => ([], [])
  | c :: s' =>
      if bool_decide (c = Str.LF) then ([c], s')
      else let '(line, rest) := read_line s' in (c :: line, rest)
  end.

Inductive HeaderRead :=
  | HeadersEof
  | HeadersError
  | Headers (raw rest : str).

Definition is_blank (line : str) : bool :=
  bool_decide (line = Str.crlf) || bool_decide (line = [Str.LF]).

(** The inner loop: lines up to a blank one.  A line that is no UTF-8 is an error. *)
Fixpoint read_headers (fuel : nat) (headers_raw s : str) : HeaderRead :=
  match fuel with
  | O => HeadersEof
  | S fuel =>
      let '(line, rest) := read_line s in
      if Str.is_empty line then HeadersEof
      else if negb (Str.valid_utf8 line) then HeadersError
      else
        let headers_raw := headers_raw ++ line in
        if is_blank line then Headers headers_raw rest else read_headers fuel headers_raw rest
  end.

Definition content_length_line (line : str) : option Z :=
  let lower := Str.to_lower line in
  if Str.starts_with "content-length:" lower || Str.starts_with "l:" lower
  then '(_, v) ← Str.split_once ":" line; Str.parse_u64 (Str.trim v)
  else None.

Definition extract_content_length (headers : str) : Z :=
  default 0 (find_map content_length_line (Str.lines headers)).

Definition isize_max : Z := 2 ^ 63 - 1.

Inductive ReadResult :=
  | ReadEof
  | ReadError
  | ReadPanic
  | ReadMessage (text rest : str).

(** The outer loop skips blank lines between messages.  [vec![0u8; n]] panics when [n] bytes
    are more than an allocation may have. *)
Fixpoint read_message (fuel : nat) (s : str) : ReadResult :=
  match fuel with
  | O => ReadEof
  | S fuel =>
      match read_headers (S (length s)) [] s with
      | HeadersEof => ReadEof
      | HeadersError => ReadError
      | Headers headers_raw rest =>
          if Str.is_empty (Str.trim headers_raw) then read_message fuel rest
          else
            let content_length := extract_content_length headers_raw in
            if isize_max <? content_length then ReadPanic
            else if Str.len rest <? content_length then ReadError
            else ReadMessage
              (headers_raw ++ Str.from_utf8_lossy (take (Z.to_nat content_length) rest))
              (drop (Z.to_nat content_length) rest)
      end
  end.

(** Every turn of a loop consumes a byte, so the length is fuel enough. *)
Definition read_next_sip_message (s : str) : ReadResult := read_message (S (length s)) s.

(** ** Facts: fuel *)

Lemma read_line_app s : (read_line s).1 ++ (read_line s).2 = s.
Proof.
  induction s as [|c s IH]; [done|]. cbn. case_bool_decide; [done|].
  destruct (read_line s) as [l r]. cbn in *. by rewrite IH.
Qed.

Lemma read_line_nonempty s : s <> [] -> (read_line s).1 <> [].
Proof. destruct s as [|c s]; [done|]. intros _. cbn. case_bool_decide; [done|]. by destruct (read_line s). Qed.

Lemma read_line_shorter s : s <> [] -> (length (read_line s).2 < length s)%nat.
Proof.
  intros Hs. pose proof (read_line_app s) as E. pose proof (read_line_nonempty s Hs) as Hn.
  rewrite <-E at 2. rewrite length_app. destruct (read_line s).1; [done|]. cbn. lia.
Qed.

Lemma read_line_text l s : Str.LF ∉ l -> read_line (l ++ Str.LF :: s) = (l ++ [Str.LF], s).
Proof.
  induction l as [|c l IH]; intros Hl; [done|]. apply not_elem_of_cons in Hl as [Hc Hl].
  cbn. rewrite bool_decide_eq_false_2 by done. by rewrite IH.
Qed.

(** More fuel changes nothing. *)
Lemma read_headers_fuel n m acc s :
  (length s < n)%nat -> (length s < m)%nat -> read_headers n acc s = read_headers m acc s.
Proof.
  revert m acc s. induction n as [|n IH]; intros [|m] acc s Hn Hm; try lia. cbn.
  destruct (read_line s) as [line rest] eqn:E. destruct (Str.is_empty line) eqn:El; [done|].
  destruct (negb _); [done|]. destruct (is_blank line); [done|].
  assert (s <> []) as Hs by (intros ->; cbn in E; by simplify_eq).
  pose proof (read_line_shorter s Hs) as Hl. rewrite E in Hl. cbn in Hl. apply IH; lia.
Qed.

Lemma read_headers_rest n acc s h rest :
  read_headers n acc s = Headers h rest -> (length rest < length s)%nat.
Proof.
  revert acc s. induction n as [|n IH]; intros acc s; [done|]. cbn.
  destruct (read_line s) as [line r] eqn:E. destruct (Str.is_empty line) eqn:El; [done|].
  assert (s <> []) as Hs by (intros ->; cbn in E; by simplify_eq).
  pose proof (read_line_shorter s Hs) as Hl. rewrite E in Hl. cbn in Hl.
  destruct (negb _); [done|]. destruct (is_blank line); [by intros [= <- <-]|].
  intros Hr%IH. lia.
Qed.

Lemma read_message_fuel n m s :
  (length s < n)%nat -> (length s < m)%nat -> read_message n s = read_message m s.
Proof.
  revert m s. induction n as [|n IH]; intros [|m] s Hn Hm; try lia. cbn -[read_headers].
  destruct (read_headers _ [] s) as [| |h rest] eqn:E; [done..|].
  apply read_headers_rest in E. destruct (Str.is_empty _); [|done]. apply IH; lia.
Qed.

(** ** Facts: framing *)

Definition ascii_text (s : str) : Prop := Forall (fun c => Str.code c < 128) s.

(** The head of a message, as [render] writes it. *)
Definition head_block (first : str) (fs : list (str * str)) : str :=
  Str.terminated (first :: map header_line fs ++ [[]]).

(** A message whose head is ASCII lines and announces its body. *)
Record frame_ok (first : str) (fs : list (str * str)) (b : str) : Prop := {
  fo_first : Str.LF ∉ first;
  fo_text : Str.trim (head_block first fs) <> [];
  fo_nonempty : first <> [];
  fo_fields : Forall wf_field fs;
  fo_ascii : ascii_text (head_block first fs);
  fo_length : extract_content_length (head_block first fs) = Str.len b;
  fo_size : Str.len b <= isize_max;
  fo_body : Str.valid_utf8 b = true;
}.

Lemma is_blank_line l : l <> [] -> is_blank (l ++ Str.crlf) = false.
Proof.
  intros Hl. unfold is_blank. rewrite !bool_decide_eq_false_2; [done|..].
  - intros E%(f_equal length). rewrite length_app in E. destruct l; [done|]. cbn in E. lia.
  - change Str.crlf with ([] ++ Str.crlf) at 2. intros E%app_inv_tail. done.
Qed.

Lemma read_line_crlf l s :
  Str.LF ∉ l -> read_line (l ++ Str.crlf ++ s) = (l ++ Str.crlf, s).
Proof.
  intros Hl. change (Str.crlf ++ s) with ([Str.CR] ++ Str.LF :: s). rewrite app_assoc.
  rewrite read_line_text; [by rewrite <-app_assoc|].
  intros [?|Hc]%elem_of_app; [done|]. apply list_elem_of_singleton in Hc. done.
Qed.

Lemma read_headers_lines n acc ls s :
  (length ls < n)%nat -> Forall (fun l => Str.LF ∉ l /\ l <> []) ls ->
  Forall ascii_text ls ->
  read_headers n acc (Str.terminated ls ++ Str.crlf ++ s) =
  Headers (acc ++ Str.terminated ls ++ Str.crlf) s.
Proof.
  intros Hn Hl Ha. revert n acc Hn. induction Hl as [|l ls [Hlf Hne] _ IH]; intros [|n] acc Hn;
    cbn [length] in Hn; try lia; [done|].
  apply Forall_cons in Ha as [Hal Ha]. rewrite Str.terminated_cons, <-!app_assoc.
  cbn [read_headers]. rewrite read_line_crlf by done.
  assert (ascii_text (l ++ Str.crlf)) as Hac.
  { apply Forall_app. split; [done|]. by repeat constructor. }
  rewrite (Str.valid_utf8_ascii _ Hac), is_blank_line by done.
  replace (Str.is_empty (l ++ Str.crlf)) with false by by destruct l.
  cbn [negb]. rewrite IH by (done || lia). by rewrite <-!app_assoc.
Qed.

Lemma head_block_split first fs :
  head_block first fs = Str.terminated (first :: map header_line fs) ++ Str.crlf.
Proof. unfold head_block. rewrite app_comm_cons, Str.terminated_app. done. Qed.

Lemma header_line_nonempty f : header_line f <> [].
Proof. destruct f as [[|c n] v]; done. Qed.

Lemma read_head first fs s :
  Str.LF ∉ first -> first <> [] -> Forall wf_field fs -> ascii_text (head_block first fs) ->
  read_headers (S (length (head_block first fs ++ s))) [] (head_block first fs ++ s) =
  Headers (head_block first fs) s.
Proof.
  intros Hf Hne Hfs Ha. rewrite head_block_split, <-app_assoc.
  rewrite read_headers_lines; [done|..].
  - rewrite !length_app. unfold Str.terminated.
    assert (forall ls : list str, (length ls <= length (concat (map (fun l => l ++ Str.crlf) ls)))%nat)
      as Hl by (induction ls as [|l ls IH]; [done|]; cbn; rewrite !length_app; cbn; lia).
    specialize (Hl (first :: map header_line fs)). lia.
  - constructor; [done|]. apply Forall_map. eapply Forall_impl; [exact Hfs|].
    intros f Hwf. split; [by apply header_line_no_lf|apply header_line_nonempty].
  - rewrite head_block_split in Ha. apply Forall_app in Ha as [Ha _]. clear -Ha.
    induction (first :: map header_line fs) as [|l ls IH]; [done|].
    rewrite Str.terminated_cons in Ha. apply Forall_app in Ha as [Hl Ha].
    apply Forall_app in Ha as [_ Ha]. constructor; auto.
Qed.

(** A frame is read back whole, and what follows it is left. *)
Lemma read_frame first fs b rest :
  frame_ok first fs b ->
  read_next_sip_message (render first fs b ++ rest) = ReadMessage (render first fs b) rest.
Proof.
  intros [Hf Ht Hne Hfs Ha Hlen Hsize Hbody]. unfold read_next_sip_message, render.
  fold (head_block first fs). rewrite <-app_assoc. cbn [read_message].
  rewrite read_head by done. destruct (Str.is_empty (Str.trim (head_block first fs))) eqn:Et.
  { by destruct (Str.trim _). }
  rewrite Hlen. replace (isize_max <? Str.len b) with false by (symmetry; apply Z.ltb_ge; lia).
  unfold Str.len. rewrite length_app.
  replace (_ <? _) with false by (symmetry; apply Z.ltb_ge; lia).
  rewrite Nat2Z.id, take_app_length, drop_app_length. by rewrite Str.from_utf8_lossy_valid.
Qed.

(** A head that announces more bytes than an allocation may have panics the reader, before a
    byte of the body is read. *)
Lemma oversized_length_panics first fs s :
  Str.LF ∉ first -> first <> [] -> Forall wf_field fs -> ascii_text (head_block first fs) ->
  Str.trim (head_block first fs) <> [] -> isize_max < extract_content_length (head_block first fs) ->
  read_next_sip_message (head_block first fs ++ s) = ReadPanic.
Proof.
  intros Hf Hne Hfs Ha Ht Hlen. unfold read_next_sip_message. cbn [read_message].
  rewrite read_head by done. destruct (Str.is_empty (Str.trim (head_block first fs))) eqn:Et.
  { by destruct (Str.trim _). }
  by replace (isize_max <? _) with true by (symmetry; by apply Z.ltb_lt).
Qed.

(** ** Reading a whole stream *)

Fixpoint read_all (fuel : nat) (s : str) : list str :=
  match fuel with
  | O => []
  | S fuel =>
      match read_next_sip_message s with
      | ReadMessage text rest => text :: read_all fuel rest
      | _ => []
      end
  end.

(** The messages of a connection that is read to its end: each takes a byte at least. *)
Definition messages_of (s : str) : list str := read_all (S (length s)) s.

Lemma read_all_frames n frames :
  Forall (fun '(f, fs, b) => frame_ok f fs b) frames -> (length frames < n)%nat ->
  read_all n (concat (map (fun '(f, fs, b) => render f fs b) frames)) =
  map (fun '(f, fs, b) => render f fs b) frames.
Proof.
  intros Hall. revert n. induction Hall as [|[[f fs] b] frames Hf _ IH]; intros [|n] Hn;
    cbn [length] in Hn; try lia; [done|].
  cbn [map concat read_all]. rewrite read_frame by done. by rewrite IH by lia.
Qed.

Lemma render_nonempty f fs b : (0 < length (render f fs b))%nat.
Proof. unfold render. rewrite Str.terminated_cons, !length_app. cbn. lia. Qed.

Lemma messages_of_frames frames :
  Forall (fun '(f, fs, b) => frame_ok f fs b) frames ->
  messages_of (concat (map (fun '(f, fs, b) => render f fs b) frames)) =
  map (fun '(f, fs, b) => render f fs b) frames.
Proof.
  intros Hall. apply read_all_frames; [done|]. clear. apply Nat.lt_succ_r.
  induction frames as [|[[f fs] b] frames IH]; [done|]. cbn [length map concat]. rewrite length_app.
  pose proof (render_nonempty f fs b). lia.
Qed.

(** ** Responses are frames *)

(** A response the server may build: ASCII single-line headers, none of which announces a
    length of its own. *)
Record streamable (b : SipResponseBuilder) : Prop := {
  st_wf : wf_builder b;
  st_ascii : ascii_text (head_block (status_line b) (builder_fields b));
  st_lengths : Forall (fun f => content_length_line (header_line f) = None) (rb_headers b);
  st_size : Str.len (rb_body b) <= isize_max;
  st_body : Str.valid_utf8 (rb_body b) = true;
}.

Lemma find_map_app {A B} (f : A -> option B) l k :
  find_map f (l ++ k) = match find_map f l with Some b => Some b | None => find_map f k end.
Proof. induction l as [|x l IH]; [done|]. cbn. by destruct (f x). Qed.

Lemma streamable_length b :
  streamable b ->
  extract_content_length (head_block (status_line b) (builder_fields b)) = Str.len (rb_body b).
Proof.
  intros [Hwf _ Hl Hs _]. unfold extract_content_length, head_block.
  pose proof (builder_fields_wf b Hwf) as Hfs. destruct Hwf as (Hc & Hr & _).
  rewrite <-(app_nil_r (Str.terminated _)), Str.lines_terminated.
  - cbn [find_map app]. unfold builder_fields. rewrite map_app, <-!app_assoc, find_map_app.
    assert (content_length_line (status_line b) = None) as -> by done.
    assert (find_map content_length_line (map header_line (rb_headers b)) = None) as ->.
    { clear -Hl. induction Hl as [|f fs Hf _ IH]; [done|]. cbn [map find_map]. by rewrite Hf. }
    cbn [map app find_map]. unfold content_length_line.
    assert (Str.starts_with "content-length:" (Str.to_lower (header_line
      ("Content-Length", Str.show_dec (Str.len (rb_body b))))) = true) as -> by done.
    cbn [orb]. unfold header_line. cbn [fst snd].
    change ("Content-Length" ++ ": " ++ ?x) with ("Content-Length" ++ ":"%char :: Str.SP :: x).
    rewrite Str.split_once_app by by_decide. cbn [mbind option_bind].
    change (Str.SP :: ?x) with ([Str.SP] ++ x). rewrite Str.trim_ws_l by (by repeat constructor).
    rewrite Str.trim_no_ws by apply Str.show_dec_no_ws. unfold Str.parse_u64.
    rewrite Str.parse_show_dec; [done|]. unfold isize_max, Int.u64_max, Str.len in *. lia.
  - constructor.
    { unfold status_line. rewrite !not_elem_of_app. split_and!; [by_decide| |by_decide|done].
      by apply Str.show_dec_not_elem. }
    apply Forall_app. split; [|repeat constructor; by_decide].
    apply Forall_map. eapply Forall_impl; [exact Hfs|]. apply header_line_no_lf.
Qed.

Lemma trim_nonempty c s : Str.is_ws c = false -> Str.trim (c :: s) <> [].
Proof.
  intros Hc. unfold Str.trim, Str.trim_start, Str.trim_end. cbn [drop_while]. rewrite Hc.
  rewrite reverse_cons. intros E%(f_equal length). rewrite length_reverse in E.
  induction (reverse s) as [|d l IH]; cbn in E; [by rewrite Hc in E|].
  destruct (Str.is_ws d); [auto|]. cbn in E. lia.
Qed.

Lemma streamable_frame b : streamable b -> frame_ok (status_line b) (builder_fields b) (rb_body b).
Proof.
  intros Hb. pose proof (streamable_length b Hb) as Hl. destruct Hb as [Hwf Ha _ Hs Hbody].
  split; try done.
  - destruct Hwf as (_ & Hr & _). unfold status_line. rewrite !not_elem_of_app.
    split_and!; [by_decide| |by_decide|done]. by apply Str.show_dec_not_elem.
  - unfold head_block. rewrite Str.terminated_cons. by apply (trim_nonempty "S"%char).
  - by apply builder_fields_wf.
Qed.

(** What the server writes on a stream, any peer that reads by the same rule takes apart
    again: the responses written one after the other are read back as they were, one by one. *)
Theorem responses_framed bs :
  Forall streamable bs -> messages_of (concat (map build bs)) = map build bs.
Proof.
  intros Hall.
  assert (map build bs = map (fun '(f, fs, b) => render f fs b)
    (map (fun b => (status_line b, builder_fields b, rb_body b)) bs)) as ->.
  { rewrite map_map. apply map_ext. intros b. apply build_render. }
  apply messages_of_frames. apply Forall_map. eapply Forall_impl; [exact Hall|].
  intros b Hb. by apply streamable_frame.
Qed.

(** ** The connection *)

(** [consumed]: the bytes the pending read has taken from the connection; [unread]: the bytes
    that arrived after them; [arrived] all bytes so far.  [delivered] are the messages handed
    to the dispatcher, [outbound] the queue of the stream registry, [written] what was sent. *)
Record Conn := {
  arrived : str;
  consumed : str;
  unread : str;
  delivered : list str;
  outbound : list str;
  written : list str;
}.

Definition conn_new : Conn :=
  {| arrived := []; consumed := []; unread := []; delivered := []; outbound := []; written := [] |}.

Definition complete (s : str) : bool :=
  match read_next_sip_message s with ReadMessage _ _ => true | _ => false end.

(** Reading, while nothing is sent to the connection from elsewhere. *)
Inductive pump_read : Conn -> Conn -> Prop :=
  | pump_arrive bytes a c u d o wr :
      pump_read (Build_Conn a c u d o wr) (Build_Conn (a ++ bytes) c (u ++ bytes) d o wr)
  (** the read takes what is there and waits *)
  | pump_wait a c u d o wr :
      complete (c ++ u) = false ->
      pump_read (Build_Conn a c u d o wr) (Build_Conn a (c ++ u) [] d o wr)
  (** the read is done; [reply] is the answer of the dispatcher *)
  | pump_message a c u d o wr text rest reply :
      read_next_sip_message (c ++ u) = ReadMessage text rest ->
      pump_read (Build_Conn a c u d o wr)
                (Build_Conn a [] rest (d ++ [text]) o (wr ++ from_option (fun r => [r]) [] reply)).

(** The whole loop: the branch of the queue drops the pending read and what it had taken. *)
Inductive pump_step : Conn -> Conn -> Prop :=
  | pump_reads c c' : pump_read c c' -> pump_step c c'
  | pump_enqueue m a c u d o wr :
      pump_step (Build_Conn a c u d o wr) (Build_Conn a c u d (o ++ [m]) wr)
  | pump_outbound m a c u d o wr :
      pump_step (Build_Conn a c u d (m :: o) wr) (Build_Conn a [] u d o (wr ++ [m])).

(** ** Facts: segmentation *)

Lemma read_line_more s x : Str.LF ∈ (read_line s).1 ->
  read_line (s ++ x) = ((read_line s).1, (read_line s).2 ++ x).
Proof.
  induction s as [|c s IH]; [by intros H%not_elem_of_nil|]. cbn. case_bool_decide as Hc; [done|].
  destruct (read_line s) as [l r]. cbn [fst snd] in *. intros [?|Hl]%elem_of_cons; [done|].
  by rewrite (IH Hl).
Qed.

Lemma read_line_last s : Str.LF ∉ (read_line s).1 -> (read_line s).2 = [].
Proof.
  induction s as [|c s IH]; [done|]. cbn. case_bool_decide as Hc.
  - subst. intros H. destruct H. by constructor.
  - destruct (read_line s) as [l r]. cbn in *. intros Hl. apply IH.
    by apply not_elem_of_cons in Hl as [].
Qed.

Lemma is_blank_lf line : is_blank line = true -> Str.LF ∈ line.
Proof.
  unfold is_blank. intros [H|H]%orb_true_iff; apply bool_decide_eq_true in H as ->; by_decide.
Qed.

(** What was read stays read when more bytes follow. *)
Lemma read_headers_more n acc s x h r :
  read_headers n acc s = Headers h r -> read_headers n acc (s ++ x) = Headers h (r ++ x).
Proof.
  revert acc s. induction n as [|n IH]; intros acc s; [done|]. cbn.
  destruct (decide (Str.LF ∈ (read_line s).1)) as [Hlf|Hlf].
  - rewrite (read_line_more s x Hlf). destruct (read_line s) as [line rest]. cbn [fst snd] in *.
    destruct (Str.is_empty line); [done|]. destruct (negb _); [done|].
    destruct (is_blank line); [by intros [= <- <-]|]. apply IH.
  - apply read_line_last in Hlf as Hr. destruct (read_line s) as [line rest]. cbn [fst snd] in *.
    subst rest. destruct (Str.is_empty line); [done|]. destruct (negb _); [done|].
    destruct (is_blank line) eqn:Eb; [by apply is_blank_lf in Eb|]. by destruct n.
Qed.

Lemma read_headers_mono n m acc s h r :
  read_headers n acc s = Headers h r -> (n <= m)%nat -> read_headers m acc s = Headers h r.
Proof.
  revert m acc s. induction n as [|n IH]; intros [|m] acc s; try done; [lia|]. cbn.
  destruct (read_line s) as [line rest]. repeat case_match; try done.
  intros Hr Hm. apply IH; [done|lia].
Qed.

Lemma read_message_more n m s x t r :
  read_message n s = ReadMessage t r -> (n <= m)%nat ->
  read_message m (s ++ x) = ReadMessage t (r ++ x).
Proof.
  revert m s. induction n as [|n IH]; intros [|m] s; try done; [lia|]. cbn -[read_headers].
  destruct (read_headers (S (length s)) [] s) as [| |h rest] eqn:E; [done..|].
  apply (read_headers_more _ _ _ x) in E. apply (read_headers_mono _ (S (length (s ++ x)))) in E;
    [|rewrite length_app; lia].
  rewrite E. destruct (Str.is_empty _); [intros; apply IH; [done|lia]|].
  destruct (isize_max <? _); [done|]. unfold Str.len. rewrite length_app.
  destruct (_ <? _) eqn:El; [done|]. apply Z.ltb_ge in El. intros [= <- <-] _.
  replace (_ <? _) with false by (symmetry; apply Z.ltb_ge; lia).
  rewrite take_app_le, drop_app_le by lia. done.
Qed.

Lemma read_next_more s x t r :
  read_next_sip_message s = ReadMessage t r ->
  read_next_sip_message (s ++ x) = ReadMessage t (r ++ x).
Proof. intros H. eapply read_message_more; [exact H|]. rewrite length_app. lia. Qed.

Section segmentation.
Context (frames : list (str * list (str * str) * str))
  (Hframes : Forall (fun '(f, fs, b) => frame_ok f fs b) frames).

Definition texts : list str := map (fun '(f, fs, b) => render f fs b) frames.

Definition tail_of (k : nat) : str := concat (drop k texts).

Lemma read_tail k : (k < length texts)%nat -> exists t,
  texts !! k = Some t /\ read_next_sip_message (tail_of k) = ReadMessage t (tail_of (S k)).
Proof.
  intros Hk. unfold tail_of, texts in *. rewrite length_map in Hk.
  destruct (lookup_lt_is_Some_2 frames k Hk) as [[[f fs] b] Hf]. exists (render f fs b).
  rewrite list_lookup_fmap, Hf. split; [done|].
  rewrite (drop_S (map _ frames) (render f fs b)) by by rewrite list_lookup_fmap, Hf.
  cbn [concat]. apply read_frame. rewrite Forall_forall in Hframes.
  apply (Hframes (f, fs, b)). by eapply list_elem_of_lookup_2.
Qed.

(** The messages delivered, and what is left of the stream. *)
Definition on_track (c : Conn) : Prop :=
  exists k later, delivered c = take k texts /\ (k <= length texts)%nat /\
    consumed c ++ unread c ++ later = tail_of k /\ arrived c ++ later = concat texts.

Lemma tail_nil : tail_of (length texts) = [].
Proof. unfold tail_of. by rewrite drop_all. Qed.

Lemma pump_read_on_track c c' :
  pump_read c c' -> arrived c' `prefix_of` concat texts -> on_track c -> on_track c'.
Proof.
  intros Hs Hp (k & later & Hd & Hk & Ht & Ha).
  destruct Hs as [bytes a cs u d o wr|a cs u d o wr Hc|a cs u d o wr text rest reply Hr];
    cbn [arrived consumed unread delivered] in *.
  - destruct Hp as [l' Hl']. rewrite Hl', <-app_assoc in Ha. apply app_inv_head in Ha as ->.
    exists k, l'. cbn. split_and!; [done|done| |done]. by rewrite <-Ht, <-!app_assoc.
  - exists k, later. cbn. split_and!; [done|done| |done]. by rewrite <-Ht, <-app_assoc.
  - pose proof (read_next_more _ later _ _ Hr) as Hm. rewrite <-app_assoc, Ht in Hm.
    destruct (decide (k < length texts)%nat) as [Hlt|Hge].
    + destruct (read_tail k Hlt) as (t & Hlk & Hrt). rewrite Hm in Hrt. injection Hrt as -> Hrest.
      exists (S k), later. split_and!; try done. by rewrite Hd, (take_S_r _ _ t).
    + replace k with (length texts) in Hm by lia. rewrite tail_nil in Hm. done.
Qed.

Lemma pump_reads_on_track c c' :
  rtc pump_read c c' -> arrived c' `prefix_of` concat texts -> on_track c -> on_track c'.
Proof.
  induction 1 as [|x y z Hxy Hyz IH]; [done|]. intros Hp Hx. apply IH; [done|].
  eapply pump_read_on_track; [exact Hxy| |done]. etrans; [|exact Hp].
  clear -Hyz. induction Hyz as [|x y z Hs _ IH]; [done|]. etrans; [|exact IH].
  destruct Hs; cbn; [by apply prefix_app_r|done..].
Qed.

(** C16: messages survive any segmentation.  However the bytes of a sequence of well-formed
    messages are cut on their way, the messages are handed to the dispatcher one by one,
    unchanged and in order; and when all bytes have arrived and no message is waiting to be
    taken, all of them were handed over.  This holds as long as nothing else is sent on the
    connection. *)
Theorem segmentation_irrelevant c :
  rtc pump_read conn_new c -> arrived c `prefix_of` concat texts ->
  delivered c `prefix_of` texts /\
  (arrived c = concat texts -> complete (consumed c ++ unread c) = false -> delivered c = texts).
Proof.
  intros Hr Hp. assert (on_track c) as (k & later & Hd & Hk & Ht & Ha).
  { eapply pump_reads_on_track; [exact Hr|done|]. exists 0%nat, (concat texts). cbn.
    split_and!; try done. lia. }
  split; [rewrite Hd; apply prefix_take|].
  intros Hall Hc. rewrite Hall in Ha. 
  assert (later = []) as -> by (apply (app_inv_head (concat texts)); by rewrite app_nil_r).
  rewrite app_nil_r in Ht. rewrite Ht in Hc. rewrite Hd.
  destruct (decide (k < length texts)%nat) as [Hlt|Hge]; [|by rewrite take_ge by lia].
  destruct (read_tail k Hlt) as (t & _ & Hrt). unfold complete in Hc. by rewrite Hrt in Hc.
Qed.
End segmentation.

(** A message from elsewhere tears a half-read one.  When part of a message has arrived and
    is being read, and then a message queued for the same connection is written, the part is
    forgotten: after the rest has arrived, the reader stands in the middle of the message. *)
Theorem outbound_tears_message a b m c :
  complete (consumed c ++ unread c ++ a) = false -> outbound c = [m] ->
  exists c', rtc pump_step c c' /\ arrived c' = arrived c ++ a ++ b /\
    consumed c' ++ unread c' = b /\ delivered c' = delivered c.
Proof.
  intros Hc Ho. destruct c as [ar cs u d o wr]. cbn in *. subst o.
  exists (Build_Conn (ar ++ a ++ b) [] b d [] (wr ++ [m])). split_and!; [|done..].
  eapply rtc_l; [constructor; apply (pump_arrive a)|].
  eapply rtc_l; [constructor; by apply pump_wait|].
  eapply rtc_l; [apply pump_outbound|].
  eapply rtc_l; [constructor; apply (pump_arrive b)|]. rewrite <-app_assoc. apply rtc_refl.
Qed.

(** ** Witnesses *)

Definition sample_response : SipResponseBuilder :=
  builder_body (builder_header (builder_new 200 "OK") "Call-ID" "abc") "v=0".

Lemma responses_framed_witness :
  messages_of (concat (map build [sample_response; builder_new 100 "Trying"])) =
  map build [sample_response; builder_new 100 "Trying"].
Proof.
  apply responses_framed. repeat constructor; try (vm_compute; reflexivity); try by_decide.
  all: vm_compute; congruence.
Defined.

Definition sample_frames : list (str * list (str * str) * str) :=
  [("SIP/2.0 200 OK", [("Call-ID", "abc"); ("Content-Length", "3")], "v=0")].

Lemma sample_frames_ok : Forall (fun '(f, fs, b) => frame_ok f fs b) sample_frames.
Proof.
  repeat constructor; try (vm_compute; reflexivity); try by_decide; vm_compute; congruence.
Qed.

(** The message arrives in two segments. *)
Lemma segmentation_irrelevant_witness :
  let t := concat (texts sample_frames) in
  delivered (Build_Conn t [] [] [t] [] []) = texts sample_frames.
Proof.
  cbv zeta. set (t := concat (texts sample_frames)).
  apply (segmentation_irrelevant sample_frames sample_frames_ok (Build_Conn t [] [] [t] [] []));
    [|done|done|by vm_compute].
  eapply rtc_l; [apply (pump_arrive (take 20 t))|].
  eapply rtc_l; [apply pump_wait; by vm_compute|].
  eapply rtc_l; [apply (pump_arrive (drop 20 t))|].
  eapply rtc_l; [apply (pump_message _ _ _ _ _ _ t [] None); by vm_compute|].
  apply rtc_refl.
Defined.

Lemma outbound_tears_message_witness :
  let t := concat (texts sample_frames) in
  exists c', rtc pump_step (Build_Conn [] [] [] [] ["SIP/2.0 100 Trying"] []) c' /\
    arrived c' = t /\ consumed c' ++ unread c' = drop 20 t /\ delivered c' = [].
Proof.
  cbv zeta. set (t := concat (texts sample_frames)).
  destruct (outbound_tears_message (take 20 t) (drop 20 t) "SIP/2.0 100 Trying"
    (Build_Conn [] [] [] [] ["SIP/2.0 100 Trying"] [])) as (c' & Hr & Ha & Hc & Hd);
    [by vm_compute|done|].
  exists c'. split_and!; [done| |done|done]. rewrite Ha. cbn [arrived app]. apply take_drop.
Defined.
