(* ===== verification/Forward.v ===== *)
(** * Forwarded requests: the message builders of [backend/src/sip/proxy.rs]

    Header names are stored in a hash map, so the order in which the builders write
    them is not specified: it is the parameter [header_order]. *)

From S2P Require Import Prelude RustStr Message Response.

Open Scope str_scope.
Open Scope Z_scope.

(** Iteration over [HashMap<String, Vec<String>>]: every entry once, in some order. *)
Class HeaderOrder := {
  header_order : gmap str (list str) -> list (str * list str);
  header_order_perm hs : header_order hs ≡ₚ map_to_list hs;
}.

Definition capitalize_word (w : str) : str :=
  match w with [] => [] | c :: w' => Str.to_upper_char c :: w' end.

Definition capitalize_header (name : str) : str :=
  if decide (name = "call-id") then "Call-ID"
  else if decide (name = "cseq") then "CSeq"
  else if decide (name = "www-authenticate") then "WWW-Authenticate"
  else if decide (name = "content-type") then "Content-Type"
  else if decide (name = "content-length") then "Content-Length"
  else if decide (name = "user-agent") then "User-Agent"
  else Str.join "-" (map capitalize_word (Str.split_char "-" name)).

Definition cancel_cseq_value (cseq : option str) : str :=
  let number :=
    match cseq ≫= (fun v => head (Str.split_whitespace v)) with
    | Some n => if Str.is_empty n then "1" else n
    | None => "1"
    end in
  number ++ " CANCEL".

Section builders.
Context `{!Digests, !HeaderOrder}.

Definition proxy_via_branch (call_id : str) : str :=
  "z9hG4bKproxy" ++ take 16 (md5_hex call_id).

Definition proxy_via (sip_domain call_id : str) : str :=
  "SIP/2.0/UDP " ++ sip_domain ++ ";branch=" ++ proxy_via_branch call_id ++ ";rport".

(** The headers that are copied: all but those of [skip]. *)
Definition copied_fields (skip : list str) (hs : gmap str (list str)) : list (str * str) :=
  concat (map (fun '(name, vals) =>
    if bool_decide (name ∈ skip) then [] else map (fun v => (capitalize_header name, v)) vals)
    (header_order hs)).

Definition build_forwarded_cancel_for_target (msg : SipMessage) (target_uri : str) (max_fwd : Z)
    (sip_domain : str) : str :=
  render ("CANCEL " ++ target_uri ++ " SIP/2.0")
    ([("Via", proxy_via sip_domain (default "" (call_id msg)))] ++
     map (fun v => ("Via", v)) (via_headers msg) ++
     [("Max-Forwards", Str.show_dec max_fwd); ("CSeq", cancel_cseq_value (cseq msg))] ++
     copied_fields ["via"; "max-forwards"; "cseq"; "content-length"] (headers msg) ++
     [("Content-Length", "0")]) "".

Definition build_forwarded_invite_for_target (msg : SipMessage) (target_uri : str) (max_fwd : Z)
    (sip_domain : str) (rewritten_body : option str) : str :=
  let bd := default (body msg) rewritten_body in
  render ("INVITE " ++ target_uri ++ " SIP/2.0")
    ([("Via", proxy_via sip_domain (default "" (call_id msg)))] ++
     map (fun v => ("Via", v)) (via_headers msg) ++
     [("Max-Forwards", Str.show_dec max_fwd);
      ("Record-Route", "<sip:" ++ sip_domain ++ ";lr>")] ++
     copied_fields ["via"; "max-forwards"; "content-length"; "record-route"] (headers msg) ++
     [("Content-Length", Str.show_dec (Str.len bd))]) bd.
End builders.

(** ** Facts: header names *)

Lemma to_lower_upper_char c : Str.to_lower_char (Str.to_upper_char c) = Str.to_lower_char c.
Proof. destruct c as [[] [] [] [] [] [] [] []]; reflexivity. Qed.

Lemma to_lower_capitalize_word w : Str.to_lower (capitalize_word w) = Str.to_lower w.
Proof. destruct w as [|c w]; [done|]. cbn. by rewrite to_lower_upper_char. Qed.

Lemma to_lower_join ps : Str.to_lower (Str.join "-" ps) = Str.join "-" (map Str.to_lower ps).
Proof.
  induction ps as [|p ps IH]; [done|]. destruct ps as [|q ps]; [done|].
  cbn [map]. rewrite !Str.join_cons_nonempty by done. rewrite !Str.to_lower_app.
  cbn [map] in IH. by rewrite IH.
Qed.

Lemma to_lower_capitalize n : Str.to_lower (capitalize_header n) = Str.to_lower n.
Proof.
  unfold capitalize_header. repeat (case_decide; [subst; reflexivity|]).
  rewrite to_lower_join, map_map. rewrite <-(Str.join_split_char "-" n) at 2.
  change ["-"%char] with "-". rewrite to_lower_join. f_equal. apply map_ext.
  apply to_lower_capitalize_word.
Qed.

Lemma is_ws_to_lower c : Str.is_ws (Str.to_lower_char c) = Str.is_ws c.
Proof. destruct c as [[] [] [] [] [] [] [] []]; reflexivity. Qed.

Lemma drop_while_to_lower s :
  drop_while Str.is_ws (Str.to_lower s) = Str.to_lower (drop_while Str.is_ws s).
Proof.
  induction s as [|c s IH]; [done|]. cbn [Str.to_lower map drop_while].
  rewrite is_ws_to_lower. destruct (Str.is_ws c); [apply IH|done].
Qed.

Lemma to_lower_reverse s : Str.to_lower (reverse s) = reverse (Str.to_lower s).
Proof. apply fmap_reverse. Qed.

Lemma trim_to_lower s : Str.trim (Str.to_lower s) = Str.to_lower (Str.trim s).
Proof.
  unfold Str.trim, Str.trim_end, Str.trim_start. rewrite drop_while_to_lower.
  rewrite <-to_lower_reverse, drop_while_to_lower. by rewrite to_lower_reverse.
Qed.

(** Names that differ only in case normalise alike. *)
Lemma normalize_to_lower n m :
  Str.to_lower n = Str.to_lower m -> normalize_header_name n = normalize_header_name m.
Proof. intros H. unfold normalize_header_name. by rewrite <-!trim_to_lower, H. Qed.

Lemma normalize_idemp n :
  normalize_header_name (normalize_header_name n) = normalize_header_name n.
Proof.
  unfold normalize_header_name at 2 3. repeat (case_decide; [reflexivity|]).
  unfold normalize_header_name. rewrite trim_to_lower, Str.trim_idemp, Str.to_lower_idemp.
  by rewrite !decide_False by done.
Qed.

Lemma to_lower_elem c (s : str) :
  (forall d, Str.to_lower_char d = c -> d = c) -> c ∈ Str.to_lower s -> c ∈ s.
Proof.
  intros Hc Hin. apply list_elem_of_fmap in Hin as (d & Hd & Hin). symmetry in Hd.
  by apply Hc in Hd as ->.
Qed.

Lemma to_lower_char_fixed c d :
  bool_decide (c ∈ [":"%char; Str.LF; Str.SP; Str.TAB]) = true -> Str.to_lower_char d = c -> d = c.
Proof.
  intros Hc. apply bool_decide_eq_true_1 in Hc.
  rewrite !elem_of_cons, elem_of_nil in Hc.
  destruct Hc as [->|[->|[->|[->|[]]]]];
    destruct d as [[] [] [] [] [] [] [] []]; vm_compute; congruence.
Qed.

(** ** Facts: the header names of a parsed message *)

Definition parsed_name (n : str) : Prop :=
  normalize_header_name n = n /\ Str.trim n = n /\ ":"%char ∉ n /\ Str.LF ∉ n.

Definition names_ok (hs : gmap str (list str)) : Prop := map_Forall (fun n _ => parsed_name n) hs.

Lemma normalize_parsed n : ":"%char ∉ n -> Str.LF ∉ n -> parsed_name (normalize_header_name n).
Proof.
  intros Hc Hl. split; [apply normalize_idemp|].
  assert (forall c, bool_decide (c ∈ [":"%char; Str.LF; Str.SP; Str.TAB]) = true -> c ∉ n ->
    c ∉ Str.to_lower (Str.trim n)) as Hlow.
  { intros c Hin Hn Hl'. apply to_lower_elem in Hl'; [|by intros; eapply to_lower_char_fixed].
    by apply Str.trim_elem in Hl'. }
  unfold normalize_header_name. repeat (case_decide; [split_and!; by_decide|]).
  split_and!; [by rewrite trim_to_lower, Str.trim_idemp|by apply Hlow; [by_decide|]..].
Qed.

Lemma names_ok_insert k v hs : parsed_name k -> names_ok hs -> names_ok (<[k := v]> hs).
Proof. intros. by apply map_Forall_insert_2. Qed.

Lemma parse_line_names st l :
  Str.LF ∉ l -> names_ok (ps_headers st) -> names_ok (ps_headers (parse_line st l)).
Proof.
  intros Hl Hst. destruct st as [hs ih bl lk]. unfold parse_line. cbn [ps_headers] in *.
  repeat case_match; subst; cbn [ps_headers]; try done.
  - unfold fold_header. destruct (hs !! _) eqn:E; [|done]. case_match; [|done].
    apply names_ok_insert; [|done]. by apply (Hst _ _ E).
  - apply names_ok_insert; [|done].
    match goal with H : Str.split_once _ _ = _ |- _ => apply Str.split_once_Some in H as [-> Hn] end.
    apply normalize_parsed; [done|]. set_solver.
Qed.

Lemma parse_names raw m : parse raw = Ok m -> names_ok (headers m).
Proof.
  unfold parse. pose proof (Str.lines_no_lf raw) as Hls.
  destruct (Str.lines raw) as [|l ls]; [done|]. inversion Hls as [|? ? _ Hrest]; subst.
  case_match; [done|]. intros; simplify_eq/=. clear Hls.
  assert (names_ok (ps_headers parse_init)) as Hinit by apply map_Forall_empty.
  revert Hinit. generalize parse_init. induction Hrest as [|k ks Hk _ IH]; intros st Hst; [done|].
  cbn [foldl]. apply IH. by apply parse_line_names.
Qed.

Lemma trim_head_ws c n : Str.trim (c :: n) = c :: n -> Str.is_ws c = false.
Proof.
  intros Ht. destruct (Str.is_ws c) eqn:E; [|done].
  pose proof (Str.trim_start_trim (c :: n)) as Hs. rewrite Ht in Hs.
  unfold Str.trim_start in Hs. cbn [drop_while] in Hs. rewrite E in Hs.
  pose proof (drop_while_length Str.is_ws n) as Hl. rewrite Hs in Hl. simpl in Hl. lia.
Qed.

Lemma capitalize_elem c n :
  bool_decide (c ∈ [":"%char; Str.LF; Str.SP; Str.TAB]) = true -> c ∈ capitalize_header n -> c ∈ n.
Proof.
  intros Hc Hin. apply (to_lower_elem c); [by intros; eapply to_lower_char_fixed|].
  rewrite <-to_lower_capitalize. apply list_elem_of_fmap. exists c. split; [|done].
  apply bool_decide_eq_true_1 in Hc. rewrite !elem_of_cons, elem_of_nil in Hc.
  by destruct Hc as [->|[->|[->|[->|[]]]]].
Qed.

Lemma capitalize_head c n :
  Str.is_ws c = true -> Str.trim n = n -> head (capitalize_header n) <> Some c.
Proof.
  intros Hws Ht Hhd. pose proof (to_lower_capitalize n) as Hlow.
  destruct (capitalize_header n) as [|d s]; [done|]. simplify_eq/=.
  destruct n as [|e n]; [done|]. cbn in Hlow. injection Hlow as He _.
  apply trim_head_ws in Ht. rewrite <-is_ws_to_lower in Ht, Hws. congruence.
Qed.

Lemma parsed_name_capitalize n :
  parsed_name n -> wf_name (capitalize_header n) /\ normalize_header_name (capitalize_header n) = n.
Proof.
  intros (Hn & Ht & Hc & Hl). split.
  - split_and!; [intros Hin; by apply capitalize_elem in Hin..| |]; by apply capitalize_head.
  - rewrite (normalize_to_lower _ n); [done|]. apply to_lower_capitalize.
Qed.

(** ** Facts: the copied headers *)

Section copied.
Context `{!HeaderOrder}.

Lemma copied_fields_wf skip hs :
  names_ok hs -> headers_no_lf hs -> Forall wf_field (copied_fields skip hs).
Proof.
  intros Hn Hl. unfold copied_fields. apply Forall_concat, Forall_map.
  rewrite header_order_perm. apply Forall_forall. intros [n vs] E%elem_of_map_to_list.
  case_bool_decide; [constructor|].
  apply wf_field_const; [by apply parsed_name_capitalize, (Hn _ _ E)|by apply (Hl _ _ E)].
Qed.

Lemma values_for_concat k (fss : list (list (str * str))) :
  values_for k (concat fss) = concat (map (values_for k) fss).
Proof. induction fss as [|fs fss IH]; [done|]. cbn [concat map]. by rewrite values_for_app, IH. Qed.

(** Each name has one entry, so the order of the map does not matter. *)
Lemma concat_one_entry {B} (f : str * list str -> list B) (l : list (str * list str)) k vs :
  NoDup l.*1 -> (k, vs) ∈ l -> (forall n ws, (n, ws) ∈ l -> n <> k -> f (n, ws) = []) ->
  concat (map f l) = f (k, vs).
Proof.
  induction l as [|[n ws] l IH]; intros Hnd Hin Hf; [by apply elem_of_nil in Hin|].
  cbn [map concat]. apply NoDup_cons in Hnd as [Hn Hnd].
  destruct (decide (n = k)) as [->|Hne].
  - assert (ws = vs) as ->.
    { apply elem_of_cons in Hin as [?|Hin]; [congruence|]. destruct Hn.
      apply list_elem_of_fmap. by exists (k, vs). }
    rewrite <-(app_nil_r (f (k, vs))) at 2. f_equal.
    apply concat_nil_Forall, Forall_map, Forall_forall. intros [n' ws'] Hin'.
    apply Hf; [by right|]. intros ->. destruct Hn. apply list_elem_of_fmap. by exists (k, ws').
  - rewrite (Hf n ws) by (by left || done). simpl. apply IH; [done| |].
    + apply elem_of_cons in Hin as [?|?]; [congruence|done].
    + intros n' ws' Hin'. apply Hf. by right.
Qed.

Lemma copied_fields_values skip hs k :
  names_ok hs ->
  values_for k (copied_fields skip hs) =
  if bool_decide (k ∈ skip) then [] else map Str.trim (default [] (hs !! k)).
Proof.
  intros Hn. unfold copied_fields. rewrite values_for_concat, map_map.
  set (f := fun _ => _). 
  assert (forall n vs, hs !! n = Some vs -> f (n, vs) =
    if bool_decide (n ∈ skip) then [] else if decide (n = k) then map Str.trim vs else []) as Hf.
  { intros n vs E. unfold f. case_bool_decide; [done|]. rewrite values_for_const.
    by rewrite (proj2 (parsed_name_capitalize n (Hn _ _ E))). }
  assert (forall n vs, (n, vs) ∈ header_order hs <-> hs !! n = Some vs) as Hin.
  { intros n vs. by rewrite header_order_perm, elem_of_map_to_list. }
  assert (NoDup (header_order hs).*1) as Hnd by (rewrite header_order_perm; apply NoDup_fst_map_to_list).
  destruct (hs !! k) as [vs|] eqn:E.
  - rewrite (concat_one_entry f _ k vs); [|done|by apply Hin|].
    + rewrite Hf by done. by rewrite decide_True.
    + intros n ws Hnw Hne. rewrite Hf by by apply Hin. case_bool_decide; [done|].
      by rewrite decide_False.
  - cbn. replace (concat (map f (header_order hs))) with (@nil str); [by case_bool_decide|].
    symmetry. apply concat_nil_Forall, Forall_map, Forall_forall. intros [n ws] Hnw.
    apply Hin in Hnw. rewrite Hf by done. case_bool_decide; [done|].
    rewrite decide_False; [done|congruence].
Qed.
End copied.

(** ** The forwarded request is the request *)

Lemma request_line_parts mth target :
  Str.SP ∉ mth -> Str.SP ∉ target ->
  Str.splitn 3 Str.SP (mth ++ [Str.SP] ++ target ++ [Str.SP] ++ "SIP/2.0") =
  [mth; target; "SIP/2.0"].
Proof.
  intros Hm Ht. cbn [Str.splitn app]. rewrite Str.split_once_app by done.
  change (target ++ Str.SP :: "SIP/2.0") with (target ++ Str.SP :: "SIP/2.0").
  by rewrite Str.split_once_app by done.
Qed.

(** A request rendered with its method and target parses back to them. *)
Lemma parse_request mth target fs b :
  Str.SP ∉ mth -> Str.LF ∉ mth -> Str.starts_with "SIP/2.0" (mth ++ [Str.SP]) = false ->
  Str.SP ∉ target -> Str.LF ∉ target -> Forall wf_field fs ->
  Str.starts_with "SIP/2.0" (mth ++ [Str.SP] ++ target ++ [Str.SP] ++ "SIP/2.0") = false ->
  exists m, parse (render (mth ++ [Str.SP] ++ target ++ [Str.SP] ++ "SIP/2.0") fs b) = Ok m /\
    method m = Some mth /\ request_uri m = Some target /\ headers m = push_fields ∅ fs /\
    body m = Str.join Str.crlf (Str.lines b).
Proof.
  intros Hm Hml _ Ht Htl Hfs Hs. rewrite parse_render; [|set_solver|set_solver|done].
  rewrite Hs, request_line_parts by done. by eexists.
Qed.

Lemma all_headers_fields m fs n :
  headers m = push_fields ∅ fs -> all_headers_vec m n = values_for (normalize_header_name n) fs.
Proof. intros Hm. unfold all_headers_vec. rewrite Hm. apply push_fields_values. Qed.

Section forwarding.
Context `{!Digests, !DigestLaws, !HeaderOrder}.

Lemma proxy_via_no_lf d cid : Str.LF ∉ d -> Str.LF ∉ proxy_via d cid.
Proof.
  intros Hd. unfold proxy_via, proxy_via_branch.
  assert (Str.LF ∉ take 16 (md5_hex cid)) as Ht.
  { intros Hin. pose proof (md5_hex_chars cid) as Hx. rewrite Forall_forall in Hx.
    assert (Str.LF ∈ md5_hex cid) as Hin' by (rewrite <-(take_drop 16 (md5_hex cid)); set_solver).
    by apply Hx in Hin'. }
  rewrite !not_elem_of_app. split_and!; by_decide || done.
Qed.

Lemma trim_proxy_via d cid : Str.trim (proxy_via d cid) = proxy_via d cid.
Proof.
  unfold proxy_via. rewrite !app_assoc. apply (Str.trim_app_no_ws "S"); by_decide || done.
Qed.

Lemma forwarded_wf msg d (extra : list (str * str)) skip bl :
  Str.LF ∉ d -> names_ok (headers msg) -> headers_no_lf (headers msg) ->
  Forall wf_field extra ->
  Forall wf_field ([("Via", proxy_via d (default [] (call_id msg)))] ++
    map (fun v => ("Via", v)) (via_headers msg) ++ extra ++ copied_fields skip (headers msg) ++
    [("Content-Length", Str.show_dec bl)]).
Proof.
  intros Hd Hn Hl He. repeat (apply Forall_app; split); [..|done| |].
  - constructor; [|constructor]. split; [by_decide|]. by apply proxy_via_no_lf.
  - apply wf_field_const; [by_decide|]. by apply all_headers_vec_no_lf.
  - by apply copied_fields_wf.
  - constructor; [|constructor]. split; [by_decide|]. by apply Str.show_dec_not_elem.
Qed.

Lemma trim_record_route (d : str) : Str.trim ("<sip:" ++ d ++ ";lr>") = "<sip:" ++ d ++ ";lr>".
Proof. rewrite app_assoc. apply (Str.trim_app_no_ws "<"); by_decide || done. Qed.

Lemma forwarded_values k via vias extra skip hs bl :
  names_ok hs ->
  values_for k ([("Via", via)] ++ map (fun v => ("Via", v)) vias ++ extra ++
    copied_fields skip hs ++ [("Content-Length", Str.show_dec bl)]) =
  (if decide ("via" = k) then Str.trim via :: map Str.trim vias else []) ++ values_for k extra ++
  (if bool_decide (k ∈ skip) then [] else map Str.trim (default [] (hs !! k))) ++
  (if decide ("content-length" = k) then [Str.show_dec bl] else []).
Proof.
  intros Hn. rewrite !values_for_app, copied_fields_values by done.
  rewrite values_for_const, !values_for_one.
  change (normalize_header_name "Via") with "via".
  change (normalize_header_name "Content-Length") with "content-length".
  rewrite (Str.trim_no_ws (Str.show_dec bl)) by apply Str.show_dec_no_ws.
  by case_decide.
Qed.

Lemma values_for_two k n1 v1 n2 v2 :
  values_for k [(n1, v1); (n2, v2)] =
  (if decide (normalize_header_name n1 = k) then [Str.trim v1] else []) ++
  (if decide (normalize_header_name n2 = k) then [Str.trim v2] else []).
Proof.
  change [(n1, v1); (n2, v2)] with ([(n1, v1)] ++ [(n2, v2)]).
  by rewrite values_for_app, !values_for_one.
Qed.

(** Every header of the forwarded INVITE, at once. *)
Lemma forwarded_invite_fields raw msg target max_fwd d rb :
  parse raw = Ok msg -> Str.LF ∉ d -> Str.SP ∉ target -> Str.LF ∉ target ->
  let bd := default (body msg) rb in
  exists m, parse (build_forwarded_invite_for_target msg target max_fwd d rb) = Ok m /\
    method m = Some "INVITE" /\ request_uri m = Some target /\
    body m = Str.join Str.crlf (Str.lines bd) /\
    forall n, let k := normalize_header_name n in
      all_headers_vec m n =
      (if decide ("via" = k) then proxy_via d (default [] (call_id msg)) ::
                                  map Str.trim (via_headers msg) else []) ++
      ((if decide ("max-forwards" = k) then [Str.show_dec max_fwd] else []) ++
       (if decide ("record-route" = k) then ["<sip:" ++ d ++ ";lr>"] else [])) ++
      (if bool_decide (k ∈ ["via"; "max-forwards"; "content-length"; "record-route"]) then []
       else map Str.trim (default [] (headers msg !! k))) ++
      (if decide ("content-length" = k) then [Str.show_dec (Str.len bd)] else []).
Proof.
  intros Hp Hd Hsp Hlf bd. pose proof (parse_names _ _ Hp) as Hn. pose proof (parse_no_lf _ _ Hp) as Hl.
  unfold build_forwarded_invite_for_target. fold bd.
  set (extra := [("Max-Forwards", Str.show_dec max_fwd); ("Record-Route", "<sip:" ++ d ++ ";lr>")]).
  set (skip := ["via"; "max-forwards"; "content-length"; "record-route"]).
  assert (Forall wf_field extra) as He.
  { repeat constructor; try by_decide; cbn; [by apply Str.show_dec_not_elem|].
    rewrite !not_elem_of_cons, not_elem_of_app. split_and!; by_decide || done. }
  pose proof (forwarded_wf msg d extra skip (Str.len bd) Hd Hn Hl He) as Hfs.
  destruct (parse_request "INVITE" target _ bd ltac:(by_decide) ltac:(by_decide) ltac:(done) Hsp Hlf
    Hfs ltac:(done)) as (m & Hm & E1 & E2 & E3 & E4).
  exists m. split; [exact Hm|]. split_and!; [done..|]. intros n.
  rewrite (all_headers_fields m _ n E3), forwarded_values by done. unfold extra.
  rewrite values_for_two, trim_proxy_via, trim_record_route.
  by rewrite (Str.trim_no_ws (Str.show_dec max_fwd)) by apply Str.show_dec_no_ws.
Qed.

(** C37: the INVITE the proxy sends to the callee is, to a SIP parser, the caller's INVITE
    with the registered target as request URI: the proxy's own Via is pushed on the Via
    stack, Max-Forwards, Record-Route and Content-Length are the proxy's, the body is the
    (rewritten) one, and every other header arrives with all its values in their order,
    whatever order the header map is written in. *)
Theorem forwarded_invite_roundtrip raw msg target max_fwd d rb :
  parse raw = Ok msg -> Str.LF ∉ d -> Str.SP ∉ target -> Str.LF ∉ target ->
  let bd := default (body msg) rb in
  exists m, parse (build_forwarded_invite_for_target msg target max_fwd d rb) = Ok m /\
    method m = Some "INVITE" /\ request_uri m = Some target /\
    via_headers m = proxy_via d (default [] (call_id msg)) :: map Str.trim (via_headers msg) /\
    all_headers_vec m "max-forwards" = [Str.show_dec max_fwd] /\
    all_headers_vec m "record-route" = ["<sip:" ++ d ++ ";lr>"] /\
    all_headers_vec m "content-length" = [Str.show_dec (Str.len bd)] /\
    (forall n, normalize_header_name n ∉ ["via"; "max-forwards"; "content-length"; "record-route"] ->
       all_headers_vec m n = map Str.trim (all_headers_vec msg n)) /\
    body m = Str.join Str.crlf (Str.lines bd).
Proof.
  intros Hp Hd Hsp Hlf bd.
  destruct (forwarded_invite_fields raw msg target max_fwd d rb Hp Hd Hsp Hlf)
    as (m & Hm & E1 & E2 & E3 & Hall).
  exists m. unfold via_headers at 1. cbv zeta in Hall. split_and!; [done..| | | | | |done].
  1-4: rewrite Hall; decide_lits; rewrite bool_decide_eq_true_2 by by_decide; cbn [app];
    by rewrite ?app_nil_r.
  intros n Hn. rewrite Hall, bool_decide_eq_false_2 by done.
  rewrite !elem_of_cons, elem_of_nil in Hn. rewrite !decide_False by naive_solver.
  cbn [app]. by rewrite app_nil_r.
Qed.

Lemma words_first (n rest : str) :
  Forall (fun c => Str.is_ws c = false) n -> n <> [] ->
  head (Str.split_whitespace (n ++ Str.SP :: rest)) = Some n.
Proof.
  intros Hn Hne. unfold Str.split_whitespace.
  assert (forall w cur, Forall (fun c => Str.is_ws c = false) w ->
    Str.words_go cur (w ++ Str.SP :: rest) = Str.words_go (reverse w ++ cur) (Str.SP :: rest)) as Hgo.
  { induction w as [|c w IH]; intros cur Hw; [done|]. inversion Hw as [|? ? Hc Hw']; subst.
    cbn [app Str.words_go]. rewrite Hc, IH by done. by rewrite reverse_cons, <-app_assoc. }
  rewrite Hgo, app_nil_r by done. cbn [Str.words_go]. change (Str.is_ws Str.SP) with true. cbn iota.
  destruct (Str.is_empty (reverse n)) eqn:E.
  - destruct n as [|c n _] using rev_ind; [done|]. by rewrite reverse_app in E.
  - cbn [app head]. by rewrite reverse_involutive.
Qed.

(** The CANCEL that stops the ringing leg matches the INVITE the proxy sent for the
    same call: the same request URI, the same topmost Via (so the same branch), and the
    CSeq number of the request it is built from with the method CANCEL. *)
Theorem forwarded_cancel_matches raw_i inv raw_c can target fwd_i fwd_c d rb num mth :
  parse raw_i = Ok inv -> parse raw_c = Ok can -> call_id can = call_id inv ->
  cseq can = Some (num ++ Str.SP :: mth) ->
  Forall (fun c => Str.is_ws c = false) num -> num <> [] ->
  Str.LF ∉ d -> Str.SP ∉ target -> Str.LF ∉ target ->
  exists i c,
    parse (build_forwarded_invite_for_target inv target fwd_i d rb) = Ok i /\
    parse (build_forwarded_cancel_for_target can target fwd_c d) = Ok c /\
    method c = Some "CANCEL" /\ request_uri c = request_uri i /\
    head (via_headers c) = head (via_headers i) /\
    all_headers_vec c "cseq" = [num ++ " CANCEL"] /\
    all_headers_vec c "call-id" = map Str.trim (all_headers_vec can "call-id") /\ body c = [].
Proof.
  intros Hpi Hpc Hcid Hcs Hnum Hne Hd Hsp Hlf.
  destruct (forwarded_invite_fields raw_i inv target fwd_i d rb Hpi Hd Hsp Hlf)
    as (i & Hi & _ & Hiu & _ & Hiv).
  pose proof (parse_names _ _ Hpc) as Hn. pose proof (parse_no_lf _ _ Hpc) as Hl.
  assert (cancel_cseq_value (cseq can) = num ++ " CANCEL") as Hcv.
  { unfold cancel_cseq_value. rewrite Hcs, Some_bind, words_first by done. by destruct num. }
  unfold build_forwarded_cancel_for_target. rewrite Hcv.
  set (extra := [("Max-Forwards", Str.show_dec fwd_c); ("CSeq", num ++ " CANCEL")]).
  set (skip := ["via"; "max-forwards"; "cseq"; "content-length"]).
  assert (Forall wf_field extra) as He.
  { repeat constructor; try by_decide; cbn; [by apply Str.show_dec_not_elem|].
    rewrite not_elem_of_app. split; [|by_decide]. intros Hin.
    rewrite Forall_forall in Hnum. by apply Hnum in Hin. }
  pose proof (forwarded_wf can d extra skip 0 Hd Hn Hl He) as Hfs.
  destruct (parse_request "CANCEL" target _ [] ltac:(by_decide) ltac:(by_decide) ltac:(done) Hsp Hlf
    Hfs ltac:(done)) as (c & Hc & E1 & E2 & E3 & E4).
  exists i, c. split; [done|]. split; [exact Hc|].
  assert (forall n, all_headers_vec c n = _) as Hall
    by (intros n; rewrite (all_headers_fields c _ n E3), forwarded_values by done; reflexivity).
  split_and!; [done|congruence| | | |done].
  - unfold via_headers. rewrite Hall, Hiv, Hcid. decide_lits. cbn [app head]. by rewrite trim_proxy_via.
  - rewrite Hall. unfold extra. rewrite values_for_two. decide_lits.
    rewrite bool_decide_eq_true_2 by (unfold skip; by_decide). cbn [app]. f_equal.
    destruct num as [|x num]; [done|]. inversion Hnum; subst.
    change " CANCEL" with (" " ++ "CANCEL"). rewrite app_assoc.
    apply Str.trim_app_no_ws; [done|by_decide|done].
  - rewrite Hall. unfold extra. rewrite values_for_two. decide_lits.
    rewrite bool_decide_eq_false_2 by (unfold skip; by_decide). cbn [app]. by rewrite app_nil_r.
Qed.

(** Forwarding and relaying are inverse on the Via stack: a response that carries the
    Via the proxy pushed on the call's INVITE on top of [fs] reaches the caller with
    exactly [fs], every other line and the body untouched. *)
Theorem relayed_response_via first cid d fs b :
  Str.LF ∉ first -> Str.starts_with "SIP/2.0" first = true -> Str.LF ∉ d -> Forall wf_field fs ->
  strip_proxy_via (render first (("Via", proxy_via d cid) :: fs) b) d = render first fs b.
Proof.
  intros Hf Hs Hd Hfs. apply strip_proxy_via_render; [done| |by apply proxy_via_no_lf| |done].
  - apply Str.starts_with_spec in Hs as [r ->]. reflexivity.
  - unfold proxy_via. apply Str.contains_app_r, Str.contains_app_l, Str.contains_refl.
Qed.
End forwarding.

(** ** Examples *)

(** One possible iteration order. *)
Definition list_order : HeaderOrder :=
  {| header_order := map_to_list; header_order_perm hs := reflexivity _ |}.

Definition sample_invite_text : str := render "INVITE sip:bob@sip.example.com SIP/2.0"
  [("Via", "SIP/2.0/UDP 198.51.100.7:5062;branch=z9hG4bKc1"); ("Max-Forwards", "70");
   ("From", "<sip:alice@sip.example.com>;tag=1"); ("To", "<sip:bob@sip.example.com>");
   ("Call-ID", "call-1"); ("CSeq", "7 INVITE"); ("Contact", "<sip:alice@198.51.100.7:5062>");
   ("Subject", "hello")] "".

Definition sample_invite : SipMessage :=
  match parse sample_invite_text with
  | Ok m => m
  | Err _ => {| method := None; request_uri := None; status_code := None; headers := ∅;
                body := []; raw := [] |}
  end.

Lemma sample_invite_parses : parse sample_invite_text = Ok sample_invite.
Proof. unfold sample_invite. by destruct (parse sample_invite_text) eqn:E; [|vm_compute in E]. Qed.

Lemma forwarded_invite_roundtrip_witness :
  exists m, parse (@build_forwarded_invite_for_target toy_digests list_order sample_invite
      "sip:bob@203.0.113.77:5060" 69 "sip.example.com" None) = Ok m /\
    all_headers_vec m "subject" = ["hello"] /\ length (via_headers m) = 2%nat.
Proof.
  destruct (@forwarded_invite_roundtrip toy_digests toy_digests_laws list_order sample_invite_text
    sample_invite "sip:bob@203.0.113.77:5060" 69 "sip.example.com" None sample_invite_parses)
    as (m & Hm & _ & _ & Hv & _ & _ & _ & Ho & _); [by_decide..|].
  exists m. split; [exact Hm|]. rewrite Hv, Ho by by_decide. split; vm_compute; reflexivity.
Defined.

Lemma forwarded_cancel_matches_witness :
  exists c, parse (@build_forwarded_cancel_for_target toy_digests list_order sample_invite
      "sip:bob@203.0.113.77:5060" 69 "sip.example.com") = Ok c /\
    all_headers_vec c "cseq" = ["7 CANCEL"].
Proof.
  destruct (@forwarded_cancel_matches toy_digests toy_digests_laws list_order sample_invite_text
    sample_invite sample_invite_text sample_invite "sip:bob@203.0.113.77:5060" 69 69
    "sip.example.com" None "7" "INVITE" sample_invite_parses sample_invite_parses)
    as (i & c & _ & Hc & _ & _ & _ & Hs & _); [done|by_decide..|].
  exists c. split; [exact Hc|exact Hs].
Defined.

Lemma relayed_response_via_witness :
  strip_proxy_via (render "SIP/2.0 180 Ringing"
    [("Via", @proxy_via toy_digests "sip.example.com" "call-1"); ("Via", "SIP/2.0/UDP h;branch=1")] "")
    "sip.example.com" =
  render "SIP/2.0 180 Ringing" [("Via", "SIP/2.0/UDP h;branch=1")] "".
Proof. apply (@relayed_response_via toy_digests toy_digests_laws); by_decide. Defined.
