(* ===== verification/SecurityGuard.v ===== *)
(** * Abuse protection: [backend/src/security_guard.rs]

    The sliding-window failure counters and the temporary blocks, and the
    refinement of a specification that only looks at the history of events.

    [Instant] and [Duration] are nanosecond counts; an operation reads the clock
    once, as its argument [now]. *)

From S2P Require Import Prelude RustStr.

Open Scope str_scope.
Open Scope Z_scope.

(** ** Data *)

Inductive AuthSurface := SipRegister | SipInvite | ApiLogin.

Definition surface_db_value (s : AuthSurface) : str :=
  match s with
  | SipRegister => "sip_register"
  | SipInvite => "sip_invite"
  | ApiLogin => "api_login"
  end.

Inductive SecurityEventType :=
  | AuthFailed | InviteRejected | IpBlocked | AuthSucceeded | IpUnblocked.

Definition event_db_value (e : SecurityEventType) : str :=
  match e with
  | AuthFailed => "auth_failed"
  | InviteRejected => "invite_rejected"
  | IpBlocked => "ip_blocked"
  | AuthSucceeded => "auth_succeeded"
  | IpUnblocked => "ip_unblocked"
  end.

#[export] Instance AuthSurface_eq_dec : EqDecision AuthSurface.
Proof. solve_decision. Defined.
#[export] Instance SecurityEventType_eq_dec : EqDecision SecurityEventType.
Proof. solve_decision. Defined.

Record GuardLimits := {
  window_secs : Z;
  ip_fail_threshold : Z;
  user_ip_fail_threshold : Z;
  block_secs : Z;
}.

Record ActiveBlock := {
  ab_ip : str;
  ab_until : Z;
  ab_surface : AuthSurface;
  ab_username : option str;
}.

Record SecurityGuard := {
  limits : GuardLimits;
  ip_failures : gmap str (list Z);
  user_ip_failures : gmap (str * str) (list Z);
  blocks : gmap str ActiveBlock;
}.

(** [Duration::from_secs] *)
Definition from_secs (n : Z) : Z := n * 1000000000.

(** ** Operations *)

Definition guard_new (l : GuardLimits) : SecurityGuard :=
  {| limits := l; ip_failures := ∅; user_ip_failures := ∅; blocks := ∅ |}.

Definition set_blocks (g : SecurityGuard) (b : gmap str ActiveBlock) : SecurityGuard :=
  {| limits := limits g; ip_failures := ip_failures g;
     user_ip_failures := user_ip_failures g; blocks := b |}.

(** [now.saturating_duration_since(front) > window] decides the loop. *)
Definition prune_old (entries : list Z) (now window : Z) : list Z :=
  drop_while (fun front => window <? Int.sat_sub now front) entries.

Definition prune_expired_blocks (now : Z) (g : SecurityGuard) : SecurityGuard :=
  set_blocks g (filter (fun kb => now < ab_until kb.2) (blocks g)).

Definition is_blocked (now : Z) (ip : str) (g : SecurityGuard) : bool * SecurityGuard :=
  let g := prune_expired_blocks now g in
  (bool_decide (is_Some (blocks g !! ip)), g).

(** [entry(key).or_default()], [push_back(now)], [prune_old] *)
Definition note_failure `{Countable K} (now window : Z) (key : K) (m : gmap K (list Z))
    : Z * gmap K (list Z) :=
  let entries := prune_old (default [] (m !! key) ++ [now]) now window in
  (Z.of_nat (length entries), <[key := entries]> m).

Definition record_failure (now : Z) (surface : AuthSurface) (ip : str)
    (username : option str) (g : SecurityGuard) : bool * SecurityGuard :=
  let g := prune_expired_blocks now g in
  let window := from_secs (window_secs (limits g)) in
  let '(ip_count, ipf) := note_failure now window ip (ip_failures g) in
  let '(user_ip_count, uipf) :=
    match username with
    | Some user => note_failure now window (ip, user) (user_ip_failures g)
    | None => (0, user_ip_failures g)
    end in
  let g := {| limits := limits g; ip_failures := ipf; user_ip_failures := uipf;
              blocks := blocks g |} in
  if (ip_fail_threshold (limits g) <=? ip_count)
     || (user_ip_fail_threshold (limits g) <=? user_ip_count)
  then
    let until := now + from_secs (block_secs (limits g)) in
    (true, set_blocks g (<[ip := {| ab_ip := ip; ab_until := until; ab_surface := surface;
                                    ab_username := username |}]> (blocks g)))
  else (false, g).

Definition record_success (ip : str) (username : option str) (g : SecurityGuard)
    : SecurityGuard :=
  match username with
  | Some user =>
      {| limits := limits g; ip_failures := ip_failures g;
         user_ip_failures := delete (ip, user) (user_ip_failures g); blocks := blocks g |}
  | None => g
  end.

Definition unblock (ip : str) (g : SecurityGuard) : SecurityGuard :=
  set_blocks g (delete ip (blocks g)).

(** [blocks.values()] in some order: here the order of the keys. *)
Definition list_active_blocks (now : Z) (g : SecurityGuard)
    : list ActiveBlock * SecurityGuard :=
  let g := prune_expired_blocks now g in
  (map snd (map_to_list (blocks g)), g).

(** ** Histories

    The calls a guard receives, newest first, and what they mean without any
    data structure. *)

Inductive GuardEvent :=
  | Failure (surface : AuthSurface) (ip : str) (username : option str)
  | Success (ip : str) (username : option str)
  | Unblock (ip : str)
  | CheckBlocked (ip : str)
  | ListBlocks.

Definition guard_step (now : Z) (e : GuardEvent) (g : SecurityGuard) : SecurityGuard :=
  match e with
  | Failure s ip u => (record_failure now s ip u g).2
  | Success ip u => record_success ip u g
  | Unblock ip => unblock ip g
  | CheckBlocked ip => (is_blocked now ip g).2
  | ListBlocks => (list_active_blocks now g).2
  end.

Definition history := list (Z * GuardEvent).

Fixpoint guard_run (l : GuardLimits) (h : history) : SecurityGuard :=
  match h with
  | [] => guard_new l
  | (t, e) :: h' => guard_step t e (guard_run l h')
  end.

(** The times of the failures of an address, newest first. *)
Fixpoint ip_times (ip : str) (h : history) : list Z :=
  match h with
  | [] => []
  | (t, Failure _ ip' _) :: h' => (if decide (ip' = ip) then [t] else []) ++ ip_times ip h'
  | _ :: h' => ip_times ip h'
  end.

(** Those of an address and user name since their last success. *)
Fixpoint user_times (ip user : str) (h : history) : list Z :=
  match h with
  | [] => []
  | (t, Failure _ ip' u) :: h' =>
      (if decide (ip' = ip /\ u = Some user) then [t] else []) ++ user_times ip user h'
  | (_, Success ip' u) :: h' =>
      if decide (ip' = ip /\ u = Some user) then [] else user_times ip user h'
  | _ :: h' => user_times ip user h'
  end.

Definition recent (now window : Z) (ts : list Z) : list Z :=
  filter (fun t => now - t <= window) ts.

(** Does the failure that heads the history reach a threshold? *)
Definition reaches (l : GuardLimits) (now : Z) (ip : str) (u : option str) (h : history) : bool :=
  let window := from_secs (window_secs l) in
  (ip_fail_threshold l <=? Z.of_nat (length (recent now window (ip_times ip h))))
  || (user_ip_fail_threshold l <=?
      match u with
      | Some user => Z.of_nat (length (recent now window (user_times ip user h)))
      | None => 0
      end).

(** When was the address last blocked, no unblock having followed? *)
Fixpoint blocked_at (l : GuardLimits) (ip : str) (h : history) : option Z :=
  match h with
  | [] => None
  | (t, Failure _ ip' u) :: h' =>
      if decide (ip' = ip) then
        if reaches l t ip u h then Some t else blocked_at l ip h'
      else blocked_at l ip h'
  | (_, Unblock ip') :: h' => if decide (ip' = ip) then None else blocked_at l ip h'
  | _ :: h' => blocked_at l ip h'
  end.

Definition spec_blocked (l : GuardLimits) (now : Z) (ip : str) (h : history) : bool :=
  match blocked_at l ip h with
  | Some t => now <? t + from_secs (block_secs l)
  | None => false
  end.

(** The clock never runs backwards. *)
Fixpoint chronological (now : Z) (h : history) : Prop :=
  match h with
  | [] => True
  | (t, _) :: h' => t <= now /\ chronological t h'
  end.

(** ** Facts: windows *)

Lemma recent_app now w ts us : recent now w (ts ++ us) = recent now w ts ++ recent now w us.
Proof. apply filter_app. Qed.

Lemma recent_reverse now w ts : recent now w (reverse ts) = reverse (recent now w ts).
Proof.
  induction ts as [|t ts IH]; [done|]. rewrite reverse_cons, recent_app, IH.
  unfold recent at 2 3. rewrite !filter_cons, filter_nil.
  case_decide; [by rewrite reverse_cons|by rewrite app_nil_r].
Qed.

Lemma recent_recent now now' w ts :
  now <= now' -> recent now' w (recent now w ts) = recent now' w ts.
Proof.
  intros Hn. induction ts as [|t ts IH]; [done|]. unfold recent in *. rewrite !filter_cons.
  repeat (case_decide; rewrite ?filter_cons); try rewrite IH; done || lia || idtac.
Qed.

(** On an ordered queue popping the front while it is too old removes
    everything that is too old. *)
Lemma prune_old_recent now w ts :
  StronglySorted Z.le ts -> Forall (fun t => t <= now) ts -> 0 <= w ->
  prune_old ts now w = recent now w ts.
Proof.
  intros Hs Hle Hw. induction ts as [|t ts IH]; [done|].
  apply StronglySorted_cons in Hs as [Ht Hs]. apply Forall_cons in Hle as [Hn Hle].
  unfold prune_old, recent in *. cbn [drop_while]. rewrite filter_cons.
  unfold Int.sat_sub in *. rewrite Z.max_r in * by lia.
  case_decide as Hd.
  - rewrite (proj2 (Z.ltb_ge w (now - t))) by lia. f_equal.
    symmetry. apply filter_Forall_id. eapply Forall_impl; [exact Ht|]. lia.
  - rewrite (proj2 (Z.ltb_lt w (now - t))) by lia. by apply IH.
Qed.

Lemma chronological_weaken now now' h : chronological now h -> now <= now' -> chronological now' h.
Proof. destruct h as [|[t e] h]; [done|]. intros [? ?] ?. split; [lia|done]. Qed.

Definition descending (now : Z) (ts : list Z) : Prop :=
  StronglySorted Z.ge ts /\ Forall (fun t => t <= now) ts.

Lemma descending_cons now t ts : descending t ts -> t <= now -> descending now (t :: ts).
Proof.
  intros [Hs Hle] Hn. split.
  - constructor; [done|]. eapply Forall_impl; [exact Hle|]. cbn. lia.
  - constructor; [done|]. eapply Forall_impl; [exact Hle|]. cbn. lia.
Qed.

Lemma descending_weaken now now' ts : descending now ts -> now <= now' -> descending now' ts.
Proof. intros [? Hle] ?. split; [done|]. eapply Forall_impl; [exact Hle|]. cbn. lia. Qed.

Lemma ip_times_descending ip now h : chronological now h -> descending now (ip_times ip h).
Proof.
  revert now. induction h as [|[t e] h IH]; intros now Hc; [by repeat constructor|].
  destruct Hc as [Ht Hc]. specialize (IH t Hc).
  destruct e; cbn; try by eapply descending_weaken.
  case_decide; cbn; [by apply descending_cons|by eapply descending_weaken].
Qed.

Lemma user_times_descending ip u now h : chronological now h -> descending now (user_times ip u h).
Proof.
  revert now. induction h as [|[t e] h IH]; intros now Hc; [by repeat constructor|].
  destruct Hc as [Ht Hc]. specialize (IH t Hc).
  destruct e; cbn; try by eapply descending_weaken.
  - case_decide; cbn; [by apply descending_cons|by eapply descending_weaken].
  - case_decide; [by repeat constructor|by eapply descending_weaken].
Qed.

(** ** Simulation *)

(** A queue [q] of the guard stands for the failure times [ts] of the history. *)
Definition queue_ok (now w : Z) (q ts : list Z) : Prop :=
  StronglySorted Z.le q /\ Forall (fun t => t <= now) q /\
  forall t, now <= t -> recent t w q = reverse (recent t w ts).

Lemma queue_ok_nil now w : queue_ok now w [] [].
Proof. by repeat constructor. Qed.

Lemma queue_ok_weaken now now' w q ts : queue_ok now w q ts -> now <= now' -> queue_ok now' w q ts.
Proof.
  intros (Hs & Hle & Hr) Hn. split; [done|]. split.
  - eapply Forall_impl; [exact Hle|]. cbn. lia.
  - intros t Ht. apply Hr. lia.
Qed.

Lemma StronglySorted_snoc q t :
  StronglySorted Z.le q -> Forall (fun x => x <= t) q -> StronglySorted Z.le (q ++ [t]).
Proof.
  induction 1 as [|x q Hs IH Hx]; intros Hle; [by repeat constructor|].
  apply Forall_cons in Hle as [Ht Hle]. cbn. constructor; [by apply IH|].
  apply Forall_app. split; [done|]. by repeat constructor.
Qed.

Lemma StronglySorted_recent now w q : StronglySorted Z.le q -> StronglySorted Z.le (recent now w q).
Proof.
  induction 1 as [|x q Hs IH Hx]; [constructor|]. unfold recent in *. rewrite filter_cons.
  case_decide; [|done]. constructor; [done|]. by apply Forall_filter_keep.
Qed.

Lemma queue_ok_push now t w q ts :
  queue_ok now w q ts -> now <= t -> 0 <= w ->
  queue_ok t w (prune_old (q ++ [t]) t w) (t :: ts) /\
  length (prune_old (q ++ [t]) t w) = length (recent t w (t :: ts)).
Proof.
  intros (Hs & Hle & Hr) Hn Hw.
  assert (Forall (fun x => x <= t) q) as Hle'.
  { eapply Forall_impl; [exact Hle|]. cbn. lia. }
  assert (StronglySorted Z.le (q ++ [t])) as Hs' by by apply StronglySorted_snoc.
  assert (Forall (fun x => x <= t) (q ++ [t])) as Hall.
  { apply Forall_app. split; [done|]. repeat constructor. lia. }
  rewrite prune_old_recent by done.
  assert (forall t', t <= t' -> recent t' w (q ++ [t]) = reverse (recent t' w (t :: ts))) as Hrev.
  { intros t' Ht'. rewrite recent_app, Hr by lia. unfold recent. rewrite !filter_cons.
    case_decide; [by rewrite reverse_cons|by rewrite filter_nil, app_nil_r]. }
  split.
  - split; [by apply StronglySorted_recent|]. split; [by apply Forall_filter_keep|].
    intros t' Ht'. rewrite recent_recent by done. by apply Hrev.
  - by rewrite Hrev, length_reverse by lia.
Qed.

Record guard_sim (l : GuardLimits) (now : Z) (h : history) (g : SecurityGuard) : Prop := {
  sim_limits : limits g = l;
  sim_ip ip : queue_ok now (from_secs (window_secs l)) (default [] (ip_failures g !! ip))
    (ip_times ip h);
  sim_user ip u : queue_ok now (from_secs (window_secs l))
    (default [] (user_ip_failures g !! (ip, u))) (user_times ip u h);
  sim_blocks ip t : now <= t ->
    (exists b, blocks g !! ip = Some b /\ t < ab_until b) <-> spec_blocked l t ip h = true;
}.

Definition wf_limits (l : GuardLimits) : Prop :=
  0 <= window_secs l /\ 0 <= ip_fail_threshold l /\ 0 <= user_ip_fail_threshold l /\
  0 <= block_secs l.

#[export] Instance wf_limits_dec l : Decision (wf_limits l).
Proof. unfold wf_limits. apply _. Defined.

Lemma prune_expired_blocks_lookup now g ip b :
  blocks (prune_expired_blocks now g) !! ip = Some b <->
  blocks g !! ip = Some b /\ now < ab_until b.
Proof. cbn. by rewrite map_lookup_filter_Some. Qed.

(** Events that leave the counters alone. *)
Lemma guard_sim_prune l now now' h g :
  guard_sim l now h g -> now <= now' -> guard_sim l now' h (prune_expired_blocks now' g).
Proof.
  intros [Hl Hip Hu Hb] Hn. constructor; cbn [prune_expired_blocks set_blocks limits
    ip_failures user_ip_failures]; [done|..].
  - intros. by eapply queue_ok_weaken.
  - intros. by eapply queue_ok_weaken.
  - intros ip t Ht. rewrite <-Hb by lia. setoid_rewrite prune_expired_blocks_lookup.
    naive_solver lia.
Qed.

Lemma note_failure_ok `{Countable K} now t w (k k' : K) m ts :
  queue_ok now w (default [] (m !! k')) ts -> now <= t -> 0 <= w ->
  queue_ok t w (default [] ((note_failure t w k m).2 !! k')) ((if decide (k = k') then [t] else []) ++ ts) /\
  (k = k' -> (note_failure t w k m).1 = Z.of_nat (length (recent t w (t :: ts)))).
Proof.
  intros Hq Hn Hw. unfold note_failure. cbn [fst snd]. rewrite lookup_insert.
  case_decide as Hk; [subst k'|by split; [eapply queue_ok_weaken|]].
  destruct (queue_ok_push now t w _ ts Hq Hn Hw) as [? Hlen]. split; [done|]. intros _.
  by rewrite Hlen.
Qed.

Lemma reaches_cons l t s ip u h :
  reaches l t ip u ((t, Failure s ip u) :: h) =
  (ip_fail_threshold l <=?
     Z.of_nat (length (recent t (from_secs (window_secs l)) (t :: ip_times ip h))))
  || (user_ip_fail_threshold l <=?
      match u with
      | Some user =>
          Z.of_nat (length (recent t (from_secs (window_secs l)) (t :: user_times ip user h)))
      | None => 0
      end).
Proof.
  unfold reaches. cbn [ip_times]. rewrite decide_True by done. cbn [app].
  destruct u as [user|]; [|done]. cbn [user_times]. by rewrite decide_True.
Qed.

(** The per-user counter of [record_failure]. *)
Lemma user_failure_ok t s ip u h w m :
  (forall ip' u', queue_ok t w (default [] (m !! (ip', u'))) (user_times ip' u' h)) -> 0 <= w ->
  exists uc uipf,
    match u with Some user => note_failure t w (ip, user) m | None => (0, m) end = (uc, uipf) /\
    uc = match u with
      | Some user => Z.of_nat (length (recent t w (t :: user_times ip user h)))
      | None => 0 end /\
    forall ip' u', queue_ok t w (default [] (uipf !! (ip', u')))
      (user_times ip' u' ((t, Failure s ip u) :: h)).
Proof.
  intros Hu Hw. destruct u as [user|].
  - pose proof (fun ip' u' => note_failure_ok t t w (ip, user) (ip', u') m
      (user_times ip' u' h) (Hu ip' u') (Z.le_refl t) Hw) as Hun.
    destruct (note_failure _ _ _ _) as [uc uipf]. eexists _, _. split; [done|]. split.
    + by apply (Hun ip user).
    + intros ip' u'. destruct (Hun ip' u') as [Hq _]. cbn [fst snd] in Hq.
      cbn [user_times]. do 2 case_decide; naive_solver.
  - eexists _, _. do 2 (split; [done|]). intros ip' u'. cbn [user_times].
    rewrite decide_False by naive_solver. apply Hu.
Qed.

(** The failure that heads a history is answered, and recorded, as the
    specification says. *)
Lemma record_failure_sim l now t s ip u h g :
  wf_limits l -> guard_sim l now h g -> now <= t ->
  (record_failure t s ip u g).1 = reaches l t ip u ((t, Failure s ip u) :: h) /\
  guard_sim l t ((t, Failure s ip u) :: h) (record_failure t s ip u g).2.
Proof.
  intros (Hw & _ & _ & Hbs) Hsim Hn.
  pose proof (guard_sim_prune l now t h g Hsim Hn) as [Hl Hip Hu Hb]. clear Hsim Hn.
  unfold record_failure. set (g' := prune_expired_blocks t g) in *. rewrite reaches_cons.
  assert (0 <= from_secs (window_secs l)) as Hw' by (unfold from_secs; lia).
  set (w := from_secs (window_secs l)) in *. rewrite Hl. fold w.
  pose proof (fun ip' => note_failure_ok t t w ip ip' (ip_failures g') (ip_times ip' h)
    (Hip ip') (Z.le_refl t) Hw') as Hnote.
  destruct (note_failure t w ip (ip_failures g')) as [ic ipf]. cbn [fst snd] in Hnote.
  pose proof (proj2 (Hnote ip) eq_refl) as ->.
  destruct (user_failure_ok t s ip u h w (user_ip_failures g') Hu Hw')
    as (uc & uipf & -> & -> & Huq).
  cbn [limits blocks].
  assert (forall (g'' : SecurityGuard), limits g'' = l -> ip_failures g'' = ipf ->
    user_ip_failures g'' = uipf ->
    (forall ip' t', t <= t' -> (exists b, blocks g'' !! ip' = Some b /\ t' < ab_until b) <->
      spec_blocked l t' ip' ((t, Failure s ip u) :: h) = true) ->
    guard_sim l t ((t, Failure s ip u) :: h) g'') as Hmk.
  { intros g'' Hl' Hi' Hu' Hb'. constructor; [done|..|done].
    - intros ip'. rewrite Hi'. apply Hnote.
    - intros ip' u'. rewrite Hu'. apply Huq. }
  rewrite <-reaches_cons with (s := s).
  destruct (reaches l t ip u _) eqn:Er; cbn [fst snd]; (split; [done|]); apply Hmk; try done.
  - intros ip' t' Ht'. cbn [blocks set_blocks]. rewrite lookup_insert.
    unfold spec_blocked. cbn [blocked_at]. case_decide as Hi.
    + subst ip'. rewrite Er, Z.ltb_lt. naive_solver.
    + by apply Hb.
  - intros ip' t' Ht'. cbn [blocks]. rewrite Hb by done.
    unfold spec_blocked. cbn [blocked_at]. case_decide; [subst|done]. by rewrite Er.
Qed.

Lemma record_success_sim l now t ip u h g :
  guard_sim l now h g -> now <= t ->
  guard_sim l t ((t, Success ip u) :: h) (record_success ip u g).
Proof.
  intros [Hl Hip Hu Hb] Hn. constructor.
  - by destruct u.
  - intros ip'. cbn [ip_times]. destruct u; by eapply queue_ok_weaken.
  - intros ip' u'. cbn [user_times]. destruct u as [user|]; cbn [record_success user_ip_failures].
    + rewrite lookup_delete. case_decide as H1; case_decide as H2.
      * apply queue_ok_nil.
      * exfalso. clear -H1 H2. naive_solver.
      * exfalso. clear -H1 H2. naive_solver.
      * by eapply queue_ok_weaken.
    + rewrite decide_False by naive_solver. by eapply queue_ok_weaken.
  - intros ip' t' Ht'. specialize (Hb ip' t' ltac:(lia)). by destruct u.
Qed.

Lemma unblock_sim l now t ip h g :
  guard_sim l now h g -> now <= t -> guard_sim l t ((t, Unblock ip) :: h) (unblock ip g).
Proof.
  intros [Hl Hip Hu Hb] Hn. constructor; cbn [unblock set_blocks limits ip_failures
    user_ip_failures blocks]; [done|..].
  - intros ip'. by eapply queue_ok_weaken.
  - intros ip' u'. by eapply queue_ok_weaken.
  - intros ip' t' Ht'. rewrite lookup_delete. unfold spec_blocked. cbn [blocked_at].
    case_decide; [clear; naive_solver|]. apply Hb. lia.
Qed.

Lemma guard_run_sim l now h :
  wf_limits l -> chronological now h ->
  exists now', now' <= now /\ guard_sim l now' h (guard_run l h).
Proof.
  intros Hl. revert now. induction h as [|[t e] h IH]; intros now Hc.
  - exists now. split; [lia|]. constructor; try done; try (intros; apply queue_ok_nil).
    intros ip t Ht. cbn. rewrite lookup_empty. clear. naive_solver.
  - destruct Hc as [Ht Hc]. destruct (IH t Hc) as (now' & Hn & Hsim). exists t.
    split; [done|]. cbn [guard_run guard_step]. destruct e.
    + by eapply record_failure_sim.
    + by eapply record_success_sim.
    + by eapply unblock_sim.
    + pose proof (guard_sim_prune _ _ _ _ _ Hsim Hn) as [? ? ? ?]. by constructor.
    + pose proof (guard_sim_prune _ _ _ _ _ Hsim Hn) as [? ? ? ?]. by constructor.
Qed.

(** ** Theorems *)

(** C12: The guard refines its history: after any chronological sequence of
    failures, successes, unblocks and queries, [is_blocked] answers whether some
    failure of that address less than [block_secs] ago reached one of the two
    sliding-window thresholds (counting the failures of the address, and those of
    the address and user name since their last success) with no unblock since. *)
Theorem is_blocked_refines l now ip h :
  wf_limits l -> chronological now h ->
  (is_blocked now ip (guard_run l h)).1 = spec_blocked l now ip h.
Proof.
  intros Hl Hc. destruct (guard_run_sim l now h Hl Hc) as (now' & Hn & [_ _ _ Hb]).
  apply eq_true_iff_eq. rewrite <-Hb by done. cbn [is_blocked fst].
  rewrite bool_decide_eq_true. unfold is_Some.
  setoid_rewrite prune_expired_blocks_lookup. done.
Qed.

Definition demo_limits : GuardLimits :=
  {| window_secs := 60; ip_fail_threshold := 3; user_ip_fail_threshold := 2; block_secs := 30 |}.

Definition demo_history : history :=
  [(from_secs 12, Failure SipRegister "10.0.0.1" (Some "bob"));
   (from_secs 11, Success "10.0.0.1" (Some "alice"));
   (from_secs 10, Failure SipRegister "10.0.0.1" (Some "alice"));
   (from_secs 1, Failure SipRegister "10.0.0.1" (Some "alice"))].

Lemma is_blocked_refines_witness :
  wf_limits demo_limits /\ chronological (from_secs 20) demo_history /\
  (is_blocked (from_secs 20) "10.0.0.1" (guard_run demo_limits demo_history)).1 = true.
Proof.
  assert (wf_limits demo_limits) as Hl by by_decide.
  assert (chronological (from_secs 20) demo_history) as Hc by (cbv; repeat split; congruence).
  split; [exact Hl|]. split; [exact Hc|].
  rewrite (is_blocked_refines demo_limits (from_secs 20) "10.0.0.1" demo_history Hl Hc).
  vm_compute. reflexivity.
Defined.

(** [record_failure] answers "block now" exactly when, this failure counted,
    the failures of the address within the window reach the address threshold or
    those of the address and user name since their last success reach the other. *)
Theorem record_failure_refines l now s ip u h :
  wf_limits l -> chronological now h ->
  (record_failure now s ip u (guard_run l h)).1 =
  reaches l now ip u ((now, Failure s ip u) :: h).
Proof.
  intros Hl Hc. destruct (guard_run_sim l now h Hl Hc) as (now' & Hn & Hsim).
  by eapply record_failure_sim.
Qed.

Lemma record_failure_refines_witness :
  wf_limits demo_limits /\ chronological (from_secs 11) (tail demo_history) /\
  (record_failure (from_secs 12) SipRegister "10.0.0.1" (Some "bob")
     (guard_run demo_limits (tail demo_history))).1 = true.
Proof.
  assert (wf_limits demo_limits) as Hl by by_decide.
  assert (chronological (from_secs 12) (tail demo_history)) as Hc
    by (cbv; repeat split; congruence).
  split; [exact Hl|]. split; [cbv; repeat split; congruence|].
  rewrite (record_failure_refines demo_limits (from_secs 12) SipRegister "10.0.0.1"
    (Some "bob") (tail demo_history) Hl Hc).
  vm_compute. reflexivity.
Defined.
