(* ===== verification/Acl.v ===== *)
(** * The IP access list: [backend/src/acl.rs] and the tables it shares with
    [backend/src/security_guard.rs]

    The [ipnet] crate is a parameter ([IpNets]); the [sip_acl] and
    [sip_security_events] tables are lists of rows in insertion order. *)

From S2P Require Import Prelude RustStr Net SecurityGuard.

Open Scope str_scope.
Open Scope Z_scope.

(** ** The [ipnet] crate *)

Class IpNets := {
  IpNet : Type;
  ipnet_from_str : str -> option IpNet;
  ipnet_to_string : IpNet -> str;
  ipnet_contains : IpNet -> IpAddr -> bool;
}.

(** The text of the network that holds one host. *)
Definition host_cidr (i : IpAddr) : str :=
  match i with
  | V4 _ _ _ _ => show_ip i ++ "/32"
  | V6 _ => show_ip i ++ "/128"
  end.

(** A host network is accepted and contains its host. *)
Class IpNetLaws `{IpNets} : Prop := {
  ipnet_host i : exists n, ipnet_from_str (host_cidr i) = Some n /\ ipnet_contains n i = true;
}.

(** ** Rules *)

Inductive AclAction := ActAllow | ActDeny.
Inductive DefaultPolicy := PolicyAllow | PolicyDeny.

#[export] Instance AclAction_eq_dec : EqDecision AclAction.
Proof. solve_decision. Defined.
#[export] Instance DefaultPolicy_eq_dec : EqDecision DefaultPolicy.
Proof. solve_decision. Defined.

Definition policy_from_config (s : str) : DefaultPolicy :=
  if decide (Str.to_lower (Str.trim s) = "deny") then PolicyDeny else PolicyAllow.

Definition policy_is_allowed (p : DefaultPolicy) : bool :=
  match p with PolicyAllow => true | PolicyDeny => false end.

(** ** Tables *)

Record AclEntry := {
  acl_id : Z;
  acl_action : str;
  acl_cidr : str;
  acl_description : option str;
  acl_priority : Z;
  acl_enabled : Z;
}.

Record SecurityEventRow := {
  ev_surface : str;
  ev_type : str;
  ev_source_ip : str;
  ev_username : option str;
  ev_detail : str;
  ev_created_at : Z;
}.

(** The unauthenticated-INVITE ban of the auto-block. *)
Definition INVITE_AUTO_BAN_DESCRIPTION : str := "auto-ban: invalid sip invite abuse".

Definition persist_security_event (now : Z) (surface : AuthSurface) (event_type : SecurityEventType)
    (source_ip : str) (username : option str) (detail : str) (table : list SecurityEventRow)
    : list SecurityEventRow :=
  table ++ [{| ev_surface := surface_db_value surface; ev_type := event_db_value event_type;
               ev_source_ip := source_ip; ev_username := username; ev_detail := detail;
               ev_created_at := now |}].

(** [AUTO_INCREMENT]: an id above every id of the table. *)
Definition next_acl_id (table : list AclEntry) : Z :=
  next_id (map acl_id table).

Definition is_active_deny (cidr : str) (r : AclEntry) : bool :=
  bool_decide (acl_action r = "deny") && bool_decide (acl_cidr r = cidr)
  && (acl_enabled r =? 1).

(** [INSERT ... SELECT ... WHERE NOT EXISTS (...)] *)
Definition persist_acl_ban (i : IpAddr) (priority : Z) (description : str)
    (table : list AclEntry) : list AclEntry :=
  let cidr := host_cidr i in
  if existsb (is_active_deny cidr) table then table
  else table ++ [{| acl_id := next_acl_id table; acl_action := "deny"; acl_cidr := cidr;
                    acl_description := Some description; acl_priority := priority;
                    acl_enabled := 1 |}].

(** [ORDER BY priority ASC, id ASC] *)
Definition row_le (r s : AclEntry) : Prop :=
  acl_priority r < acl_priority s \/ acl_priority r = acl_priority s /\ acl_id r <= acl_id s.

#[export] Instance row_le_dec : RelDecision row_le.
Proof. intros r s. unfold row_le. apply _. Defined.
#[export] Instance row_le_total : Total row_le.
Proof. intros r s. unfold row_le. lia. Qed.
#[export] Instance row_le_trans : Transitive row_le.
Proof. intros r s t. unfold row_le. lia. Qed.

Section checker.
Context `{IpNets}.

Record AclRule := { rule_action : AclAction; rule_network : IpNet }.

Record AclChecker := { rules : list AclRule; default_policy : DefaultPolicy }.

Definition checker_new (p : DefaultPolicy) : AclChecker :=
  {| rules := []; default_policy := p |}.

Fixpoint first_rule (i : IpAddr) (rs : list AclRule) : option AclRule :=
  match rs with
  | [] => None
  | r :: rs' => if ipnet_contains (rule_network r) i then Some r else first_rule i rs'
  end.

Definition is_allowed (c : AclChecker) (i : IpAddr) : bool :=
  match first_rule i (rules c) with
  | Some r => bool_decide (rule_action r = ActAllow)
  | None => policy_is_allowed (default_policy c)
  end.

(** One round of the loop of [load_from_db]: [None] is [continue]. *)
Definition load_row (r : AclEntry) : option AclRule :=
  network ← ipnet_from_str (acl_cidr r);
  action ← (if decide (acl_action r = "allow") then Some ActAllow
            else if decide (acl_action r = "deny") then Some ActDeny else None);
  Some {| rule_action := action; rule_network := network |}.

Definition load_from_db (table : list AclEntry) (p : DefaultPolicy) : AclChecker :=
  let rows := merge_sort row_le (filter (fun r => acl_enabled r = 1) table) in
  {| rules := omap load_row rows; default_policy := p |}.

Definition parse_cidr (s : str) : result str :=
  match ipnet_from_str s with
  | Some n => Ok (ipnet_to_string n)
  | None => Err ("invalid CIDR '" ++ s ++ "'")
  end.

(** ** Facts *)

(** A row that decides about an address: enabled, readable and matching. *)
Definition row_applies (i : IpAddr) (r : AclEntry) : bool :=
  (acl_enabled r =? 1) &&
  match load_row r with Some rule => ipnet_contains (rule_network rule) i | None => false end.

Definition row_allows (r : AclEntry) : bool := bool_decide (acl_action r = "allow").

Lemma load_row_action r rule :
  load_row r = Some rule -> bool_decide (rule_action rule = ActAllow) = row_allows r.
Proof.
  unfold load_row, row_allows. destruct (ipnet_from_str _); [|done]. cbn.
  case_decide as Ha; cbn.
  - intros; simplify_eq/=. by rewrite Ha.
  - case_decide as Hd; cbn; [|done]. intros; simplify_eq/=. by rewrite Hd.
Qed.

Lemma first_rule_omap i rows :
  Forall (fun r => acl_enabled r = 1) rows ->
  first_rule i (omap load_row rows) = find_first (row_applies i) rows ≫= load_row.
Proof.
  induction 1 as [|r rows Hr _ IH]; [done|].
  assert (row_applies i r = match load_row r with
    | Some rule => ipnet_contains (rule_network rule) i | None => false end) as Ha
    by (unfold row_applies; by rewrite Hr).
  cbn [find_first]. rewrite Ha. cbn [omap list_omap].
  destruct (load_row r) as [rule|] eqn:E; cbn [first_rule]; [|done].
  destruct (ipnet_contains (rule_network rule) i); [by rewrite Some_bind|done].
Qed.

Lemma find_first_sorted (P : AclEntry -> bool) rows r :
  StronglySorted row_le rows -> find_first P rows = Some r ->
  forall s, s ∈ rows -> P s = true -> row_le r s.
Proof.
  induction 1 as [|x rows Hs IH Hx]; cbn [find_first]; [done|].
  destruct (P x) eqn:Px; intros Hf s Hin HP.
  - simplify_eq/=. apply elem_of_cons in Hin as [->|Hin].
    + unfold row_le. lia.
    + rewrite Forall_forall in Hx. by apply Hx.
  - apply elem_of_cons in Hin as [->|Hin]; [congruence|]. by apply IH.
Qed.

Definition sorted_rows (table : list AclEntry) : list AclEntry :=
  merge_sort row_le (filter (fun r => acl_enabled r = 1) table).

Lemma sorted_rows_sorted table : StronglySorted row_le (sorted_rows table).
Proof. apply StronglySorted_merge_sort; apply _. Qed.

Lemma sorted_rows_elem table r : r ∈ sorted_rows table <-> acl_enabled r = 1 /\ r ∈ table.
Proof.
  unfold sorted_rows. rewrite (merge_sort_Permutation row_le).
  by rewrite list_elem_of_filter.
Qed.

Lemma sorted_rows_enabled table : Forall (fun r => acl_enabled r = 1) (sorted_rows table).
Proof. apply Forall_forall. by intros r [? _]%sorted_rows_elem. Qed.

Lemma row_applies_loads i r : row_applies i r = true -> is_Some (load_row r).
Proof.
  unfold row_applies. destruct (load_row r); [eauto|]. intros. by bool_simpl.
Qed.

Lemma is_allowed_load table p i :
  is_allowed (load_from_db table p) i =
  match find_first (row_applies i) (sorted_rows table) with
  | Some r => row_allows r
  | None => policy_is_allowed p
  end.
Proof.
  unfold is_allowed, load_from_db. cbn [rules default_policy]. fold (sorted_rows table).
  rewrite first_rule_omap by apply sorted_rows_enabled.
  destruct (find_first _ _) as [r|] eqn:E; [|done]. rewrite Some_bind.
  apply find_first_Some in E as [_ Hr]. destruct (row_applies_loads i r Hr) as [rule Hrule].
  rewrite Hrule. by apply load_row_action.
Qed.
End checker.

(** ** Theorems *)

(** C13: Access decisions follow the table: whatever the order of the rows, the
    loaded checker answers with the action of an enabled, readable row that
    matches the address and comes first by (priority, id), and with the default
    policy exactly when no such row exists. *)
Theorem is_allowed_first_match `{IpNets} table p i :
  (exists r, r ∈ table /\ row_applies i r = true /\
     (forall s, s ∈ table -> row_applies i s = true -> row_le r s) /\
     is_allowed (load_from_db table p) i = row_allows r) \/
  (Forall (fun r => row_applies i r = false) table /\
   is_allowed (load_from_db table p) i = policy_is_allowed p).
Proof.
  rewrite is_allowed_load. destruct (find_first _ _) as [r|] eqn:E.
  - left. exists r. pose proof (find_first_Some _ _ _ E) as [Hin Hr].
    apply sorted_rows_elem in Hin as [_ Hin]. repeat split; try done.
    intros s Hs Ha. eapply find_first_sorted; [apply sorted_rows_sorted|done| |done].
    apply sorted_rows_elem. split; [|done]. unfold row_applies in Ha. by bool_simpl.
  - right. split; [|done]. apply find_first_None in E. rewrite Forall_forall in E |- *.
    intros r Hr. destruct (row_applies i r) eqn:Ha; [|done]. rewrite <-Ha. apply E.
    apply sorted_rows_elem. split; [|done]. unfold row_applies in Ha. by bool_simpl.
Qed.

Lemma is_active_deny_spec cidr r :
  is_active_deny cidr r = true <->
  acl_action r = "deny" /\ acl_cidr r = cidr /\ acl_enabled r = 1.
Proof.
  unfold is_active_deny. rewrite !andb_true_iff, !bool_decide_eq_true, Z.eqb_eq. tauto.
Qed.

Lemma active_deny_applies `{IpNetLaws} i r :
  is_active_deny (host_cidr i) r = true -> row_applies i r = true.
Proof.
  intros (Hact & Hcidr & Hen)%is_active_deny_spec. destruct (ipnet_host i) as (n & Hn & Hc).
  unfold row_applies, load_row. rewrite Hen, Hcidr, Hact, Hn. bind_some. decide_lits.
  by bind_some.
Qed.

(** An active deny row for a host, before every allow row that covers it: the host is refused. *)
Lemma active_deny_refused `{IpNetLaws} table p i r :
  r ∈ table -> is_active_deny (host_cidr i) r = true ->
  (forall s, s ∈ table -> row_applies i s = true -> row_allows s = true ->
     acl_priority r < acl_priority s) ->
  is_allowed (load_from_db table p) i = false.
Proof.
  intros Hr Hd Hallow. rewrite is_allowed_load. pose proof (active_deny_applies i r Hd) as Ha.
  pose proof (proj1 (is_active_deny_spec _ _) Hd) as (_ & _ & Hen).
  destruct (find_first _ _) as [s|] eqn:E; cycle 1.
  - apply find_first_None in E. rewrite Forall_forall in E.
    rewrite E in Ha; [done|]. by apply sorted_rows_elem.
  - pose proof (find_first_Some _ _ _ E) as [[He Hin]%sorted_rows_elem Hs].
    destruct (row_allows s) eqn:Hal; [|done]. exfalso.
    assert (row_le s r) as Hle.
    { eapply find_first_sorted; [apply sorted_rows_sorted|done| |done]. by apply sorted_rows_elem. }
    specialize (Hallow s Hin Hs Hal). unfold row_le in Hle. lia.
Qed.

Lemma persist_acl_ban_row i p d table :
  exists r, r ∈ persist_acl_ban i p d table /\ is_active_deny (host_cidr i) r = true /\
    (r ∈ table \/ acl_priority r = p).
Proof.
  unfold persist_acl_ban. destruct (existsb _ table) eqn:E.
  - apply existsb_exists in E as (r & Hr & Hd). apply list_elem_of_In in Hr. eauto.
  - eexists. split; [apply elem_of_app; right; by apply list_elem_of_singleton|].
    split; [by apply is_active_deny_spec|by right].
Qed.

Lemma persist_acl_ban_elem i p d table r :
  r ∈ persist_acl_ban i p d table -> r ∈ table \/ acl_action r = "deny".
Proof.
  unfold persist_acl_ban. case_match; [by left|].
  intros [?|Hr]%elem_of_app; [by left|]. apply list_elem_of_singleton in Hr as ->. by right.
Qed.

(** An automatic ban takes effect: once [persist_acl_ban] has run and the
    list is reloaded, the banned address is refused, provided every enabled
    allow rule that covers it has a priority number above the ban's and above
    that of the deny rows already present for the address. *)
Lemma acl_ban_effective `{IpNetLaws} table p i prio d :
  (forall s, s ∈ table -> row_applies i s = true -> row_allows s = true ->
     prio < acl_priority s /\
     forall r, r ∈ table -> is_active_deny (host_cidr i) r = true ->
       acl_priority r < acl_priority s) ->
  is_allowed (load_from_db (persist_acl_ban i prio d table) p) i = false.
Proof.
  intros Hallow. destruct (persist_acl_ban_row i prio d table) as (r & Hr & Hd & Hprio).
  apply (active_deny_refused _ _ _ r Hr Hd). intros s Hin Hs Hal.
  destruct (persist_acl_ban_elem _ _ _ _ _ Hin) as [Hin'|Hden].
  - destruct (Hallow s Hin' Hs Hal) as [Hp Hold]. destruct Hprio as [Hold'|Hp']; [by apply Hold|lia].
  - unfold row_allows in Hal. by rewrite Hden in Hal.
Qed.

(** A reading of the crate with one network per host, for the examples. *)
Definition host_nets : IpNets := {|
  IpNet := str;
  ipnet_from_str s := Some s;
  ipnet_to_string n := n;
  ipnet_contains n i := bool_decide (n = host_cidr i) || bool_decide (n = "0.0.0.0/0");
|}.

Lemma host_nets_laws : @IpNetLaws host_nets.
Proof.
  constructor. intros i. exists (host_cidr i). split; [done|]. cbn.
  by rewrite bool_decide_eq_true_2.
Qed.

Definition demo_acl : list AclEntry :=
  [{| acl_id := 1; acl_action := "allow"; acl_cidr := "0.0.0.0/0"; acl_description := None;
      acl_priority := 100; acl_enabled := 1 |}].

Lemma acl_ban_effective_witness :
  @is_allowed host_nets (@load_from_db host_nets demo_acl PolicyDeny) (V4 10 0 0 1) = true /\
  @is_allowed host_nets (@load_from_db host_nets
    (persist_acl_ban (V4 10 0 0 1) 10 INVITE_AUTO_BAN_DESCRIPTION demo_acl) PolicyDeny)
    (V4 10 0 0 1) = false.
Proof.
  split; [vm_compute; reflexivity|].
  apply (@acl_ban_effective host_nets host_nets_laws). intros s Hs _ _.
  apply list_elem_of_singleton in Hs as ->. split; [cbn; lia|].
  intros r Hr Hd. apply list_elem_of_singleton in Hr as ->. done.
Defined.
