(* ===== verification/RateLimit.v ===== *)
(** * The API rate limiter: [backend/src/api/rate_limit.rs]

    A sliding window of accepted requests per client key. *)

From S2P Require Import Prelude RustStr SecurityGuard.

Open Scope str_scope.
Open Scope Z_scope.

Record RateLimiter := {
  rl_requests : gmap str (list Z);
  rl_limit : Z;
  rl_window_secs : Z;
}.

Definition limiter_new (limit window_secs : Z) : RateLimiter :=
  {| rl_requests := ∅; rl_limit := limit; rl_window_secs := window_secs |}.

Definition set_requests (r : RateLimiter) (key : str) (ts : list Z) : RateLimiter :=
  {| rl_requests := <[key := ts]> (rl_requests r); rl_limit := rl_limit r;
     rl_window_secs := rl_window_secs r |}.

(** [check], under the write lock, at clock value [now]. *)
Definition check (now : Z) (key : str) (r : RateLimiter) : bool * RateLimiter :=
  let window := from_secs (rl_window_secs r) in
  let timestamps := filter (fun t => Int.sat_sub now t < window)
    (default [] (rl_requests r !! key)) in
  if rl_limit r <=? Z.of_nat (length timestamps)
  then (false, set_requests r key timestamps)
  else (true, set_requests r key (timestamps ++ [now])).

(** The key and the verdict of [rate_limit_middleware]: [xff] is the text of the
    [X-Forwarded-For] header, if it has one. *)
Definition client_key (xff : option str) : str :=
  match xff ≫= fun v => head (Str.split_char "," v) with
  | Some s => Str.trim s
  | None => "unknown"
  end.

Definition rate_limit_middleware (now : Z) (xff : option str) (limiter : option RateLimiter)
    : bool * option RateLimiter :=
  match limiter with
  | None => (true, None)
  | Some r => let '(ok, r) := check now (client_key xff) r in (ok, Some r)
  end.

(** ** Histories of requests, newest first *)

Fixpoint limiter_run (limit window_secs : Z) (h : list (Z * str)) : RateLimiter :=
  match h with
  | [] => limiter_new limit window_secs
  | (t, key) :: h' => (check t key (limiter_run limit window_secs h')).2
  end.

(** The times at which requests of [key] were accepted, newest first: a request is
    accepted when fewer than [limit] were accepted within the window before it. *)
Definition in_window (now window : Z) (ts : list Z) : list Z :=
  filter (fun t => now - t < window) ts.

Fixpoint accepted (limit window : Z) (key : str) (h : list (Z * str)) : list Z :=
  match h with
  | [] => []
  | (t, key') :: h' =>
      let before := accepted limit window key h' in
      if decide (key' = key) then
        if Z.of_nat (length (in_window t window before)) <? limit then t :: before else before
      else before
  end.

Fixpoint ordered (now : Z) (h : list (Z * str)) : Prop :=
  match h with
  | [] => True
  | (t, _) :: h' => t <= now /\ ordered t h'
  end.

#[export] Instance ordered_dec now h : Decision (ordered now h).
Proof. revert now. induction h as [|[t k] h IH]; intros now; cbn; apply _. Defined.

Lemma in_window_snoc now w ts us t :
  in_window now w ts = reverse (in_window now w us) ->
  in_window now w (ts ++ [t]) = reverse (in_window now w (t :: us)).
Proof.
  unfold in_window. intros Hts. rewrite filter_app, Hts, !filter_cons, filter_nil.
  case_decide; [by rewrite reverse_cons|by rewrite app_nil_r].
Qed.

Lemma in_window_nested now now' w ts :
  now <= now' -> in_window now' w (in_window now w ts) = in_window now' w ts.
Proof.
  intros Hn. unfold in_window. rewrite list_filter_filter. apply list_filter_iff. lia.
Qed.

Lemma in_window_reverse now w ts : in_window now w (reverse ts) = reverse (in_window now w ts).
Proof.
  induction ts as [|t ts IH]; [done|]. unfold in_window in *.
  rewrite reverse_cons, filter_app, IH, !filter_cons, filter_nil.
  case_decide; [by rewrite reverse_cons|by rewrite app_nil_r].
Qed.

Lemma accepted_le limit w key now h :
  ordered now h -> Forall (fun t => t <= now) (accepted limit w key h).
Proof.
  revert now. induction h as [|[t k] h IH]; intros now Ho; [constructor|].
  destruct Ho as [Ht Ho]. specialize (IH t Ho).
  assert (Forall (fun t => t <= now) (accepted limit w key h)) as Hw.
  { eapply Forall_impl; [exact IH|]. cbn. lia. }
  cbn [accepted]. repeat case_match; [by constructor|done..].
Qed.

(** The queue of a key: what was accepted and can still be in a window. *)
Definition limiter_sim (limit wsecs now : Z) (h : list (Z * str)) (r : RateLimiter) : Prop :=
  rl_limit r = limit /\ rl_window_secs r = wsecs /\
  forall key, let q := default [] (rl_requests r !! key) in
    Forall (fun t => t <= now) q /\
    forall t, now <= t -> in_window t (from_secs wsecs) q =
      reverse (in_window t (from_secs wsecs) (accepted limit (from_secs wsecs) key h)).

Lemma check_sim limit wsecs now t key h r :
  limiter_sim limit wsecs now h r -> now <= t ->
  (check t key r).1 =
    (Z.of_nat (length (in_window t (from_secs wsecs)
       (accepted limit (from_secs wsecs) key h))) <? limit) /\
  limiter_sim limit wsecs t ((t, key) :: h) (check t key r).2.
Proof.
  intros (Hl & Hw & Hq) Hn. set (w := from_secs wsecs) in *.
  assert (forall key q, q = default [] (rl_requests r !! key) ->
    filter (fun x => Int.sat_sub t x < w) q = in_window t w q) as Hret.
  { intros k q ->. apply filter_ext_elem. intros x Hx. unfold Int.sat_sub.
    destruct (Hq k) as [Hle _]. rewrite Forall_forall in Hle. specialize (Hle x Hx).
    rewrite Z.max_r by lia. done. }
  destruct (Hq key) as [Hle Hrec]. unfold check. rewrite Hw, Hl. fold w.
  rewrite (Hret key _ eq_refl), Hrec, length_reverse by done.
  assert (forall qs, Forall (fun x => x <= t) qs ->
    (forall t', t <= t' -> in_window t' w qs =
      reverse (in_window t' w (accepted limit w key ((t, key) :: h)))) ->
    limiter_sim limit wsecs t ((t, key) :: h) (set_requests r key qs)) as Hmk.
  { intros qs Hqs Hsame. split; [done|]. split; [done|]. intros k. cbn [set_requests rl_requests].
    rewrite lookup_insert. case_decide as Hk; [subst k; done|]. cbn.
    destruct (Hq k) as [Hle' Hrec']. split.
    - eapply Forall_impl; [exact Hle'|]. cbn. lia.
    - intros t' Ht'. rewrite decide_False by done. apply Hrec'. lia. }
  assert (Forall (fun x => x <= t) (reverse (in_window t w (accepted limit w key h)))) as Hb.
  { rewrite <-Hrec by done. apply Forall_filter_keep. eapply Forall_impl; [exact Hle|].
    cbn. lia. }
  destruct (limit <=? _) eqn:E; bool_simpl; cbn [fst snd].
  - rewrite (proj2 (Z.ltb_ge _ _)) by lia. split; [done|]. apply Hmk; [done|].
    intros t' Ht'. cbn [accepted]. rewrite decide_True, (proj2 (Z.ltb_ge _ _)) by done || lia.
    by rewrite in_window_reverse, in_window_nested.
  - rewrite (proj2 (Z.ltb_lt _ _)) by lia. split; [done|]. apply Hmk.
    + apply Forall_app. split; [done|]. repeat constructor. lia.
    + intros t' Ht'. cbn [accepted].
      rewrite decide_True, (proj2 (Z.ltb_lt _ _)) by done || lia.
      apply in_window_snoc. by rewrite in_window_reverse, in_window_nested.
Qed.

Lemma limiter_run_sim limit wsecs now h :
  ordered now h ->
  exists now', now' <= now /\ limiter_sim limit wsecs now' h (limiter_run limit wsecs h).
Proof.
  revert now. induction h as [|[t key] h IH]; intros now Ho.
  - exists now. split; [lia|]. repeat split; constructor.
  - destruct Ho as [Ht Ho]. destruct (IH t Ho) as (now' & Hn & Hsim). exists t.
    split; [done|]. by eapply check_sim.
Qed.

(** The limiter enforces its window: after any sequence of requests in
    chronological order, a request of [key] is let through exactly when fewer than
    [limit] requests of [key] were let through in the window before it. *)
Theorem rate_limiter_refines limit wsecs now key h :
  ordered now h ->
  (check now key (limiter_run limit wsecs h)).1 =
  (Z.of_nat (length (in_window now (from_secs wsecs)
     (accepted limit (from_secs wsecs) key h))) <? limit).
Proof.
  intros Ho. destruct (limiter_run_sim limit wsecs now h Ho) as (now' & Hn & Hsim).
  by eapply check_sim.
Qed.

Lemma rate_limiter_refines_witness :
  ordered 12 [(2, "a"); (1, "b"); (1, "a")] /\
  (check 12 "a" (limiter_run 2 60 [(2, "a"); (1, "b"); (1, "a")])).1 = false.
Proof.
  assert (ordered 12 [(2, "a"); (1, "b"); (1, "a")]) as Ho by (vm_compute; intuition congruence).
  split; [exact Ho|]. rewrite (rate_limiter_refines 2 60 12 "a" _ Ho). vm_compute. reflexivity.
Defined.
