(* ===== verification/G711.v ===== *)
(** * G.711 companding: [backend/src/sip/g711.rs]

    Samples are [i16], code words [u8]; arithmetic wraps as in a release build.
    The segment search is the loop both encoders share. *)

From S2P Require Import Prelude.

Open Scope Z_scope.

Definition BIAS : Z := 132.
Definition CLIP : Z := 32635.

(** [i16::saturating_neg], [i16::saturating_add], [!u8], wrapping negation. *)
Definition saturating_neg (x : Z) : Z := if x =? Int.i16_min then Int.i16_max else - x.
Definition saturating_add (x y : Z) : Z := Int.clamp Int.i16_min Int.i16_max (x + y).
Definition not_u8 (x : Z) : Z := 255 - x.
Definition neg_i16 (x : Z) : Z := Int.wrap_i16 (- x).
Definition shl_i16 (x n : Z) : Z := Int.wrap_i16 (Z.shiftl x n).

(** [while exponent > 0 && (pcm & mask) == 0 { exponent -= 1; mask >>= 1 }] *)
Fixpoint segment (exponent : nat) (mask pcm : Z) : Z :=
  match exponent with
  | O => 0
  | S e => if Z.land pcm mask =? 0 then segment e (Z.shiftr mask 1) pcm
           else Z.of_nat exponent
  end.

Definition linear_to_ulaw (pcm : Z) : Z :=
  let '(sign, pcm) :=
    if pcm <? 0 then
      let pcm := neg_i16 (saturating_add pcm 0) in
      (128, if pcm <? 0 then Int.i16_max else pcm)
    else (0, pcm) in
  let pcm := if CLIP <? pcm then CLIP else pcm in
  let pcm := saturating_add pcm BIAS in
  let exponent := segment 7 16384 pcm in
  let mantissa := Z.land (Z.shiftr pcm (exponent + 3)) 15 in
  not_u8 (Z.lor (Z.lor sign (Z.shiftl exponent 4)) mantissa).

Definition ulaw_to_linear (ulaw : Z) : Z :=
  let u := not_u8 ulaw in
  let sign := Z.land u 128 in
  let exponent := Z.land (Z.shiftr u 4) 7 in
  let mantissa := Z.land u 15 in
  let magnitude := shl_i16 (Z.lor (Z.shiftl mantissa 3) 132) exponent in
  let sample := magnitude - BIAS in
  if sign =? 0 then sample else - sample.

Definition linear_to_alaw (pcm : Z) : Z :=
  let '(sign, pcm) :=
    if pcm <? 0 then
      let pcm := saturating_neg pcm in
      (0, if pcm <? 0 then Int.i16_max else pcm)
    else (128, pcm) in
  let pcm := if CLIP <? pcm then CLIP else pcm in
  let alaw :=
    if pcm <? 256 then Z.land (Z.shiftr pcm 4) 15
    else
      let exponent := segment 7 16384 pcm in
      let mantissa := Z.land (Z.shiftr pcm (exponent + 3)) 15 in
      Z.lor (Z.shiftl exponent 4) mantissa in
  Z.lxor (Z.lor alaw sign) 85.

Definition alaw_to_linear (alaw : Z) : Z :=
  let a := Z.lxor alaw 85 in
  let sign := Z.land a 128 in
  let exponent := Z.land (Z.shiftr a 4) 7 in
  let mantissa := Z.land a 15 in
  let magnitude :=
    if exponent =? 0 then Z.lor (Z.shiftl mantissa 4) 8
    else shl_i16 (Z.lor (Z.shiftl mantissa 4) 264) (exponent - 1) in
  if sign =? 0 then - magnitude else magnitude.

Definition encode_ulaw (pcm : list Z) : list Z := map linear_to_ulaw pcm.
Definition encode_alaw (pcm : list Z) : list Z := map linear_to_alaw pcm.
Definition decode_ulaw (payload : list Z) : list Z := map ulaw_to_linear payload.
Definition decode_alaw (payload : list Z) : list Z := map alaw_to_linear payload.

(** ** The code word in closed form *)

(** The segment of a magnitude: [2^(e+7) <= v < 2^(e+8)], segment 0 below. *)
Definition in_segment (v e : Z) : Prop :=
  0 <= e <= 7 /\ 128 * 2 ^ e <= v < 256 * 2 ^ e.

Lemma land_bit v k : 0 <= k -> (Z.land v (2 ^ k) =? 0) = negb (Z.testbit v k).
Proof.
  intros Hk. destruct (Z.testbit v k) eqn:Hb; cbn.
  - apply Z.eqb_neq. intros H0. apply (f_equal (fun x => Z.testbit x k)) in H0.
    by rewrite Z.land_spec, Hb, Z.pow2_bits_true, Z.bits_0 in H0.
  - apply Z.eqb_eq, Z.bits_inj. intros i. rewrite Z.land_spec, Z.bits_0.
    destruct (decide (i = k)) as [->|]; [by rewrite Hb|].
    rewrite Z.pow2_bits_false by lia. apply andb_false_r.
Qed.

Lemma testbit_top v k :
  0 <= k -> 0 <= v < 2 ^ (k + 1) -> Z.testbit v k = (2 ^ k <=? v).
Proof.
  intros Hk Hv. rewrite Z.pow_add_r, Z.pow_1_r in Hv by lia.
  assert (0 < 2 ^ k) by by apply Z.pow_pos_nonneg.
  destruct (2 ^ k <=? v) eqn:E; bool_simpl.
  - apply Z.testbit_true; [done|]. replace (v / 2 ^ k) with 1; [done|].
    apply Z.div_unique with (v - 2 ^ k); lia.
  - apply Z.testbit_false; [done|]. by rewrite Z.div_small by lia.
Qed.

(** The loop finds the segment. *)
Lemma segment_go (n : nat) v :
  (n <= 7)%nat -> 0 <= v < 2 ^ (Z.of_nat n + 8) ->
  segment n (2 ^ (Z.of_nat n + 7)) v =
  if v <? 256 then 0 else Z.log2 v - 7.
Proof.
  intros Hn. induction n as [|n IH]; intros Hv; cbn [segment].
  - change (2 ^ (Z.of_nat 0 + 8)) with 256 in Hv. by rewrite (proj2 (Z.ltb_lt v 256)) by lia.
  - rewrite land_bit by lia. rewrite testbit_top;
      [|lia|by replace (Z.of_nat (S n) + 7 + 1) with (Z.of_nat (S n) + 8) by lia].
    destruct (_ <=? v) eqn:E; bool_simpl; cbn [negb].
    + assert (256 <= 2 ^ (Z.of_nat (S n) + 7)).
      { change 256 with (2 ^ 8). apply Z.pow_le_mono_r; lia. }
      rewrite (proj2 (Z.ltb_ge v 256)) by lia.
      rewrite (Z.log2_unique v (Z.of_nat (S n) + 7)); [lia|lia|].
      split; [done|]. replace (Z.succ (Z.of_nat (S n) + 7)) with (Z.of_nat (S n) + 8) by lia.
      lia.
    + rewrite Z.shiftr_div_pow2 by lia.
      replace (2 ^ (Z.of_nat (S n) + 7) / 2 ^ 1) with (2 ^ (Z.of_nat n + 7)).
      * apply IH; [lia|]. replace (Z.of_nat n + 8) with (Z.of_nat (S n) + 7) by lia. lia.
      * replace (Z.of_nat (S n) + 7) with (Z.of_nat n + 7 + 1) by lia.
        rewrite (Z.pow_add_r 2 (_ + 7) 1) by lia. symmetry. by apply Z.div_mul.
Qed.

Lemma segment_spec v e : in_segment v e -> segment 7 16384 v = e.
Proof.
  intros [He Hv]. assert (2 ^ 7 <= v < 2 ^ 15) as Hb.
  { assert (2 ^ 0 <= 2 ^ e <= 2 ^ 7) by (split; apply Z.pow_le_mono_r; lia). lia. }
  change 16384 with (2 ^ (Z.of_nat 7 + 7)). rewrite segment_go by (cbn; lia).
  assert (Z.log2 v = e + 7) as Hlog.
  { apply Z.log2_unique; [lia|]. rewrite Z.add_comm, Z.pow_add_r by lia.
    replace (Z.succ (7 + e)) with (8 + e) by lia. rewrite Z.pow_add_r by lia. lia. }
  destruct (v <? 256) eqn:E; bool_simpl; [|lia].
  destruct (decide (e = 0)); [done|]. assert (2 ^ 1 <= 2 ^ e) by (apply Z.pow_le_mono_r; lia).
  lia.
Qed.

Lemma in_segment_exists v : 128 <= v < 32768 -> exists e, in_segment v e.
Proof.
  intros Hv. exists (Z.log2 v - 7).
  assert (7 <= Z.log2 v < 15).
  { split; [apply (Z.log2_le_mono 128); lia|]. apply Z.log2_lt_pow2; lia. }
  pose proof (Z.log2_spec v ltac:(lia)) as [H1 H2]. split; [lia|].
  change 128 with (2 ^ 7). change 256 with (2 ^ 8). rewrite <-!Z.pow_add_r by lia.
  by replace (7 + (Z.log2 v - 7)) with (Z.log2 v) by lia;
     replace (8 + (Z.log2 v - 7)) with (Z.succ (Z.log2 v)) by lia.
Qed.

(** Case analysis on a segment: eight intervals with constant bounds. *)
Ltac segments e :=
  let H := fresh in
  assert (H : e = 0 \/ e = 1 \/ e = 2 \/ e = 3 \/ e = 4 \/ e = 5 \/ e = 6 \/ e = 7) by lia;
  repeat (destruct H as [H|H]); subst e.

Ltac eval_pow :=
  repeat match goal with
  | |- context [2 ^ ?k] => let p := eval vm_compute in (2 ^ k) in change (2 ^ k) with p
  | H : context [2 ^ ?k] |- _ => let p := eval vm_compute in (2 ^ k) in change (2 ^ k) with p in H
  end.

(** The magnitude in the middle of the step that holds [v]. *)
Definition midpoint (v e : Z) : Z :=
  (v / 2 ^ (e + 3)) * 2 ^ (e + 3) + 4 * 2 ^ e.

Lemma midpoint_close v e :
  in_segment v e -> Z.abs (midpoint v e - v) * 32 <= v /\ Z.abs (midpoint v e) <= 32256.
Proof.
  intros [He Hv]. unfold midpoint. segments e; eval_pow; div_lia.
Qed.

(** What the encoders pack for a magnitude, and what the decoders unpack. *)
Definition pack (v e : Z) : Z := 16 * e + (v / 2 ^ (e + 3)) mod 16.

Lemma land_ones v : Z.land v 15 = v mod 16.
Proof. apply (Z.land_ones v 4). lia. Qed.

Lemma lor_pack e m s :
  0 <= e <= 7 -> 0 <= m < 16 -> (s = 0 \/ s = 128) ->
  Z.lor (Z.lor s (Z.shiftl e 4)) m = s + 16 * e + m.
Proof.
  intros He Hm Hs.
  assert (forallb (fun m => forallb (fun e =>
    (Z.lor (Z.lor 0 (Z.shiftl e 4)) m =? 0 + 16 * e + m) &&
    (Z.lor (Z.lor 128 (Z.shiftl e 4)) m =? 128 + 16 * e + m)) (seqZ 0 8)) (seqZ 0 16) = true)
    as H by (vm_compute; reflexivity).
  rewrite forallb_forall in H. specialize (H m ltac:(rewrite <-list_elem_of_In, elem_of_seqZ; lia)).
  rewrite forallb_forall in H. specialize (H e ltac:(rewrite <-list_elem_of_In, elem_of_seqZ; lia)).
  bool_simpl. destruct Hs; subst; lia.
Qed.

(** Decoding a code word made of a sign bit, a segment and a mantissa. *)
Lemma ulaw_to_linear_pack e m s :
  0 <= e <= 7 -> 0 <= m < 16 -> (s = 0 \/ s = 128) ->
  ulaw_to_linear (not_u8 (s + 16 * e + m)) =
  (if s =? 0 then 1 else -1) * ((8 * m + 132) * 2 ^ e - BIAS).
Proof.
  intros He Hm Hs.
  assert (forallb (fun m => forallb (fun e =>
    (ulaw_to_linear (not_u8 (0 + 16 * e + m)) =? 1 * ((8 * m + 132) * 2 ^ e - BIAS)) &&
    (ulaw_to_linear (not_u8 (128 + 16 * e + m)) =? -1 * ((8 * m + 132) * 2 ^ e - BIAS)))
    (seqZ 0 8)) (seqZ 0 16) = true)
    as H by (vm_compute; reflexivity).
  rewrite forallb_forall in H. specialize (H m ltac:(rewrite <-list_elem_of_In, elem_of_seqZ; lia)).
  rewrite forallb_forall in H. specialize (H e ltac:(rewrite <-list_elem_of_In, elem_of_seqZ; lia)).
  bool_simpl. by destruct Hs; subst.
Qed.

Lemma alaw_to_linear_pack e m s :
  0 <= e <= 7 -> 0 <= m < 16 -> (s = 0 \/ s = 128) ->
  alaw_to_linear (Z.lxor (s + 16 * e + m) 85) =
  (if s =? 0 then -1 else 1) *
  (if e =? 0 then 16 * m + 8 else (8 * m + 132) * 2 ^ e).
Proof.
  intros He Hm Hs.
  assert (forallb (fun m => forallb (fun e => forallb (fun s =>
    alaw_to_linear (Z.lxor (s + 16 * e + m) 85) =? (if s =? 0 then -1 else 1) *
      (if e =? 0 then 16 * m + 8 else (8 * m + 132) * 2 ^ e)) [0; 128])
    (seqZ 0 8)) (seqZ 0 16) = true)
    as H by (vm_compute; reflexivity).
  rewrite forallb_forall in H. specialize (H m ltac:(rewrite <-list_elem_of_In, elem_of_seqZ; lia)).
  rewrite forallb_forall in H. specialize (H e ltac:(rewrite <-list_elem_of_In, elem_of_seqZ; lia)).
  rewrite forallb_forall in H. specialize (H s). apply Z.eqb_eq, H.
  destruct Hs; subst; cbn; tauto.
Qed.

(** A sample after the clipping of both encoders. *)
Definition clip (x : Z) : Z := Int.clamp (- CLIP) CLIP x.

Lemma midpoint_mantissa v e :
  in_segment v e -> midpoint v e = (8 * ((v / 2 ^ (e + 3)) mod 16) + 132) * 2 ^ e.
Proof.
  intros [He Hv]. unfold midpoint. segments e; eval_pow; div_lia.
Qed.

Ltac int_unfold :=
  unfold clip, Int.clamp, CLIP, BIAS, Int.is_i16, Int.is_u8, Int.i16_min, Int.i16_max,
    Int.u8_max in *.

Lemma ulaw_code x :
  Int.is_i16 x ->
  exists e m s, 0 <= e <= 7 /\ 0 <= m < 16 /\ s = (if x <? 0 then 128 else 0) /\
    linear_to_ulaw x = not_u8 (s + 16 * e + m) /\
    in_segment (Z.abs (clip x) + BIAS) e /\
    (8 * m + 132) * 2 ^ e = midpoint (Z.abs (clip x) + BIAS) e.
Proof.
  intros Hx. set (v := Z.abs (clip x) + BIAS).
  assert (128 <= v < 32768) as Hv by (subst v; int_unfold; lia).
  destruct (in_segment_exists v Hv) as [e He].
  exists e, ((v / 2 ^ (e + 3)) mod 16), (if x <? 0 then 128 else 0).
  pose proof (Z.mod_pos_bound (v / 2 ^ (e + 3)) 16 ltac:(lia)) as Hm.
  split; [apply He|]. split; [done|]. split; [done|]. split; [|split; [done|]];
    [|symmetry; by apply midpoint_mantissa].
  assert (linear_to_ulaw x = not_u8 (Z.lor (Z.lor (if x <? 0 then 128 else 0)
    (Z.shiftl (segment 7 16384 v) 4)) (Z.land (Z.shiftr v (segment 7 16384 v + 3)) 15))) as ->.
  { unfold linear_to_ulaw. set (w := if x <? 0 then _ else (0, x)).
    assert (w = (if x <? 0 then 128 else 0, if x =? -32768 then 32767 else Z.abs x)) as ->.
    { subst w. unfold neg_i16, Int.wrap_i16, saturating_add. int_unfold.
      destruct (x <? 0) eqn:E; bool_simpl; [|f_equal; destruct (x =? -32768) eqn:E2;
        bool_simpl; lia].
      f_equal. rewrite Z.add_0_r, Z.max_r, Z.min_r by lia.
      destruct (x =? -32768) eqn:E2; bool_simpl; [by subst|].
      rewrite Z.mod_small by lia. rewrite (proj2 (Z.ltb_ge _ _)) by lia. lia. }
    replace (saturating_add (if CLIP <? _ then CLIP else _) BIAS) with v; [done|].
    subst v. unfold saturating_add. int_unfold. destruct (x =? -32768) eqn:E; bool_simpl;
      destruct (_ <? _) eqn:E2; bool_simpl; lia. }
  rewrite (segment_spec v e He), land_ones, Z.shiftr_div_pow2 by (destruct He; lia).
  f_equal. apply lor_pack; [apply He|done|]. destruct (x <? 0); lia.
Qed.

(** Mu-law companding is within its quantisation step: for every 16-bit
    sample the code word is a byte and decoding it gives a 16-bit sample whose
    distance from the (clipped) original is at most a 32nd of its biased
    magnitude, [i16::MIN] included. *)
Theorem ulaw_quantisation x :
  Int.is_i16 x ->
  let y := ulaw_to_linear (linear_to_ulaw x) in
  Int.is_u8 (linear_to_ulaw x) /\ Int.is_i16 y /\
  32 * Z.abs (y - clip x) <= Z.abs (clip x) + BIAS.
Proof.
  intros Hx y. destruct (ulaw_code x Hx) as (e & m & s & He & Hm & Hs & Hc & Hseg & Hmid).
  subst y. rewrite Hc, ulaw_to_linear_pack, Hmid by (destruct (x <? 0); lia).
  pose proof (midpoint_close _ _ Hseg) as [Hclose Hbnd].
  subst s. unfold not_u8. destruct (x <? 0) eqn:E; bool_simpl; cbn -[Z.mul Z.abs];
    int_unfold; lia.
Qed.

Lemma ulaw_quantisation_witness :
  Int.is_i16 (-32768) /\ Int.is_i16 (ulaw_to_linear (linear_to_ulaw (-32768))).
Proof.
  assert (Int.is_i16 (-32768)) as H by (cbv; split; congruence).
  split; [exact H|]. apply (ulaw_quantisation (-32768) H).
Defined.

Lemma alaw_code x :
  Int.is_i16 x ->
  exists e m s, 0 <= e <= 7 /\ 0 <= m < 16 /\ s = (if x <? 0 then 0 else 128) /\
    linear_to_alaw x = Z.lxor (s + 16 * e + m) 85 /\
    (if e =? 0 then Z.abs (clip x) < 256 /\ m = Z.abs (clip x) / 16
     else in_segment (Z.abs (clip x)) e /\ (8 * m + 132) * 2 ^ e = midpoint (Z.abs (clip x)) e).
Proof.
  intros Hx. set (v := Z.abs (clip x)).
  assert (0 <= v < 32768) as Hv by (subst v; int_unfold; lia).
  assert (linear_to_alaw x = Z.lxor (Z.lor (if v <? 256 then Z.land (Z.shiftr v 4) 15
    else Z.lor (Z.shiftl (segment 7 16384 v) 4)
      (Z.land (Z.shiftr v (segment 7 16384 v + 3)) 15)) (if x <? 0 then 0 else 128)) 85) as ->.
  { unfold linear_to_alaw. set (w := if x <? 0 then _ else (128, x)).
    assert (w = (if x <? 0 then 0 else 128, if x =? -32768 then 32767 else Z.abs x)) as ->.
    { subst w. unfold saturating_neg. int_unfold.
      destruct (x <? 0) eqn:E; bool_simpl; f_equal; destruct (x =? -32768) eqn:E2;
        bool_simpl; subst; try done; try lia.
      rewrite (proj2 (Z.ltb_ge _ _)) by lia. lia. }
    replace (if CLIP <? _ then CLIP else _) with v; [done|].
    subst v. int_unfold. destruct (x =? -32768) eqn:E; bool_simpl;
      destruct (_ <? _) eqn:E2; bool_simpl; lia. }
  assert (forall e m, 0 <= e <= 7 -> 0 <= m < 16 ->
    Z.lor (Z.lor (Z.shiftl e 4) m) (if x <? 0 then 0 else 128) =
    (if x <? 0 then 0 else 128) + 16 * e + m) as Hpack.
  { intros e m He Hm. rewrite Z.lor_comm, Z.lor_assoc. apply lor_pack; [done..|].
    destruct (x <? 0); lia. }
  destruct (v <? 256) eqn:E; bool_simpl.
  - exists 0, (v / 16), (if x <? 0 then 0 else 128).
    assert (0 <= v / 16 < 16) as Hm by div_lia.
    do 3 (split; [lia||done|]). split; [|done]. rewrite land_ones, Z.shiftr_div_pow2 by lia.
    change (2 ^ 4) with 16. rewrite Z.mod_small by done. f_equal. by apply (Hpack 0).
  - destruct (in_segment_exists v ltac:(lia)) as [e He].
    pose proof (Z.mod_pos_bound (v / 2 ^ (e + 3)) 16 ltac:(lia)) as Hm.
    exists e, ((v / 2 ^ (e + 3)) mod 16), (if x <? 0 then 0 else 128).
    split; [apply He|]. do 2 (split; [done|]). split.
    + rewrite (segment_spec v e He), land_ones, Z.shiftr_div_pow2 by (destruct He; lia).
      f_equal. apply Hpack; [apply He|done].
    + destruct (e =? 0) eqn:E0; bool_simpl.
      * subst. destruct He as [_ He]. change (2 ^ 0) with 1 in He. lia.
      * split; [done|]. symmetry. by apply midpoint_mantissa.
Qed.

Lemma alaw_code_byte x : Int.is_i16 x -> Int.is_u8 (linear_to_alaw x).
Proof.
  intros Hx. destruct (alaw_code x Hx) as (e & m & s & He & Hm & Hs & -> & _).
  split; [apply Z.lxor_nonneg; destruct (x <? 0); lia|].
  assert (Z.lxor (s + 16 * e + m) 85 < 2 ^ 8); [|int_unfold; lia].
  apply Z.log2_lt_cancel. rewrite Z.log2_pow2 by lia.
  eapply Z.le_lt_trans; [apply Z.log2_lxor; destruct (x <? 0); lia|].
  apply Z.max_lub_lt; [|done]. 
  destruct (decide (s + 16 * e + m = 0)) as [->|]; [done|].
  apply Z.log2_lt_pow2; destruct (x <? 0); lia.
Qed.

(** A-law companding is within its quantisation step: for every 16-bit
    sample the code word is a byte, the decoded sample is a 16-bit sample, and it
    is at most 8 (below 256) or a 32nd of the magnitude away from the clipped
    original. *)
Theorem alaw_quantisation x :
  Int.is_i16 x ->
  let y := alaw_to_linear (linear_to_alaw x) in
  Int.is_u8 (linear_to_alaw x) /\ Int.is_i16 y /\
  Z.abs (y - clip x) <= Z.max 8 (Z.abs (clip x) / 32).
Proof.
  intros Hx y. split; [by apply alaw_code_byte|].
  destruct (alaw_code x Hx) as (e & m & s & He & Hm & Hs & Hc & Hcase).
  subst y. rewrite Hc, alaw_to_linear_pack by (destruct (x <? 0); lia).
  destruct (e =? 0).
  - destruct Hcase as [Hlt ->]. subst s. destruct (x <? 0) eqn:E; bool_simpl;
      cbn -[Z.mul Z.abs Z.div]; int_unfold; div_lia.
  - destruct Hcase as [Hseg ->]. pose proof (midpoint_close _ _ Hseg) as [Hclose Hbnd].
    subst s. destruct (x <? 0) eqn:E; bool_simpl; cbn -[Z.mul Z.abs Z.div]; int_unfold; div_lia.
Qed.

Lemma alaw_quantisation_witness :
  Int.is_i16 (-20000) /\ Int.is_i16 (alaw_to_linear (linear_to_alaw (-20000))).
Proof.
  assert (Int.is_i16 (-20000)) as H by (cbv; split; congruence).
  split; [exact H|]. apply (alaw_quantisation (-20000) H).
Defined.

(** Transcoding loses nothing more: every decoded code word is encoded to
    itself again, for A-law on all bytes and for mu-law on all but 0x7F, the
    second code of zero. *)
Theorem g711_decode_encode b :
  Int.is_u8 b ->
  linear_to_alaw (alaw_to_linear b) = b /\
  linear_to_ulaw (ulaw_to_linear b) = (if b =? 127 then 255 else b).
Proof.
  intros Hb.
  assert (forallb (fun b => (linear_to_alaw (alaw_to_linear b) =? b) &&
    (linear_to_ulaw (ulaw_to_linear b) =? (if b =? 127 then 255 else b))) (seqZ 0 256) = true)
    as H by (vm_compute; reflexivity).
  rewrite forallb_forall in H. specialize (H b).
  rewrite <-list_elem_of_In, elem_of_seqZ in H.
  specialize (H ltac:(int_unfold; lia)). by bool_simpl.
Qed.

Lemma g711_decode_encode_witness :
  Int.is_u8 213 /\ linear_to_alaw (alaw_to_linear 213) = 213.
Proof.
  assert (Int.is_u8 213) as H by (cbv; split; congruence).
  split; [exact H|]. apply (g711_decode_encode 213 H).
Defined.
