(* ===== verification/Storage.v ===== *)
(** * Voicemail storage: [backend/src/storage/voicemail.rs]

    Keys, the file operations on a store of files, and the WAV encoder and
    decoder.  Bytes are [Z] in [0..255]. *)

From S2P Require Import Prelude RustStr.

Open Scope str_scope.
Open Scope Z_scope.

(** ** Bytes *)

Definition byte_list (s : str) : list Z := map Str.code s.

(** [to_le_bytes] and [from_le_bytes] of an [n]-byte unsigned integer. *)
Fixpoint le_bytes (n : nat) (z : Z) : list Z :=
  match n with O => [] | S n' => z mod 256 :: le_bytes n' (z / 256) end.

Fixpoint from_le (bs : list Z) : Z :=
  match bs with [] => 0 | b :: bs' => b + 256 * from_le bs' end.

Definition i16_le (x : Z) : list Z := le_bytes 2 (Int.wrap_u16 x).
Definition i16_from_le (bs : list Z) : Z := Int.wrap_i16 (from_le bs).

(** ** WAV *)

Definition MAX_WAV_SAMPLES : Z := 10000000.

Record DecodedWav := { sample_rate : Z; samples : list Z }.

Definition pcm16_wav_bytes (samples : list Z) (sample_rate : Z) : outcome (list Z) :=
  if sample_rate =? 0 then Panic
  else
    let data_len := 2 * Z.of_nat (length samples) in
    if Int.u32_max <? data_len then Panic
    else
      let byte_rate := 2 * sample_rate in
      if Int.u32_max <? byte_rate then Panic
      else
        let riff_chunk_size := 36 + data_len in
        if Int.u32_max <? riff_chunk_size then Panic
        else Done (byte_list "RIFF" ++ le_bytes 4 riff_chunk_size ++ byte_list "WAVEfmt " ++
          le_bytes 4 16 ++ le_bytes 2 1 ++ le_bytes 2 1 ++ le_bytes 4 sample_rate ++
          le_bytes 4 byte_rate ++ le_bytes 2 2 ++ le_bytes 2 16 ++ byte_list "data" ++
          le_bytes 4 data_len ++ concat (map i16_le samples)).

(** [bytes.chunks_exact(2)] read as samples. *)
Fixpoint read_samples (bs : list Z) : list Z :=
  match bs with
  | a :: b :: bs' => i16_from_le [a; b] :: read_samples bs'
  | _ => []
  end.

(** The chunk loop, on [bytes[offset..]].  [offset] is a 64-bit [usize] and a chunk
    length a [u32], so the checked additions do not fail.  Each round moves on by
    at least eight bytes: the length of the file is enough fuel
    ([read_chunks_fuel]). *)
Fixpoint read_chunks (fuel : nat) (rate : Z) (rest : list Z) : result DecodedWav :=
  match fuel with
  | O => Err "WAV data chunk not found"
  | S fuel' =>
      if (length rest <? 8)%nat then Err "WAV data chunk not found"
      else
        let id := take 4 rest in
        let len := from_le (take 4 (drop 4 rest)) in
        let rest := drop 8 rest in
        if decide (id = byte_list "data") then
          if Z.of_nat (length rest) <? len then Err "truncated WAV data"
          else if MAX_WAV_SAMPLES <? len / 2 then Err "WAV data exceeds maximum sample limit"
          else Ok {| sample_rate := rate; samples := read_samples (take (Z.to_nat len) rest) |}
        else
          let skip := len + len mod 2 in
          if Z.of_nat (length rest) <? skip then Err "WAV chunk extends past file end"
          else read_chunks fuel' rate (drop (Z.to_nat skip) rest)
  end.

Definition slice (from to : nat) (bs : list Z) : list Z := take (to - from) (drop from bs).

Definition read_pcm16_wav (bytes : list Z) : result DecodedWav :=
  if (length bytes <? 44)%nat || negb (bool_decide (slice 0 4 bytes = byte_list "RIFF"))
     || negb (bool_decide (slice 8 12 bytes = byte_list "WAVE"))
  then Err "not a WAV file"
  else
    let audio_format := from_le (slice 20 22 bytes) in
    let channels := from_le (slice 22 24 bytes) in
    let rate := from_le (slice 24 28 bytes) in
    let bits_per_sample := from_le (slice 34 36 bytes) in
    if negb (audio_format =? 1) || negb (channels =? 1) || negb (bits_per_sample =? 16)
    then Err "WAV must be mono PCM16"
    else read_chunks (length bytes) rate (drop 12 bytes).

(** ** Keys *)

Definition sanitize_key_part (input : str) : str :=
  map (fun c =>
    if decide (c = "/"%char) then "_"%char
    else if decide (c = Str.BACKSLASH) then "_"%char
    else if decide (c = ":"%char) then "_"%char
    else if decide (c = Str.NUL) then "_"%char
    else c) input.

(** [Path::is_absolute] and [PathBuf::join] for a relative path. *)
Definition is_absolute (p : str) : bool := Str.starts_with "/" p.
Definition path_join (root key : str) : str :=
  if Str.is_empty root || Str.ends_with "/" root then root ++ key else root ++ "/" ++ key.

Definition path_for_key (root key : str) : result str :=
  if Str.contains ".." key || is_absolute key
  then Err "invalid voicemail storage key"
  else Ok (path_join root key).

(** ** File operations

    The files are a map from paths to contents.  [FsFault] says which operations
    of the file system fail: creating the directory, opening a path for another
    reason than that it exists, or writing (after some bytes were written). *)

Record FsFault := {
  mkdir_fails : bool;
  open_fails : str -> bool;
  write_fails : option nat;
}.

Definition no_fault : FsFault :=
  {| mkdir_fails := false; open_fails := fun _ => false; write_fails := None |}.

Abbreviation files := (gmap str (list Z)).

(** [for _ in 0..8]: [uuids] are the identifiers [Uuid::new_v4] will return. *)
Fixpoint write_tries (n : nat) (root mailbox call_id : str) (bytes : list Z)
    (uuids : list str) (ft : FsFault) (fs : files) : result str * files :=
  match n, uuids with
  | S n', u :: uuids' =>
      let key := mailbox ++ "/" ++ call_id ++ "-" ++ u ++ ".wav" in
      match path_for_key root key with
      | Err e => (Err e, fs)
      | Ok path =>
          if open_fails ft path then (Err "create voicemail", fs)
          else match fs !! path with
          | Some _ => write_tries n' root mailbox call_id bytes uuids' ft fs
          | None =>
              match write_fails ft with
              | Some k => (Err "write voicemail", <[path := take k bytes]> fs)
              | None => (Ok key, <[path := bytes]> fs)
              end
          end
      end
  | _, _ => (Err "failed to allocate unique voicemail storage key", fs)
  end.

Definition write_message (root mailbox call_id : str) (bytes : list Z) (uuids : list str)
    (ft : FsFault) (fs : files) : result str * files :=
  let mailbox := sanitize_key_part mailbox in
  let call_id := sanitize_key_part call_id in
  match path_for_key root mailbox with
  | Err e => (Err e, fs)
  | Ok _ =>
      if mkdir_fails ft then (Err "create voicemail directory", fs)
      else write_tries 8 root mailbox call_id bytes uuids ft fs
  end.

Definition read_key (root key : str) (fs : files) : result (list Z) :=
  path ← path_for_key root key;
  ok_or (fs !! path) "read voicemail".

(** [fails]: removing the file fails for another reason than that it is missing. *)
Definition delete_key (root key : str) (fails : bool) (fs : files) : result unit * files :=
  match path_for_key root key with
  | Err e => (Err e, fs)
  | Ok path =>
      match fs !! path with
      | None => (Ok tt, fs)
      | Some _ => if fails then (Err "delete voicemail", fs) else (Ok tt, delete path fs)
      end
  end.

(** ** Facts: bytes *)

Lemma le_bytes_length n z : length (le_bytes n z) = n.
Proof. revert z. induction n; intros z; cbn; [done|]. by rewrite IHn. Qed.

Lemma from_le_bytes n z : 0 <= z < 256 ^ Z.of_nat n -> from_le (le_bytes n z) = z.
Proof.
  revert z. induction n as [|n IH]; intros z Hz.
  - change (256 ^ Z.of_nat 0) with 1 in Hz. cbn. lia.
  - cbn [le_bytes from_le]. rewrite IH.
    + pose proof (Z.div_mod z 256 ltac:(lia)). lia.
    + rewrite Nat2Z.inj_succ, Z.pow_succ_r in Hz by lia. split; [apply Z.div_pos; lia|].
      apply Z.div_lt_upper_bound; lia.
Qed.

Lemma i16_from_le_le x : Int.is_i16 x -> i16_from_le (i16_le x) = x.
Proof.
  intros Hx. unfold i16_from_le, i16_le. unfold Int.is_i16, Int.i16_min, Int.i16_max in Hx.
  rewrite from_le_bytes by (unfold Int.wrap_u16; change (256 ^ Z.of_nat 2) with (2 ^ 16);
    apply Z.mod_pos_bound; lia).
  unfold Int.wrap_i16, Int.wrap_u16. change (2 ^ 15) with 32768. change (2 ^ 16) with 65536.
  div_lia.
Qed.

Lemma read_samples_concat xs :
  Forall Int.is_i16 xs -> read_samples (concat (map i16_le xs)) = xs.
Proof.
  induction 1 as [|x xs Hx _ IH]; [done|].
  assert (exists a b, i16_le x = [a; b]) as (a & b & Hab) by (eexists _, _; reflexivity).
  cbn [map concat]. rewrite Hab. cbn [app read_samples]. rewrite IH, <-Hab.
  by rewrite i16_from_le_le.
Qed.

Lemma concat_i16_length xs : length (concat (map i16_le xs)) = (2 * length xs)%nat.
Proof. induction xs as [|x xs IH]; [done|]. cbn [map concat]. rewrite length_app, IH. cbn. lia. Qed.

(** Fuel beyond the length of the text changes nothing. *)
Lemma read_chunks_fuel n m rate rest :
  (length rest < n)%nat -> (length rest < m)%nat ->
  read_chunks n rate rest = read_chunks m rate rest.
Proof.
  revert m rest. induction n as [|n IH]; intros [|m] rest Hn Hm; try lia.
  cbn [read_chunks]. destruct (length rest <? 8)%nat eqn:E; [done|]. apply Nat.ltb_ge in E.
  repeat (case_match; try done). apply IH; rewrite !length_drop; lia.
Qed.

(** ** Facts: keys *)

Lemma contains_dots_split a c b :
  c <> "."%char ->
  Str.contains ".." (a ++ c :: b) = Str.contains ".." a || Str.contains ".." b.
Proof.
  intros Hc. induction a as [|d a IH].
  - cbn [app]. cbn [Str.contains]. replace (Str.starts_with ".." (c :: b)) with false; [done|].
    symmetry. unfold Str.starts_with. cbn. by rewrite decide_False by congruence.
  - change ((d :: a) ++ c :: b) with (d :: (a ++ c :: b)). cbn [Str.contains].
    rewrite IH, orb_assoc. f_equal.
    replace (Str.starts_with ".." (d :: a ++ c :: b)) with (Str.starts_with ".." (d :: a));
      [done|].
    unfold Str.starts_with. cbn. destruct a as [|e a]; cbn; case_decide; try done.
    + by rewrite decide_False by congruence.
    + by case_decide.
Qed.

Lemma sanitize_no_slash s : "/"%char ∉ sanitize_key_part s.
Proof.
  unfold sanitize_key_part. intros (c & Hc & _)%list_elem_of_fmap. by repeat case_decide.
Qed.

(** The characters a key can hold after the mailbox. *)
Definition plain_uuid (u : str) : Prop := "."%char ∉ u /\ "/"%char ∉ u.

Lemma contains_no_dot s : "."%char ∉ s -> Str.contains ".." s = false.
Proof.
  intros Hs. destruct (Str.contains ".." s) eqn:E; [|done].
  apply Str.contains_spec in E as (a & b & ->). exfalso. apply Hs.
  rewrite !elem_of_app. right. left. by_decide.
Qed.

Lemma key_dots mb cid u :
  plain_uuid u ->
  Str.contains ".." (mb ++ "/" ++ cid ++ "-" ++ u ++ ".wav") =
  Str.contains ".." mb || Str.contains ".." cid.
Proof.
  intros [Hu _]. cbn [app]. rewrite !contains_dots_split by done. f_equal.
  replace (Str.contains ".." (u ++ ".wav")) with false by
    (symmetry; clear -Hu; induction u as [|c u IH]; [done|];
     change ((c :: u) ++ ".wav") with (c :: (u ++ ".wav"));
     cbn [Str.contains]; rewrite IH by set_solver;
     unfold Str.starts_with; cbn; by rewrite decide_False by set_solver).
  by rewrite orb_false_r.
Qed.

Lemma key_absolute mb r : mb <> [] -> "/"%char ∉ mb -> is_absolute (mb ++ r) = false.
Proof.
  intros Hne Hs. destruct mb as [|c mb]; [done|]. unfold is_absolute, Str.starts_with. cbn.
  rewrite decide_False; [done|]. set_solver.
Qed.

Lemma path_for_key_valid root mb cid u :
  plain_uuid u -> mb <> [] -> "/"%char ∉ mb ->
  Str.contains ".." mb = false -> Str.contains ".." cid = false ->
  path_for_key root (mb ++ "/" ++ cid ++ "-" ++ u ++ ".wav") =
  Ok (path_join root (mb ++ "/" ++ cid ++ "-" ++ u ++ ".wav")).
Proof.
  intros Hu Hne Hs Hm Hc. unfold path_for_key. by rewrite key_dots, Hm, Hc, key_absolute.
Qed.

Lemma write_tries_safe n root mb cid bytes uuids ft fs p v :
  fs !! p = Some v -> (write_tries n root mb cid bytes uuids ft fs).2 !! p = Some v.
Proof.
  intros Hp. revert uuids. induction n as [|n IH]; intros [|u uuids]; try done.
  cbn [write_tries]. destruct (path_for_key _ _) as [path|e]; [|done].
  destruct (open_fails ft path); [done|]. destruct (fs !! path) eqn:E; [apply IH|].
  destruct (write_fails ft); cbn [snd]; by rewrite lookup_insert_ne by congruence.
Qed.

Lemma write_tries_ok n root mb cid bytes uuids ft fs key fs' :
  write_tries n root mb cid bytes uuids ft fs = (Ok key, fs') ->
  exists path, path_for_key root key = Ok path /\ fs !! path = None /\
    fs' = <[path := bytes]> fs.
Proof.
  revert uuids. induction n as [|n IH]; intros [|u uuids] Hw; try by simplify_eq/=.
  cbn [write_tries] in Hw. 
  destruct (path_for_key root (mb ++ _)) as [path|e] eqn:Ep; [|by simplify_eq/=].
  destruct (open_fails ft path); [by simplify_eq/=|].
  destruct (fs !! path) eqn:E; [by eapply IH|].
  destruct (write_fails ft); simplify_eq/=. eauto.
Qed.

(** With a fresh identifier among those tried the message is stored. *)
Lemma write_tries_succeeds n root mb cid bytes uuids fs :
  Forall plain_uuid uuids -> mb <> [] -> "/"%char ∉ mb ->
  Str.contains ".." mb = false -> Str.contains ".." cid = false ->
  Exists (fun u => fs !! path_join root (mb ++ "/" ++ cid ++ "-" ++ u ++ ".wav") = None)
    (take n uuids) ->
  exists key fs', write_tries n root mb cid bytes uuids no_fault fs = (Ok key, fs').
Proof.
  intros Hu Hne Hs Hm Hc. revert n. induction Hu as [|u uuids Hu _ IH]; intros [|n] Hex;
    try by apply Exists_nil in Hex.
  cbn [write_tries]. rewrite path_for_key_valid by done. cbn [open_fails no_fault].
  destruct (fs !! _) eqn:E; [|cbn; eauto].
  apply IH. rewrite firstn_cons, Exists_cons in Hex. destruct Hex as [Hex|Hex]; [|done].
  by rewrite E in Hex.
Qed.

(** ** Theorems *)

(** A message written to a mailbox can be read back: with a fresh
    identifier among the first eight, a non-empty mailbox name and no [".."] in
    mailbox or Call-ID, [write_message] returns a key under which [read] gives
    exactly the bytes written, in a file that did not exist before. *)
Theorem write_message_roundtrip root mailbox cid bytes uuids fs :
  Forall plain_uuid uuids -> mailbox <> [] ->
  Str.contains ".." (sanitize_key_part mailbox) = false ->
  Str.contains ".." (sanitize_key_part cid) = false ->
  Exists (fun u => fs !! path_join root (sanitize_key_part mailbox ++ "/" ++
    sanitize_key_part cid ++ "-" ++ u ++ ".wav") = None) (take 8 uuids) ->
  exists key fs', write_message root mailbox cid bytes uuids no_fault fs = (Ok key, fs') /\
    read_key root key fs' = Ok bytes /\
    exists path, fs !! path = None /\ fs' = <[path := bytes]> fs.
Proof.
  intros Hu Hne Hm Hc Hex. unfold write_message.
  assert (sanitize_key_part mailbox <> []) as Hne' by (by destruct mailbox).
  pose proof (sanitize_no_slash mailbox) as Hs.
  assert (path_for_key root (sanitize_key_part mailbox) =
    Ok (path_join root (sanitize_key_part mailbox))) as ->.
  { unfold path_for_key. rewrite Hm, <-(app_nil_r (sanitize_key_part mailbox)).
    by rewrite key_absolute. }
  cbn [mkdir_fails no_fault].
  destruct (write_tries_succeeds 8 root (sanitize_key_part mailbox) (sanitize_key_part cid)
    bytes uuids fs Hu Hne' Hs Hm Hc Hex) as (key & fs' & Hw).
  exists key, fs'. split; [done|].
  destruct (write_tries_ok _ _ _ _ _ _ _ _ _ _ Hw) as (path & Hp & Hfresh & ->).
  split; [|eauto]. unfold read_key. rewrite Hp. cbn. by rewrite lookup_insert_eq.
Qed.

Lemma write_message_roundtrip_witness :
  exists key fs',
    write_message "/vm" "1001" "abc@host" [1; 2; 3] ["u1"; "u2"] no_fault
      {["/vm/1001/abc@host-u1.wav" := [9]]} = (Ok key, fs') /\
    read_key "/vm" key fs' = Ok [1; 2; 3] /\
    exists path, ({["/vm/1001/abc@host-u1.wav" := [9]]} : files) !! path = None /\
      fs' = <[path := [1; 2; 3]]> {["/vm/1001/abc@host-u1.wav" := [9]]}.
Proof.
  apply (write_message_roundtrip "/vm" "1001" "abc@host" [1; 2; 3] ["u1"; "u2"]
    {["/vm/1001/abc@host-u1.wav" := [9]]}).
  - repeat constructor; by_decide.
  - done.
  - reflexivity.
  - reflexivity.
  - apply Exists_cons_tl, Exists_cons_hd. vm_compute. reflexivity.
Defined.

(** Storing a message never damages another one: whatever fails, every file
    that exists before [write_message] is unchanged after it. *)
Theorem write_message_preserves root mailbox cid bytes uuids ft fs p v :
  fs !! p = Some v -> (write_message root mailbox cid bytes uuids ft fs).2 !! p = Some v.
Proof.
  intros Hp. unfold write_message. destruct (path_for_key _ _); [|done].
  destruct (mkdir_fails ft); [done|]. by apply write_tries_safe.
Qed.

Lemma write_message_preserves_witness :
  (write_message "/vm" "1001" "abc" [1] ["u1"]
     {| mkdir_fails := false; open_fails := fun _ => false; write_fails := Some 0%nat |}
     {["/vm/1001/old.wav" := [9]]}).2 !! "/vm/1001/old.wav" = Some [9].
Proof.
  apply (write_message_preserves "/vm" "1001" "abc" [1] ["u1"]). vm_compute. reflexivity.
Defined.

(** A Call-ID that holds [".."] loses its recording: the key is refused, so
    [write_message] fails without storing anything, whatever the mailbox. *)
Theorem write_message_dots_lost root mailbox cid bytes uuids fs :
  Forall plain_uuid uuids -> Str.contains ".." (sanitize_key_part cid) = true ->
  is_ok (write_message root mailbox cid bytes uuids no_fault fs).1 = false /\
  (write_message root mailbox cid bytes uuids no_fault fs).2 = fs.
Proof.
  intros Hu Hc. unfold write_message. destruct (path_for_key _ _); [|done].
  cbn [mkdir_fails no_fault]. destruct Hu as [|u uuids Hu _]; [done|].
  cbn [write_tries]. unfold path_for_key. rewrite key_dots, Hc by done.
  by rewrite orb_true_r.
Qed.

Lemma write_message_dots_lost_witness :
  is_ok (write_message "/vm" "1001" "a..b@host" [1] ["u1"] no_fault ∅).1 = false.
Proof.
  apply (write_message_dots_lost "/vm" "1001" "a..b@host" [1] ["u1"] ∅).
  - repeat constructor; by_decide.
  - reflexivity.
Defined.

Lemma pcm16_wav_bytes_done xs rate :
  0 < rate -> 2 * rate <= Int.u32_max -> 36 + 2 * Z.of_nat (length xs) <= Int.u32_max ->
  exists h1 h2 h3, pcm16_wav_bytes xs rate = Done (byte_list "RIFF" ++ h1 ++
    byte_list "WAVEfmt " ++ [16; 0; 0; 0; 1; 0; 1; 0] ++ le_bytes 4 rate ++ h2 ++
    [2; 0; 16; 0] ++ byte_list "data" ++ h3 ++ concat (map i16_le xs)) /\
    length h1 = 4%nat /\ length h2 = 4%nat /\ h3 = le_bytes 4 (2 * Z.of_nat (length xs)).
Proof.
  intros Hr Hr2 Hn. unfold pcm16_wav_bytes, MAX_WAV_SAMPLES, Int.u32_max in *.
  rewrite (proj2 (Z.eqb_neq rate 0)) by lia. rewrite !(proj2 (Z.ltb_ge _ _)) by lia.
  eexists (le_bytes 4 (36 + 2 * Z.of_nat (length xs))), (le_bytes 4 (2 * rate)), _.
  split; [reflexivity|]. by rewrite !le_bytes_length.
Qed.

(** One chunk that is skipped, and the chunk that holds the samples. *)
Lemma read_chunks_head n rate id lb r :
  length id = 4%nat -> length lb = 4%nat ->
  read_chunks (S n) rate (id ++ lb ++ r) =
  if decide (id = byte_list "data") then
    if Z.of_nat (length r) <? from_le lb then Err "truncated WAV data"
    else if MAX_WAV_SAMPLES <? from_le lb / 2 then Err "WAV data exceeds maximum sample limit"
    else Ok {| sample_rate := rate; samples := read_samples (take (Z.to_nat (from_le lb)) r) |}
  else
    if Z.of_nat (length r) <? from_le lb + from_le lb mod 2
    then Err "WAV chunk extends past file end"
    else read_chunks n rate (drop (Z.to_nat (from_le lb + from_le lb mod 2)) r).
Proof.
  intros Hi Hl. cbn [read_chunks].
  destruct id as [|? [|? [|? [|? [|]]]]]; try done.
  destruct lb as [|? [|? [|? [|? [|]]]]]; try done.
Qed.

(** What the decoder makes of what the encoder wrote. *)
Lemma read_wav_bytes xs rate :
  0 < rate -> 2 * rate <= Int.u32_max -> 36 + 2 * Z.of_nat (length xs) <= Int.u32_max ->
  Forall Int.is_i16 xs ->
  exists bytes, pcm16_wav_bytes xs rate = Done bytes /\
    read_pcm16_wav bytes =
      if MAX_WAV_SAMPLES <? Z.of_nat (length xs) then Err "WAV data exceeds maximum sample limit"
      else Ok {| sample_rate := rate; samples := xs |}.
Proof.
  intros Hr Hr2 Hn Hxs.
  destruct (pcm16_wav_bytes_done xs rate Hr Hr2 Hn) as (h1 & h2 & h3 & Hb & H1 & H2 & H3).
  eexists. split; [exact Hb|]. clear Hb.
  assert (exists r1 r2 r3 r4, le_bytes 4 rate = [r1; r2; r3; r4]) as (r1 & r2 & r3 & r4 & Hrb)
    by (eexists _, _, _, _; reflexivity).
  assert (exists d1 d2 d3 d4, h3 = [d1; d2; d3; d4]) as (d1 & d2 & d3 & d4 & Hd)
    by (subst h3; eexists _, _, _, _; reflexivity).
  assert (from_le [r1; r2; r3; r4] = rate) as Hrate.
  { rewrite <-Hrb. apply from_le_bytes. unfold Int.u32_max in Hr2. lia. }
  assert (from_le [d1; d2; d3; d4] = 2 * Z.of_nat (length xs)) as Hdata.
  { rewrite <-Hd, H3. apply from_le_bytes. unfold Int.u32_max in Hn. lia. }
  rewrite Hrb, Hd. clear Hrb Hd H3.
  destruct h1 as [|a1 [|a2 [|a3 [|a4 [|]]]]]; try done.
  destruct h2 as [|b1 [|b2 [|b3 [|b4 [|]]]]]; try done.
  set (body := concat (map i16_le xs)).
  pose proof (concat_i16_length xs) as Hlen. fold body in Hlen.
  match goal with |- read_pcm16_wav ?bs = _ => set (bytes := bs) end.
  unfold read_pcm16_wav.
  change (length bytes <? 44)%nat with false.
  change (slice 24 28 bytes) with [r1; r2; r3; r4].
  change (slice 0 4 bytes) with (byte_list "RIFF").
  change (slice 8 12 bytes) with (byte_list "WAVE").
  change (from_le (slice 20 22 bytes)) with 1. change (from_le (slice 22 24 bytes)) with 1.
  change (from_le (slice 34 36 bytes)) with 16.
  rewrite !bool_decide_eq_true_2, Hrate by done. cbn [negb orb Z.eqb Pos.eqb].
  change (drop 12 bytes) with (byte_list "fmt " ++ [16; 0; 0; 0] ++
    slice 20 36 bytes ++ byte_list "data" ++ [d1; d2; d3; d4] ++ body).
  assert (length bytes = S (S (42 + length body))) as -> by done.
  rewrite read_chunks_head, decide_False by done.
  change (from_le [16; 0; 0; 0] + _) with 16.
  rewrite (proj2 (Z.ltb_ge _ _)) by (rewrite length_app; change (length (slice 20 36 bytes)) with 16%nat; lia).
  change (drop (Z.to_nat 16) (slice 20 36 bytes ++ ?r)) with r.
  rewrite read_chunks_head, decide_True, Hdata by done.
  rewrite (proj2 (Z.ltb_ge _ _)) by (rewrite Hlen; lia).
  rewrite Z.mul_comm, Z.div_mul by done. case_match; [done|].
  rewrite take_ge by lia. subst body. by rewrite read_samples_concat.
Qed.

(** Recordings survive the WAV format: for every mono 16-bit recording of
    at most ten million samples and every positive rate whose byte rate fits,
    the encoder does not panic and the decoder gives rate and samples back. *)
Theorem wav_roundtrip xs rate :
  0 < rate -> 2 * rate <= Int.u32_max -> Z.of_nat (length xs) <= MAX_WAV_SAMPLES ->
  Forall Int.is_i16 xs ->
  exists bytes, pcm16_wav_bytes xs rate = Done bytes /\
    read_pcm16_wav bytes = Ok {| sample_rate := rate; samples := xs |}.
Proof.
  intros Hr Hr2 Hn Hxs. destruct (read_wav_bytes xs rate) as (bytes & E & R); [done|done| |done|].
  - unfold MAX_WAV_SAMPLES, Int.u32_max in *. lia.
  - exists bytes. by rewrite (proj2 (Z.ltb_ge _ _)) in R by lia.
Qed.

Lemma wav_roundtrip_witness :
  exists bytes, pcm16_wav_bytes [-32768; -123; 0; 32767] 8000 = Done bytes /\
    read_pcm16_wav bytes = Ok {| sample_rate := 8000; samples := [-32768; -123; 0; 32767] |}.
Proof.
  apply (wav_roundtrip [-32768; -123; 0; 32767] 8000).
  - lia.
  - vm_compute. congruence.
  - vm_compute. congruence.
  - repeat constructor; vm_compute; congruence.
Defined.
