(* ===== verification/Sdp.v ===== *)
(** * Session descriptions: the SDP helpers of [backend/src/sip/media.rs]

    Parsing of media sections, the rewriting of connection addresses and ports
    for the RTP relay, and the rewriting of [Content-Length]. *)

From S2P Require Import Prelude RustStr Net Message.

Open Scope str_scope.

(** ** Media sections *)

Inductive SdpMediaKind := Audio | Video.

#[export] Instance SdpMediaKind_eq_dec : EqDecision SdpMediaKind.
Proof. solve_decision. Defined.

Record SdpMediaDescriptor := {
  md_kind : SdpMediaKind;
  md_media_index : nat;
  md_port : Z;
  md_active : bool;
}.

Definition sdp_media_port (port_token : str) : option Z :=
  head (Str.split_char "/" port_token) ≫= Str.parse_u16.

Definition media_kind (media_token : str) : option SdpMediaKind :=
  match Str.strip_prefix "m=" media_token with
  | Some k => if decide (k = "audio") then Some Audio
              else if decide (k = "video") then Some Video else None
  | None => None
  end.

(** The descriptor of an [m=] line, given its index. *)
Definition media_descriptor (media_index : nat) (trimmed : str) : option SdpMediaDescriptor :=
  match Str.split_whitespace trimmed with
  | media_token :: port_token :: _ =>
      kind ← media_kind media_token;
      port ← sdp_media_port port_token;
      Some {| md_kind := kind; md_media_index := media_index; md_port := port;
              md_active := negb (port =? 0)%Z |}
  | _ => None
  end.

Definition is_m_line (line : str) : bool := Str.starts_with "m=" (Str.trim_start line).
Definition is_c_line (line : str) : bool := Str.starts_with "c=IN IP4 " (Str.trim_start line).

(** The loop of [parse_sdp_media_sections] from section [media_index] on. *)
Fixpoint parse_sections (media_index : nat) (ls : list str) : list SdpMediaDescriptor :=
  match ls with
  | [] => []
  | line :: ls' =>
      if is_m_line line then
        option_list (media_descriptor media_index (Str.trim_start line))
          ++ parse_sections (S media_index) ls'
      else parse_sections media_index ls'
  end.

Definition parse_sdp_media_sections (sdp : str) : list SdpMediaDescriptor :=
  parse_sections 0 (Str.lines sdp).

(** ** Rewriting *)

Definition sdp_m_line_port (line : str) : option Z :=
  Str.split_whitespace line !! 1 ≫= sdp_media_port.

Definition rewrite_m_port (line : str) (new_port : Z) : str :=
  let parts := Str.splitn 4 Str.SP line in
  let media := default "" (parts !! 0) in
  let port_field := default "0" (parts !! 1) in
  let rest := default "" (parts !! 2) in
  let fmt := default "" (parts !! 3) in
  let count_suffix :=
    match Str.find_char "/" port_field with Some pos => drop pos port_field | None => "" end in
  if Str.is_empty fmt
  then media ++ " " ++ Str.show_dec new_port ++ count_suffix ++ " " ++ rest
  else media ++ " " ++ Str.show_dec new_port ++ count_suffix ++ " " ++ rest ++ " " ++ fmt.

Fixpoint sections_with_connection (current : option nat) (next : nat) (ls : list str)
    : gset nat :=
  match ls with
  | [] => ∅
  | line :: ls' =>
      if is_m_line line then sections_with_connection (Some next) (S next) ls'
      else if is_c_line line then
        match current with
        | Some idx => {[idx]} ∪ sections_with_connection current next ls'
        | None => sections_with_connection current next ls'
        end
      else sections_with_connection current next ls'
  end.

Definition sdp_media_sections_with_connection (sdp : str) : gset nat :=
  sections_with_connection None 0 (Str.lines sdp).

Definition is_unsupported_media (line : str) : bool :=
  let trimmed := Str.trim_start line in
  Str.starts_with "m=" trimmed
  && negb (Str.starts_with "m=audio " trimmed)
  && negb (Str.starts_with ("m=audio" ++ [Str.TAB]) trimmed)
  && negb (Str.starts_with "m=video " trimmed)
  && negb (Str.starts_with ("m=video" ++ [Str.TAB]) trimmed).

Section rewrite.
Context (new_ip : str) (port_by_media : gmap nat Z).
Context (has_unsupported_media : bool) (media_sections_with_c : gset nat).

Definition c_line : str := "c=IN IP4 " ++ new_ip.

(** The main loop of [rewrite_sdp_media]: the lines pushed to [out]. *)
Fixpoint rewrite_lines (current : option nat) (next : nat) (ls : list str) : list str :=
  match ls with
  | [] => []
  | line :: ls' =>
      if is_m_line line then
        let rest := rewrite_lines (Some next) (S next) ls' in
        match port_by_media !! next with
        | Some new_port =>
            if match sdp_m_line_port line with Some p => negb (p =? 0)%Z | None => false end
            then [rewrite_m_port line new_port] ++
                 (if has_unsupported_media && bool_decide (next ∉ media_sections_with_c)
                  then [c_line] else []) ++ rest
            else line :: rest
        | None => line :: rest
        end
      else if is_c_line line then
        let rest := rewrite_lines current next ls' in
        if negb has_unsupported_media then c_line :: rest
        else match current with
          | Some idx => if decide (is_Some (port_by_media !! idx)) then c_line :: rest
                        else line :: rest
          | None => line :: rest
          end
      else line :: rewrite_lines current next ls'
  end.
End rewrite.

(** [media_ports.iter().copied().collect()] into a map: later entries win. *)
Definition port_map (media_ports : list (nat * Z)) : gmap nat Z :=
  list_to_map (reverse media_ports).

Definition rewrite_sdp_media (sdp new_ip : str) (media_ports : list (nat * Z)) : str :=
  let has_unsupported_media := existsb is_unsupported_media (Str.lines sdp) in
  Str.join Str.crlf (rewrite_lines new_ip (port_map media_ports) has_unsupported_media
    (sdp_media_sections_with_connection sdp) None 0 (Str.lines sdp)).

Definition rewrite_sdp (sdp new_ip : str) (new_port : Z) : str :=
  match find_first (fun m => bool_decide (md_kind m = Audio) && md_active m)
          (parse_sdp_media_sections sdp) with
  | Some m => rewrite_sdp_media sdp new_ip [(md_media_index m, new_port)]
  | None => rewrite_sdp_media sdp new_ip []
  end.

(** ** Content-Length *)

Definition is_content_length_line (line : str) : bool :=
  Str.starts_with "content-length:" (Str.to_lower line).

Definition rewrite_content_length (raw new_body : str) : str :=
  let crlf2 := Str.crlf ++ Str.crlf in
  let is_crlf := Str.contains crlf2 raw in
  let sep := if is_crlf then crlf2 else [Str.LF; Str.LF] in
  let header_sep := if is_crlf then Str.crlf else [Str.LF] in
  match Str.find_str sep raw with
  | Some pos =>
      let updated_headers := filter (fun l => Str.is_empty l = false)
        (map (fun line => if is_content_length_line line then [] else line)
          (Str.split_str header_sep (take pos raw))) in
      Str.join header_sep updated_headers ++ header_sep ++
      "Content-Length: " ++ Str.show_dec (Str.len new_body) ++ sep ++ new_body
  | None => raw
  end.

(** ** Predicates and readers *)

Definition sdp_has_crypto (sdp : str) : bool :=
  existsb (fun l => Str.starts_with "a=crypto:" (Str.to_lower l)) (Str.lines sdp).

Definition is_invite_200_ok_with_sdp (msg : SipMessage) : bool :=
  if decide (status_code msg = Some 200%Z) then
    let cseq_is_invite :=
      match cseq msg with Some s => Str.ends_with "INVITE" (Str.to_upper s) | None => false end in
    let has_sdp := negb (Str.is_empty (body msg)) &&
      match header msg "content-type" with
      | Some ct => Str.contains "application/sdp" (Str.to_lower ct)
      | None => false
      end in
    cseq_is_invite && has_sdp
  else false.

Definition is_webrtc_sdp (sdp : str) : bool :=
  existsb (fun l =>
    let lower := Str.to_lower (Str.trim l) in
    Str.starts_with "a=ice-ufrag:" lower || Str.starts_with "a=fingerprint:" lower)
    (Str.lines sdp).

(** The lines of [make_plain_rtp_sdp] at UNIX time [ts]. *)
Definition plain_rtp_lines (ts : Z) (server_ip : str) (audio_port : Z) (video_port : option Z)
    : list str :=
  ["v=0"; "o=- " ++ Str.show_dec ts ++ " " ++ Str.show_dec ts ++ " IN IP4 " ++ server_ip;
   "s=-"; "c=IN IP4 " ++ server_ip; "t=0 0";
   "m=audio " ++ Str.show_dec audio_port ++ " RTP/AVP 0 8";
   "a=rtpmap:0 PCMU/8000"; "a=rtpmap:8 PCMA/8000"; "a=sendrecv"] ++
  match video_port with
  | Some p => ["m=video " ++ Str.show_dec p ++ " RTP/AVP 96 97";
               "a=rtpmap:96 H264/90000"; "a=rtpmap:97 VP8/90000"; "a=sendrecv"]
  | None => []
  end.

Definition make_plain_rtp_sdp (ts : Z) (server_ip : str) (audio_port : Z)
    (video_port : option Z) : str :=
  Str.terminated (plain_rtp_lines ts server_ip audio_port video_port).

Definition sdp_connection_ip (sdp : str) : option str :=
  Str.trim <$> find_map (Str.strip_prefix "c=IN IP4 ") (Str.lines sdp).

(** The port of the first [m=<kind>] line: [?] leaves the function there. *)
Definition sdp_kind_port (kind sdp : str) : option Z :=
  match find_first (fun l => Str.starts_with ("m=" ++ kind ++ " ") l
                          || Str.starts_with ("m=" ++ kind ++ [Str.TAB]) l) (Str.lines sdp) with
  | Some line => Str.split_whitespace line !! 1 ≫= sdp_media_port
  | None => None
  end.

Definition sdp_audio_port (sdp : str) : option Z := sdp_kind_port "audio" sdp.
Definition sdp_video_port (sdp : str) : option Z := sdp_kind_port "video" sdp.

Definition sdp_rtp_addr (sdp : str) : option SocketAddr :=
  ip ← sdp_connection_ip sdp;
  port ← sdp_audio_port sdp;
  parse_addr (addr_text ip port).

Example rewrite_demo :
  rewrite_sdp (Str.terminated ["v=0"; "c=IN IP4 10.0.0.5"; "m=audio 49170 RTP/AVP 0 8"])
    "1.2.3.4" 10000 =
  Str.join Str.crlf ["v=0"; "c=IN IP4 1.2.3.4"; "m=audio 10000 RTP/AVP 0 8"].
Proof. vm_compute. reflexivity. Qed.

(** ** Facts: words and lines *)

Definition no_ws (s : str) : Prop := Forall (fun c => Str.is_ws c = false) s.

Lemma words_go_app cur w s :
  no_ws w -> Str.words_go cur (w ++ s) = Str.words_go (reverse w ++ cur) s.
Proof.
  intros Hw. revert cur. induction Hw as [|c w Hc _ IH]; intros cur; [done|].
  cbn [app Str.words_go]. rewrite Hc, IH. by rewrite reverse_cons, <-app_assoc.
Qed.

Lemma words_cons w s :
  no_ws w -> w <> [] -> Str.split_whitespace (w ++ Str.SP :: s) = w :: Str.split_whitespace s.
Proof.
  intros Hw Hne. unfold Str.split_whitespace. rewrite words_go_app, app_nil_r by done.
  cbn [Str.words_go]. change (Str.is_ws Str.SP) with true. cbn iota.
  assert (Str.is_empty (reverse w) = false) as ->.
  { destruct (reverse w) eqn:E; [|done]. apply (f_equal reverse) in E.
    by rewrite reverse_involutive in E. }
  by rewrite reverse_involutive.
Qed.

Lemma words_single w : no_ws w -> w <> [] -> Str.split_whitespace w = [w].
Proof.
  intros Hw Hne. unfold Str.split_whitespace. rewrite <-(app_nil_r w) at 1.
  rewrite words_go_app, app_nil_r by done. cbn [Str.words_go].
  assert (Str.is_empty (reverse w) = false) as ->.
  { destruct (reverse w) eqn:E; [|done]. apply (f_equal reverse) in E.
    by rewrite reverse_involutive in E. }
  by rewrite reverse_involutive.
Qed.

Lemma words_trim_start s : Str.split_whitespace (Str.trim_start s) = Str.split_whitespace s.
Proof.
  induction s as [|c s IH]; [done|]. unfold Str.trim_start in *. cbn [drop_while].
  destruct (Str.is_ws c) eqn:E; [|done]. rewrite IH. unfold Str.split_whitespace at 2.
  cbn [Str.words_go]. by rewrite E.
Qed.

(** [lines] undoes joining with CR LF, up to an empty last line. *)
Lemma lines_join ls :
  Forall (fun l => Str.LF ∉ l) ls ->
  Str.lines (Str.join Str.crlf ls) = ls \/
  exists init, ls = init ++ [[]] /\ Str.lines (Str.join Str.crlf ls) = init.
Proof.
  induction 1 as [|l ls Hl Hls IH]; [by left|]. destruct ls as [|l' ls].
  - destruct l as [|c l]; [right; by exists []|]. left. by apply Str.lines_last.
  - rewrite Str.join_cons_nonempty, Str.lines_crlf by done.
    destruct IH as [->|(init & Heq & ->)]; [by left|right].
    exists (l :: init). by rewrite Heq.
Qed.

Lemma trim_start_head c s : Str.is_ws c = false -> Str.trim_start (c :: s) = c :: s.
Proof. intros Hc. by apply drop_while_id. Qed.

(** ** Facts: clean media lines

    [m=<media> <port>[/<count>]] with single blanks and no indentation, the form
    RFC 4566 prescribes. *)

Definition m_line_parts (line media pf rest : str) : Prop :=
  line = media ++ Str.SP :: pf ++ rest /\ no_ws media /\ no_ws pf /\ pf <> [] /\
  Str.starts_with "m=" media = true /\ (rest = [] \/ exists r, rest = Str.SP :: r).

Definition clean_m_line (line : str) : Prop :=
  exists media pf rest, m_line_parts line media pf rest.

Lemma m_line_words line media pf rest :
  m_line_parts line media pf rest ->
  exists ws, Str.split_whitespace line = media :: pf :: ws.
Proof.
  intros (-> & Hm & Hp & Hne & Hst & Hrest).
  assert (media <> []) by (by intros ->).
  rewrite words_cons by done. destruct Hrest as [->|[r ->]].
  - rewrite app_nil_r, words_single by done. eauto.
  - rewrite words_cons by done. eauto.
Qed.

Lemma m_line_trimmed line media pf rest :
  m_line_parts line media pf rest -> Str.trim_start line = line.
Proof.
  intros (-> & _ & _ & _ & Hst & _). apply Str.starts_with_spec in Hst as [r ->]. done.
Qed.

Definition count_suffix (pf : str) : str :=
  match Str.find_char "/" pf with Some pos => drop pos pf | None => "" end.

Lemma no_ws_no_sp s : no_ws s -> Str.SP ∉ s.
Proof. unfold no_ws. rewrite Forall_forall. intros Hs Hin. by apply Hs in Hin. Qed.

Lemma rewrite_m_port_parts line media pf rest p :
  m_line_parts line media pf rest ->
  exists tail, rewrite_m_port line p =
    media ++ Str.SP :: (Str.show_dec p ++ count_suffix pf) ++ Str.SP :: tail /\
    (Str.LF ∉ line -> Str.LF ∉ tail).
Proof.
  intros (-> & Hm & Hp & _ & _ & Hrest). unfold rewrite_m_port.
  change (Str.splitn 4 Str.SP ?l) with
    (match Str.split_once Str.SP l with
     | Some (a, b) => a :: Str.splitn 3 Str.SP b | None => [l] end).
  rewrite Str.split_once_app by by apply no_ws_no_sp.
  change (Str.splitn 3 Str.SP ?l) with
    (match Str.split_once Str.SP l with
     | Some (a, b) => a :: Str.splitn 2 Str.SP b | None => [l] end).
  destruct Hrest as [->|[r ->]].
  - rewrite app_nil_r, Str.split_once_None by by apply no_ws_no_sp. cbn. exists [].
    split; [|set_solver]. by rewrite <-!app_assoc.
  - rewrite Str.split_once_app by by apply no_ws_no_sp.
    cbn [Str.splitn]. destruct (Str.split_once Str.SP r) as [[a b]|] eqn:E; cbn.
    + apply Str.split_once_Some in E as [-> _]. destruct (Str.is_empty b) eqn:Eb.
      * exists a. split; [by rewrite <-!app_assoc|]. set_solver.
      * exists (a ++ Str.SP :: b). split; [by rewrite <-!app_assoc|]. set_solver.
    + exists r. split; [by rewrite <-!app_assoc|]. set_solver.
Qed.

Lemma count_suffix_shape pf :
  count_suffix pf = [] \/ exists r, count_suffix pf = "/"%char :: r.
Proof.
  unfold count_suffix. destruct (Str.find_char "/" pf) as [n|] eqn:E; [right|by left].
  apply Str.find_char_Some in E as [Heq Hn]. exists (drop (S n) pf).
  rewrite Heq at 1. rewrite drop_app_length'; [done|].
  rewrite length_take. assert (n < length pf); [|lia].
  apply (f_equal length) in Heq. rewrite length_app in Heq. cbn in Heq.
  rewrite length_take, length_drop in Heq. lia.
Qed.

Lemma count_suffix_elem pf c : c ∈ count_suffix pf -> c ∈ pf.
Proof.
  unfold count_suffix. case_match; [|set_solver]. intros Hc.
  rewrite <-(take_drop n pf). apply elem_of_app. by right.
Qed.

Lemma sdp_media_port_new p pf :
  Int.is_u16 p -> sdp_media_port (Str.show_dec p ++ count_suffix pf) = Some p.
Proof.
  intros Hp. unfold sdp_media_port.
  assert ("/"%char ∉ Str.show_dec p) by by apply Str.show_dec_not_elem.
  destruct (count_suffix_shape pf) as [->|[r ->]].
  - rewrite app_nil_r, Str.split_char_single by done. by apply Str.parse_show_dec.
  - rewrite Str.split_char_app by done. by apply Str.parse_show_dec.
Qed.

Lemma no_ws_count_suffix pf : no_ws pf -> no_ws (count_suffix pf).
Proof.
  unfold no_ws. rewrite !Forall_forall. intros Hp c Hc. by apply Hp, count_suffix_elem.
Qed.

(** The rewritten line is clean, has the same media and the new port. *)
Lemma rewrite_m_port_clean line media pf rest p :
  m_line_parts line media pf rest ->
  exists rest', m_line_parts (rewrite_m_port line p) media
    (Str.show_dec p ++ count_suffix pf) rest' /\ (Str.LF ∉ line -> Str.LF ∉ rest').
Proof.
  intros Hl. destruct (rewrite_m_port_parts _ _ _ _ p Hl) as (tail & -> & Hlf).
  destruct Hl as (-> & Hm & Hp & Hne & Hst & _).
  exists (Str.SP :: tail). split; [|intros H; apply not_elem_of_cons; split; [done|auto]].
  split; [by rewrite <-!app_assoc|]. split; [done|]. split.
  { apply Forall_app. split; [apply Str.show_dec_no_ws|by apply no_ws_count_suffix]. }
  split; [|split; [done|eauto]].
  pose proof (Str.show_dec_nonempty p). by destruct (Str.show_dec p).
Qed.

Lemma m_line_is_m line media pf rest :
  m_line_parts line media pf rest -> is_m_line line = true.
Proof.
  intros H. unfold is_m_line. rewrite (m_line_trimmed _ _ _ _ H).
  destruct H as (-> & _ & _ & _ & Hst & _). apply Str.starts_with_spec in Hst as [r ->].
  apply Str.starts_with_spec. exists (r ++ Str.SP :: pf ++ rest). by rewrite <-app_assoc.
Qed.

Lemma m_line_descriptor n line media pf rest :
  m_line_parts line media pf rest ->
  media_descriptor n (Str.trim_start line) =
    (kind ← media_kind media; port ← sdp_media_port pf;
     Some {| md_kind := kind; md_media_index := n; md_port := port;
             md_active := negb (port =? 0)%Z |}).
Proof.
  intros H. unfold media_descriptor. rewrite words_trim_start.
  by destruct (m_line_words _ _ _ _ H) as [ws ->].
Qed.

Lemma m_line_port line media pf rest :
  m_line_parts line media pf rest -> sdp_m_line_port line = sdp_media_port pf.
Proof.
  intros H. unfold sdp_m_line_port. by destruct (m_line_words _ _ _ _ H) as [ws ->].
Qed.

(** ** Facts: what rewriting does to the sections *)

(** A descriptor after its section was given a relay port. *)
Definition relay_descriptor (ports : gmap nat Z) (d : SdpMediaDescriptor) : SdpMediaDescriptor :=
  if md_active d then
    match ports !! md_media_index d with
    | Some p => {| md_kind := md_kind d; md_media_index := md_media_index d; md_port := p;
                   md_active := negb (p =? 0)%Z |}
    | None => d
    end
  else d.

Definition clean_lines (ls : list str) : Prop :=
  Forall (fun l => is_m_line l = true -> clean_m_line l) ls.

Lemma c_line_not_m ip : is_m_line (c_line ip) = false.
Proof. done. Qed.

Lemma relay_m_line n line ports p :
  is_m_line line = true -> clean_m_line line -> ports !! n = Some p -> Int.is_u16 p ->
  (exists q, sdp_m_line_port line = Some q /\ q <> 0%Z) ->
  is_m_line (rewrite_m_port line p) = true /\
  media_descriptor n (Str.trim_start (rewrite_m_port line p)) =
    relay_descriptor ports <$> media_descriptor n (Str.trim_start line).
Proof.
  intros Hm (media & pf & rest & Hl) Hp Hu (q & Hq & Hq0).
  destruct (rewrite_m_port_clean _ _ _ _ p Hl) as (rest' & Hl' & _).
  split; [by eapply m_line_is_m|].
  rewrite (m_line_descriptor _ _ _ _ _ Hl), (m_line_descriptor _ _ _ _ _ Hl').
  rewrite (m_line_port _ _ _ _ Hl) in Hq. rewrite Hq, sdp_media_port_new by done.
  destruct (media_kind media) as [k|]; [|done]. cbn. unfold relay_descriptor.
  cbn [md_active md_media_index md_kind]. by rewrite (proj2 (Z.eqb_neq q 0) Hq0), Hp.
Qed.

Lemma relay_kept n line ports :
  clean_m_line line ->
  (ports !! n = None \/ forall q, sdp_m_line_port line = Some q -> q = 0%Z) ->
  relay_descriptor ports <$> media_descriptor n (Str.trim_start line) =
  media_descriptor n (Str.trim_start line).
Proof.
  intros (media & pf & rest & Hl) Hc. rewrite (m_line_descriptor _ _ _ _ _ Hl).
  rewrite (m_line_port _ _ _ _ Hl) in Hc.
  destruct (media_kind media) as [k|]; [|done]. cbn.
  destruct (sdp_media_port pf) as [q|]; [|done]. cbn. unfold relay_descriptor.
  cbn [md_active md_media_index]. destruct Hc as [->|Hq]; [by case_match|].
  by rewrite (Hq q eq_refl).
Qed.

Lemma map_option_list {A B} (f : A -> B) o : map f (option_list o) = option_list (f <$> o).
Proof. by destruct o. Qed.

Lemma parse_sections_app n ls ks :
  Forall (fun l => is_m_line l = false) ls ->
  parse_sections n (ls ++ ks) = parse_sections n ks.
Proof. induction 1 as [|l ls Hl _ IH]; [done|]. cbn. by rewrite Hl. Qed.

Lemma parse_sections_rewrite ip ports u s cur n ls :
  clean_lines ls -> map_Forall (fun _ => Int.is_u16) ports ->
  parse_sections n (rewrite_lines ip ports u s cur n ls) =
  map (relay_descriptor ports) (parse_sections n ls).
Proof.
  intros Hls Hports. revert cur n. induction Hls as [|l ls Hl _ IH]; intros cur n; [done|].
  cbn [rewrite_lines parse_sections]. destruct (is_m_line l) eqn:Em.
  - specialize (Hl eq_refl). rewrite map_app, map_option_list, <-(IH (Some n) (S n)).
    destruct (ports !! n) as [p|] eqn:Ep.
    + destruct (match sdp_m_line_port l with Some p => _ | None => _ end) eqn:Epp.
      * destruct (relay_m_line n l ports p) as [Hm' Hd'];
          [done|done|done|by eapply Hports| |].
        { destruct (sdp_m_line_port l) as [q|]; [|done]. bool_simpl. eauto. }
        cbn [app parse_sections]. rewrite Hm', Hd'. f_equal.
        apply parse_sections_app. destruct (_ && _)%bool; by auto using c_line_not_m.
      * cbn [parse_sections]. rewrite Em. f_equal. rewrite relay_kept; [done|done|].
        right. intros q Hq. rewrite Hq in Epp. by bool_simpl.
    + cbn [parse_sections]. rewrite Em. f_equal. rewrite relay_kept; [done|done|by left].
  - destruct (is_c_line l).
    + repeat case_match; cbn [parse_sections]; rewrite ?c_line_not_m, ?Em; apply IH.
    + cbn [parse_sections]. rewrite Em. apply IH.
Qed.

Lemma rewrite_lines_Forall (P : str -> Prop) ip ports u s cur n ls :
  P (c_line ip) -> Forall P ls ->
  Forall (fun l => is_m_line l = true -> forall p, P (rewrite_m_port l p)) ls ->
  Forall P (rewrite_lines ip ports u s cur n ls).
Proof.
  intros Hc Hls. revert cur n. induction Hls as [|l ls Hl _ IH]; intros cur n Hm; [constructor|].
  apply Forall_cons in Hm as [Hlm Hm]. cbn [rewrite_lines].
  destruct (is_m_line l); cycle 1.
  { destruct (is_c_line l); [|by auto]. destruct u; cbn [negb]; [|by auto].
    destruct cur; [case_decide|]; by auto. }
  destruct (ports !! n); [|by auto].
  destruct (match sdp_m_line_port l with Some p => _ | None => _ end); [|by auto].
  apply Forall_cons. split; [by apply Hlm|]. apply Forall_app. split; [|by auto].
  destruct (_ && _)%bool; by auto.
Qed.

Lemma rewrite_m_port_no_lf l p : clean_m_line l -> Str.LF ∉ l -> Str.LF ∉ rewrite_m_port l p.
Proof.
  intros (media & pf & rest & Hl) Hlf.
  destruct (rewrite_m_port_clean _ _ _ _ p Hl) as (rest' & (-> & _) & Hr).
  destruct Hl as (-> & _). rewrite !not_elem_of_app, not_elem_of_cons, !not_elem_of_app in Hlf |- *.
  destruct Hlf as (? & ? & ? & ?). repeat split; try done.
  - apply not_elem_of_app. split; [by apply Str.show_dec_not_elem|by intros ?%count_suffix_elem].
  - apply Hr. rewrite not_elem_of_app, not_elem_of_cons, not_elem_of_app. done.
Qed.

Lemma rewrite_lines_no_lf ip ports u s cur n ls :
  Str.LF ∉ ip -> clean_lines ls -> Forall (fun l => Str.LF ∉ l) ls ->
  Forall (fun l => Str.LF ∉ l) (rewrite_lines ip ports u s cur n ls).
Proof.
  intros Hip Hcl Hls. apply rewrite_lines_Forall; [|done|].
  - unfold c_line. apply not_elem_of_app. split; [by_decide|done].
  - unfold clean_lines in Hcl. rewrite Forall_forall in Hls, Hcl |- *.
    intros l Hin Hm p. apply rewrite_m_port_no_lf; auto.
Qed.

Lemma parse_sections_snoc_empty n ls : parse_sections n (ls ++ [[]]) = parse_sections n ls.
Proof.
  revert n. induction ls as [|l ls IH]; intros n; [done|]. cbn [app parse_sections].
  destruct (is_m_line l); [f_equal|]; apply IH.
Qed.

Lemma port_map_lookup ports i p : port_map ports !! i = Some p -> (i, p) ∈ ports.
Proof.
  unfold port_map. intros H%elem_of_list_to_map_2. by rewrite elem_of_reverse in H.
Qed.

(** ** Theorems *)

(** Rewriting for the relay changes the media ports and nothing else: for
    a description whose [m=] lines have the RFC 4566 form, the sections parsed
    from the rewritten text are those of the original, in order and with kind and
    index, where every active section that was given a relay port has that port. *)
Theorem rewrite_sdp_media_sections sdp ip ports :
  clean_lines (Str.lines sdp) -> Forall (fun e => Int.is_u16 e.2) ports -> Str.LF ∉ ip ->
  parse_sdp_media_sections (rewrite_sdp_media sdp ip ports) =
  map (relay_descriptor (port_map ports)) (parse_sdp_media_sections sdp).
Proof.
  intros Hcl Hp Hip. unfold rewrite_sdp_media, parse_sdp_media_sections.
  set (u := existsb _ _). set (s := sdp_media_sections_with_connection sdp).
  assert (map_Forall (fun _ => Int.is_u16) (port_map ports)) as Hports.
  { intros i p Hi%port_map_lookup. rewrite Forall_forall in Hp. apply (Hp _ Hi). }
  rewrite <-(parse_sections_rewrite ip (port_map ports) u s None 0) by done.
  destruct (lines_join (rewrite_lines ip (port_map ports) u s None 0 (Str.lines sdp)))
    as [->|(init & Heq & ->)]; [|done|].
  - apply rewrite_lines_no_lf; [done|done|apply Str.lines_no_lf].
  - by rewrite Heq, parse_sections_snoc_empty.
Qed.

Definition demo_sdp : str := Str.terminated
  ["v=0"; "o=- 1 1 IN IP4 10.0.0.5"; "s=-"; "c=IN IP4 10.0.0.5"; "t=0 0";
   "m=audio 49170 RTP/AVP 0 8"; "m=video 0 RTP/AVP 96"; "a=sendrecv"].

Lemma demo_sdp_clean : clean_lines (Str.lines demo_sdp).
Proof.
  change (Str.lines demo_sdp) with
    ["v=0"; "o=- 1 1 IN IP4 10.0.0.5"; "s=-"; "c=IN IP4 10.0.0.5"; "t=0 0";
     "m=audio 49170 RTP/AVP 0 8"; "m=video 0 RTP/AVP 96"; "a=sendrecv"].
  repeat (apply Forall_cons; split; [try done|]); [..|constructor]; intros _.
  - exists "m=audio", "49170", " RTP/AVP 0 8". repeat split; try by_decide. right; by eexists.
  - exists "m=video", "0", " RTP/AVP 96". repeat split; try by_decide. right; by eexists.
Qed.

Lemma rewrite_sdp_media_sections_witness :
  parse_sdp_media_sections (rewrite_sdp_media demo_sdp "1.2.3.4" [(0, 10000%Z); (1, 10002%Z)]) =
  [{| md_kind := Audio; md_media_index := 0; md_port := 10000; md_active := true |};
   {| md_kind := Video; md_media_index := 1; md_port := 0; md_active := false |}].
Proof.
  rewrite (rewrite_sdp_media_sections demo_sdp "1.2.3.4" [(0, 10000%Z); (1, 10002%Z)]).
  - vm_compute. reflexivity.
  - apply demo_sdp_clean.
  - repeat constructor; vm_compute; congruence.
  - by_decide.
Defined.

Lemma rewrite_lines_c ip ports s cur n ls :
  clean_lines ls ->
  Forall (fun l => is_c_line l = true -> l = c_line ip) (rewrite_lines ip ports false s cur n ls).
Proof.
  intros Hcl. revert cur n. induction Hcl as [|l ls Hl _ IH]; intros cur n; [constructor|].
  cbn [rewrite_lines]. destruct (is_m_line l) eqn:Em.
  - assert (is_c_line l = true -> l = c_line ip) as Hnc.
    { unfold is_m_line, is_c_line in *. apply Str.starts_with_spec in Em as [r Hr].
      rewrite Hr. done. }
    destruct (ports !! n) as [p|]; [|by auto].
    destruct (match sdp_m_line_port l with Some p => _ | None => _ end); [|by auto].
    cbn [andb app]. constructor; [|by auto].
    destruct (Hl eq_refl) as (media & pf & rest & Hparts).
    destruct (rewrite_m_port_clean _ _ _ _ p Hparts) as (rest' & Hl' & _).
    unfold is_c_line. rewrite (m_line_trimmed _ _ _ _ Hl').
    destruct Hl' as (-> & _ & _ & _ & Hst & _). apply Str.starts_with_spec in Hst as [r ->].
    done.
  - destruct (is_c_line l) eqn:Ec; cbn [negb]; constructor; auto. congruence.
Qed.

(** No private address leaks: if the description has only audio and video
    sections, every connection line of the rewritten text names the server's
    address. *)
Theorem rewrite_sdp_media_hides sdp ip ports line :
  clean_lines (Str.lines sdp) -> Str.LF ∉ ip ->
  existsb is_unsupported_media (Str.lines sdp) = false ->
  line ∈ Str.lines (rewrite_sdp_media sdp ip ports) -> is_c_line line = true ->
  line = "c=IN IP4 " ++ ip.
Proof.
  intros Hcl Hip Hu Hin Hc. unfold rewrite_sdp_media in Hin. rewrite Hu in Hin.
  pose proof (rewrite_lines_c ip (port_map ports) (sdp_media_sections_with_connection sdp)
    None 0 _ Hcl) as Hall. rewrite Forall_forall in Hall. apply Hall; [|done].
  pose proof (rewrite_lines_no_lf ip (port_map ports) false
    (sdp_media_sections_with_connection sdp) None 0 _ Hip Hcl (Str.lines_no_lf sdp)) as Hlf.
  destruct (lines_join _ Hlf) as [Heq|(init & Heq & Hi)].
  - by rewrite Heq in Hin.
  - rewrite Hi in Hin. rewrite Heq. set_solver.
Qed.

Lemma rewrite_sdp_media_hides_witness :
  "c=IN IP4 1.2.3.4" ∈ Str.lines (rewrite_sdp_media demo_sdp "1.2.3.4" [(0, 10000%Z)]) /\
  forall line, line ∈ Str.lines (rewrite_sdp_media demo_sdp "1.2.3.4" [(0, 10000%Z)]) ->
    is_c_line line = true -> line = "c=IN IP4 1.2.3.4".
Proof.
  split; [by_decide|]. intros line Hin Hc.
  apply (rewrite_sdp_media_hides demo_sdp "1.2.3.4" [(0, 10000%Z)] line).
  - apply demo_sdp_clean.
  - by_decide.
  - vm_compute. reflexivity.
  - exact Hin.
  - exact Hc.
Defined.

(** ** Facts: the end of the header block *)

Definition crlf2 : str := Str.crlf ++ Str.crlf.

Lemma find_str_contains p s : Str.contains p s = bool_decide (is_Some (Str.find_str p s)).
Proof.
  induction s as [|c s IH]; cbn [Str.contains Str.find_str].
  - destruct (Str.starts_with p []); [by rewrite bool_decide_eq_true_2 by eauto|].
    by rewrite bool_decide_eq_false_2 by (by intros []).
  - destruct (Str.starts_with p (c :: s)); [by rewrite bool_decide_eq_true_2 by eauto|].
    cbn [orb]. rewrite IH. apply bool_decide_ext. by rewrite fmap_is_Some.
Qed.

Lemma starts_with_crlf_lf l s :
  Str.LF ∉ l -> l <> [] -> Str.starts_with Str.crlf (l ++ Str.crlf ++ s) = false.
Proof.
  intros Hl Hne. destruct l as [|c l]; [done|]. unfold Str.starts_with. cbn.
  case_decide; [|done]. destruct l as [|d l]; [done|]. cbn.
  rewrite decide_False; [done|]. set_solver.
Qed.

Lemma starts_with_crlf2 s :
  Str.starts_with crlf2 s = true -> Str.starts_with Str.crlf s = true.
Proof.
  intros [r ->]%Str.starts_with_spec. apply Str.starts_with_spec. by exists (Str.crlf ++ r).
Qed.

Lemma starts_with_crlf2_line l s :
  Str.LF ∉ l -> l <> [] -> Str.starts_with crlf2 (l ++ Str.crlf ++ s) = false.
Proof.
  intros Hl Hne. destruct (Str.starts_with crlf2 _) eqn:E; [|done].
  apply starts_with_crlf2 in E. by rewrite starts_with_crlf_lf in E.
Qed.

(** A header line that the blank line does not follow is skipped. *)
Lemma find_crlf2_skip l s :
  Str.LF ∉ l -> Str.starts_with Str.crlf s = false ->
  Str.find_str crlf2 (l ++ Str.crlf ++ s) =
  (fun n => length l + 2 + n) <$> Str.find_str crlf2 s.
Proof.
  intros Hl Hs. induction l as [|c l IH].
  - cbn [app]. change (Str.crlf ++ s) with (Str.CR :: Str.LF :: s). cbn [Str.find_str].
    assert (Str.starts_with crlf2 (Str.CR :: Str.LF :: s) = false) as ->.
    { destruct (Str.starts_with crlf2 _) eqn:E; [|done].
      apply Str.starts_with_spec in E as [r Hr]. cbn in Hr. by simplify_eq/=. }
    assert (Str.starts_with crlf2 (Str.LF :: s) = false) as -> by done.
    rewrite <-option_fmap_compose. by apply option_fmap_ext.
  - change ((c :: l) ++ Str.crlf ++ s) with (c :: (l ++ Str.crlf ++ s)). cbn [Str.find_str].
    assert (Str.starts_with crlf2 (c :: l ++ Str.crlf ++ s) = false) as ->
      by by apply (starts_with_crlf2_line (c :: l)).
    rewrite IH by set_solver. rewrite <-option_fmap_compose. by apply option_fmap_ext.
Qed.

Lemma find_crlf2_here l s :
  Str.LF ∉ l -> Str.find_str crlf2 (l ++ Str.crlf ++ Str.crlf ++ s) = Some (length l).
Proof.
  intros Hl. induction l as [|c l IH]; [done|].
  change ((c :: l) ++ ?r) with (c :: (l ++ r)). cbn [Str.find_str].
  assert (Str.starts_with crlf2 (c :: l ++ Str.crlf ++ Str.crlf ++ s) = false) as ->
    by by apply (starts_with_crlf2_line (c :: l)).
  by rewrite IH by set_solver.
Qed.

Definition header_text (ls : list str) : Prop :=
  Forall (fun l => Str.LF ∉ l /\ l <> []) ls.

Lemma find_crlf2_headers l ls b :
  header_text (l :: ls) ->
  Str.find_str crlf2 (Str.terminated (l :: ls ++ [[]]) ++ b) =
  Some (length (Str.join Str.crlf (l :: ls))).
Proof.
  revert l. induction ls as [|k ls IH]; intros l Hls; apply Forall_cons in Hls as [[Hl _] Hls].
  - cbn [app]. rewrite !Str.terminated_cons, <-!app_assoc. by apply find_crlf2_here.
  - rewrite Str.terminated_cons, <-!app_assoc, find_crlf2_skip; [|done|].
    + cbn [app]. rewrite IH by done. rewrite (Str.join_cons_nonempty Str.crlf l) by done.
      cbn [fmap option_fmap option_map]. f_equal. rewrite !length_app. cbn. lia.
    + apply Forall_cons in Hls as [[Hk Hne] _]. cbn [app].
      rewrite Str.terminated_cons, <-!app_assoc. by apply starts_with_crlf_lf.
Qed.

Lemma split_str_last l : Str.LF ∉ l -> Str.split_str Str.crlf l = [l].
Proof.
  unfold Str.split_str. induction l as [|c l IH]; intros Hl; [done|]. cbn [Str.split_str_go].
  assert (Str.starts_with Str.crlf (c :: l) = false) as ->.
  { destruct (Str.starts_with Str.crlf (c :: l)) eqn:E; [|done].
    apply Str.starts_with_spec in E as [r Hr]. exfalso. apply Hl. rewrite Hr.
    apply elem_of_app. left. by_decide. }
  by rewrite IH by set_solver.
Qed.

Lemma split_str_join l ls :
  header_text (l :: ls) -> Str.split_str Str.crlf (Str.join Str.crlf (l :: ls)) = l :: ls.
Proof.
  revert l. induction ls as [|k ls IH]; intros l Hls; apply Forall_cons in Hls as [[Hl _] Hls].
  - by apply split_str_last.
  - rewrite Str.join_cons_nonempty, split_str_crlf by done. by rewrite IH.
Qed.

Lemma terminated_join l ls :
  Str.terminated (l :: ls) = Str.join Str.crlf (l :: ls) ++ Str.crlf.
Proof.
  revert l. induction ls as [|k ls IH]; intros l.
  - rewrite Str.terminated_cons. by rewrite app_nil_r.
  - rewrite Str.terminated_cons, IH, (Str.join_cons_nonempty Str.crlf l) by done.
    by rewrite <-!app_assoc.
Qed.

Lemma join_terminated_take l ls b :
  take (length (Str.join Str.crlf (l :: ls))) (Str.terminated (l :: ls ++ [[]]) ++ b) =
  Str.join Str.crlf (l :: ls).
Proof.
  change (l :: ls ++ [[]]) with ((l :: ls) ++ [[]]). rewrite Str.terminated_app.
  rewrite terminated_join, <-!app_assoc. by rewrite take_app_length.
Qed.

Lemma filter_content_length ls :
  header_text ls ->
  filter (fun l => Str.is_empty l = false)
    (map (fun line => if is_content_length_line line then [] else line) ls) =
  filter (fun l => is_content_length_line l = false) ls.
Proof.
  induction 1 as [|l ls [_ Hne] _ IH]; [done|]. cbn [map]. rewrite !filter_cons, IH.
  destruct (is_content_length_line l); [by rewrite !decide_False|].
  rewrite !decide_True; by destruct l.
Qed.

Lemma to_lower_header_line f :
  Str.to_lower (header_line f) = Str.to_lower f.1 ++ ": " ++ Str.to_lower f.2.
Proof. unfold header_line. by rewrite !Str.to_lower_app. Qed.

Lemma to_lower_elem_colon s : ":"%char ∈ Str.to_lower s -> ":"%char ∈ s.
Proof.
  unfold Str.to_lower. intros (c & Hc & Hin)%list_elem_of_fmap.
  assert (c = ":"%char) as <-; [|done].
  clear Hin. by destruct c as [[] [] [] [] [] [] [] []].
Qed.

(** A field is recognised as Content-Length exactly when its name is spelled out. *)
Lemma is_content_length_field f :
  wf_field f ->
  is_content_length_line (header_line f) = bool_decide (Str.to_lower f.1 = "content-length").
Proof.
  intros [(Hc & _) _]. unfold is_content_length_line. rewrite to_lower_header_line.
  apply eq_true_iff_eq. rewrite bool_decide_eq_true, Str.starts_with_spec. split.
  - intros [r Hr].
    assert (Str.split_once ":" (Str.to_lower f.1 ++ ": " ++ Str.to_lower f.2) =
            Str.split_once ":" ("content-length:" ++ r)) as Hs by by rewrite Hr.
    change (": " ++ ?x) with (":"%char :: " " ++ x) in Hs.
    rewrite Str.split_once_app in Hs by (by intros ?%to_lower_elem_colon).
    change ("content-length:" ++ r) with ("content-length" ++ ":"%char :: r) in Hs.
    rewrite Str.split_once_app in Hs by by_decide. by simplify_eq/=.
  - intros ->. eexists. reflexivity.
Qed.

Lemma header_lines_text first fs :
  Str.LF ∉ first -> first <> [] -> Forall wf_field fs ->
  header_text (first :: map header_line fs).
Proof.
  intros Hf Hne Hfs. constructor; [done|]. apply Forall_map. eapply Forall_impl; [exact Hfs|].
  intros f Hwf. split; [by apply header_line_no_lf|]. unfold header_line. by destruct f.1.
Qed.

Lemma filter_header_lines fs :
  Forall wf_field fs ->
  filter (fun l => is_content_length_line l = false) (map header_line fs) =
  map header_line (filter (fun f => Str.to_lower f.1 <> "content-length") fs).
Proof.
  induction 1 as [|f fs Hf _ IH]; [done|]. cbn [map]. rewrite !filter_cons.
  rewrite is_content_length_field, IH by done.
  destruct (decide (Str.to_lower f.1 = "content-length")) as [He|He].
  - rewrite bool_decide_eq_true_2 by done. rewrite decide_False by done.
    by rewrite decide_False by tauto.
  - rewrite bool_decide_eq_false_2 by done. by rewrite decide_True, decide_True.
Qed.

(** The rewritten message, rendered. *)
Lemma rewrite_content_length_render first fs b nb :
  Str.LF ∉ first -> first <> [] -> is_content_length_line first = false -> Forall wf_field fs ->
  rewrite_content_length (render first fs b) nb =
  render first (filter (fun f => Str.to_lower f.1 <> "content-length") fs ++
    [("Content-Length", Str.show_dec (Str.len nb))]) nb.
Proof.
  intros Hf Hne Hcl Hfs. pose proof (header_lines_text first fs Hf Hne Hfs) as Ht.
  unfold rewrite_content_length. fold crlf2.
  change (render first fs b) with (Str.terminated (first :: map header_line fs ++ [[]]) ++ b).
  rewrite find_str_contains, find_crlf2_headers by done.
  rewrite bool_decide_eq_true_2 by eauto. rewrite find_crlf2_headers by done.
  rewrite join_terminated_take, split_str_join, filter_content_length by done.
  rewrite filter_cons_True, filter_header_lines by done. unfold render.
  rewrite map_app, <-app_assoc, app_comm_cons, Str.terminated_app, <-app_assoc.
  set (ls := map header_line (filter _ fs)).
  rewrite terminated_join.
  rewrite <-!app_assoc. do 2 f_equal. unfold Str.terminated, crlf2, header_line.
  cbn [map concat fst snd app]. by rewrite <-!app_assoc.
Qed.

Lemma values_for_filter_other k fs :
  k <> "content-length" ->
  values_for k (filter (fun f => Str.to_lower f.1 <> "content-length") fs) = values_for k fs.
Proof.
  intros Hk. unfold values_for. rewrite list_filter_filter. f_equal. apply list_filter_iff.
  intros f. split; [tauto|]. intros Hn. split; [done|]. intros Hl. apply Hk. rewrite <-Hn.
  unfold normalize_header_name.
  assert (Str.trim f.1 = f.1) as ->; [|by rewrite Hl].
  apply Str.trim_no_ws. apply Forall_forall. intros c Hc.
  assert (Forall (fun c => Str.is_ws c = false) (Str.to_lower f.1)) as Hws
    by (rewrite Hl; by_decide).
  unfold Str.to_lower in Hws. rewrite Forall_map, Forall_forall in Hws.
  specialize (Hws c Hc). cbn in Hws. clear -Hws. by destruct c as [[] [] [] [] [] [] [] []].
Qed.

(** A message whose fields are written in full: no compact [l:] form. *)
Definition full_content_length (fs : list (str * str)) : Prop :=
  Forall (fun f => normalize_header_name f.1 = "content-length" ->
    Str.to_lower f.1 = "content-length") fs.

(** The Content-Length follows the body: for a message with its
    Content-Length field written in full, the message rewritten with a new body
    parses to that body, has the length of the body as its only Content-Length,
    and has every other header unchanged. *)
Theorem rewrite_content_length_correct first fs b nb :
  Str.LF ∉ first -> Str.SP ∈ first -> is_content_length_line first = false ->
  Forall wf_field fs -> full_content_length fs ->
  exists m m', parse (render first fs b) = Ok m /\
    parse (rewrite_content_length (render first fs b) nb) = Ok m' /\
    method m' = method m /\ request_uri m' = request_uri m /\
    status_code m' = status_code m /\
    body m' = Str.join Str.crlf (Str.lines nb) /\
    all_headers_vec m' "Content-Length" = [Str.show_dec (Str.len nb)] /\
    forall name, normalize_header_name name <> "content-length" ->
      all_headers_vec m' name = all_headers_vec m name.
Proof.
  intros Hf Hsp Hcl Hfs Hfull.
  assert (first <> []) as Hne by (intros ->; set_solver).
  set (fs' := filter (fun f => Str.to_lower f.1 <> "content-length") fs ++
    [("Content-Length", Str.show_dec (Str.len nb))]).
  assert (Forall wf_field fs') as Hfs'.
  { apply Forall_app. split; [by apply Forall_filter_keep|].
    repeat constructor; try by_decide. by apply Str.show_dec_not_elem. }
  eexists _, _. split; [by apply parse_render|].
  rewrite rewrite_content_length_render by done. split; [by apply parse_render|].
  do 4 (split; [done|]). unfold all_headers_vec. cbn [headers].
  setoid_rewrite push_fields_values. subst fs'. split.
  - rewrite values_for_app, values_for_one.
    change (normalize_header_name "Content-Length") with "content-length". decide_lits.
    rewrite Str.trim_no_ws by apply Str.show_dec_no_ws.
    assert (values_for "content-length"
      (filter (fun f => Str.to_lower f.1 <> "content-length") fs) = []) as ->; [|done].
    unfold values_for. rewrite list_filter_filter, (filter_ext_elem _ (fun _ => False)).
    { clear. induction fs as [|f fs IH]; [done|]. rewrite filter_cons_False by tauto. apply IH. }
    intros f Hin. unfold full_content_length in Hfull. rewrite Forall_forall in Hfull.
    specialize (Hfull f Hin). tauto.
  - intros name Hname. rewrite values_for_app, values_for_one, decide_False by
      (change (normalize_header_name "Content-Length") with "content-length"; congruence).
    by rewrite app_nil_r, values_for_filter_other.
Qed.

Definition demo_fields : list (str * str) :=
  [("Via", "SIP/2.0/UDP 10.0.0.5"); ("CSeq", "1 INVITE"); ("Content-Length", "142")].

Lemma rewrite_content_length_correct_witness :
  exists m m', parse (render "INVITE sip:bob@x SIP/2.0" demo_fields "old") = Ok m /\
    parse (rewrite_content_length (render "INVITE sip:bob@x SIP/2.0" demo_fields "old")
      "v=0") = Ok m' /\
    method m' = method m /\ request_uri m' = request_uri m /\
    status_code m' = status_code m /\
    body m' = Str.join Str.crlf (Str.lines "v=0") /\
    all_headers_vec m' "Content-Length" = [Str.show_dec (Str.len "v=0")] /\
    forall name, normalize_header_name name <> "content-length" ->
      all_headers_vec m' name = all_headers_vec m name.
Proof.
  apply (rewrite_content_length_correct "INVITE sip:bob@x SIP/2.0" demo_fields "old" "v=0").
  - by_decide.
  - by_decide.
  - reflexivity.
  - by_decide.
  - repeat constructor; vm_compute; congruence.
Defined.

(** The compact form is missed: a message whose length is given as [l:]
    keeps that field, so after the body is replaced its Content-Length still reads
    as the old value. *)
Theorem rewrite_content_length_compact first v b nb :
  Str.LF ∉ first -> Str.SP ∈ first -> is_content_length_line first = false -> Str.LF ∉ v ->
  exists m', parse (rewrite_content_length (render first [("l", v)] b) nb) = Ok m' /\
    header m' "Content-Length" = Some (Str.trim v).
Proof.
  intros Hf Hsp Hcl Hv. assert (first <> []) as Hne by (intros ->; set_solver).
  assert (Forall wf_field [("l", v)]) as Hfs by (repeat constructor; done || by_decide).
  rewrite rewrite_content_length_render by done. rewrite filter_cons_True by by_decide.
  eexists. split; [apply parse_render; [done|done|]|].
  - constructor; [by inversion Hfs|]. repeat constructor; try by_decide.
    by apply Str.show_dec_not_elem.
  - rewrite header_values. unfold all_headers_vec. cbn [headers].
    rewrite push_fields_values. unfold values_for. cbn [app].
    rewrite filter_cons_True by done. done.
Qed.

Lemma rewrite_content_length_compact_witness :
  exists m', parse (rewrite_content_length
      (render "INVITE sip:bob@x SIP/2.0" [("l", "142")] "old") "v=0") = Ok m' /\
    header m' "Content-Length" = Some (Str.trim "142").
Proof.
  apply (rewrite_content_length_compact "INVITE sip:bob@x SIP/2.0" "142" "old" "v=0").
  - by_decide.
  - by_decide.
  - reflexivity.
  - by_decide.
Defined.
