(* ===== verification/Media.v ===== *)
(** * The RTP relay: [backend/src/sip/media.rs]

    The port allocator, the table of relay sessions with the sockets they hold,
    and the learning relay loop.

    A socket that is bound belongs either to a relay task of this program or to
    the rest of the machine.  [mr_bound] are the ports of running relay tasks,
    [others] those bound by anything else while an operation runs.  Aborting a
    task closes its socket. *)

From S2P Require Import Prelude RustStr Net Message SecurityGuard Sdp.

Open Scope str_scope.
Open Scope Z_scope.

(** ** Data *)

Record MediaRelayPorts := {
  mp_kind : SdpMediaKind;
  mp_media_index : nat;
  mp_relay_port_a : Z;
  mp_relay_port_b : Z;
}.

(** The addresses a stream has learned live in [MediaStream], beside its ports. *)
Record MediaStreamSession := {
  ms_ports : MediaRelayPorts;
  callee_rtp : option SocketAddr;
  caller_rtp : option SocketAddr;
}.

Record MediaSession := {
  streams : list MediaStreamSession;
  created_at : Z;
}.

Record MediaRelay := {
  mr_sessions : gmap str MediaSession;
  mr_public_ip : str;
  mr_port_min : Z;
  mr_port_max : Z;
  mr_port_counter : Z;
  mr_bound : gset Z;
}.

Definition media_relay_new (public_ip : str) (port_min port_max : Z) : MediaRelay :=
  {| mr_sessions := ∅; mr_public_ip := public_ip; mr_port_min := port_min;
     mr_port_max := port_max; mr_port_counter := 0; mr_bound := ∅ |}.

Definition first_ports (s : MediaSession) : option MediaRelayPorts := ms_ports <$> head (streams s).

Definition callee_sdp_ports (s : MediaSession) : list (nat * Z) :=
  map (fun st => (mp_media_index (ms_ports st), mp_relay_port_a (ms_ports st))) (streams s).

Definition caller_sdp_ports (s : MediaSession) : list (nat * Z) :=
  map (fun st => (mp_media_index (ms_ports st), mp_relay_port_b (ms_ports st))) (streams s).

(** ** The allocator *)

(** The [for _ in 0..(range / 2)] loop: the pair bound and the counter after it. *)
Fixpoint bind_tries (n : nat) (port_min range counter : Z) (taken : gset Z)
    : option (Z * Z) * Z :=
  match n with
  | O => (None, counter)
  | S n' =>
      let offset := counter mod range in
      let counter := Int.wrap_u32 (counter + 2) in
      let base := port_min + Z.land offset 65534 in
      let port_a := base in
      let port_b := base + 1 in
      if bool_decide (port_a ∉ taken) && bool_decide (port_b ∉ taken)
      then (Some (port_a, port_b), counter)
      else bind_tries n' port_min range counter taken
  end.

Definition set_counter (r : MediaRelay) (c : Z) : MediaRelay :=
  {| mr_sessions := mr_sessions r; mr_public_ip := mr_public_ip r;
     mr_port_min := mr_port_min r; mr_port_max := mr_port_max r;
     mr_port_counter := c; mr_bound := mr_bound r |}.

Definition set_bound (r : MediaRelay) (b : gset Z) : MediaRelay :=
  {| mr_sessions := mr_sessions r; mr_public_ip := mr_public_ip r;
     mr_port_min := mr_port_min r; mr_port_max := mr_port_max r;
     mr_port_counter := mr_port_counter r; mr_bound := b |}.

Definition set_sessions (r : MediaRelay) (s : gmap str MediaSession) : MediaRelay :=
  {| mr_sessions := s; mr_public_ip := mr_public_ip r;
     mr_port_min := mr_port_min r; mr_port_max := mr_port_max r;
     mr_port_counter := mr_port_counter r; mr_bound := mr_bound r |}.

Definition bind_port_pair (others : gset Z) (r : MediaRelay) : result (Z * Z) * MediaRelay :=
  let range := Int.sat_sub (mr_port_max r) (mr_port_min r) in
  if range <? 2 then (Err "RTP port range too small", r)
  else
    let '(bound_pair, counter) := bind_tries (Z.to_nat (range / 2)) (mr_port_min r) range
      (mr_port_counter r) (others ∪ mr_bound r) in
    let r := set_counter r counter in
    match bound_pair with
    | Some (a, b) => (Ok (a, b), set_bound r ({[a; b]} ∪ mr_bound r))
    | None => (Err ("No available RTP port pair in range " ++ Str.show_dec (mr_port_min r) ++
                    "-" ++ Str.show_dec (mr_port_max r)), r)
    end.

Definition allocate_stream (others : gset Z) (d : SdpMediaDescriptor) (r : MediaRelay)
    : result MediaStreamSession * MediaRelay :=
  match bind_port_pair others r with
  | (Ok (a, b), r) =>
      (Ok {| ms_ports := {| mp_kind := md_kind d; mp_media_index := md_media_index d;
                            mp_relay_port_a := a; mp_relay_port_b := b |};
             callee_rtp := None; caller_rtp := None |}, r)
  | (Err e, r) => (Err e, r)
  end.

(** ** Sessions *)

Definition stream_port_set (st : MediaStreamSession) : gset Z :=
  {[mp_relay_port_a (ms_ports st); mp_relay_port_b (ms_ports st)]}.

(** [abort] of the tasks of some streams. *)
Definition abort_streams (sts : list MediaStreamSession) (r : MediaRelay) : MediaRelay :=
  set_bound r (mr_bound r ∖ ⋃ (map stream_port_set sts)).

(** The loop over the active sections: [streams] are those allocated so far. *)
Fixpoint allocate_streams (others : gset Z) (ds : list SdpMediaDescriptor)
    (sts : list MediaStreamSession) (r : MediaRelay)
    : result (list MediaStreamSession) * MediaRelay :=
  match ds with
  | [] => (Ok sts, r)
  | d :: ds' =>
      match allocate_stream others d r with
      | (Ok st, r) => allocate_streams others ds' (sts ++ [st]) r
      | (Err e, r) => (Err e, abort_streams sts r)
      end
  end.

Definition allocate_session_for_media (now : Z) (others : gset Z) (call_id : str)
    (media : list SdpMediaDescriptor) (r : MediaRelay)
    : result (list MediaRelayPorts) * MediaRelay :=
  let active_media := filter (fun m => md_active m = true) media in
  match active_media with
  | [] => (Err "No active RTP media sections to relay", r)
  | _ =>
      match allocate_streams others active_media [] r with
      | (Err e, r) => (Err e, r)
      | (Ok sts, r) =>
          (Ok (map ms_ports sts),
           set_sessions r (<[call_id := {| streams := sts; created_at := now |}]> (mr_sessions r)))
      end
  end.

Definition allocate_session (now : Z) (others : gset Z) (call_id : str) (r : MediaRelay)
    : result (Z * Z) * MediaRelay :=
  let media := [{| md_kind := Audio; md_media_index := 0; md_port := 0; md_active := true |}] in
  match allocate_session_for_media now others call_id media r with
  | (Err e, r) => (Err e, r)
  | (Ok ports, r) =>
      match head ports with
      | Some first => (Ok (mp_relay_port_a first, mp_relay_port_b first), r)
      | None => (Err "No relay ports allocated for media session", r)
      end
  end.

Definition remove_session (call_id : str) (r : MediaRelay) : MediaRelay :=
  match mr_sessions r !! call_id with
  | Some session =>
      abort_streams (streams session) (set_sessions r (delete call_id (mr_sessions r)))
  | None => r
  end.

(** The whole seconds of [now.duration_since(t)]. *)
Definition elapsed_secs (now t : Z) : Z := Int.sat_sub now t / 1000000000.

Definition is_stale (now max_age_secs : Z) (s : MediaSession) : bool :=
  max_age_secs <? elapsed_secs now (created_at s).

(** The keys of the stale sessions, then one removal per key. *)
Definition cleanup_stale_sessions (now max_age_secs : Z) (r : MediaRelay) : MediaRelay :=
  let stale := map fst (filter (fun kv => is_stale now max_age_secs kv.2 = true)
    (map_to_list (mr_sessions r))) in
  foldl (fun r call_id => remove_session call_id r) r stale.

(** ** The relay loop

    [run_relay_loop] for one packet: the source becomes the side's own address and
    the packet goes to the peer's address, if one is known. *)

Inductive RelaySide := FromCallee | FromCaller.

#[export] Instance RelaySide_eq_dec : EqDecision RelaySide.
Proof. solve_decision. Defined.

Definition relay_packet (side : RelaySide) (src : SocketAddr) (st : MediaStreamSession)
    : option SocketAddr * MediaStreamSession :=
  match side with
  | FromCallee =>
      (caller_rtp st,
       {| ms_ports := ms_ports st; callee_rtp := Some src; caller_rtp := caller_rtp st |})
  | FromCaller =>
      (callee_rtp st,
       {| ms_ports := ms_ports st; callee_rtp := callee_rtp st; caller_rtp := Some src |})
  end.

(** The loops of the two sides, on what their sockets give them in order: a packet, or a receive
    error ([None]), after which the loop of that side is over.  The destinations; [None] when
    nothing is sent. *)
Fixpoint run_relay_loop (ps : list (RelaySide * option SocketAddr)) (stopped : list RelaySide)
    (st : MediaStreamSession) : list (option SocketAddr) :=
  match ps with
  | [] => []
  | (side, input) :: ps' =>
      if bool_decide (side ∈ stopped) then None :: run_relay_loop ps' stopped st
      else match input with
        | None => None :: run_relay_loop ps' (side :: stopped) st
        | Some src =>
            let '(dst, st) := relay_packet side src st in dst :: run_relay_loop ps' stopped st
        end
  end.

(** ** Facts: the allocator *)

Lemma land_even x : 0 <= x <= 65535 -> Z.land x 65534 = 2 * (x / 2).
Proof.
  intros Hx. transitivity (Z.shiftl (Z.shiftr x 1) 1).
  - apply Z.bits_inj'. intros i Hi. rewrite Z.land_spec.
    assert (i = 0 \/ 1 <= i) as [->|Hi1] by lia.
    + rewrite Z.shiftl_spec_low by lia. by rewrite andb_false_r.
    + rewrite Z.shiftl_spec, Z.shiftr_spec by lia. replace (i - 1 + 1) with i by lia.
      assert (16 <= i \/ Z.testbit 65534 i = true) as [Hb| ->].
      * assert (forallb (fun i => Z.testbit 65534 i) (seqZ 1 15) = true) as H by done.
        rewrite forallb_forall in H. specialize (H i).
        rewrite <-list_elem_of_In, elem_of_seqZ in H.
        destruct (decide (16 <= i)); [by left|right; apply H; lia].
      * rewrite (Z.bits_above_log2 x i); [done|lia|].
        destruct (decide (x = 0)) as [->|]; [cbn; lia|]. apply Z.log2_lt_pow2; [lia|].
        assert (2 ^ 16 <= 2 ^ i) by (apply Z.pow_le_mono_r; lia). lia.
      * by rewrite andb_true_r.
  - rewrite Z.shiftl_mul_pow2, Z.shiftr_div_pow2 by lia. change (2 ^ 1) with 2. lia.
Qed.

Lemma bind_tries_ok n pmin range c taken a b c' :
  0 <= range <= 65535 -> 0 < range ->
  bind_tries n pmin range c taken = (Some (a, b), c') ->
  b = a + 1 /\ pmin <= a /\ b <= pmin + range /\ (a - pmin) mod 2 = 0 /\
  a ∉ taken /\ b ∉ taken.
Proof.
  intros Hr Hpos. revert c. induction n as [|n IH]; intros c Hb; [done|].
  cbn [bind_tries] in Hb. destruct (_ && _)%bool eqn:E; [|by eapply IH].
  pose proof (Z.mod_pos_bound c range Hpos) as Hm.
  rewrite land_even in Hb, E by lia. bool_simpl. simplify_eq/=.
  split; [done|]. split; [div_lia|]. split; [div_lia|]. split; [|done].
  replace (pmin + 2 * (c mod range / 2) - pmin) with (c mod range / 2 * 2) by lia.
  apply Z.mod_mul. lia.
Qed.

(** ** Facts: nothing is bound twice *)

Lemma bind_tries_free n pmin range c taken a b c' :
  bind_tries n pmin range c taken = (Some (a, b), c') -> (a ∉ taken) /\ (b ∉ taken).
Proof.
  revert c. induction n as [|n IH]; intros c Hb; [done|].
  cbn [bind_tries] in Hb. destruct (_ && _)%bool eqn:E; [|by eapply IH].
  bool_simpl. by simplify_eq/=.
Qed.

Lemma allocate_streams_bound others ds sts r p :
  p ∈ mr_bound (allocate_streams others ds sts r).2 -> p ∈ mr_bound r \/ p ∉ others.
Proof.
  revert sts r. induction ds as [|d ds IH]; intros sts r; [by left|]. cbn [allocate_streams].
  unfold allocate_stream, bind_port_pair. destruct (_ <? 2); [cbn; set_solver|].
  destruct (bind_tries _ _ _ _ _) as [[[a b]|] c] eqn:E; [|cbn; set_solver].
  intros Hp%IH. cbn in Hp. apply bind_tries_free in E. set_solver.
Qed.

(** The relay binds only ports that no one else holds. *)
Lemma allocate_bound now others cid media r p :
  p ∈ mr_bound (allocate_session_for_media now others cid media r).2 ->
  p ∈ mr_bound r \/ p ∉ others.
Proof.
  unfold allocate_session_for_media. destruct (filter _ media) as [|d ds]; [by left|].
  pose proof (allocate_streams_bound others (d :: ds) [] r p) as Ha.
  by destruct (allocate_streams others (d :: ds) [] r) as [[sts|e] r'].
Qed.

Lemma remove_bound cid r : mr_bound (remove_session cid r) ⊆ mr_bound r.
Proof. unfold remove_session. destruct (mr_sessions r !! cid); [cbn; set_solver|done]. Qed.

Lemma cleanup_bound now age r : mr_bound (cleanup_stale_sessions now age r) ⊆ mr_bound r.
Proof.
  unfold cleanup_stale_sessions. generalize (map fst (filter (fun kv : str * MediaSession =>
    is_stale now age kv.2 = true) (map_to_list (mr_sessions r)))).
  intros l. revert r. induction l as [|c l IH]; intros r; [done|]. cbn.
  etrans; [apply IH|apply remove_bound].
Qed.

(** With an even range and a counter that does not wrap, [n] rounds visit the
    pairs [counter/2 .. counter/2 + n - 1] modulo the number of pairs. *)
Lemma bind_tries_visits n pmin h c taken k :
  0 < h <= 32767 -> 0 <= c -> c mod 2 = 0 -> c + 2 * Z.of_nat n <= 2 ^ 32 ->
  (k < n)%nat ->
  let a := pmin + 2 * ((c / 2 + Z.of_nat k) mod h) in
  a ∉ taken -> a + 1 ∉ taken ->
  exists p, (bind_tries n pmin (2 * h) c taken).1 = Some p.
Proof.
  intros Hh Hc He Hw Hk a. revert c n Hc He Hw Hk a.
  induction k as [|k IH]; intros c [|n] Hc He Hw Hk a Ha Hb; try lia;
    cbn [bind_tries].
  all: assert (Z.land (c mod (2 * h)) 65534 = 2 * ((c / 2) mod h)) as Hland by
    (rewrite land_even by (pose proof (Z.mod_pos_bound c (2 * h)); lia);
     rewrite (Z.div_mod c 2) at 1 by lia; rewrite He, Z.add_0_r, Z.mul_mod_distr_l by lia;
     rewrite (Z.mul_comm 2 (_ mod h)), Z.div_mul by lia; lia).
  all: rewrite Hland.
  - subst a. rewrite Z.add_0_r in Ha, Hb.
    rewrite !bool_decide_eq_true_2 by done. cbn. eauto.
  - destruct (_ && _)%bool; [cbn; eauto|].
    assert (Int.wrap_u32 (c + 2) = c + 2 \/ (n = 0%nat /\ k = 0%nat)) as [Hwr|[? ?]].
    { unfold Int.wrap_u32. destruct (decide (c + 2 = 2 ^ 32)); [right; lia|left].
      apply Z.mod_small. lia. }
    + rewrite Hwr. assert ((c + 2) / 2 = c / 2 + 1) as Hdiv.
      { replace (c + 2) with (c + 1 * 2) by lia. apply Z.div_add. lia. }
      apply IH; try lia.
      * rewrite Z.add_mod, He by lia. done.
      * rewrite Hdiv. subst a.
        by replace (c / 2 + 1 + Z.of_nat k) with (c / 2 + Z.of_nat (S k)) by lia.
      * rewrite Hdiv. subst a.
        by replace (c / 2 + 1 + Z.of_nat k) with (c / 2 + Z.of_nat (S k)) by lia.
    + lia.
Qed.

(** ** Theorems: the allocator *)

Definition wf_range (r : MediaRelay) : Prop :=
  Int.is_u16 (mr_port_min r) /\ Int.is_u16 (mr_port_max r) /\ Int.is_u32 (mr_port_counter r).

Lemma bind_port_pair_ok others r a b r' :
  wf_range r -> bind_port_pair others r = (Ok (a, b), r') ->
  b = a + 1 /\ mr_port_min r <= a /\ b <= mr_port_max r /\
  (a - mr_port_min r) mod 2 = 0 /\
  (a ∉ others ∪ mr_bound r) /\ (b ∉ others ∪ mr_bound r) /\
  mr_bound r' = {[a; b]} ∪ mr_bound r /\ mr_sessions r' = mr_sessions r /\
  mr_port_min r' = mr_port_min r /\ mr_port_max r' = mr_port_max r.
Proof.
  intros (Hmin & Hmax & _) Hb. unfold bind_port_pair in Hb.
  unfold Int.is_u16, Int.u16_max, Int.sat_sub in *.
  destruct (_ <? 2) eqn:E; bool_simpl; [by simplify_eq/=|].
  destruct (bind_tries _ _ _ _ _) as [[[a' b']|] c'] eqn:Et; simplify_eq/=.
  apply bind_tries_ok in Et as (? & ? & ? & ? & ? & ?); [|lia|lia].
  repeat split; try done. lia.
Qed.

(** The allocator finds a pair when one is free: for a range with an even
    number of ports, whatever pairs are taken, and a counter away from its
    32-bit wrap-around, [bind_port_pair] returns two consecutive free ports of the
    range at an even distance from its start whenever such a pair exists. *)
Theorem bind_port_pair_complete others r h j :
  wf_range r -> 0 < h -> mr_port_max r = mr_port_min r + 2 * h ->
  mr_port_counter r mod 2 = 0 -> mr_port_counter r + 2 * h <= 2 ^ 32 ->
  0 <= j < h ->
  (mr_port_min r + 2 * j ∉ others ∪ mr_bound r) ->
  (mr_port_min r + 2 * j + 1 ∉ others ∪ mr_bound r) ->
  exists a r', bind_port_pair others r = (Ok (a, a + 1), r') /\
    mr_port_min r <= a /\ a + 1 <= mr_port_max r /\ (a - mr_port_min r) mod 2 = 0 /\
    (a ∉ others ∪ mr_bound r) /\ (a + 1 ∉ others ∪ mr_bound r).
Proof.
  intros Hwf Hh Hmax He Hw Hj Ha Hb.
  assert (exists a b r', bind_port_pair others r = (Ok (a, b), r')) as (a & b & r' & Hbind).
  { pose proof Hwf as (Hmin & Hmax' & Hc). unfold Int.is_u16, Int.is_u32, Int.u16_max in *.
    unfold bind_port_pair, Int.sat_sub. rewrite Hmax, Z.max_r by lia.
    replace (mr_port_min r + 2 * h - mr_port_min r) with (2 * h) by lia.
    rewrite (proj2 (Z.ltb_ge _ _)) by lia. rewrite (Z.mul_comm 2 h), Z.div_mul by lia.
    rewrite (Z.mul_comm h 2).
    destruct (bind_tries_visits (Z.to_nat h) (mr_port_min r) h (mr_port_counter r)
      (others ∪ mr_bound r) (Z.to_nat ((j - mr_port_counter r / 2) mod h))) as [[a b] Hp].
    - lia.
    - lia.
    - done.
    - lia.
    - pose proof (Z.mod_pos_bound (j - mr_port_counter r / 2) h). lia.
    - rewrite Z2Nat.id by (apply Z.mod_pos_bound; lia).
      rewrite Z.add_mod_idemp_r by lia.
      replace (mr_port_counter r / 2 + (j - mr_port_counter r / 2)) with j by lia.
      by rewrite Z.mod_small by lia.
    - rewrite Z2Nat.id by (apply Z.mod_pos_bound; lia).
      rewrite Z.add_mod_idemp_r by lia.
      replace (mr_port_counter r / 2 + (j - mr_port_counter r / 2)) with j by lia.
      by rewrite Z.mod_small by lia.
    - destruct (bind_tries _ _ _ _ _) as [[[a' b']|] c']; [|done]. eauto. }
  destruct (bind_port_pair_ok _ _ _ _ _ Hwf Hbind) as (-> & ? & ? & ? & ? & ? & _).
  exists a, r'. repeat split; try done; lia.
Qed.

Lemma bind_port_pair_complete_witness :
  exists a r', bind_port_pair {[10000; 10001; 10003]} (media_relay_new "1.2.3.4" 10000 10006) =
    (Ok (a, a + 1), r').
Proof.
  destruct (bind_port_pair_complete {[10000; 10001; 10003]}
    (media_relay_new "1.2.3.4" 10000 10006) 3 2) as (a & r' & H & _).
  - repeat split; vm_compute; congruence.
  - lia.
  - reflexivity.
  - reflexivity.
  - vm_compute. congruence.
  - lia.
  - by_decide.
  - by_decide.
  - exists a, r'. exact H.
Defined.

Lemma bind_tries_blocked n pmin range i taken :
  0 < range <= 65535 -> 0 <= i -> 2 * i + 2 * Z.of_nat n <= range ->
  (forall j, i <= j < i + Z.of_nat n -> pmin + 2 * j ∈ taken) ->
  (bind_tries n pmin range (2 * i) taken).1 = None.
Proof.
  intros Hr. revert i. induction n as [|n IH]; intros i Hi Hn Ht; [done|].
  cbn [bind_tries].
  assert (Z.land ((2 * i) mod range) 65534 = 2 * i) as ->.
  { rewrite Z.mod_small, land_even by lia. rewrite (Z.mul_comm 2 i), Z.div_mul by lia. lia. }
  rewrite (bool_decide_eq_false_2 (pmin + 2 * i ∉ taken)) by
    (intros Hni; apply Hni, Ht; lia).
  cbn [andb]. replace (Int.wrap_u32 (2 * i + 2)) with (2 * (i + 1)).
  - apply IH; [lia|lia|]. intros j Hj. apply Ht. lia.
  - unfold Int.wrap_u32. rewrite Z.mod_small; [lia|].
    change (2 ^ 32) with 4294967296. lia.
Qed.

(** An odd range wastes its last pair: with [2h + 1] ports between the
    bounds, as in the default 10000-10099, and only the last pair free, a fresh
    allocator gives up, although that pair could be bound. *)
Theorem bind_port_pair_odd_gap others r h :
  wf_range r -> 0 < h -> mr_port_max r = mr_port_min r + (2 * h + 1) ->
  mr_port_counter r = 0 ->
  (forall j, 0 <= j < h -> mr_port_min r + 2 * j ∈ others ∪ mr_bound r) ->
  is_ok (bind_port_pair others r).1 = false.
Proof.
  intros (Hmin & Hmax' & _) Hh Hmax Hc Ht. unfold Int.is_u16, Int.u16_max in *.
  unfold bind_port_pair, Int.sat_sub. rewrite Hmax, Z.max_r by lia.
  replace (mr_port_min r + (2 * h + 1) - mr_port_min r) with (2 * h + 1) by lia.
  rewrite (proj2 (Z.ltb_ge _ _)) by lia.
  replace ((2 * h + 1) / 2) with h by div_lia. rewrite Hc.
  pose proof (bind_tries_blocked (Z.to_nat h) (mr_port_min r) (2 * h + 1) 0
    (others ∪ mr_bound r) ltac:(lia) ltac:(lia) ltac:(lia)) as Hb.
  change (2 * 0) with 0 in Hb.
  destruct (bind_tries _ _ _ _ _) as [o c]. cbn [fst] in Hb.
  rewrite Hb; [done|]. intros j Hj. apply Ht. lia.
Qed.

Lemma bind_port_pair_odd_gap_witness :
  is_ok (bind_port_pair {[10000; 10002]} (media_relay_new "1.2.3.4" 10000 10005)).1 = false /\
  is_ok (bind_port_pair {[10000; 10002]} (media_relay_new "1.2.3.4" 10000 10006)).1 = true.
Proof.
  split; [|vm_compute; reflexivity].
  apply (bind_port_pair_odd_gap _ (media_relay_new "1.2.3.4" 10000 10005) 2).
  - repeat split; vm_compute; congruence.
  - lia.
  - reflexivity.
  - reflexivity.
  - cbn. intros j Hj. assert (j = 0 \/ j = 1) as [->| ->] by lia; by_decide.
Defined.

(** ** The sessions' sockets *)

Definition stream_ports (st : MediaStreamSession) : list Z :=
  [mp_relay_port_a (ms_ports st); mp_relay_port_b (ms_ports st)].

Definition ports_of (sts : list MediaStreamSession) : list Z := concat (map stream_ports sts).

Definition in_range (r : MediaRelay) (p : Z) : Prop := mr_port_min r <= p <= mr_port_max r.

(** Every session owns its ports: they are bound, in the range, and no port
    belongs to two streams. *)
Record media_inv (r : MediaRelay) : Prop := {
  inv_range : wf_range r;
  inv_owned cid s : mr_sessions r !! cid = Some s ->
    NoDup (ports_of (streams s)) /\
    Forall (fun p => p ∈ mr_bound r /\ in_range r p) (ports_of (streams s));
  inv_disjoint c1 c2 s1 s2 p :
    mr_sessions r !! c1 = Some s1 -> mr_sessions r !! c2 = Some s2 -> c1 <> c2 ->
    p ∈ ports_of (streams s1) -> p ∉ ports_of (streams s2);
}.

(** Ports of streams that are running but not yet in the table. *)
Definition fresh_ports (r : MediaRelay) (ps : list Z) : Prop :=
  NoDup ps /\
  Forall (fun p => p ∈ mr_bound r /\ in_range r p /\
    forall cid s, mr_sessions r !! cid = Some s -> p ∉ ports_of (streams s)) ps.

(** A port that is bound and that no session names. *)
Definition orphan (r : MediaRelay) (p : Z) : Prop :=
  p ∈ mr_bound r /\ forall cid s, mr_sessions r !! cid = Some s -> p ∉ ports_of (streams s).

Inductive media_step : MediaRelay -> MediaRelay -> Prop :=
  | step_allocate now others cid media r :
      media_step r (allocate_session_for_media now others cid media r).2
  | step_remove cid r : media_step r (remove_session cid r)
  | step_cleanup now age r : media_step r (cleanup_stale_sessions now age r).

Lemma ports_of_app xs ys : ports_of (xs ++ ys) = ports_of xs ++ ports_of ys.
Proof. unfold ports_of. by rewrite map_app, concat_app. Qed.

Lemma ports_of_abort sts p : p ∈ ⋃ (map stream_port_set sts) <-> p ∈ ports_of sts.
Proof.
  unfold ports_of. induction sts as [|st sts IH]; cbn [map concat union_list].
  - set_solver.
  - cbn [foldr]. change (foldr (∪) ∅ (map stream_port_set sts)) with
      (⋃ (map stream_port_set sts)). rewrite elem_of_union, IH, elem_of_app.
    unfold stream_port_set, stream_ports. set_solver.
Qed.

Lemma bind_tries_counter n pmin range c taken :
  Int.is_u32 c -> Int.is_u32 (bind_tries n pmin range c taken).2.
Proof.
  revert c. induction n as [|n IH]; intros c Hc; [done|]. cbn [bind_tries].
  assert (Int.is_u32 (Int.wrap_u32 (c + 2))).
  { unfold Int.is_u32, Int.wrap_u32, Int.u32_max.
    pose proof (Z.mod_pos_bound (c + 2) (2 ^ 32)). lia. }
  destruct (_ && _)%bool; [done|]. by apply IH.
Qed.

Lemma bind_port_pair_frame others r :
  wf_range r ->
  let r' := (bind_port_pair others r).2 in
  wf_range r' /\ mr_sessions r' = mr_sessions r /\ mr_port_min r' = mr_port_min r /\
  mr_port_max r' = mr_port_max r /\
  match (bind_port_pair others r).1 with
  | Ok (a, b) => a <> b /\ in_range r a /\ in_range r b /\ (a ∉ mr_bound r) /\
      (b ∉ mr_bound r) /\ mr_bound r' = {[a; b]} ∪ mr_bound r
  | Err _ => mr_bound r' = mr_bound r
  end.
Proof.
  intros Hwf. cbn zeta. pose proof Hwf as (Hmin & Hmax & Hc).
  assert (wf_range (bind_port_pair others r).2) as Hwf'.
  { unfold bind_port_pair.
    pose proof (bind_tries_counter (Z.to_nat (Int.sat_sub (mr_port_max r) (mr_port_min r) / 2))
      (mr_port_min r) (Int.sat_sub (mr_port_max r) (mr_port_min r)) (mr_port_counter r)
      (others ∪ mr_bound r) Hc).
    destruct (_ <? 2); [done|]. destruct (bind_tries _ _ _ _ _) as [[[a b]|] c']; done. }
  split; [done|]. destruct (bind_port_pair others r) as [[[a b]|e] r'] eqn:E; cbn [fst snd].
  - apply bind_port_pair_ok in E as (-> & ? & ? & ? & Ha & Hb & -> & -> & -> & ->); [|done].
    rewrite not_elem_of_union in Ha, Hb. unfold in_range. repeat split; try tauto; lia.
  - unfold bind_port_pair in E. destruct (_ <? 2); [by simplify_eq/=|].
    destruct (bind_tries _ _ _ _ _) as [[[a b]|] c']; by simplify_eq/=.
Qed.

Lemma media_inv_frame r r' :
  media_inv r -> wf_range r' -> mr_sessions r' = mr_sessions r ->
  mr_port_min r' = mr_port_min r -> mr_port_max r' = mr_port_max r ->
  (forall cid s p, mr_sessions r !! cid = Some s -> p ∈ ports_of (streams s) ->
     p ∈ mr_bound r') ->
  media_inv r'.
Proof.
  intros [_ Ho Hd] Hwf Hs Hmin Hmax Hb. constructor; [done|..]; rewrite Hs; [|done].
  intros cid s Hc. destruct (Ho cid s Hc) as [Hnd Hall]. split; [done|].
  rewrite Forall_forall in Hall |- *. intros p Hp. unfold in_range. rewrite Hmin, Hmax.
  split; [by eapply Hb|]. by apply Hall.
Qed.

(** Binding a new pair keeps the invariant and extends the running streams. *)
Lemma bind_extends r r1 a b ps :
  media_inv r -> fresh_ports r ps -> wf_range r1 -> mr_sessions r1 = mr_sessions r ->
  mr_port_min r1 = mr_port_min r -> mr_port_max r1 = mr_port_max r ->
  a <> b -> in_range r a -> in_range r b -> (a ∉ mr_bound r) -> (b ∉ mr_bound r) ->
  mr_bound r1 = {[a; b]} ∪ mr_bound r ->
  media_inv r1 /\ fresh_ports r1 (ps ++ [a; b]).
Proof.
  intros Hinv [Hnd Hall] Hwf1 Hs1 Hmin1 Hmax1 Hab Hra Hrb Ha Hb Hb1.
  rewrite Forall_forall in Hall.
  assert (forall cid s p, mr_sessions r !! cid = Some s -> p ∈ ports_of (streams s) ->
    p ∈ mr_bound r) as Hold.
  { intros cid s p Hc Hp. destruct (inv_owned _ Hinv cid s Hc) as [_ Hall'].
    rewrite Forall_forall in Hall'. by apply Hall'. }
  split.
  { apply (media_inv_frame r); try done. intros cid s p Hc Hp. rewrite Hb1.
    apply elem_of_union_r. by eapply Hold. }
  split.
  - apply NoDup_app. split; [done|]. split.
    + intros p Hp. destruct (Hall p Hp) as [? _]. set_solver.
    + apply NoDup_cons. split; [set_solver|apply NoDup_singleton].
  - apply Forall_forall. intros p. rewrite Hs1, Hb1, elem_of_app.
    unfold in_range. rewrite Hmin1, Hmax1. intros [Hp|Hp].
    + destruct (Hall p Hp) as (? & ? & ?). split; [set_solver|done].
    + assert (p = a \/ p = b) as Hp' by set_solver. split; [set_solver|].
      split; [destruct Hp' as [->| ->]; done|].
      intros cid s Hc Hin. specialize (Hold cid s p Hc Hin). destruct Hp' as [->| ->]; done.
Qed.

Lemma allocate_streams_inv others ds sts r :
  media_inv r -> fresh_ports r (ports_of sts) ->
  let res := allocate_streams others ds sts r in
  media_inv res.2 /\ mr_sessions res.2 = mr_sessions r /\
  (forall p, p ∈ mr_bound r -> p ∉ ports_of sts -> p ∈ mr_bound res.2) /\
  match res.1 with
  | Ok sts' => fresh_ports res.2 (ports_of sts') /\
      forall p, p ∈ mr_bound r -> p ∈ ports_of sts' -> p ∈ ports_of sts
  | Err _ => True
  end.
Proof.
  revert sts r. induction ds as [|d ds IH]; intros sts r Hinv Hfresh; cbn zeta.
  { cbn. do 3 (split; [done|]). done. }
  cbn [allocate_streams]. unfold allocate_stream.
  pose proof (bind_port_pair_frame others r (inv_range _ Hinv)) as Hbind. cbn zeta in Hbind.
  destruct (bind_port_pair others r) as [[[a b]|e] r1]; cbn [fst snd] in Hbind.
  - destruct Hbind as (Hwf1 & Hs1 & Hmin1 & Hmax1 & Hab & Hra & Hrb & Ha & Hb & Hb1).
    set (st := {| ms_ports := _ |}).
    destruct (bind_extends r r1 a b (ports_of sts)) as [Hinv1 Hfresh1]; try done.
    change [a; b] with (ports_of [st]) in Hfresh1. rewrite <-ports_of_app in Hfresh1.
    destruct (IH _ r1 Hinv1 Hfresh1) as (Hi & Hs & Hkeep & Hres).
    split; [done|]. split; [congruence|]. split.
    + intros p Hp Hn. apply Hkeep; [set_solver|]. rewrite ports_of_app, not_elem_of_app.
      split; [done|]. change (ports_of [st]) with [a; b]. set_solver.
    + destruct (allocate_streams _ _ _ _).1; [|done]. destruct Hres as [? Hold].
      split; [done|]. intros p Hp Hin. specialize (Hold p ltac:(set_solver) Hin).
      rewrite ports_of_app, elem_of_app in Hold. destruct Hold as [|Hp']; [done|].
      change (ports_of [st]) with [a; b] in Hp'. set_solver.
  - destruct Hbind as (Hwf1 & Hs1 & Hmin1 & Hmax1 & Hb1).
    cbn [fst snd]. split; [|split; [done|split; [|done]]].
    + apply (media_inv_frame r); try done. intros cid s p Hc Hp. cbn.
      rewrite elem_of_difference, ports_of_abort, Hb1.
      destruct (inv_owned _ Hinv cid s Hc) as [_ Hall]. rewrite Forall_forall in Hall.
      split; [by apply Hall|]. intros Hin. destruct Hfresh as [_ Hf].
      rewrite Forall_forall in Hf. destruct (Hf p Hin) as (_ & _ & Hno). by eapply Hno.
    + intros p Hp Hn. cbn. rewrite Hb1, elem_of_difference, ports_of_abort. done.
Qed.

Lemma allocate_inv now others cid media r :
  media_inv r -> media_inv (allocate_session_for_media now others cid media r).2.
Proof.
  intros Hinv. unfold allocate_session_for_media.
  destruct (filter _ media) as [|d ds]; [done|].
  pose proof (allocate_streams_inv others (d :: ds) [] r Hinv) as Ha. cbn zeta in Ha.
  destruct Ha as (Hi & Hs & _ & Hres); [by repeat constructor|].
  destruct (allocate_streams _ _ _ _) as [[sts|e] r']; cbn [fst snd] in *; [|done].
  destruct Hres as [[Hnd Hfr] _]. rewrite Forall_forall in Hfr. constructor; [apply Hi|..].
  - intros c s. cbn. rewrite lookup_insert. case_decide as Hc.
    + intros; simplify_eq/=. split; [done|]. apply Forall_forall. intros p Hp.
      destruct (Hfr p Hp) as (? & ? & _). done.
    + apply (inv_owned _ Hi).
  - intros c1 c2 s1 s2 p. cbn. rewrite !lookup_insert.
    do 2 case_decide; intros; simplify_eq/=.
    + by destruct (Hfr p) as (_ & _ & Hno); [|eapply Hno].
    + intros Hp. destruct (Hfr p Hp) as (_ & _ & Hno). by eapply Hno.
    + by eapply (inv_disjoint _ Hi c1 c2).
Qed.

Lemma remove_inv cid r : media_inv r -> media_inv (remove_session cid r).
Proof.
  intros Hinv. unfold remove_session. destruct (mr_sessions r !! cid) as [s|] eqn:E; [|done].
  constructor; [apply Hinv|..].
  - intros c s'. cbn. rewrite lookup_delete_Some. intros [Hne Hc].
    destruct (inv_owned _ Hinv c s' Hc) as [? Hall]. split; [done|].
    rewrite Forall_forall in Hall |- *. intros p Hp. destruct (Hall p Hp). split; [|done].
    rewrite elem_of_difference, ports_of_abort. split; [done|].
    by eapply (inv_disjoint _ Hinv c cid).
  - intros c1 c2 s1 s2 p. cbn. rewrite !lookup_delete_Some. intros [? ?] [? ?].
    by eapply (inv_disjoint _ Hinv c1 c2).
Qed.

Lemma media_step_inv r r' : media_step r r' -> media_inv r -> media_inv r'.
Proof.
  destruct 1 as [now others cid media r|cid r|now age r]; intros Hinv.
  - by apply allocate_inv.
  - by apply remove_inv.
  - unfold cleanup_stale_sessions. generalize (map fst (filter (fun kv : str * MediaSession =>
      is_stale now age kv.2 = true) (map_to_list (mr_sessions r)))). intros ks.
    revert r Hinv. induction ks as [|k ks IH]; intros r Hinv; cbn [foldl]; [done|].
    by apply IH, remove_inv.
Qed.

Lemma orphan_allocate now others cid media r p :
  media_inv r -> orphan r p -> orphan (allocate_session_for_media now others cid media r).2 p.
Proof.
  intros Hinv [Hb Hno]. unfold allocate_session_for_media.
  destruct (filter _ media) as [|d ds]; [done|].
  pose proof (allocate_streams_inv others (d :: ds) [] r Hinv) as Ha. cbn zeta in Ha.
  destruct Ha as (Hi & Hs & Hkeep & Hres); [by repeat constructor|].
  assert (p ∉ ports_of []) as Hnil by (cbn; set_solver). specialize (Hkeep p Hb Hnil).
  destruct (allocate_streams _ _ _ _) as [[sts|e] r']; cbn [fst snd] in *.
  - split; [done|]. intros c s. cbn. rewrite Hs, lookup_insert. case_decide.
    + intros; simplify_eq/=. intros Hin. destruct Hres as [_ Hold].
      by apply (Hold p Hb), Hnil in Hin.
    + apply Hno.
  - split; [done|]. by rewrite Hs.
Qed.

Lemma orphan_remove cid r p : orphan r p -> orphan (remove_session cid r) p.
Proof.
  intros [Hb Hno]. unfold remove_session. destruct (mr_sessions r !! cid) as [s|] eqn:E; [|done].
  split; cbn.
  - rewrite elem_of_difference, ports_of_abort. split; [done|]. by eapply Hno.
  - intros c s'. rewrite lookup_delete_Some. intros [_ ?]. by eapply Hno.
Qed.

Lemma orphan_step r r' p : media_step r r' -> media_inv r -> orphan r p -> orphan r' p.
Proof.
  destruct 1 as [now others cid media r|cid r|now age r]; intros Hinv Ho.
  - by apply orphan_allocate.
  - by apply orphan_remove.
  - unfold cleanup_stale_sessions. generalize (map fst (filter (fun kv : str * MediaSession =>
      is_stale now age kv.2 = true) (map_to_list (mr_sessions r)))). intros ks.
    clear Hinv. revert r Ho. induction ks as [|k ks IH]; intros r Ho; cbn [foldl]; [done|].
    by apply IH, orphan_remove.
Qed.

Lemma media_steps_inv r r' : rtc media_step r r' -> media_inv r -> media_inv r'.
Proof. induction 1; [done|]. intros. apply IHrtc. by eapply media_step_inv. Qed.

Lemma media_relay_new_inv ip pmin pmax :
  Int.is_u16 pmin -> Int.is_u16 pmax -> media_inv (media_relay_new ip pmin pmax).
Proof.
  intros. constructor.
  - repeat split; apply H || apply H0 || cbn; lia || done.
  - intros cid s. cbn. by rewrite lookup_empty.
  - intros c1 c2 s1 s2 p. cbn. by rewrite lookup_empty.
Qed.

(** ** Theorems: sessions *)


Definition demo_media : list SdpMediaDescriptor :=
  [{| md_kind := Audio; md_media_index := 0; md_port := 49170; md_active := true |};
   {| md_kind := Video; md_media_index := 1; md_port := 49172; md_active := true |}].

Definition demo_relay : MediaRelay :=
  (allocate_session_for_media 0 {[10001]} "a" demo_media
    (media_relay_new "1.2.3.4" 10000 10010)).2.


(** Hanging up returns the ports: removing the session of a call unbinds
    exactly its own relay ports, and leaves every other session and its ports as
    they are. *)
Theorem remove_session_releases r cid s :
  media_inv r -> mr_sessions r !! cid = Some s ->
  let r' := remove_session cid r in
  mr_sessions r' = delete cid (mr_sessions r) /\
  (forall p, p ∈ mr_bound r' <-> p ∈ mr_bound r /\ p ∉ ports_of (streams s)) /\
  forall c s', c <> cid -> mr_sessions r !! c = Some s' ->
    mr_sessions r' !! c = Some s' /\ Forall (fun p => p ∈ mr_bound r') (ports_of (streams s')).
Proof.
  intros Hinv Hs. cbn zeta. pose proof (remove_inv cid r Hinv) as Hinv'.
  unfold remove_session in *. rewrite Hs in *. cbn in *. split; [done|]. split.
  - intros p. by rewrite elem_of_difference, ports_of_abort.
  - intros c s' Hne Hc. assert (delete cid (mr_sessions r) !! c = Some s') as Hc'
      by by rewrite lookup_delete_ne.
    split; [done|]. destruct (inv_owned _ Hinv' c s' Hc') as [_ Hall].
    eapply Forall_impl; [exact Hall|]. by intros p [? _].
Qed.

Lemma remove_session_releases_witness :
  mr_bound demo_relay = {[10002; 10003; 10004; 10005]} /\
  mr_sessions (remove_session "a" demo_relay) = delete "a" (mr_sessions demo_relay).
Proof.
  split; [vm_compute; reflexivity|].
  destruct (mr_sessions demo_relay !! ("a" : str)) as [s|] eqn:E;
    [|exfalso; vm_compute in E; discriminate E].
  apply (remove_session_releases demo_relay "a" s).
  - apply allocate_inv, media_relay_new_inv; vm_compute; split; congruence.
  - exact E.
Defined.

(** A second INVITE with the same Call-ID leaks the first relay: when a
    session is allocated for a call that already has one, the old ports stay bound
    and no session names them, now and after any further allocations, removals
    and expiries. *)
Theorem duplicate_allocation_leaks now others cid media r s ports r' r'' p :
  media_inv r -> mr_sessions r !! cid = Some s ->
  allocate_session_for_media now others cid media r = (Ok ports, r') ->
  rtc media_step r' r'' -> p ∈ ports_of (streams s) ->
  p ∈ mr_bound r'' /\
  forall c s', mr_sessions r'' !! c = Some s' -> p ∉ ports_of (streams s').
Proof.
  intros Hinv Hs Ha Hsteps Hp.
  assert (media_inv r') as Hinv' by (pose proof (allocate_inv now others cid media r Hinv) as H;
    by rewrite Ha in H).
  assert (p ∈ mr_bound r) as Hb.
  { destruct (inv_owned _ Hinv cid s Hs) as [_ Hall]. rewrite Forall_forall in Hall.
    by apply Hall. }
  assert (orphan r' p) as Ho.
  { unfold allocate_session_for_media in Ha. destruct (filter _ media) as [|d ds]; [done|].
    pose proof (allocate_streams_inv others (d :: ds) [] r Hinv) as Hst. cbn zeta in Hst.
    destruct Hst as (_ & Hse & Hkeep & Hres); [by repeat constructor|].
    destruct (allocate_streams _ _ _ _) as [[sts|e] r1]; cbn [fst snd] in *;
      simplify_eq/=. destruct Hres as [_ Hold]. split; cbn.
    - apply Hkeep; [done|set_solver].
    - intros c s'. rewrite Hse, lookup_insert. case_decide.
      + intros; simplify_eq/=. intros Hin. apply (Hold p Hb) in Hin. cbn in Hin. set_solver.
      + intros Hc. by eapply (inv_disjoint _ Hinv cid c). }
  clear Ha Hinv Hs Hb Hp. induction Hsteps as [r1|r1 r2 r3 Hstep Hsteps IH]; [done|].
  apply IH; [by eapply media_step_inv|by eapply orphan_step].
Qed.

Lemma duplicate_allocation_leaks_witness :
  exists ports r', allocate_session_for_media 1 ∅ "a" demo_media demo_relay = (Ok ports, r') /\
    10002 ∈ mr_bound (remove_session "a" r').
Proof.
  destruct (allocate_session_for_media 1 ∅ "a" demo_media demo_relay) as [[ports|e] r'] eqn:E;
    [|exfalso; vm_compute in E; discriminate E].
  exists ports, r'. split; [reflexivity|].
  destruct (mr_sessions demo_relay !! ("a" : str)) as [s|] eqn:Es;
    [|exfalso; vm_compute in Es; discriminate Es].
  apply (duplicate_allocation_leaks 1 ∅ "a" demo_media demo_relay s ports r'
    (remove_session "a" r') 10002).
  - apply allocate_inv, media_relay_new_inv; vm_compute; split; congruence.
  - exact Es.
  - exact E.
  - apply rtc_once. apply step_remove.
  - vm_compute in Es. injection Es as <-. by_decide.
Defined.

(** ** Theorems: the relay loop *)

(** The last source seen from a side. *)
Fixpoint last_source (side : RelaySide) (init : option SocketAddr)
    (ps : list (RelaySide * SocketAddr)) : option SocketAddr :=
  match ps with
  | [] => init
  | (s, src) :: ps' => last_source side (if decide (s = side) then Some src else init) ps'
  end.

Definition other_side (s : RelaySide) : RelaySide :=
  match s with FromCallee => FromCaller | FromCaller => FromCallee end.

Definition learned (s : RelaySide) (st : MediaStreamSession) : option SocketAddr :=
  match s with FromCallee => callee_rtp st | FromCaller => caller_rtp st end.

(** The packets the loops get to see. *)
Fixpoint received (ps : list (RelaySide * option SocketAddr)) (stopped : list RelaySide)
    : list (RelaySide * SocketAddr) :=
  match ps with
  | [] => []
  | (side, input) :: ps' =>
      if bool_decide (side ∈ stopped) then received ps' stopped
      else match input with
        | None => received ps' (side :: stopped)
        | Some src => (side, src) :: received ps' stopped
        end
  end.

(** The relay is symmetric RTP: in any interleaving of packets from the two sides, each packet
    is forwarded to the most recent source address seen on the other side before it, and
    dropped when the other side has not been heard.  A side whose socket gave an error is not
    listened to any more, though its session stays in the table. *)
Theorem relay_loop_learned ps stopped st i side src :
  ps !! i = Some (side, Some src) ->
  run_relay_loop ps stopped st !! i =
  Some (if decide (side ∈ stopped \/ (side, None) ∈ take i ps) then None
        else last_source (other_side side) (learned (other_side side) st) (received (take i ps) stopped)).
Proof.
  revert i st stopped. induction ps as [|[s x] ps IH]; intros [|i] st stopped Hi; simplify_eq/=.
  - case_bool_decide.
    + by rewrite decide_True by by left.
    + rewrite decide_False by (intros [?|?%not_elem_of_nil]; done). by destruct side.
  - case_bool_decide as Hs.
    + etrans; [apply (IH i st stopped Hi)|]. f_equal. apply decide_ext. set_solver.
    + destruct x as [x|].
      * destruct s; (etrans; [apply (IH i _ _ Hi)|]); f_equal;
          match goal with |- (if ?d then _ else _) = (if ?e then _ else _) => destruct d, e end;
          try done; try set_solver; by destruct side.
      * etrans; [apply (IH i st (s :: stopped) Hi)|]. f_equal. apply decide_ext. set_solver.
Qed.

Lemma relay_loop_learned_witness :
  let a := {| ip := V4 1 1 1 1; port := 4000 |} in
  let b := {| ip := V4 2 2 2 2; port := 5000 |} in
  let st := {| ms_ports := {| mp_kind := Audio; mp_media_index := 0; mp_relay_port_a := 10000;
                 mp_relay_port_b := 10001 |}; callee_rtp := None; caller_rtp := None |} in
  run_relay_loop [(FromCaller, Some a); (FromCallee, Some b); (FromCaller, Some a)] [] st !! 2%nat =
    Some (Some b).
Proof.
  cbv zeta. rewrite (relay_loop_learned _ _ _ 2%nat FromCaller {| ip := V4 1 1 1 1; port := 4000 |}).
  - reflexivity.
  - reflexivity.
Defined.
