(* ===== verification/World.v ===== *)
(** * The state of the SIP server

    The tables, the shared maps and the outside world that the handlers of
    [backend/src/sip/] read and write, and the monad they run in.

    - A handler runs at one clock value [w_now] (nanoseconds since the epoch; SQL
      times and the expiry columns are whole seconds).
    - [w_faults] decides which queries and sends fail: each fallible operation
      takes the next entry, and succeeds when the list is exhausted.
    - [w_random] are the bytes the random generator will return.
    - Text columns compare byte for byte.
    - [w_outbox] lists the messages sent, oldest first. *)

From S2P Require Import Prelude RustStr Net Message SecurityGuard Acl Storage Sdp Media.

Open Scope str_scope.
Open Scope Z_scope.

(** ** Configuration: the fields of [backend/src/config.rs] the handlers read *)

Record Config := {
  sip_domain : str;
  public_ip : str;
  sip_port : Z;
  rtp_port_min : Z;
  rtp_port_max : Z;
  conference_rtp_port_min : Z;
  conference_rtp_port_max : Z;
  registration_expires : Z;
  nonce_max_age_secs : Z;
  nonce_secret : str;
  persist_acl_bans : bool;
  acl_ban_priority : Z;
  voicemail_access_extension : str;
  voicemail_idle_timeout_secs : Z;
  voicemail_storage_dir : str;
  voicemail_rtp_port_min : Z;
  voicemail_rtp_port_max : Z;
  voicemail_no_answer_secs : Z;
  voicemail_max_message_secs : Z;
  api_port : Z;
  tls_port : Z;
  ws_port : Z;
  wss_port : Z;
  tls_cert : str;
  tls_key : str;
  auth_realm : str;
  auth_api_key : option str;
  jwt_expiry_secs : Z;
  turn_realm : str;
  turn_secret : str;
  turn_ttl_secs : Z;
  turn_server : str;
  smtp_host : str;
  smtp_from_address : str;
}.

(** ** Tables *)

(** [sip_accounts], keyed by its unique key (user name, domain). *)
Record Account := {
  ac_id : Z;
  ac_password_hash : str;
  ac_display_name : option str;
  ac_ha1_hash : option str;
  ac_enabled : Z;
}.

Record Registration := {
  contact_uri : str;
  reg_user_agent : str;
  reg_expires_at : Z;
  reg_source_ip : str;
  reg_source_port : Z;
}.

Record CallRow := {
  call_caller : str;
  call_callee : str;
  call_status : str;
  call_started_at : Z;
  call_answered_at : option Z;
  call_ended_at : option Z;
}.

Record MessageRow := {
  mr_message_id : option str;
  mr_call_id : option str;
  mr_sender : str;
  mr_receiver : str;
  mr_content_type : str;
  mr_body : str;
  mr_status : str;
  mr_source_ip : str;
  mr_created_at : Z;
  mr_delivered_at : option Z;
}.

Record PresenceSub := {
  ps_call_id : str;
  ps_cseq : Z;
  ps_tag : str;
  ps_ip : str;
  ps_port : Z;
  ps_expires_at : Z;
}.

(** [sip_voicemail_mwi_subscriptions], keyed by (subscriber, domain, call id). *)
Record MwiSub := {
  mw_tag : str;
  mw_ip : str;
  mw_port : Z;
  mw_cseq : Z;
  mw_expires_at : Z;
}.

(** [sip_voicemail_boxes] and [sip_voicemail_messages] *)
Record VoicemailBox := {
  vb_id : Z;
  vb_username : str;
  vb_domain : str;
  vb_enabled : Z;
  vb_no_answer_secs : Z;
  vb_max_message_secs : Z;
  vb_max_messages : Z;
  vb_greeting_storage_key : option str;
  vb_pin_hash : option str;
  vb_email : option str;
}.

Record VoicemailMessage := {
  vm_id : Z;
  vm_box_id : Z;
  vm_caller : str;
  vm_callee : str;
  vm_call_id : str;
  vm_duration_secs : Z;
  vm_storage_key : str;
  vm_status : str;
  vm_created_at : Z;
  vm_heard_at : option Z;
}.

(** [sip_conference_rooms], and [sip_conference_participants] (keyed by call id) *)
Record ConferenceRoomRow := {
  cr_id : Z;
  cr_extension : str;
  cr_domain : str;
  cr_name : str;
  cr_enabled : Z;
  cr_max_participants : Z;
  cr_pin_hash : option str;
}.

Record ConferenceParticipantRow := {
  cp_room_id : Z;
  cp_account : str;
  cp_source_ip : str;
  cp_source_port : Z;
  cp_relay_port : Z;
  cp_codec : str;
  cp_muted : Z;
  cp_joined_at : Z;
  cp_left_at : option Z;
}.

(** [sip_webhooks] and [sip_webhook_deliveries].  [wh_events] is the list that [events_json]
    parses to (none when it does not parse); a payload is the list of its fields. *)
Record Webhook := {
  wh_id : Z;
  wh_name : str;
  wh_url : str;
  wh_secret : str;
  wh_events : list str;
  wh_active : Z;
}.

Record Delivery := {
  wd_id : Z;
  wd_webhook_id : Z;
  wd_event_type : str;
  wd_payload : list (str * str);
  wd_status : str;
  wd_attempts : Z;
  wd_last_error : option str;
  wd_next_retry_at : option Z;
  wd_delivered_at : option Z;
}.

(** [admin_users]. *)
Record AdminUser := {
  au_id : Z;
  au_username : str;
  au_password_hash : str;
}.

(** [sip_email_outbox] and [sip_voicemail_greetings]. *)
Record Email := {
  em_id : Z;
  em_mailbox_id : Z;
  em_to_addr : str;
  em_subject : str;
  em_body : str;
  em_attachment_key : option str;
  em_status : str;
  em_attempts : Z;
  em_last_error : option str;
  em_scheduled_at : Z;
  em_sent_at : option Z;
}.

Record Greeting := {
  gr_box_id : Z;
  gr_storage_key : str;
  gr_original_filename : str;
  gr_duration_secs : Z;
}.

(** ** Shared maps *)

Record DialogInfo := {
  caller_addr : SocketAddr;
  callee_addr : SocketAddr;
  caller_is_stream : bool;
  callee_is_stream : bool;
}.

(** The sessions of [backend/src/sip/webrtc_gateway.rs]; a channel is the port of its
    socket and the address of the SIP phone. *)
Inductive BridgeFlow := BrowserCaller | SipCaller.

#[export] Instance BridgeFlow_eq_dec : EqDecision BridgeFlow.
Proof. solve_decision. Defined.

Record SipMediaChannel := { ch_port : Z; sip_peer : option SocketAddr }.

Record WebRtcSession := {
  gw_flow : BridgeFlow;
  sip_audio : SipMediaChannel;
  sip_video : option SipMediaChannel;
  gw_answer_sdp : str;
  gw_created_at : Z;
}.

(** [Ringing] holds the task to abort. *)
Inductive NoAnswerTimerEntry :=
  | Ringing (task : nat)
  | Firing
  | Canceled.

Record RecordingCancelState := { recording : gset str; canceled : gset str }.

Inductive VoicemailMode :=
  | PinEntry (box_id : Z) (mailbox : str)
  | Recording (box_id : Z) (mailbox : str)
  | Playback (mailbox : str) (box_id : Z) (messages : list VoicemailMessage)
      (current_index : nat).

Record VoicemailCall := {
  vc_mode : VoicemailMode;
  vc_caller : str;
  vc_callee : str;
  vc_pin_buffer : str;
}.

Inductive VoicemailCodec := Pcmu | Pcma.

#[export] Instance VoicemailCodec_eq_dec : EqDecision VoicemailCodec.
Proof. solve_decision. Defined.

(** An entry of the voicemail media registry. *)
Record VmSession := {
  vs_port : Z;
  vs_codec : VoicemailCodec;
  vs_audio_pt : Z;
  vs_telephone_event_pt : option Z;
}.

Inductive ConferenceCodec := ConfPcmu | ConfPcma.

#[export] Instance ConferenceCodec_eq_dec : EqDecision ConferenceCodec.
Proof. solve_decision. Defined.

(** The state machine for [*6] and the deduplication of event packets; times in
    nanoseconds. *)
Record DtmfState := { last_digit : option (Z * Z); last_event_ts : option Z }.

(** A participant of a conference room, in memory. *)
Record Participant := {
  relay_port : Z;
  pt_codec : ConferenceCodec;
  pt_audio_pt : Z;
  pt_telephone_event_pt : option Z;
  muted : bool;
  pt_peer : option SocketAddr;
  latest_frame : list Z;
  frame_locked : bool;
  out_seq : Z;
  out_ts : Z;
  out_ssrc : Z;
  dtmf_state : DtmfState;
}.

(** An entry of [Conference::active]; the row id of the participant, which nothing reads,
    is left out. *)
Record ConferenceCall := {
  cc_room_id : Z;
  cc_extension : str;
  cc_domain : str;
  cc_caller_account : str;
  cc_to_tag : str;
}.

Record RecordingStart := {
  rs_call_id : str;
  rs_box_id : Z;
  rs_mailbox : str;
  rs_domain : str;
  rs_caller : str;
  rs_callee : str;
  rs_max_message_secs : Z;
}.

Record NoAnswerStart := {
  na_msg : SipMessage;
  na_src : SocketAddr;
  na_target_addr : SocketAddr;
  na_target_uri : str;
  na_callee : str;
  na_delay_secs : Z;
}.

(** What [tokio::spawn] started. *)
Inductive Task :=
  | TaskNoAnswer (id : nat) (t : NoAnswerStart)
  | TaskRecord (r : RecordingStart)
  | TaskPlay (call_id key : str)
  | TaskNotifyMailbox (username domain : str).

(** A message handed to a stream connection or to the UDP socket. *)
Record OutMsg := { out_dst : SocketAddr; out_stream : bool; out_text : str }.

(** A webhook request handed to the HTTP client. *)
Record PostRequest := {
  post_url : str;
  post_event : str;
  post_signature : str;
  post_delivery_id : Z;
  post_body : str;
}.

(** The state of the server and of what it talks to: clock, faults to come, random bytes, the
    database, the stores, the files, the spawned tasks, what was sent, and the calls of
    [set_conference_participants] (room and number, the last one first).  [w_json_strings]
    tells whether the database driver decodes a column of type JSON into a [String]; the type
    check of sqlx 0.7 against MySQL refuses it, against MariaDB, whose JSON is a text type, it
    does not. *)
Record World := {
  w_now : Z;
  w_faults : list bool;
  w_random : list Z;
  w_accounts : gmap (str * str) Account;
  w_registrations : gmap (str * str) Registration;
  w_calls : gmap str CallRow;
  w_messages : list MessageRow;
  w_presence_subs : gmap (str * str * str) PresenceSub;
  w_mwi_subs : gmap (str * str * str) MwiSub;
  w_voicemail_boxes : list VoicemailBox;
  w_voicemail_messages : list VoicemailMessage;
  w_security_events : list SecurityEventRow;
  w_acl_rows : list AclEntry;
  w_webhooks : list Webhook;
  w_deliveries : list Delivery;
  w_admin_users : list AdminUser;
  w_emails : list Email;
  w_greetings : list Greeting;
  w_auth_guard : SecurityGuard;
  w_guard : SecurityGuard;
  w_invite_guard : SecurityGuard;
  w_pending_dialogs : gmap str SocketAddr;
  w_active_dialogs : gmap str DialogInfo;
  w_pending_invites : gmap str SipMessage;
  w_media_relay : MediaRelay;
  w_other_ports : gset Z;
  w_registry : gmap SocketAddr bool;
  w_gateway : gmap str WebRtcSession;
  w_gw_port_counter : Z;
  w_no_answer : gmap str NoAnswerTimerEntry;
  w_recording_state : RecordingCancelState;
  w_access_pending : gset str;
  w_voicemail_calls : gmap str VoicemailCall;
  w_voicemail_media : gmap str VmSession;
  w_vm_port_counter : Z;
  w_conf_rooms : list ConferenceRoomRow;
  w_conf_participants : gmap str ConferenceParticipantRow;
  w_conf_calls : gmap str ConferenceCall;
  w_conf_media : gmap Z (gmap str Participant);
  w_conf_port_counter : Z;
  w_files : files;
  w_tasks : list Task;
  w_outbox : list OutMsg;
  w_posts : list PostRequest;
  w_participants_gauge : list (Z * Z);
  w_json_strings : bool;
}.

(** [set_f v w] is [w] with the field [w_f] replaced by [v]. *)

Ltac with_field p v w :=
  let get q := lazymatch q with p => v | _ => constr:(q w) end in
  let a0 := get w_now in let a1 := get w_faults in let a2 := get w_random in
  let a3 := get w_accounts in let a4 := get w_registrations in let a5 := get w_calls in
  let a6 := get w_messages in let a7 := get w_presence_subs in let a8 := get w_mwi_subs in
  let a9 := get w_voicemail_boxes in let a10 := get w_voicemail_messages in
  let a11 := get w_security_events in let a12 := get w_acl_rows in let a13 := get w_webhooks in
  let a14 := get w_deliveries in let a15 := get w_admin_users in let a16 := get w_emails in
  let a17 := get w_greetings in let a18 := get w_auth_guard in let a19 := get w_guard in
  let a20 := get w_invite_guard in let a21 := get w_pending_dialogs in
  let a22 := get w_active_dialogs in let a23 := get w_pending_invites in
  let a24 := get w_media_relay in let a25 := get w_other_ports in let a26 := get w_registry in
  let a27 := get w_gateway in let a28 := get w_gw_port_counter in let a29 := get w_no_answer in
  let a30 := get w_recording_state in let a31 := get w_access_pending in
  let a32 := get w_voicemail_calls in let a33 := get w_voicemail_media in
  let a34 := get w_vm_port_counter in let a35 := get w_conf_rooms in
  let a36 := get w_conf_participants in let a37 := get w_conf_calls in
  let a38 := get w_conf_media in let a39 := get w_conf_port_counter in let a40 := get w_files in
  let a41 := get w_tasks in let a42 := get w_outbox in let a43 := get w_posts in
  let a44 := get w_participants_gauge in let a45 := get w_json_strings in
  exact (Build_World a0 a1 a2 a3 a4 a5 a6 a7 a8 a9 a10 a11 a12 a13 a14 a15 a16 a17 a18 a19 a20
    a21 a22 a23 a24 a25 a26 a27 a28 a29 a30 a31 a32 a33 a34 a35 a36 a37 a38 a39 a40 a41 a42
    a43 a44 a45).

Definition set_now (v : Z) (w : World) : World :=
  ltac:(with_field w_now v w).
Definition set_faults (v : list bool) (w : World) : World :=
  ltac:(with_field w_faults v w).
Definition set_random (v : list Z) (w : World) : World :=
  ltac:(with_field w_random v w).
Definition set_accounts (v : gmap (str * str) Account) (w : World) : World :=
  ltac:(with_field w_accounts v w).
Definition set_registrations (v : gmap (str * str) Registration) (w : World) : World :=
  ltac:(with_field w_registrations v w).
Definition set_calls (v : gmap str CallRow) (w : World) : World :=
  ltac:(with_field w_calls v w).
Definition set_messages (v : list MessageRow) (w : World) : World :=
  ltac:(with_field w_messages v w).
Definition set_presence_subs (v : gmap (str * str * str) PresenceSub) (w : World) : World :=
  ltac:(with_field w_presence_subs v w).
Definition set_mwi_subs (v : gmap (str * str * str) MwiSub) (w : World) : World :=
  ltac:(with_field w_mwi_subs v w).
Definition set_voicemail_boxes (v : list VoicemailBox) (w : World) : World :=
  ltac:(with_field w_voicemail_boxes v w).
Definition set_voicemail_messages (v : list VoicemailMessage) (w : World) : World :=
  ltac:(with_field w_voicemail_messages v w).
Definition set_security_events (v : list SecurityEventRow) (w : World) : World :=
  ltac:(with_field w_security_events v w).
Definition set_acl_rows (v : list AclEntry) (w : World) : World :=
  ltac:(with_field w_acl_rows v w).
Definition set_webhooks (v : list Webhook) (w : World) : World :=
  ltac:(with_field w_webhooks v w).
Definition set_deliveries (v : list Delivery) (w : World) : World :=
  ltac:(with_field w_deliveries v w).
Definition set_admin_users (v : list AdminUser) (w : World) : World :=
  ltac:(with_field w_admin_users v w).
Definition set_emails (v : list Email) (w : World) : World :=
  ltac:(with_field w_emails v w).
Definition set_greetings (v : list Greeting) (w : World) : World :=
  ltac:(with_field w_greetings v w).
Definition set_auth_guard (v : SecurityGuard) (w : World) : World :=
  ltac:(with_field w_auth_guard v w).
Definition set_guard (v : SecurityGuard) (w : World) : World :=
  ltac:(with_field w_guard v w).
Definition set_invite_guard (v : SecurityGuard) (w : World) : World :=
  ltac:(with_field w_invite_guard v w).
Definition set_pending_dialogs (v : gmap str SocketAddr) (w : World) : World :=
  ltac:(with_field w_pending_dialogs v w).
Definition set_active_dialogs (v : gmap str DialogInfo) (w : World) : World :=
  ltac:(with_field w_active_dialogs v w).
Definition set_pending_invites (v : gmap str SipMessage) (w : World) : World :=
  ltac:(with_field w_pending_invites v w).
Definition set_media_relay (v : MediaRelay) (w : World) : World :=
  ltac:(with_field w_media_relay v w).
Definition set_other_ports (v : gset Z) (w : World) : World :=
  ltac:(with_field w_other_ports v w).
Definition set_registry (v : gmap SocketAddr bool) (w : World) : World :=
  ltac:(with_field w_registry v w).
Definition set_gateway (v : gmap str WebRtcSession) (w : World) : World :=
  ltac:(with_field w_gateway v w).
Definition set_gw_port_counter (v : Z) (w : World) : World :=
  ltac:(with_field w_gw_port_counter v w).
Definition set_no_answer (v : gmap str NoAnswerTimerEntry) (w : World) : World :=
  ltac:(with_field w_no_answer v w).
Definition set_recording_state (v : RecordingCancelState) (w : World) : World :=
  ltac:(with_field w_recording_state v w).
Definition set_access_pending (v : gset str) (w : World) : World :=
  ltac:(with_field w_access_pending v w).
Definition set_voicemail_calls (v : gmap str VoicemailCall) (w : World) : World :=
  ltac:(with_field w_voicemail_calls v w).
Definition set_voicemail_media (v : gmap str VmSession) (w : World) : World :=
  ltac:(with_field w_voicemail_media v w).
Definition set_vm_port_counter (v : Z) (w : World) : World :=
  ltac:(with_field w_vm_port_counter v w).
Definition set_conf_rooms (v : list ConferenceRoomRow) (w : World) : World :=
  ltac:(with_field w_conf_rooms v w).
Definition set_conf_participants (v : gmap str ConferenceParticipantRow) (w : World) : World :=
  ltac:(with_field w_conf_participants v w).
Definition set_conf_calls (v : gmap str ConferenceCall) (w : World) : World :=
  ltac:(with_field w_conf_calls v w).
Definition set_conf_media (v : gmap Z (gmap str Participant)) (w : World) : World :=
  ltac:(with_field w_conf_media v w).
Definition set_conf_port_counter (v : Z) (w : World) : World :=
  ltac:(with_field w_conf_port_counter v w).
Definition set_files (v : files) (w : World) : World := ltac:(with_field w_files v w).
Definition set_tasks (v : list Task) (w : World) : World :=
  ltac:(with_field w_tasks v w).
Definition set_outbox (v : list OutMsg) (w : World) : World :=
  ltac:(with_field w_outbox v w).
Definition set_posts (v : list PostRequest) (w : World) : World :=
  ltac:(with_field w_posts v w).
Definition set_participants_gauge (v : list (Z * Z)) (w : World) : World :=
  ltac:(with_field w_participants_gauge v w).
Definition set_json_strings (v : bool) (w : World) : World :=
  ltac:(with_field w_json_strings v w).

(** ** The handler monad

    A handler returns a value, fails with an error that [?] propagates, or
    panics. *)

Inductive res (A : Type) : Type :=
  | Val (a : A)
  | Fail (e : str)
  | Panicked.
Arguments Val {A} a.
Arguments Fail {A} e.
Arguments Panicked {A}.

Definition M (A : Type) : Type := World -> res A * World.

#[export] Instance M_ret : MRet M := fun A a w => (Val a, w).
#[export] Instance M_bind : MBind M := fun A B f m w =>
  match m w with
  | (Val a, w') => f a w'
  | (Fail e, w') => (Fail e, w')
  | (Panicked, w') => (Panicked, w')
  end.

Definition fail {A} (e : str) : M A := fun w => (Fail e, w).
Definition panic {A} : M A := fun w => (Panicked, w).
Definition gets {A} (f : World -> A) : M A := fun w => (Val (f w), w).
Definition modify (f : World -> World) : M unit := fun w => (Val tt, f w).

Definition when (b : bool) (m : M unit) : M unit := if b then m else mret tt.

(** [res.ok()], [unwrap_or]: the error of [m] becomes [None]. *)
Definition attempt {A} (m : M A) : M (option A) := fun w =>
  match m w with
  | (Val a, w') => (Val (Some a), w')
  | (Fail _, w') => (Val None, w')
  | (Panicked, w') => (Panicked, w')
  end.

(** [let _ = m.await;] and [if let Err(e) = m.await { warn!(..) }] *)
Definition ignore {A} (m : M A) : M unit := _ ← attempt m; mret tt.

Fixpoint for_each {A} (l : list A) (f : A -> M unit) : M unit :=
  match l with [] => mret tt | x :: l' => _ ← f x; for_each l' f end.

(** ** Queries, time, randomness *)

(** Does the next fallible operation fail? *)
Definition fault : M bool := fun w =>
  match w_faults w with
  | [] => (Val false, w)
  | b :: bs => (Val b, set_faults bs w)
  end.

(** A query: [f] when the database answers. *)
Definition query {A} (m : M A) : M A :=
  b ← fault; if b : bool then fail "database error" else m.

Definition unix_secs : M Z := gets (fun w => w_now w / 1000000000).

Definition random_byte : M Z := fun w =>
  match w_random w with
  | [] => (Val 0, w)
  | b :: bs => (Val (b mod 256), set_random bs w)
  end.

(** [rng.random::<uN>()] of [bytes] bytes. *)
Fixpoint random_uint (bytes : nat) : M Z :=
  match bytes with
  | O => mret 0
  | S n => b ← random_byte; rest ← random_uint n; mret (b + 256 * rest)
  end.

(** [(0..bytes).map(|_| format!("{:02x}", rng.random::<u8>())).collect()] *)
Fixpoint random_hex (bytes : nat) : M str :=
  match bytes with
  | O => mret []
  | S n => b ← random_byte; rest ← random_hex n; mret (Str.show_hex_pad 2 b ++ rest)
  end.

(** ** Sending *)

Definition emit (m : OutMsg) : M unit := modify (fun w => set_outbox (w_outbox w ++ [m]) w).

(** [socket.send_to] *)
Definition udp_send (text : str) (addr : SocketAddr) : M unit :=
  b ← fault;
  if b : bool then fail "send error"
  else emit {| out_dst := addr; out_stream := false; out_text := text |}.

(** ** The stream registry: [backend/src/sip/transport.rs]

    An address maps to whether the receiving task still takes messages. *)

Definition registry_register (addr : SocketAddr) : M unit :=
  modify (fun w => set_registry (<[addr := true]> (w_registry w)) w).

Definition registry_unregister (addr : SocketAddr) : M unit :=
  modify (fun w => set_registry (delete addr (w_registry w)) w).

Definition registry_contains (addr : SocketAddr) : M bool :=
  gets (fun w => bool_decide (is_Some (w_registry w !! addr))).

Definition registry_send (addr : SocketAddr) (text : str) : M bool :=
  open ← gets (fun w => default false (w_registry w !! addr));
  if open : bool then
    _ ← emit {| out_dst := addr; out_stream := true; out_text := text |}; mret true
  else mret false.

(** [send_sip] of the proxy and [send_to_addr] of the handler. *)
Definition send_sip (text : str) (target : SocketAddr) : M unit :=
  sent ← registry_send target text;
  if sent : bool then mret tt else udp_send text target.

(** ** Guards and their tables *)

Definition guard_is_blocked (ip : str) : M bool := fun w =>
  let '(b, g) := is_blocked (w_now w) ip (w_guard w) in (Val b, set_guard g w).

Definition guard_record_failure (s : AuthSurface) (ip : str) (u : option str) : M bool := fun w =>
  let '(b, g) := record_failure (w_now w) s ip u (w_guard w) in (Val b, set_guard g w).

Definition guard_record_success (ip : str) (u : option str) : M unit :=
  modify (fun w => set_guard (record_success ip u (w_guard w)) w).

Definition invite_guard_is_blocked (ip : str) : M bool := fun w =>
  let '(b, g) := is_blocked (w_now w) ip (w_invite_guard w) in (Val b, set_invite_guard g w).

Definition invite_guard_record_failure (s : AuthSurface) (ip : str) (u : option str) : M bool :=
  fun w =>
  let '(b, g) := record_failure (w_now w) s ip u (w_invite_guard w) in
  (Val b, set_invite_guard g w).

Definition db_persist_event (s : AuthSurface) (e : SecurityEventType) (ip : str)
    (u : option str) (detail : str) : M unit :=
  query (modify (fun w =>
    set_security_events (persist_security_event (w_now w / 1000000000) s e ip u detail
      (w_security_events w)) w)).

Definition db_persist_acl_ban (i : IpAddr) (priority : Z) (description : str) : M unit :=
  query (modify (fun w => set_acl_rows (persist_acl_ban i priority description (w_acl_rows w)) w)).

(** ** Webhooks: [WebhookDispatcher::enqueue] of [backend/src/api/webhook_dispatcher.rs] *)

Definition active_webhooks (w : World) : list Webhook := filter (fun h => wh_active h = 1) (w_webhooks w).

Definition insert_delivery (webhook_id : Z) (event : str) (payload : list (str * str)) (w : World)
    : World :=
  set_deliveries (w_deliveries w ++ [{|
    wd_id := next_id (map wd_id (w_deliveries w)); wd_webhook_id := webhook_id;
    wd_event_type := event; wd_payload := payload; wd_status := "pending"; wd_attempts := 0;
    wd_last_error := None; wd_next_retry_at := None; wd_delivered_at := None |}]) w.

(** A query whose rows hold a JSON column decoded into a [String]: without rows nothing is
    decoded. *)
Definition json_rows {A} (rows : World -> list A) : M (list A) :=
  l ← query (gets rows);
  ok ← gets w_json_strings;
  if (ok : bool) || bool_decide (l = []) then mret l else fail "mismatched types".

(** A row per active webhook that subscribed to the event. *)
Definition enqueue_webhook (event : str) (payload : list (str * str)) : M unit :=
  webhooks ← json_rows active_webhooks;
  for_each webhooks (fun h =>
    if bool_decide (event ∈ wh_events h)
    then query (modify (insert_delivery (wh_id h) event payload)) else mret tt).

(** ** Registrations *)

(** [WHERE username = ? AND domain = ? AND expires_at > NOW()] *)
Definition live_registration (w : World) (username domain : str) : option Registration :=
  match w_registrations w !! (username, domain) with
  | Some r => if w_now w / 1000000000 <? reg_expires_at r then Some r else None
  | None => None
  end.

Definition db_registration (username domain : str) : M (option Registration) :=
  query (gets (fun w => live_registration w username domain)).

(** [SELECT 1 FROM sip_accounts WHERE username = ? AND domain = ? AND enabled = 1] *)
Definition account_enabled (w : World) (username domain : str) : bool :=
  match w_accounts w !! (username, domain) with
  | Some a => ac_enabled a =? 1
  | None => false
  end.

Definition db_account_exists (username domain : str) : M bool :=
  query (gets (fun w => account_enabled w username domain)).

(** ** Ports and the media relay *)

Definition gateway_ports (s : WebRtcSession) : list Z :=
  ch_port (sip_audio s) :: from_option (fun c => [ch_port c]) [] (sip_video s).

Definition conference_ports (w : World) : list Z :=
  '(_, room) ← map_to_list (w_conf_media w);
  map (fun kv => relay_port kv.2) (map_to_list (room : gmap str Participant)).

(** The UDP ports in use by others than the media relay: voicemail sessions, gateway sessions,
    conference participants, and the sockets of none of them ([w_other_ports]: other processes,
    and sockets whose session is gone while their task still runs). *)
Definition ports_outside_relay (w : World) : gset Z :=
  w_other_ports w ∪
  list_to_set (map (fun kv => vs_port kv.2) (map_to_list (w_voicemail_media w))) ∪
  list_to_set (mbind (fun kv => gateway_ports kv.2) (map_to_list (w_gateway w))) ∪
  list_to_set (conference_ports w).

(** The ports a bind would find taken. *)
Definition taken_ports (w : World) : gset Z := ports_outside_relay w ∪ mr_bound (w_media_relay w).

Definition relay_allocate (call_id : str) (media : list SdpMediaDescriptor)
    : M (result (list MediaRelayPorts)) := fun w =>
  let '(r, m) := allocate_session_for_media (w_now w) (ports_outside_relay w) call_id media
                   (w_media_relay w) in
  (Val r, set_media_relay m w).

Definition relay_remove (call_id : str) : M unit :=
  modify (fun w => set_media_relay (remove_session call_id (w_media_relay w)) w).

(** ** Reasoning about handlers

    [moves R m]: whatever [m] returns, it takes the state along [R].  [total m]:
    [m] returns a value from every state.  The frame rules below are proved for
    the relations that do not look at the fault schedule and the random bytes. *)

Definition moves {A} (R : relation World) (m : M A) : Prop := forall w, R w (m w).2.

Definition total {A} (m : M A) : Prop := forall w, exists a w', m w = (Val a, w').

(** The relation that keeps the part [f] of the state. *)
Definition same {T} (f : World -> T) : relation World := fun w w' => f w' = f w.

Class IoFrame (R : relation World) : Prop := {
  io_preorder :: PreOrder R;
  io_faults v w : R w (set_faults v w);
  io_random v w : R w (set_random v w);
}.

#[export] Instance same_preorder {T} (f : World -> T) : PreOrder (same f).
Proof. split; [done|]. unfold same. intros ??? H1 H2. by rewrite H2. Qed.

#[export] Hint Extern 0 (IoFrame (same _)) =>
  (split; [apply same_preorder|intros; reflexivity|intros; reflexivity]) : typeclass_instances.

Create HintDb moves.
Create HintDb total.

Section moves.
Context {R : relation World} `{!IoFrame R}.

Lemma moves_ret {A} (a : A) : moves R (mret a).
Proof. intros w. by cbn. Qed.
Lemma moves_fail {A} e : moves R (fail (A:=A) e).
Proof. intros w. by cbn. Qed.
Lemma moves_panic {A} : moves R (panic (A:=A)).
Proof. intros w. by cbn. Qed.
Lemma moves_gets {A} (f : World -> A) : moves R (gets f).
Proof. intros w. by cbn. Qed.
Lemma moves_modify f : (forall w, R w (f w)) -> moves R (modify f).
Proof. intros H w. apply H. Qed.

Lemma moves_bind {A B} (m : M A) (f : A -> M B) :
  moves R m -> (forall a, moves R (f a)) -> moves R (m ≫= f).
Proof.
  intros Hm Hf w. specialize (Hm w). unfold mbind, M_bind.
  destruct (m w) as [[a|e|] w']; [|done..]. etrans; [exact Hm|apply Hf].
Qed.

(** The same, when what [m] returns is known to satisfy [P]. *)
Lemma moves_bind_returns {A B} (P : A -> Prop) (m : M A) (f : A -> M B) :
  moves R m -> (forall w a w', m w = (Val a, w') -> P a) -> (forall a, P a -> moves R (f a)) ->
  moves R (m ≫= f).
Proof.
  intros Hm HP Hf w. specialize (Hm w). unfold mbind, M_bind.
  destruct (m w) as [[a|e|] w'] eqn:E; [|done..]. etrans; [exact Hm|]. eapply Hf, HP, E.
Qed.

Lemma moves_when b m : moves R m -> moves R (when b m).
Proof. destruct b; [done|]. intros _. apply moves_ret. Qed.

Lemma moves_attempt {A} (m : M A) : moves R m -> moves R (attempt m).
Proof.
  intros Hm w. specialize (Hm w). unfold attempt. by destruct (m w) as [[a|e|] w'].
Qed.

Lemma moves_ignore {A} (m : M A) : moves R m -> moves R (ignore m).
Proof. intros Hm. apply moves_bind; [by apply moves_attempt|intros; apply moves_ret]. Qed.

Lemma moves_for_each {A} (l : list A) f : (forall x, moves R (f x)) -> moves R (for_each l f).
Proof.
  intros Hf. induction l as [|x l IH]; simpl; [apply moves_ret|].
  apply moves_bind; [apply Hf|intros; apply IH].
Qed.

Lemma moves_fault : moves R fault.
Proof. intros w. unfold fault. destruct (w_faults w); [done|apply io_faults]. Qed.

Lemma moves_query {A} (m : M A) : moves R m -> moves R (query m).
Proof. intros Hm. apply moves_bind; [apply moves_fault|]. intros []; [apply moves_fail|done]. Qed.

Lemma moves_random_hex n : moves R (random_hex n).
Proof.
  induction n as [|n IH]; simpl; [apply moves_ret|].
  apply moves_bind; [|intros; apply moves_bind; [done|intros; apply moves_ret]].
  intros w. unfold random_byte. destruct (w_random w); [done|apply io_random].
Qed.

Lemma moves_random_uint n : moves R (random_uint n).
Proof.
  induction n as [|n IH]; simpl; [apply moves_ret|].
  apply moves_bind; [|intros; apply moves_bind; [done|intros; apply moves_ret]].
  intros w. unfold random_byte. destruct (w_random w); [done|apply io_random].
Qed.

Lemma moves_unix_secs : moves R unix_secs.
Proof. apply moves_gets. Qed.
End moves.

(** A frame goal: follow the shape of the handler, close the writes by computation. *)
Ltac moves_leaf :=
  first [ simple apply moves_ret | simple apply moves_fail | simple apply moves_panic
        | simple apply moves_gets | simple apply moves_fault | simple apply moves_random_hex
        | simple apply moves_unix_secs | simple apply moves_random_uint | simple apply moves_modify; intros; reflexivity
        | solve [auto 2 with moves nocore] ].

(** Steps that a later file adds before the generic ones. *)
Ltac moves_hook := fail.

Ltac solve_moves :=
  repeat first
    [ match goal with |- forall _, _ => intro end
    | moves_hook
    | moves_leaf
    | simple apply moves_bind | simple apply moves_query | simple apply moves_ignore
    | simple apply moves_attempt | simple apply moves_when | simple apply moves_for_each
    | progress cbv beta iota
    | match goal with |- moves _ (match ?x with _ => _ end) => destruct x end ].

(** The operations of this file that touch one part of the state each. *)
Ltac moves_unfold :=
  intros ?; unfold guard_is_blocked, guard_record_failure, invite_guard_is_blocked,
    invite_guard_record_failure, relay_allocate; repeat case_match; simplify_eq/=; reflexivity.

Section total.
Lemma total_ret {A} (a : A) : total (mret a).
Proof. intros w. by exists a, w. Qed.
Lemma total_gets {A} (f : World -> A) : total (gets f).
Proof. intros w. by exists (f w), w. Qed.
Lemma total_modify f : total (modify f).
Proof. intros w. by exists tt, (f w). Qed.

Lemma total_bind {A B} (m : M A) (f : A -> M B) :
  total m -> (forall a, total (f a)) -> total (m ≫= f).
Proof.
  intros Hm Hf w. unfold mbind, M_bind. destruct (Hm w) as (a & w' & ->). apply Hf.
Qed.

Lemma total_when b m : total m -> total (when b m).
Proof. destruct b; [done|]. intros _. apply total_ret. Qed.

Lemma total_for_each {A} (l : list A) f : (forall x, total (f x)) -> total (for_each l f).
Proof.
  intros Hf. induction l as [|x l IH]; simpl; [apply total_ret|].
  apply total_bind; [apply Hf|intros; apply IH].
Qed.

Lemma total_random_uint n : total (random_uint n).
Proof.
  induction n as [|n IH]; simpl; [apply total_ret|].
  apply total_bind; [|intros; apply total_bind; [done|intros; apply total_ret]].
  intros w. unfold random_byte. destruct (w_random w); eauto.
Qed.

Lemma total_random_hex n : total (random_hex n).
Proof.
  induction n as [|n IH]; simpl; [apply total_ret|].
  apply total_bind; [|intros; apply total_bind; [done|intros; apply total_ret]].
  intros w. unfold random_byte. destruct (w_random w); eauto.
Qed.
End total.

(** [safe m]: [m] does not panic, so [attempt m] and [ignore m] are total. *)
Definition safe {A} (m : M A) : Prop := forall w, (m w).1 <> Panicked.

Lemma total_safe {A} (m : M A) : total m -> safe m.
Proof. intros Hm w. by destruct (Hm w) as (a & w' & ->). Qed.

Lemma safe_fail {A} e : safe (fail (A:=A) e).
Proof. by intros w. Qed.

Lemma safe_bind {A B} (m : M A) (f : A -> M B) :
  safe m -> (forall a, safe (f a)) -> safe (m ≫= f).
Proof.
  intros Hm Hf w. specialize (Hm w). unfold mbind, M_bind.
  destruct (m w) as [[a|e|] w']; [apply Hf|done|done].
Qed.

Lemma safe_fault : safe fault.
Proof. intros w. unfold fault. by destruct (w_faults w). Qed.

Lemma safe_query {A} (m : M A) : safe m -> safe (query m).
Proof. intros Hm. apply safe_bind; [apply safe_fault|by intros []]. Qed.

Lemma total_attempt {A} (m : M A) : safe m -> total (attempt m).
Proof.
  intros Hm w. specialize (Hm w). unfold attempt. destruct (m w) as [[a|e|] w']; [eauto..|done].
Qed.

Lemma total_ignore {A} (m : M A) : safe m -> total (ignore m).
Proof. intros Hm. apply total_bind; [by apply total_attempt|intros; apply total_ret]. Qed.

Lemma safe_udp_send text addr : safe (udp_send text addr).
Proof.
  apply safe_bind; [apply safe_fault|]. intros []; [done|]. apply total_safe, total_modify.
Qed.

Lemma safe_for_each {A} (l : list A) f : (forall x, safe (f x)) -> safe (for_each l f).
Proof.
  intros Hf. induction l as [|x l IH]; simpl; [done|]. apply safe_bind; [apply Hf|intros; apply IH].
Qed.

Lemma safe_json_rows {A} (rows : World -> list A) : safe (json_rows rows).
Proof.
  apply safe_bind; [apply safe_query, total_safe, total_gets|]. intros l.
  apply safe_bind; [apply total_safe, total_gets|]. intros ok. case_match; [by intros w|apply safe_fail].
Qed.

Lemma safe_enqueue event payload : safe (enqueue_webhook event payload).
Proof.
  apply safe_bind; [apply safe_json_rows|]. intros hooks. apply safe_for_each.
  intros h. case_match; [|apply total_safe, total_ret]. apply safe_query, total_safe, total_modify.
Qed.

#[export] Hint Resolve total_ret total_gets total_modify total_bind total_when total_for_each
  total_random_hex total_attempt total_ignore : total.
#[export] Hint Resolve total_safe safe_fail safe_bind safe_query safe_udp_send : total.

(** ** Running handlers

    Rewriting rules that execute a handler step by step. *)

Lemma bind_val {A B} (m : M A) (f : A -> M B) w a w' :
  m w = (Val a, w') -> (m ≫= f) w = f a w'.
Proof. intros H. unfold mbind, M_bind. by rewrite H. Qed.

Lemma bind_ret {A B} (a : A) (f : A -> M B) w : ((mret a : M A) ≫= f) w = f a w.
Proof. done. Qed.

Lemma bind_fail {A B} (m : M A) (f : A -> M B) w e w' :
  m w = (Fail e, w') -> (m ≫= f) w = (Fail e, w').
Proof. intros H. unfold mbind, M_bind. by rewrite H. Qed.

Lemma bind_assoc {A B C} (m : M A) (f : A -> M B) (g : B -> M C) w :
  ((m ≫= f) ≫= g) w = (m ≫= (fun a => f a ≫= g)) w.
Proof. unfold mbind, M_bind. by destruct (m w) as [[a|e|] w']. Qed.

Lemma bind_gets {A B} (g : World -> A) (f : A -> M B) w : (gets g ≫= f) w = f (g w) w.
Proof. done. Qed.

Lemma bind_modify {B} g (f : unit -> M B) w : (modify g ≫= f) w = f tt (g w).
Proof. done. Qed.

Lemma query_ok {A} (m : M A) w : w_faults w = [] -> query m w = m w.
Proof. intros H. unfold query, fault, mbind, M_bind. by rewrite H. Qed.

Lemma ignore_ok {A} (m : M A) w a w' : m w = (Val a, w') -> ignore m w = (Val tt, w').
Proof. intros H. unfold ignore, attempt, mbind, M_bind. by rewrite H. Qed.

Lemma fault_run w : exists b v, fault w = (Val b, set_faults v w).
Proof.
  unfold fault. destruct (w_faults w) as [|b v] eqn:E; [|eauto].
  exists false, []. by destruct w; cbn in *; subst.
Qed.

(** A read-only query yields its value or an error, and uses up one fault. *)
Lemma query_gets_cases {A} (f : World -> A) w :
  exists v, query (gets f) w = (Val (f (set_faults v w)), set_faults v w) \/
            exists e, query (gets f) w = (Fail e, set_faults v w).
Proof.
  exists (tail (w_faults w)). unfold query, fault, mbind, M_bind.
  destruct (w_faults w) as [|[] v] eqn:E; simpl; [left|by right; eauto|by left].
  replace (set_faults [] w) with w; [done|]. destruct w; simpl in *. by subst.
Qed.

Lemma attempt_query_gets {A} (f : World -> A) w :
  (forall v w, f (set_faults v w) = f w) ->
  exists v r, attempt (query (gets f)) w = (Val r, set_faults v w) /\ (r = None \/ r = Some (f w)).
Proof.
  intros Hf. destruct (query_gets_cases f w) as [v [Hq|[e Hq]]]; unfold attempt; rewrite Hq;
    exists v; eexists; split; [done| |done|]; rewrite ?Hf; auto.
Qed.

(** A write whose error is only logged happens or does not. *)
Lemma ignore_query_write (m : M unit) w :
  (forall w, (m w).1 = Val tt) ->
  exists v, ignore (query m) w = (Val tt, (m (set_faults v w)).2) \/
            ignore (query m) w = (Val tt, set_faults v w).
Proof.
  intros Hm. exists (tail (w_faults w)). unfold ignore, attempt, query, fault, mbind, M_bind.
  destruct (w_faults w) as [|[] v] eqn:E; simpl; [left|by right|left].
  - replace (set_faults [] w) with w by (destruct w; simpl in *; by subst).
    specialize (Hm w). destruct (m w) as [r w']. simpl in Hm. by rewrite Hm.
  - specialize (Hm (set_faults v w)). destruct (m (set_faults v w)) as [r w'].
    simpl in Hm. by rewrite Hm.
Qed.

(** Can the rows be read? *)
Definition readable {A} (rows : World -> list A) (w : World) : bool :=
  w_json_strings w || bool_decide (rows w = []).

Lemma json_rows_run {A} (rows : World -> list A) w :
  w_faults w = [] ->
  json_rows rows w = (if readable rows w then Val (rows w) else Fail "mismatched types", w).
Proof.
  intros Hf. unfold json_rows, readable. erewrite bind_val by by rewrite query_ok. rewrite bind_gets.
  by case_match.
Qed.

(** The rows [enqueue_webhook] adds, when the database answers. *)
Definition enqueued (event : str) (payload : list (str * str)) (w : World) : World :=
  if readable active_webhooks w then
    foldl (fun w h => if bool_decide (event ∈ wh_events h)
                      then insert_delivery (wh_id h) event payload w else w) w (active_webhooks w)
  else w.

Lemma enqueue_run event payload w :
  w_faults w = [] -> ignore (enqueue_webhook event payload) w = (Val tt, enqueued event payload w).
Proof.
  intros Hf. unfold enqueue_webhook, enqueued. pose proof (json_rows_run active_webhooks w Hf) as Hr.
  destruct (readable _ _).
  - eapply ignore_ok. rewrite (bind_val _ _ _ _ _ Hr). clear Hr.
    generalize (active_webhooks w). intros hooks. revert w Hf.
    induction hooks as [|h hooks IH]; intros w Hf; [done|]. cbn [for_each foldl].
    case_match.
    + erewrite bind_val; [|by rewrite query_ok]. by apply IH.
    + erewrite bind_val; [|done]. by apply IH.
  - unfold ignore, attempt, mbind, M_bind. by rewrite Hr.
Qed.

(** Nothing else changes. *)
Lemma enqueued_keeps {T} (f : World -> T) event payload w :
  (forall ds w, f (set_deliveries ds w) = f w) -> f (enqueued event payload w) = f w.
Proof.
  intros Hf. unfold enqueued. case_match; [|done]. generalize (active_webhooks w). intros hooks.
  clear -Hf. revert w. induction hooks as [|h hooks IH]; intros w; [done|]. cbn [foldl]. rewrite IH.
  case_match; [apply Hf|done].
Qed.

(** ** A freshly started server, for examples *)

Definition sample_config : Config := {|
  sip_domain := "sip.example.com"; public_ip := "203.0.113.5"; sip_port := 5060;
  rtp_port_min := 10000; rtp_port_max := 10099;
  conference_rtp_port_min := 10100; conference_rtp_port_max := 10199;
  registration_expires := 3600; nonce_max_age_secs := 300; nonce_secret := "s3cret";
  persist_acl_bans := true; acl_ban_priority := 10; voicemail_access_extension := "*97";
  voicemail_idle_timeout_secs := 30; voicemail_storage_dir := "/var/lib/sip3";
  voicemail_rtp_port_min := 20000; voicemail_rtp_port_max := 20099;
  voicemail_no_answer_secs := 25; voicemail_max_message_secs := 120; api_port := 3000;
  tls_port := 5061; ws_port := 5080; wss_port := 5443; tls_cert := ""; tls_key := "";
  auth_realm := "sip.example.com"; auth_api_key := None; jwt_expiry_secs := 86400;
  turn_realm := ""; turn_secret := "turn-secret"; turn_ttl_secs := 86400; turn_server := "";
  smtp_host := "smtp.example.com"; smtp_from_address := "pbx@example.com" |}.

Definition sample_limits : GuardLimits :=
  {| window_secs := 60; ip_fail_threshold := 5; user_ip_fail_threshold := 3; block_secs := 600 |}.

Definition sample_account (id : Z) (ha1 : str) : Account :=
  {| ac_id := id; ac_password_hash := ""; ac_display_name := None; ac_ha1_hash := Some ha1;
     ac_enabled := 1 |}.

(** Two accounts, a clock in 2023, a database that answers. *)
Definition sample_world : World := {|
  w_now := 1700000000 * 1000000000; w_faults := []; w_random := [];
  w_accounts :=
    {[ ("alice", "sip.example.com") := sample_account 1 "ha1-alice";
       ("bob", "sip.example.com") := sample_account 2 "ha1-bob" ]};
  w_registrations := ∅; w_calls := ∅; w_messages := []; w_presence_subs := ∅;
  w_mwi_subs := ∅; w_voicemail_boxes := []; w_voicemail_messages := []; w_security_events := [];
  w_acl_rows := []; w_webhooks := []; w_deliveries := [];
  w_admin_users := []; w_emails := []; w_greetings := []; w_auth_guard := guard_new sample_limits;
  w_guard := guard_new sample_limits;
  w_invite_guard := guard_new sample_limits; w_pending_dialogs := ∅; w_active_dialogs := ∅;
  w_pending_invites := ∅; w_media_relay := media_relay_new "203.0.113.5" 10000 10099;
  w_other_ports := ∅; w_registry := ∅; w_gateway := ∅; w_gw_port_counter := 0; w_no_answer := ∅;
  w_recording_state := {| recording := ∅; canceled := ∅ |}; w_access_pending := ∅;
  w_voicemail_calls := ∅; w_voicemail_media := ∅; w_vm_port_counter := 0;
  w_conf_rooms := []; w_conf_participants := ∅; w_conf_calls := ∅; w_conf_media := ∅;
  w_conf_port_counter := 0; w_files := ∅; w_tasks := []; w_outbox := [];
  w_posts := []; w_participants_gauge := []; w_json_strings := true |}.

Definition sample_src : SocketAddr := {| ip := V4 198 51 100 7; port := 5062 |}.

(** The message a text parses to. *)
Definition message_of (text : str) : SipMessage :=
  match parse text with
  | Ok m => m
  | Err _ => {| method := None; request_uri := None; status_code := None; headers := ∅;
                body := []; raw := text |}
  end.
