(* ===== verification/Gateway.v ===== *)
(** * The WebRTC gateway

    [backend/src/sip/webrtc_gateway.rs]: the session map, the ports of the SIP side, the
    offer/answer steps and the packets of a session.  The peer connection itself is the [webrtc] crate: what it
    writes into a session description and which answers it takes are the parameters of
    [WebRtc]. *)

From S2P Require Import Prelude RustStr Net Message Sdp Media World.

Open Scope str_scope.
Open Scope Z_scope.

(** The crate, as a function of what distinguishes one connection from the next (the first
    argument: keys, candidates) and of the address announced by the NAT mapping. *)
Class WebRtc := {
  (** the local description after answering a browser's offer *)
  rtc_answer : Z -> str -> str -> bool -> option str;
  (** the local description after making an offer *)
  rtc_offer : Z -> str -> bool -> option str;
  (** does the connection take this answer? *)
  rtc_takes_answer : str -> bool;
}.

Definition all_ports (s : WebRtcSession) : gset Z := list_to_set (gateway_ports s).

Arguments all_ports : simpl never.

(** The next free port from the counter on; each try advances the counter. *)
Fixpoint bind_sip_tries (tries : nat) (lo range counter : Z) (taken : gset Z)
    : option Z * Z :=
  match tries with
  | O => (None, counter)
  | S n =>
      let p := lo + counter mod range in
      let counter := Int.wrap_u32 (counter + 1) in
      if decide (p ∈ taken) then bind_sip_tries n lo range counter taken else (Some p, counter)
  end.

(** [call_id[..call_id.len().min(8)]] panics inside a character: byte 8 of a longer text
    must not continue one. *)
Definition is_char_boundary_8 (s : str) : bool :=
  match s !! 8%nat with
  | Some c => negb ((128 <=? Str.code c) && (Str.code c <? 192))
  | None => true
  end.

Section gateway.
Context (cfg : Config) `{WebRtc}.

(** A bound socket belongs to its receive task; it is one of [w_other_ports] until a
    session that can abort the task is stored. *)
Definition bind_sip_port : M Z := fun w =>
  let range := Int.sat_sub (rtp_port_max cfg) (rtp_port_min cfg) in
  if range =? 0 then (Fail "SIP RTP port range too small for WebRTC gateway", w)
  else
    let '(p, counter) := bind_sip_tries (Z.to_nat range) (rtp_port_min cfg) range
                           (w_gw_port_counter w) (taken_ports w) in
    let w := set_gw_port_counter counter w in
    match p with
    | Some p => (Val p, set_other_ports ({[p]} ∪ w_other_ports w) w)
    | None => (Fail "No available SIP RTP port in range", w)
    end.

Definition build_media_channel : M SipMediaChannel :=
  p ← bind_sip_port; mret {| ch_port := p; sip_peer := None |}.

Definition prepare_session (call_id : str) (with_video : bool)
    : M (SipMediaChannel * option SipMediaChannel) :=
  broken ← fault;
  if broken : bool then fail "peer connection"
  else if negb (is_char_boundary_8 call_id) then panic
  else
    audio ← build_media_channel;
    if with_video then video ← build_media_channel; mret (audio, Some video)
    else mret (audio, None).

(** [sessions.insert]: the tasks of a session that was there keep running. *)
Definition store_session (call_id : str) (s : WebRtcSession) : M unit :=
  modify (fun w =>
    let replaced := from_option all_ports ∅ (w_gateway w !! call_id) in
    set_gateway (<[call_id := s]> (w_gateway w))
      (set_other_ports ((w_other_ports w ∪ replaced) ∖ all_ports s) w)).

Definition create_session (call_id browser_offer_sdp : str) (with_video : bool)
    : M (str * Z * option Z) :=
  '(audio, video) ← prepare_session call_id with_video;
  seed ← random_uint 8;
  match rtc_answer seed (public_ip cfg) browser_offer_sdp with_video with
  | None => fail "WebRTC negotiation failed"
  | Some answer_sdp =>
      now ← gets w_now;
      _ ← store_session call_id {| gw_flow := BrowserCaller; sip_audio := audio;
            sip_video := video; gw_answer_sdp := answer_sdp; gw_created_at := now |};
      mret (answer_sdp, ch_port audio, ch_port <$> video)
  end.

Definition create_session_for_sip_caller (call_id : str) (with_video : bool)
    : M (str * Z * option Z) :=
  '(audio, video) ← prepare_session call_id with_video;
  seed ← random_uint 8;
  match rtc_offer seed (public_ip cfg) with_video with
  | None => fail "WebRTC negotiation failed"
  | Some webrtc_offer_sdp =>
      ts ← unix_secs;
      let sip_answer_sdp := make_plain_rtp_sdp ts (public_ip cfg) (ch_port audio)
                              (ch_port <$> video) in
      now ← gets w_now;
      _ ← store_session call_id {| gw_flow := SipCaller; sip_audio := audio;
            sip_video := video; gw_answer_sdp := sip_answer_sdp; gw_created_at := now |};
      mret (webrtc_offer_sdp, ch_port audio, ch_port <$> video)
  end.

Definition set_peer (addr : SocketAddr) (c : SipMediaChannel) : SipMediaChannel :=
  {| ch_port := ch_port c; sip_peer := Some addr |}.

Definition set_sip_media_peer (call_id : str) (kind : SdpMediaKind) (addr : SocketAddr) : M unit :=
  modify (fun w => set_gateway (alter (fun s =>
    {| gw_flow := gw_flow s;
       sip_audio := match kind with Audio => set_peer addr (sip_audio s) | Video => sip_audio s end;
       sip_video := match kind with
                    | Audio => sip_video s
                    | Video => set_peer addr <$> sip_video s
                    end;
       gw_answer_sdp := gw_answer_sdp s; gw_created_at := gw_created_at s |})
    call_id (w_gateway w)) w).

Definition set_sip_peer (call_id : str) (addr : SocketAddr) : M unit :=
  set_sip_media_peer call_id Audio addr.

Definition set_sip_video_peer (call_id : str) (addr : SocketAddr) : M unit :=
  set_sip_media_peer call_id Video addr.

Definition is_sip_caller_session (call_id : str) : M bool :=
  gets (fun w => from_option (fun s => bool_decide (gw_flow s = SipCaller)) false
                   (w_gateway w !! call_id)).

Definition apply_callee_answer (call_id callee_answer_sdp : str) : M unit :=
  s ← gets (fun w => w_gateway w !! call_id);
  match s with
  | None => mret tt
  | Some s =>
      if decide (gw_flow s = SipCaller) then
        if rtc_takes_answer callee_answer_sdp then mret tt else fail "set_remote_description"
      else mret tt
  end.

Definition get_answer_sdp (call_id : str) : M (option str) :=
  gets (fun w => gw_answer_sdp <$> w_gateway w !! call_id).

(** The removed session's tasks are aborted, which closes its sockets. *)
Definition gateway_remove (call_id : str) : M unit :=
  modify (fun w => set_gateway (delete call_id (w_gateway w)) w).

Definition gateway_cleanup_stale (max_age_secs : Z) : M unit :=
  modify (fun w => set_gateway
    (filter (fun kv => ~ (max_age_secs < elapsed_secs (w_now w) (gw_created_at kv.2)))
       (w_gateway w)) w).
End gateway.

(** ** Facts: ports *)

(** What a session may rely on: its ports are its own. *)
Record gateway_exclusive (w : World) : Prop := {
  ge_own c s : w_gateway w !! c = Some s ->
    NoDup (gateway_ports s) /\ all_ports s ## w_other_ports w ∪ mr_bound (w_media_relay w);
  ge_others c d s t : c <> d -> w_gateway w !! c = Some s -> w_gateway w !! d = Some t ->
    all_ports s ## all_ports t;
}.

(** From [w] to [w'] only the sockets [l] were opened, and no session was touched. *)
Record opened (l : gset Z) (w w' : World) : Prop := {
  op_gateway : w_gateway w' = w_gateway w;
  op_relay : w_media_relay w' = w_media_relay w;
  op_voicemail : w_voicemail_media w' = w_voicemail_media w;
  op_conference : w_conf_media w' = w_conf_media w;
  op_other : w_other_ports w' = l ∪ w_other_ports w;
}.

Lemma opened_refl w : opened ∅ w w.
Proof. split; [done..|set_solver]. Qed.

Lemma opened_trans l l' w w' w'' : opened l w w' -> opened l' w' w'' -> opened (l ∪ l') w w''.
Proof. intros [] []. split; [congruence..|]. set_solver. Qed.

Lemma opened_taken l w w' : opened l w w' -> taken_ports w' = l ∪ taken_ports w.
Proof.
  intros [Hg Hr Hv Hc Ho]. unfold taken_ports, ports_outside_relay, conference_ports.
  rewrite Hg, Hr, Hv, Hc, Ho. set_solver.
Qed.

Lemma gateway_ports_taken w c s : w_gateway w !! c = Some s -> all_ports s ⊆ taken_ports w.
Proof.
  intros Hs. unfold taken_ports, ports_outside_relay, all_ports. intros p Hp.
  apply elem_of_list_to_set in Hp. rewrite !elem_of_union, !elem_of_list_to_set. left. left. right.
  apply list_elem_of_bind. exists (c, s). split; [done|]. by apply elem_of_map_to_list.
Qed.

Lemma bind_sip_tries_free n lo range counter taken p c :
  0 < range -> bind_sip_tries n lo range counter taken = (Some p, c) ->
  p ∉ taken /\ lo <= p < lo + range.
Proof.
  intros Hr. revert counter. induction n as [|n IH]; intros counter; simpl; [done|].
  case_decide; [apply IH|]. intros [= <- _]. split; [done|].
  pose proof (Z.mod_pos_bound counter range Hr). lia.
Qed.

(** Tries that do not wrap around visit every residue once. *)
Lemma bind_sip_tries_complete n lo range counter taken k :
  0 < range -> 0 <= counter -> counter + Z.of_nat n <= 2 ^ 32 ->
  (k < n)%nat -> lo + (counter + Z.of_nat k) mod range ∉ taken ->
  is_Some (bind_sip_tries n lo range counter taken).1.
Proof.
  intros Hr. revert counter k. induction n as [|n IH]; intros counter k H0 Hn Hk Hfree; [lia|].
  simpl. case_decide as Hp; [|done].
  destruct k as [|k]; [by replace (counter + Z.of_nat 0) with counter in Hfree by lia|].
  replace (Int.wrap_u32 (counter + 1)) with (counter + 1)
    by (unfold Int.wrap_u32; symmetry; apply Z.mod_small; lia).
  apply (IH _ k); [lia..|].
  by replace (counter + 1 + Z.of_nat k) with (counter + Z.of_nat (S k)) by lia.
Qed.

Section facts.
Context (cfg : Config) `{!WebRtc}.

Lemma bind_sip_port_spec w :
  match bind_sip_port cfg w with
  | (Val p, w') => p ∉ taken_ports w /\ opened {[p]} w w'
  | (Fail _, w') => opened ∅ w w'
  | (Panicked, _) => False
  end.
Proof.
  unfold bind_sip_port. destruct (_ =? 0) eqn:Hr; [apply opened_refl|].
  destruct (bind_sip_tries _ _ _ _ _) as [[p|] c] eqn:E; [|split; [done..|set_solver]].
  apply bind_sip_tries_free in E; [|unfold Int.sat_sub in *; lia].
  split; [apply E|]. by split.
Qed.

(** What [prepare_session] leaves open: the sockets of the channels it returns, or, when it
    fails, whatever it opened before. *)
Lemma prepare_session_spec cid video w :
  match prepare_session cfg cid video w with
  | (Val (a, v), w') =>
      let ports := ch_port a :: from_option (fun c => [ch_port c]) [] v in
      opened (list_to_set ports) w w' /\ NoDup ports /\ (list_to_set ports : gset Z) ## taken_ports w
  | (_, w') => exists l, opened l w w' /\ l ## taken_ports w
  end.
Proof.
  unfold prepare_session, mbind, M_bind, fault, build_media_channel.
  assert (Hf : forall bs, opened ∅ w (set_faults bs w)) by (split; [done..|set_solver]).
  assert (exists b w0, (match w_faults w with [] => (Val false, w) | b :: bs => (Val b, set_faults bs w)
            end) = (Val b, w0) /\ opened ∅ w w0) as (b & w0 & -> & H0).
  { destruct (w_faults w) as [|b bs]; eauto using opened_refl. }
  destruct b; [exists ∅; split; [done|set_solver]|].
  destruct (negb _); [exists ∅; split; [done|set_solver]|].
  unfold mbind, M_bind. pose proof (bind_sip_port_spec w0) as Ha.
  pose proof (opened_taken _ _ _ H0) as Ht0.
  destruct (bind_sip_port cfg w0) as [[a|e|] w1]; [|exists ∅; split; [|set_solver]|done].
  2: { by apply (opened_trans ∅ ∅ _ _ _ H0) in Ha; rewrite union_empty_l_L in Ha. }
  destruct Ha as [Ha H1]. rewrite Ht0, union_empty_l_L in Ha.
  pose proof (opened_trans _ _ _ _ _ H0 H1) as H01.
  rewrite union_empty_l_L in H01. pose proof (opened_taken _ _ _ H01) as Ht1.
  destruct video; simpl.
  - pose proof (bind_sip_port_spec w1) as Hv.
    destruct (bind_sip_port cfg w1) as [[v|e|] w2]; [|exists {[a]}; split; [|clear -Ha; set_solver]|done].
    + destruct Hv as [Hv H2]. pose proof (opened_trans _ _ _ _ _ H01 H2) as H02. simpl.
      rewrite Ht1 in Hv. rewrite union_empty_r_L. split_and!; [done| |clear -Ha Hv; set_solver].
      apply NoDup_cons. split; [|apply NoDup_singleton].
      intros ->%list_elem_of_singleton. clear -Hv. set_solver.
    + pose proof (opened_trans _ _ _ _ _ H01 Hv) as H02. by rewrite union_empty_r_L in H02.
  - rewrite union_empty_r_L. split_and!; [done|apply NoDup_singleton|clear -Ha; set_solver].
Qed.

(** *** Preservation *)

Lemma exclusive_empty w : w_gateway w = ∅ -> gateway_exclusive w.
Proof. intros Hw. by split; rewrite Hw; intros *; rewrite ?lookup_empty. Qed.

Lemma exclusive_opened l w w' :
  gateway_exclusive w -> opened l w w' -> l ## taken_ports w -> gateway_exclusive w'.
Proof.
  intros [Hown Hoth] Ho Hl. destruct Ho as [Hg Hr Hv _ Hot]. split; rewrite Hg; [|done].
  intros c t Ht. destruct (Hown c t Ht) as [? Hd]. split; [done|]. rewrite Hot, Hr.
  pose proof (gateway_ports_taken w c t Ht) as Hsub. clear -Hd Hl Hsub. set_solver.
Qed.

(** The relay only moves between ports that are not ours. *)
Lemma exclusive_relay r w :
  gateway_exclusive w ->
  (forall p, p ∈ mr_bound r -> p ∈ mr_bound (w_media_relay w) \/ p ∉ ports_outside_relay w) ->
  gateway_exclusive (set_media_relay r w).
Proof.
  intros [Hown Hoth] Hr. split; cbn; [|done].
  intros c t Ht. destruct (Hown c t Ht) as [? Hd]. split; [done|]. intros p Hp.
  assert (Hout : p ∈ ports_outside_relay w).
  { unfold ports_outside_relay. rewrite !elem_of_union. left. right. apply elem_of_list_to_set.
    apply list_elem_of_bind. exists (c, t). split; [|by apply elem_of_map_to_list].
    by apply elem_of_list_to_set in Hp. }
  specialize (Hd p Hp). rewrite elem_of_union in *. intros [Ho|Hb]; [tauto|].
  destruct (Hr p Hb); tauto.
Qed.

Lemma exclusive_delete c w :
  gateway_exclusive w -> gateway_exclusive (set_gateway (delete c (w_gateway w)) w).
Proof.
  intros [Hown Hoth]. split; cbn.
  - intros d t [_ Ht]%lookup_delete_Some. by apply (Hown d).
  - intros d e t u Hne [_ Ht]%lookup_delete_Some [_ Hu]%lookup_delete_Some. by eapply Hoth.
Qed.

Lemma exclusive_filter (P : str * WebRtcSession -> Prop) `{!forall kv, Decision (P kv)} w :
  gateway_exclusive w -> gateway_exclusive (set_gateway (filter P (w_gateway w)) w).
Proof.
  intros [Hown Hoth]. split; cbn.
  - intros d t [Ht _]%map_lookup_filter_Some. by apply (Hown d).
  - intros d e t u Hne [Ht _]%map_lookup_filter_Some [Hu _]%map_lookup_filter_Some.
    by eapply Hoth.
Qed.

Lemma exclusive_peer c kind addr w :
  gateway_exclusive w -> gateway_exclusive (set_sip_media_peer c kind addr w).2.
Proof.
  intros [Hown Hoth].
  assert (Hlook : forall d t, w_gateway (set_sip_media_peer c kind addr w).2 !! d = Some t ->
            exists t0, w_gateway w !! d = Some t0 /\ gateway_ports t = gateway_ports t0).
  { intros d t. cbn. destruct (decide (c = d)) as [->|Hne].
    - rewrite lookup_alter_eq. destruct (w_gateway w !! d) as [t0|]; [|done].
      intros [= <-]. exists t0. split; [done|]. destruct kind, t0 as [? [] [[]|] ? ?]; done.
    - rewrite lookup_alter_ne by done. eauto. }
  split; unfold all_ports in *.
  - intros d t (t0 & Ht0 & ->)%Hlook. by apply (Hown d).
  - intros d e t u Hne (t0 & Ht & ->)%Hlook (u0 & Hu & ->)%Hlook. by eapply (Hoth d e).
Qed.

(** Storing a session whose sockets were opened since [w]. *)
Lemma exclusive_store c t w w1 :
  gateway_exclusive w -> opened (all_ports t) w w1 -> NoDup (gateway_ports t) ->
  all_ports t ## taken_ports w -> gateway_exclusive (store_session c t w1).2.
Proof.
  intros [Hown Hoth] [Hg Hr _ _ Ho] Hnd Hfree.
  assert (Hold : forall d u, w_gateway w !! d = Some u -> all_ports t ## all_ports u).
  { intros d u Hu. pose proof (gateway_ports_taken w d u Hu). set_solver. }
  assert (Hb : all_ports t ## mr_bound (w_media_relay w))
    by (unfold taken_ports in Hfree; clear -Hfree; set_solver).
  split; cbn; rewrite Hg, ?Hr, ?Ho.
  - intros d u [[-> ->]|[Hne Hu]]%lookup_insert_Some.
    + split; [done|]. clear -Hb. set_solver.
    + destruct (Hown d u Hu) as [? Hd]. split; [done|]. specialize (Hold d u Hu).
      assert (Hrep : from_option all_ports ∅ (w_gateway w !! c) ## all_ports u).
      { destruct (w_gateway w !! c) as [v|] eqn:Hc; [|set_solver]. cbn.
        by eapply (Hoth c d). }
      clear -Hd Hold Hrep. set_solver.
  - intros d e u v Hne [[-> ->]|[Hd Hu]]%lookup_insert_Some [[-> ->]|[He Hv']]%lookup_insert_Some.
    + done.
    + by eapply Hold.
    + symmetry. by eapply Hold.
    + by eapply (Hoth d e).
Qed.

Lemma random_uint_opened n w : exists x w', random_uint n w = (Val x, w') /\ opened ∅ w w'.
Proof.
  destruct (total_random_uint n w) as (x & w' & Hx). exists x, w'. split; [done|].
  assert (Hs : forall (T : Type) (f : World -> T), IoFrame (same f) -> f w' = f w).
  { intros T f Hf. pose proof (moves_random_uint (R := same f) n w) as Hm.
    by rewrite Hx in Hm. }
  split; [apply (Hs _ w_gateway)|apply (Hs _ w_media_relay)|apply (Hs _ w_voicemail_media)|
    apply (Hs _ w_conf_media)|
    rewrite union_empty_l_L; apply (Hs _ w_other_ports)]; typeclasses eauto.
Qed.

(** What follows [prepare_session] in both directions: draw the connection's secrets, read
    the description, store the session. *)
Lemma exclusive_negotiate {A} cid video (k : SipMediaChannel * option SipMediaChannel -> M A) w :
  gateway_exclusive w ->
  (forall a v w1, (exists t e, (k (a, v) w1).2 = (store_session cid t e).2 /\ sip_audio t = a /\
                     sip_video t = v /\ opened ∅ w1 e) \/
                  opened ∅ w1 (k (a, v) w1).2) ->
  gateway_exclusive ((prepare_session cfg cid video ≫= k) w).2.
Proof.
  intros Hw Hk. pose proof (prepare_session_spec cid video w) as Hp. unfold mbind, M_bind.
  destruct (prepare_session cfg cid video w) as [[[a v]|e|] w1]; cbn in Hp.
  2-3: destruct Hp as (l & Ho & Hl); by eapply exclusive_opened.
  destruct Hp as (Ho & Hnd & Hfree). destruct (Hk a v w1) as [(t & e & -> & Ha & Hv & He)|He].
  - pose proof (opened_trans _ _ _ _ _ Ho He) as Hoe. rewrite union_empty_r_L in Hoe.
    apply (exclusive_store _ _ w); [done|..]; unfold all_ports, gateway_ports; by rewrite Ha, Hv.
  - pose proof (opened_trans _ _ _ _ _ Ho He) as Hoe. rewrite union_empty_r_L in Hoe.
    by eapply exclusive_opened.
Qed.

Lemma create_exclusive cid offer video w :
  gateway_exclusive w -> gateway_exclusive (create_session cfg cid offer video w).2.
Proof.
  intros Hw. apply exclusive_negotiate; [done|]. intros a v w1.
  destruct (random_uint_opened 8 w1) as (x & w2 & Hx & Ho).
  cbv beta iota. rewrite (bind_val _ _ _ _ _ Hx). destruct (rtc_answer _ _ _ _); [left|by right]. by eexists _, w2.
Qed.

Lemma create_sip_exclusive cid video w :
  gateway_exclusive w -> gateway_exclusive (create_session_for_sip_caller cfg cid video w).2.
Proof.
  intros Hw. apply exclusive_negotiate; [done|]. intros a v w1.
  destruct (random_uint_opened 8 w1) as (x & w2 & Hx & Ho).
  cbv beta iota. rewrite (bind_val _ _ _ _ _ Hx). destruct (rtc_offer _ _ _); [left|by right]. by eexists _, w2.
Qed.

(** Everything that opens or closes a media socket on the calls' side. *)
Inductive port_step : World -> World -> Prop :=
  | port_create cid offer video w : port_step w (create_session cfg cid offer video w).2
  | port_create_sip cid video w : port_step w (create_session_for_sip_caller cfg cid video w).2
  | port_peer cid kind addr w : port_step w (set_sip_media_peer cid kind addr w).2
  | port_remove cid w : port_step w (gateway_remove cid w).2
  | port_cleanup age w : port_step w (gateway_cleanup_stale age w).2
  | port_relay cid media w : port_step w (relay_allocate cid media w).2
  | port_relay_remove cid w : port_step w (relay_remove cid w).2
  | port_relay_cleanup age w :
      port_step w (set_media_relay (cleanup_stale_sessions (w_now w) age (w_media_relay w)) w).

Lemma port_step_exclusive w w' : port_step w w' -> gateway_exclusive w -> gateway_exclusive w'.
Proof.
  destruct 1; intros Hw.
  - by apply create_exclusive.
  - by apply create_sip_exclusive.
  - by apply exclusive_peer.
  - by apply exclusive_delete.
  - by apply exclusive_filter.
  - unfold relay_allocate. destruct (allocate_session_for_media _ _ _ _ _) as [r m] eqn:E.
    apply exclusive_relay; [done|]. intros p Hp.
    eapply (allocate_bound (w_now w) (ports_outside_relay w) cid media). by rewrite E.
  - apply exclusive_relay; [done|]. intros p Hp%remove_bound. by left.
  - apply exclusive_relay; [done|]. intros p Hp%cleanup_bound. by left.
Qed.

(** Calls through the WebRTC gateway never share a media port, neither with each other nor
    with the plain RTP relay, which draws from the same range: whatever sessions are created
    (successfully or not), replaced, hung up and swept, in whatever order with the relay's own
    allocations, the ports of every session stay distinct from those of the other sessions, of
    the relay and of every other open socket. *)
Theorem gateway_ports_exclusive w w' :
  w_gateway w = ∅ -> rtc port_step w w' -> gateway_exclusive w'.
Proof.
  intros Hw%exclusive_empty Hr. induction Hr; eauto using port_step_exclusive.
Qed.

(** *** Sockets that no session owns *)

Lemma negotiate_other {A} cid video (k : SipMediaChannel * option SipMediaChannel -> M A) w :
  (forall a v w1, (exists t e, (k (a, v) w1).2 = (store_session cid t e).2 /\ sip_audio t = a /\
                     sip_video t = v /\ opened ∅ w1 e) \/
                  opened ∅ w1 (k (a, v) w1).2) ->
  w_other_ports w ⊆ w_other_ports ((prepare_session cfg cid video ≫= k) w).2.
Proof.
  intros Hk. pose proof (prepare_session_spec cid video w) as Hp. unfold mbind, M_bind.
  destruct (prepare_session cfg cid video w) as [[[a v]|e|] w1]; cbn in Hp.
  2-3: destruct Hp as (l & [] & Hl); cbn; set_solver.
  destruct Hp as ([_ _ _ _ Ho] & Hnd & Hfree).
  destruct (Hk a v w1) as [(t & e & -> & Ha & Hv & [_ _ _ _ He])|[_ _ _ _ He]]; [|set_solver].
  cbn. unfold all_ports, gateway_ports. rewrite Ha, Hv, He, Ho. cbn.
  unfold taken_ports, ports_outside_relay in Hfree. clear -Hfree. set_solver.
Qed.

Lemma port_step_other w w' : port_step w w' -> w_other_ports w ⊆ w_other_ports w'.
Proof.
  destruct 1; [| |done|done|done|by unfold relay_allocate; case_match|done|done];
    apply negotiate_other; intros a v w1;
    destruct (random_uint_opened 8 w1) as (x & w2 & Hx & Ho);
    cbv beta iota; rewrite (bind_val _ _ _ _ _ Hx); case_match;
    (by right) || (left; by eexists _, w2).
Qed.

(** An offer the WebRTC stack refuses costs its ports for good: the session is not created,
    but the socket bound for it is held by a receive task that nothing aborts, so whatever
    calls follow, its port stays open and belongs to no session. *)
Theorem gateway_refused_offer_leaks cid offer video w w0 a v w' :
  gateway_exclusive w -> prepare_session cfg cid video w = (Val (a, v), w0) ->
  (forall seed, rtc_answer seed (public_ip cfg) offer video = None) ->
  rtc port_step (create_session cfg cid offer video w).2 w' ->
  w_gateway (create_session cfg cid offer video w).2 = w_gateway w /\
  ch_port a ∉ taken_ports w /\ ch_port a ∈ w_other_ports w' /\
  forall c s, w_gateway w' !! c = Some s -> ch_port a ∉ all_ports s.
Proof.
  intros Hw Hp Hno Hr. pose proof (prepare_session_spec cid video w) as Hs. rewrite Hp in Hs.
  cbn in Hs. destruct Hs as (Ho & _ & Hfree).
  destruct (random_uint_opened 8 w0) as (x & w1 & Hx & Ho1).
  assert (Hc : (create_session cfg cid offer video w).2 = w1).
  { unfold create_session. rewrite (bind_val _ _ _ _ _ Hp). cbv beta iota.
    by rewrite (bind_val _ _ _ _ _ Hx), Hno. }
  pose proof (create_exclusive cid offer video w Hw) as Hw1. rewrite Hc in *.
  split; [by rewrite (op_gateway _ _ _ Ho1), (op_gateway _ _ _ Ho)|].
  split; [clear -Hfree; set_solver|].
  assert (Hin : ch_port a ∈ w_other_ports w').
  { assert (Hm : w_other_ports w1 ⊆ w_other_ports w').
    { clear -Hr. induction Hr; [done|]. etrans; [by apply port_step_other|done]. }
    apply Hm. rewrite (op_other _ _ _ Ho1), (op_other _ _ _ Ho). clear. set_solver. }
  split; [done|]. intros c s Hcs Hap.
  assert (Hw' : gateway_exclusive w')
    by (clear -Hr Hw1; induction Hr; eauto using port_step_exclusive).
  destruct (ge_own _ Hw' c s Hcs) as [_ Hd]. apply (Hd (ch_port a)); [done|].
  by apply elem_of_union_l.
Qed.

(** A Call-ID whose ninth byte is inside a character brings the task down. *)
Lemma gateway_call_id_panics cid offer video w :
  w_faults w = [] -> is_char_boundary_8 cid = false ->
  create_session cfg cid offer video w = (Panicked, w).
Proof.
  intros Hf Hb. unfold create_session, prepare_session, fault, mbind, M_bind.
  by rewrite Hf, Hb.
Qed.
End facts.

(** ** Media

    What the tasks of a session do with a packet: the one of a SIP socket writes it to the track
    of its kind, the one of a browser's track sends it to the phone. *)

Inductive MediaOut :=
  | ToTrack (kind : SdpMediaKind) (data : list Z)
  | ToSip (from_port : Z) (dst : SocketAddr) (data : list Z).

Definition update_channel (kind : SdpMediaKind) (f : SipMediaChannel -> SipMediaChannel)
    (s : WebRtcSession) : WebRtcSession :=
  {| gw_flow := gw_flow s;
     sip_audio := match kind with Audio => f (sip_audio s) | Video => sip_audio s end;
     sip_video := match kind with Audio => sip_video s | Video => f <$> sip_video s end;
     gw_answer_sdp := gw_answer_sdp s; gw_created_at := gw_created_at s |}.

Definition channel (kind : SdpMediaKind) (s : WebRtcSession) : option SipMediaChannel :=
  match kind with Audio => Some (sip_audio s) | Video => sip_video s end.

(** A packet at the SIP socket of [kind], when the session has one. *)
Definition sip_rx (kind : SdpMediaKind) (src : SocketAddr) (data : list Z) (s : WebRtcSession)
    : list MediaOut * WebRtcSession :=
  match channel kind s with
  | None => ([], s)
  | Some _ =>
      ([ToTrack kind data],
       update_channel kind (fun c => if bool_decide (sip_peer c = Some src) then c else set_peer src c) s)
  end.

(** A packet of a track of [kind] from the browser; video goes to the audio phone when the
    call has no video. *)
Definition on_track (kind : SdpMediaKind) (data : list Z) (s : WebRtcSession) : list MediaOut :=
  let c := default (sip_audio s) (channel kind s) in
  match sip_peer c with
  | Some addr => if bool_decide (data = []) then [] else [ToSip (ch_port c) addr data]
  | None => []
  end.

Inductive MediaIn :=
  | SipPacket (kind : SdpMediaKind) (src : SocketAddr) (data : list Z)
  | TrackPacket (kind : SdpMediaKind) (data : list Z)
  | PeerSet (kind : SdpMediaKind) (addr : SocketAddr).

Definition media_turn (e : MediaIn) (s : WebRtcSession) : list MediaOut * WebRtcSession :=
  match e with
  | SipPacket kind src data => sip_rx kind src data s
  | TrackPacket kind data => (on_track kind data s, s)
  | PeerSet kind addr => ([], update_channel kind (set_peer addr) s)
  end.

Fixpoint media_run (es : list MediaIn) (s : WebRtcSession) : list MediaOut * WebRtcSession :=
  match es with
  | [] => ([], s)
  | e :: es =>
      let '(out, s) := media_turn e s in
      let '(outs, s) := media_run es s in (out ++ outs, s)
  end.

(** The address a channel has after a history, from what it had before. *)
Definition last_address (kind : SdpMediaKind) (es : list MediaIn) (start : option SocketAddr)
    : option SocketAddr :=
  foldl (fun a e => match e with
    | SipPacket k src _ => if bool_decide (k = kind) then Some src else a
    | PeerSet k addr => if bool_decide (k = kind) then Some addr else a
    | TrackPacket _ _ => a
    end) start es.

(** Setting the peer over the world is the turn [PeerSet] of the session. *)
Lemma set_sip_media_peer_turn cid kind addr w :
  set_sip_media_peer cid kind addr w =
  (Val tt, set_gateway (alter (fun s => (media_turn (PeerSet kind addr) s).2) cid (w_gateway w)) w).
Proof. reflexivity. Qed.

Lemma update_channel_lookup kind f k s :
  channel k (update_channel kind f s) = (if bool_decide (k = kind) then f <$> channel k s else channel k s).
Proof. by destruct kind, k. Qed.

Lemma media_turn_channel e k s c :
  channel k s = Some c ->
  channel k (media_turn e s).2 = Some {| ch_port := ch_port c; sip_peer := last_address k [e] (sip_peer c) |}.
Proof.
  intros Hc. destruct e as [kind src data|kind data|kind addr]; cbn [media_turn snd last_address foldl].
  - unfold sip_rx. destruct (decide (kind = k)) as [->|Hne].
    + rewrite Hc. cbn [snd]. rewrite update_channel_lookup, !bool_decide_eq_true_2, Hc by done. cbn.
      case_bool_decide as Hp; [|done]. rewrite <-Hp. by destruct c.
    + rewrite (bool_decide_eq_false_2 (kind = k)) by done.
      assert (channel k s = Some {| ch_port := ch_port c; sip_peer := sip_peer c |}) as Hc' by (by destruct c).
      case_match; [|done]. cbn [snd]. by rewrite update_channel_lookup, bool_decide_eq_false_2.
  - by destruct c.
  - rewrite update_channel_lookup. destruct (decide (kind = k)) as [->|Hne].
    + by rewrite !bool_decide_eq_true_2, Hc by done.
    + rewrite !bool_decide_eq_false_2, Hc by done. by destruct c.
Qed.

Lemma media_run_channel es k s c :
  channel k s = Some c ->
  channel k (media_run es s).2 = Some {| ch_port := ch_port c; sip_peer := last_address k es (sip_peer c) |}.
Proof.
  revert s c. induction es as [|e es IH]; intros s c Hc; [by destruct c|].
  pose proof (media_turn_channel e k s c Hc) as H1. cbn [media_run].
  destruct (media_turn e s) as [out s1]. cbn [snd] in H1. specialize (IH s1 _ H1).
  destruct (media_run es s1) as [outs s2]. cbn [snd] in *. by rewrite IH.
Qed.

(** The bridge passes media on unchanged, and to whoever spoke last.  After any history of a
    session, a packet at a SIP socket is written to the track of its kind as it is, whoever
    sent it; and a packet of the browser goes to the last address that the channel was told or
    got a packet from, a stranger's as well: one packet to the port takes over the stream. *)
Theorem bridge_follows_last_sender es s c kind data :
  channel kind s = Some c -> data <> [] ->
  let s' := (media_run es s).2 in
  (forall src, (media_turn (SipPacket kind src data) s').1 = [ToTrack kind data]) /\
  (media_turn (TrackPacket kind data) s').1 =
    from_option (fun dst => [ToSip (ch_port c) dst data]) [] (last_address kind es (sip_peer c)) /\
  (forall src, (media_turn (TrackPacket kind data) (media_turn (SipPacket kind src data) s').2).1 =
    [ToSip (ch_port c) src data]).
Proof.
  intros Hc Hd s'. pose proof (media_run_channel es kind s c Hc) as Hs'. fold s' in Hs'. split_and!.
  - intros src. cbn. unfold sip_rx. by rewrite Hs'.
  - cbn. unfold on_track. rewrite Hs'. cbn. destruct (last_address _ _ _); [|done]. cbn.
    by rewrite bool_decide_eq_false_2.
  - intros src. pose proof (media_turn_channel (SipPacket kind src data) kind s' _ Hs') as H1.
    cbn [media_turn fst]. unfold on_track. cbn [media_turn] in H1. rewrite H1. cbn.
    by rewrite bool_decide_eq_true_2, bool_decide_eq_false_2 by done.
Qed.

(** ** Examples *)

(** A stack that answers everything but the offer ["bad"]. *)
Definition toy_webrtc : WebRtc := {|
  rtc_answer _ _ offer _ := if bool_decide (offer = "bad") then None else Some "v=0";
  rtc_offer _ _ _ := Some "v=0";
  rtc_takes_answer _ := true |}.

Definition two_sessions : World :=
  (create_session_for_sip_caller (H := toy_webrtc) sample_config "c2" false
    (create_session (H := toy_webrtc) sample_config "c1" "offer" true sample_world).2).2.

Lemma gateway_ports_exclusive_witness :
  gateway_exclusive two_sessions /\
  (gateway_ports <$> w_gateway two_sessions !! ("c1" : str)) = Some [10000; 10001] /\
  (gateway_ports <$> w_gateway two_sessions !! ("c2" : str)) = Some [10002].
Proof.
  split; [|split; vm_compute; reflexivity].
  apply (@gateway_ports_exclusive sample_config toy_webrtc sample_world two_sessions).
  - reflexivity.
  - eapply rtc_l; [apply (@port_create sample_config toy_webrtc "c1" "offer" true)|].
    eapply rtc_l; [apply (@port_create_sip sample_config toy_webrtc "c2" false)|]. apply rtc_refl.
Defined.

Lemma gateway_refused_offer_leaks_witness :
  let w' := (create_session (H := toy_webrtc) sample_config "c1" "bad" false sample_world).2 in
  w_gateway w' = ∅ /\ 10000 ∈ w_other_ports w'.
Proof.
  intros w'.
  destruct (@gateway_refused_offer_leaks sample_config toy_webrtc "c1" "bad" false sample_world
    (prepare_session sample_config "c1" false sample_world).2
    {| ch_port := 10000; sip_peer := None |} None w') as (Hg & _ & Hin & _).
  - by apply exclusive_empty.
  - vm_compute. reflexivity.
  - reflexivity.
  - apply rtc_refl.
  - by split.
Defined.
