(* ===== verification/VoicemailSdp.v ===== *)
(** * Voicemail SDP negotiation: [backend/src/sip/voicemail_sdp.rs] *)

From S2P Require Import Prelude RustStr Net Message SecurityGuard Acl Sdp Media World.

Open Scope str_scope.
Open Scope Z_scope.

Definition static_pt (c : VoicemailCodec) : Z := match c with Pcmu => 0 | Pcma => 8 end.
Definition rtpmap (c : VoicemailCodec) : str :=
  match c with Pcmu => "PCMU/8000" | Pcma => "PCMA/8000" end.

Record VoicemailNegotiation := {
  codec : VoicemailCodec;
  audio_pt : Z;
  telephone_event_pt : option Z;
}.

(** The variables of the scan over the offer's lines. *)
Record OfferScan := {
  in_audio : bool;
  audio_pts : list Z;
  profile_ok : bool;
  rtpmaps : list (Z * str * Z);
}.

Definition scan_init : OfferScan :=
  {| in_audio := false; audio_pts := []; profile_ok := false; rtpmaps := [] |}.

(** An [m=] line outside the audio section: enter it when it is an audio line. *)
Definition scan_m_line (rest : str) (st : OfferScan) : OfferScan :=
  match Str.split_whitespace rest with
  | kind :: more =>
      if decide (kind = "audio") then
        {| in_audio := true;
           audio_pts := audio_pts st ++ omap Str.parse_u8 (drop 2 more);
           profile_ok := bool_decide (default "" (more !! 1%nat) = "RTP/AVP");
           rtpmaps := rtpmaps st |}
      else st
  | [] => st
  end.

Definition parse_rtpmap (rest : str) : option (Z * str * Z) :=
  let sp := Str.split_whitespace rest in
  pt ← Str.parse_u8 (default "" (sp !! 0%nat));
  let mp := Str.split_char "/" (default "" (sp !! 1%nat)) in
  let name := Str.to_upper (default "" (mp !! 0%nat)) in
  let clock := default 0 (mp !! 1%nat ≫= Str.parse_u32) in
  Some (pt, name, clock).

Fixpoint scan_offer (ls : list str) (st : OfferScan) : OfferScan :=
  match ls with
  | [] => st
  | line :: ls' =>
      let trimmed := Str.trim line in
      match Str.strip_prefix "m=" trimmed with
      | Some rest => if in_audio st then st else scan_offer ls' (scan_m_line rest st)
      | None =>
          if in_audio st then
            match Str.strip_prefix "a=rtpmap:" trimmed ≫= parse_rtpmap with
            | Some m => scan_offer ls' {| in_audio := true; audio_pts := audio_pts st;
                          profile_ok := profile_ok st; rtpmaps := rtpmaps st ++ [m] |}
            | None => scan_offer ls' st
            end
          else scan_offer ls' st
      end
  end.

Definition resolve (maps : list (Z * str * Z)) (pt : Z) : option (str * Z) :=
  match find_first (fun m => m.1.1 =? pt) maps with
  | Some (_, name, clock) =>
      if decide (name = "PCMU") then Some ("PCMU", clock)
      else if decide (name = "PCMA") then Some ("PCMA", clock)
      else if decide (name = "TELEPHONE-EVENT") then Some ("telephone-event", clock)
      else None
  | None => if pt =? 0 then Some ("PCMU", 8000)
            else if pt =? 8 then Some ("PCMA", 8000) else None
  end.

(** The three candidates after one payload type. *)
Definition pick_step (maps : list (Z * str * Z)) (c : option Z * option Z * option Z) (pt : Z)
    : option Z * option Z * option Z :=
  let '(pcmu, pcma, te) := c in
  match resolve maps pt with
  | Some (name, 8000) =>
      if decide (name = "PCMU") then (Some pt, pcma, te)
      else if decide (name = "PCMA") then (pcmu, match pcma with None => Some pt | _ => pcma end, te)
      else (pcmu, pcma, match te with None => Some pt | _ => te end)
  | _ => c
  end.

Definition negotiate_offer (sdp : str) : result VoicemailNegotiation :=
  let st := scan_offer (Str.lines sdp) scan_init in
  if negb (in_audio st) then Err "no m=audio section in offer"
  else if negb (profile_ok st) then Err "audio profile is not RTP/AVP (encrypted-only offer)"
  else
    let '(pcmu, pcma, te) := foldl (pick_step (rtpmaps st)) (None, None, None) (audio_pts st) in
    match pcmu, pcma with
    | Some pt, _ => Ok {| codec := Pcmu; audio_pt := pt; telephone_event_pt := te |}
    | None, Some pt => Ok {| codec := Pcma; audio_pt := pt; telephone_event_pt := te |}
    | None, None => Err "no PCMU or PCMA payload type offered for audio"
    end.

Definition build_answer (public_ip : str) (relay_port : Z) (n : VoicemailNegotiation)
    (session_id : Z) : str :=
  let sid := Str.show_dec session_id in
  let apt := Str.show_dec (audio_pt n) in
  let pts := match telephone_event_pt n with
             | Some d => apt ++ " " ++ Str.show_dec d | None => apt end in
  Str.terminated
    (["v=0"; "o=sip3 " ++ sid ++ " " ++ sid ++ " IN IP4 " ++ public_ip; "s=SIP3 Voicemail";
      "c=IN IP4 " ++ public_ip; "t=0 0";
      "m=audio " ++ Str.show_dec relay_port ++ " RTP/AVP " ++ pts;
      "a=rtpmap:" ++ apt ++ " " ++ rtpmap (codec n)] ++
     match telephone_event_pt n with
     | Some d => ["a=rtpmap:" ++ Str.show_dec d ++ " telephone-event/8000";
                  "a=fmtp:" ++ Str.show_dec d ++ " 0-15"]
     | None => []
     end ++ ["a=ptime:20"; "a=sendrecv"]).

(** ** Facts *)

(** What a successful negotiation knows about its payload types. *)
Definition picked (maps : list (Z * str * Z)) (pts : list Z) (name : str) (o : option Z) : Prop :=
  forall pt, o = Some pt -> pt ∈ pts /\ resolve maps pt = Some (name, 8000).

Lemma resolve_names maps pt name clock :
  resolve maps pt = Some (name, clock) ->
  name = "PCMU" \/ name = "PCMA" \/ name = "telephone-event".
Proof. unfold resolve. intros. repeat (case_match; simplify_eq); auto. Qed.

Lemma pick_step_inv maps pts c pt :
  pt ∈ pts -> picked maps pts "PCMU" c.1.1 -> picked maps pts "PCMA" c.1.2 ->
  picked maps pts "telephone-event" c.2 ->
  let c' := pick_step maps c pt in
  picked maps pts "PCMU" c'.1.1 /\ picked maps pts "PCMA" c'.1.2 /\
  picked maps pts "telephone-event" c'.2.
Proof.
  destruct c as [[pcmu pcma] te]. simpl. intros Hin H1 H2 H3.
  destruct (resolve maps pt) as [[name clock]|] eqn:Er; [|done].
  destruct (decide (clock = 8000)) as [->|Hc].
  2: { by destruct clock as [|p|p]; try done; repeat (destruct p; try done). }
  destruct (resolve_names _ _ _ _ Er) as [->|[->| ->]]; decide_lits; simpl;
    split_and!; try done; intros q Hq; [|destruct pcma|destruct te]; simplify_eq; auto.
Qed.

Lemma pick_foldl_inv maps pts l :
  l ⊆ pts ->
  let c := foldl (pick_step maps) (None, None, None) l in
  picked maps pts "PCMU" c.1.1 /\ picked maps pts "PCMA" c.1.2 /\
  picked maps pts "telephone-event" c.2.
Proof.
  induction l as [|pt l IH] using rev_ind; intros Hl; [done|].
  rewrite foldl_app. simpl. destruct IH as (H1 & H2 & H3); [set_solver|].
  apply pick_step_inv; [set_solver|done..].
Qed.

Definition codec_name (c : VoicemailCodec) : str := match c with Pcmu => "PCMU" | Pcma => "PCMA" end.

Lemma negotiate_offer_sound sdp n :
  negotiate_offer sdp = Ok n ->
  let st := scan_offer (Str.lines sdp) scan_init in
  in_audio st = true /\ profile_ok st = true /\
  picked (rtpmaps st) (audio_pts st) (codec_name (codec n)) (Some (audio_pt n)) /\
  picked (rtpmaps st) (audio_pts st) "telephone-event" (telephone_event_pt n).
Proof.
  unfold negotiate_offer. set (st := scan_offer _ _).
  destruct (in_audio st) eqn:E1; [|done]. destruct (profile_ok st) eqn:E2; [|done]. simpl.
  pose proof (pick_foldl_inv (rtpmaps st) (audio_pts st) (audio_pts st) (reflexivity _)) as Hp.
  destruct (foldl _ _ _) as [[pcmu pcma] te]. simpl in Hp. destruct Hp as (H1 & H2 & H3).
  destruct pcmu as [pt|]; [|destruct pcma as [pt|]; [|done]]; intros [= <-]; done.
Qed.

Lemma scan_m_line_u8 rest st :
  Forall Int.is_u8 (audio_pts st) -> Forall Int.is_u8 (audio_pts (scan_m_line rest st)).
Proof.
  intros Hst. unfold scan_m_line. repeat case_match; simpl; try done.
  apply Forall_app. split; [done|]. apply Forall_forall. intros v (x & _ & Hv)%list_elem_of_omap.
  by apply (Str.parse_radix_bounds 10) in Hv.
Qed.

Lemma scan_offer_u8 ls st :
  Forall Int.is_u8 (audio_pts st) -> Forall Int.is_u8 (audio_pts (scan_offer ls st)).
Proof.
  revert st. induction ls as [|l ls IH]; intros st Hst; [done|]. cbn [scan_offer].
  repeat case_match; try done; apply IH; try done. by apply scan_m_line_u8.
Qed.

Lemma no_ws_show n : no_ws (Str.show_dec n).
Proof. apply Str.show_dec_no_ws. Qed.
#[local] Hint Resolve no_ws_show Str.show_dec_nonempty : sip3.

Lemma parse_u8_show n : Int.is_u8 n -> Str.parse_u8 (Str.show_dec n) = Some n.
Proof. intros Hn. by apply Str.parse_show_dec. Qed.

Lemma parse_rtpmap_show pt name :
  Int.is_u8 pt -> no_ws name -> name <> [] -> "/"%char ∉ name ->
  parse_rtpmap (Str.show_dec pt ++ " " ++ name ++ "/8000") = Some (pt, Str.to_upper name, 8000).
Proof.
  intros Hpt Hn Hne Hs. unfold parse_rtpmap.
  change (" " ++ ?x) with (Str.SP :: x). rewrite words_cons by auto with sip3.
  rewrite words_single; [|apply Forall_app; split; [done|by_decide]|by destruct name].
  cbn [lookup list_lookup default]. unfold default, id. rewrite parse_u8_show by done.
  rewrite Some_bind. change (name ++ "/8000") with (name ++ "/"%char :: "8000").
  by rewrite Str.split_char_app.
Qed.

(** Lines that the scan walks over. *)
Lemma scan_other line ls st :
  Str.strip_prefix "m=" (Str.trim line) = None ->
  in_audio st = false \/ Str.strip_prefix "a=rtpmap:" (Str.trim line) = None ->
  scan_offer (line :: ls) st = scan_offer ls st.
Proof.
  intros H1 H2. cbn [scan_offer]. rewrite H1. destruct (in_audio st); [|done].
  by destruct H2 as [H2|H2]; [|rewrite H2].
Qed.

Lemma scan_m rest ls st :
  Str.trim ("m=" ++ rest) = "m=" ++ rest -> in_audio st = false ->
  scan_offer (("m=" ++ rest) :: ls) st = scan_offer ls (scan_m_line rest st).
Proof. intros Ht Ha. cbn [scan_offer]. by rewrite Ht, Str.strip_prefix_app, Ha. Qed.

Lemma scan_rtpmap rest m ls st :
  Str.trim ("a=rtpmap:" ++ rest) = "a=rtpmap:" ++ rest -> parse_rtpmap rest = Some m ->
  in_audio st = true ->
  scan_offer (("a=rtpmap:" ++ rest) :: ls) st =
  scan_offer ls {| in_audio := true; audio_pts := audio_pts st; profile_ok := profile_ok st;
                   rtpmaps := rtpmaps st ++ [m] |}.
Proof.
  intros Ht Hm Ha. cbn [scan_offer]. rewrite Ht, Ha, Str.strip_prefix_app, Some_bind, Hm. done.
Qed.

Lemma scan_m_audio p pts st :
  Forall Int.is_u8 pts -> pts <> [] ->
  let rest := "audio " ++ Str.show_dec p ++ " RTP/AVP " ++ Str.join " " (map Str.show_dec pts) in
  Str.trim ("m=" ++ rest) = "m=" ++ rest /\
  scan_m_line rest st = {| in_audio := true; audio_pts := audio_pts st ++ pts;
                           profile_ok := true; rtpmaps := rtpmaps st |}.
Proof.
  intros Hpts Hne rest. split.
  - destruct pts as [|x pts _] using rev_ind; [done|]. unfold rest. rewrite map_app. simpl map.
    assert (exists y, Str.join " " (map Str.show_dec pts ++ [Str.show_dec x]) = y ++ Str.show_dec x)
      as [y ->].
    { clear. induction (map Str.show_dec pts) as [|a l [y IH]]; [by exists []|].
      cbn [app]. rewrite Str.join_cons_nonempty by by destruct l. rewrite IH.
      exists (a ++ " " ++ y). by rewrite <-!app_assoc. }
    rewrite !app_assoc. apply Str.trim_app_no_ws; auto with sip3.
  - unfold rest, scan_m_line. change ("audio " ++ ?x) with ("audio" ++ Str.SP :: x).
    rewrite words_cons by (done || by_decide).
    change (" RTP/AVP " ++ ?x) with (Str.SP :: "RTP/AVP" ++ Str.SP :: x).
    rewrite words_cons by auto with sip3. rewrite words_cons by (done || by_decide).
    rewrite decide_True by done. cbn [drop lookup list_lookup default]. f_equal.
    assert (omap Str.parse_u8 (Str.split_whitespace (Str.join " " (map Str.show_dec pts))) = pts)
      as Hw.
    { clear rest. induction Hpts as [|x l Hx Hl IH]; [done|]. destruct l as [|y l].
      - cbn [map Str.join]. rewrite words_single by auto with sip3. cbn [omap list_omap].
        by rewrite parse_u8_show.
      - cbn [map]. rewrite Str.join_cons_nonempty by done. change (" " ++ ?x) with (Str.SP :: x).
        rewrite words_cons by auto with sip3. cbn [omap list_omap]. rewrite parse_u8_show by done.
        f_equal. by apply IH. }
    by f_equal.
Qed.

Definition te_list (n : VoicemailNegotiation) : list Z := option_list (telephone_event_pt n).

Definition answer_maps (n : VoicemailNegotiation) : list (Z * str * Z) :=
  (audio_pt n, codec_name (codec n), 8000) ::
  map (fun d => (d, "TELEPHONE-EVENT", 8000)) (te_list n).

Lemma scan_rtpmap_show pt name ls st :
  Int.is_u8 pt -> no_ws name -> name <> [] -> "/"%char ∉ name -> in_audio st = true ->
  scan_offer (("a=rtpmap:" ++ Str.show_dec pt ++ " " ++ name ++ "/8000") :: ls) st =
  scan_offer ls {| in_audio := true; audio_pts := audio_pts st; profile_ok := profile_ok st;
                   rtpmaps := rtpmaps st ++ [(pt, Str.to_upper name, 8000)] |}.
Proof.
  intros Hpt Hn Hne Hs Ha. apply scan_rtpmap; [|by apply parse_rtpmap_show|done].
  change (" " ++ name ++ "/8000") with (" " ++ (name ++ "/8000")). rewrite !app_assoc.
  rewrite <-(app_assoc _ name). apply (Str.trim_app_no_ws "a"); [done| |by destruct name].
  apply Forall_app. split; [done|by_decide].
Qed.

Definition answer_lines (ip : str) (p : Z) (n : VoicemailNegotiation) (sid : Z) : list str :=
  let s := Str.show_dec sid in
  "v=0" :: ("o=sip3 " ++ s ++ " " ++ s ++ " IN IP4 " ++ ip) :: "s=SIP3 Voicemail" ::
  ("c=IN IP4 " ++ ip) :: "t=0 0" ::
  ("m=" ++ "audio " ++ Str.show_dec p ++ " RTP/AVP " ++
     Str.join " " (map Str.show_dec (audio_pt n :: te_list n))) ::
  ("a=rtpmap:" ++ Str.show_dec (audio_pt n) ++ " " ++ codec_name (codec n) ++ "/8000") ::
  concat (map (fun d => ["a=rtpmap:" ++ Str.show_dec d ++ " " ++ "telephone-event" ++ "/8000";
                         "a=fmtp:" ++ Str.show_dec d ++ " 0-15"]) (te_list n)) ++
  ["a=ptime:20"; "a=sendrecv"].

Lemma build_answer_lines ip p n sid :
  build_answer ip p n sid = Str.terminated (answer_lines ip p n sid).
Proof.
  unfold build_answer, answer_lines, te_list. by destruct n as [[] apt [d|]].
Qed.

Lemma answer_lines_no_lf ip p n sid :
  Str.LF ∉ ip -> Forall (fun l => Str.LF ∉ l) (answer_lines ip p n sid).
Proof.
  intros Hip. assert (forall m, Str.LF ∉ Str.show_dec m) as Hd.
  { intros m. by apply Str.show_dec_not_elem. }
  unfold answer_lines, te_list. destruct n as [[] apt [d|]]; simpl;
    repeat (apply Forall_cons; split); try apply Forall_nil; try done;
    rewrite ?elem_of_cons, ?elem_of_app, ?elem_of_cons; set_solver.
Qed.

Lemma scan_answer ip p n sid :
  no_ws ip -> ip <> [] -> Int.is_u8 (audio_pt n) -> Forall Int.is_u8 (te_list n) ->
  scan_offer (answer_lines ip p n sid) scan_init =
  {| in_audio := true; audio_pts := audio_pt n :: te_list n; profile_ok := true;
     rtpmaps := answer_maps n |}.
Proof.
  intros Hip Hne Ha Ht.
  assert (forall s t, Str.trim ("o=sip3 " ++ s ++ " " ++ t ++ " IN IP4 " ++ ip) =
                      "o=sip3 " ++ s ++ " " ++ t ++ " IN IP4 " ++ ip) as Ho.
  { intros s t. rewrite !app_assoc. by apply (Str.trim_app_no_ws "o"). }
  assert (Str.trim ("c=IN IP4 " ++ ip) = "c=IN IP4 " ++ ip) as Hc
    by by apply (Str.trim_app_no_ws "c").
  assert (forall d, Str.trim ("a=fmtp:" ++ Str.show_dec d ++ " 0-15") =
                    "a=fmtp:" ++ Str.show_dec d ++ " 0-15") as Hf.
  { intros d. change (" 0-15") with (" " ++ "0-15"). rewrite !app_assoc.
    apply (Str.trim_app_no_ws "a"); by_decide || done. }
  destruct (scan_m_audio p (audio_pt n :: te_list n) scan_init) as [Hm1 Hm2]; [by constructor|done|].
  unfold answer_lines. cbv zeta. rewrite scan_other; [|done|by left].
  rewrite scan_other; [|by rewrite Ho|by left].
  rewrite scan_other; [|done|by left]. rewrite scan_other; [|by rewrite Hc|by left].
  rewrite scan_other; [|done|by left].
  rewrite scan_m, Hm2 by done.
  rewrite scan_rtpmap_show by (done || by destruct (codec n); by_decide).
  unfold answer_maps. destruct (te_list n) as [|d l] eqn:El.
  - cbn [map concat app]. do 2 (rewrite scan_other; [|done|by right]).
    by destruct (codec n).
  - apply Forall_cons in Ht as [Hd _].
    destruct l as [|]; [|by unfold te_list in El; destruct (telephone_event_pt n)].
    match goal with |- scan_offer (_ ++ ?t) _ = _ => change (scan_offer (_ ++ t)) with
      (scan_offer (("a=rtpmap:" ++ Str.show_dec d ++ " " ++ "telephone-event" ++ "/8000") ::
        ("a=fmtp:" ++ Str.show_dec d ++ " 0-15") :: t)) end.
    rewrite scan_rtpmap_show by (done || by_decide).
    rewrite scan_other; [|by rewrite Hf|right; by rewrite Hf].
    do 2 (rewrite scan_other; [|done|by right]). by destruct (codec n).
Qed.

(** The answer the voicemail endpoint sends is itself an acceptable offer, and it
    negotiates to exactly the payload types that were agreed, whatever offer led to it.
    (The caller who negotiates on the answer ends up with the codec, the audio payload
    type and the telephone-event payload type that the server will use.) *)
Theorem negotiate_answer_stable offer n ip p sid :
  negotiate_offer offer = Ok n -> no_ws ip -> ip <> [] ->
  negotiate_offer (build_answer ip p n sid) = Ok n.
Proof.
  intros Hn Hip Hne. pose proof (negotiate_offer_sound _ _ Hn) as (_ & _ & Ha & Ht).
  pose proof (scan_offer_u8 (Str.lines offer) scan_init (Forall_nil_2 _)) as Hu.
  rewrite Forall_forall in Hu.
  destruct (Ha _ eq_refl) as [Hain Har].
  assert (Forall Int.is_u8 (te_list n)) as Htu.
  { unfold te_list. destruct (telephone_event_pt n) as [d|]; [|constructor].
    constructor; [|constructor]. by apply Hu, Ht. }
  assert (forall d, telephone_event_pt n = Some d -> d <> audio_pt n) as Hneq.
  { intros d Hd ->. destruct (Ht _ Hd) as [_ Htr]. rewrite Har in Htr. by destruct (codec n). }
  unfold negotiate_offer. rewrite build_answer_lines.
  rewrite <-(app_nil_r (Str.terminated _)), Str.lines_terminated.
  2: { apply answer_lines_no_lf. intros Hin. unfold no_ws in Hip. rewrite Forall_forall in Hip.
       by apply Hip in Hin. }
  rewrite Str.lines_nil, app_nil_r, scan_answer by (done || by apply Hu). cbn [in_audio profile_ok].
  cbn [negb audio_pts rtpmaps foldl]. unfold answer_maps, te_list.
  destruct n as [c apt te]. cbn [codec audio_pt telephone_event_pt] in *.
  assert (forall maps, resolve ((apt, codec_name c, 8000) :: maps) apt = Some (codec_name c, 8000))
    as Hr1 by (intros maps; unfold resolve; cbn; rewrite Z.eqb_refl; by destruct c).
  unfold pick_step at 2. rewrite Hr1.
  destruct te as [d|]; cbn [option_list map foldl].
  - specialize (Hneq _ eq_refl). unfold pick_step.
    assert (resolve [(apt, codec_name c, 8000); (d, "TELEPHONE-EVENT", 8000)] d =
            Some ("telephone-event", 8000)) as Hr2.
    { unfold resolve. cbn [find_first fst]. rewrite (proj2 (Z.eqb_neq apt d)) by congruence.
      by rewrite Z.eqb_refl. }
    by destruct c; cbn [codec_name] in Hr2; cbn -[resolve]; rewrite Hr2.
  - by destruct c.
Qed.

Definition sample_offer : str := Str.terminated
  ["v=0"; "c=IN IP4 10.0.0.9"; "m=audio 4000 RTP/AVP 96 8 101"; "a=rtpmap:96 opus/48000/2";
   "a=rtpmap:101 telephone-event/8000"].

Lemma negotiate_answer_stable_witness :
  negotiate_offer (build_answer "203.0.113.5" 20000
    {| codec := Pcma; audio_pt := 8; telephone_event_pt := Some 101 |} 7) =
  Ok {| codec := Pcma; audio_pt := 8; telephone_event_pt := Some 101 |}.
Proof.
  apply (negotiate_answer_stable sample_offer); [vm_compute; reflexivity|by_decide|by_decide].
Defined.
