(* ===== verification/VoicemailMedia.v ===== *)
(** * Voicemail media: [backend/src/sip/voicemail_media.rs]

    RTP packets, DTMF, the media registry, the recording loop and playback.  Bytes
    are integers from 0 to 255. *)

From S2P Require Import Prelude RustStr Net Message SecurityGuard Acl G711 Storage Sdp Media.
From S2P Require Import World.

Open Scope str_scope.
Open Scope Z_scope.

Definition SAMPLE_RATE : Z := 8000.
Definition SAMPLES_PER_FRAME : nat := 160.
Definition RTP_HEADER_LEN : nat := 12.
Definition MAX_RECORD_SAMPLES : Z := 10000000.

(** ** DTMF *)

Inductive VoicemailDtmf := One | Two | Seven | Nine | Pound | Star | Digit (d : ascii).

Definition dtmf_of_signal (v : str) : option VoicemailDtmf :=
  if decide (v = "1") then Some One
  else if decide (v = "2") then Some Two
  else if decide (v = "7") then Some Seven
  else if decide (v = "9") then Some Nine
  else if decide (v = "#") then Some Pound
  else if decide (v = "*") then Some Star
  else match v with
       | [d] => if Str.is_digit d then Some (Digit d) else None
       | _ => None
       end.

Definition parse_dtmf_relay (body : str) : option VoicemailDtmf :=
  find_map (fun line =>
    '(name, value) ← Str.split_once "=" line;
    if Str.eq_ignore_case (Str.trim name) "Signal" then dtmf_of_signal (Str.trim value)
    else None) (Str.lines body).

Definition rtp_dtmf_is_end (payload : list Z) : bool :=
  (4 <=? length payload)%nat &&
  negb (Z.land (default 0 (payload !! 1%nat)) 128 =? 0).

Definition dtmf_from_rtp_event (event : Z) : option VoicemailDtmf :=
  if event =? 1 then Some One
  else if event =? 2 then Some Two
  else if event =? 7 then Some Seven
  else if event =? 9 then Some Nine
  else if event =? 10 then Some Star
  else if event =? 11 then Some Pound
  else None.

(** ** RTP packets *)

(** [to_be_bytes] *)
Definition be_bytes (n : nat) (z : Z) : list Z := reverse (le_bytes n z).

Definition build_rtp_packet (pt seq ts ssrc : Z) (payload : list Z) : list Z :=
  [128; Z.land pt 127] ++ be_bytes 2 seq ++ be_bytes 4 ts ++ be_bytes 4 ssrc ++ payload.

Definition rtp_payload_offset (packet : list Z) : option nat :=
  let b0 := default 0 (packet !! 0%nat) in
  if (length packet <? RTP_HEADER_LEN)%nat || negb (Z.shiftr b0 6 =? 2) then None
  else
    let cc := Z.to_nat (Z.land b0 15) in
    let offset := (RTP_HEADER_LEN + 4 * cc)%nat in
    if (length packet <? offset)%nat then None
    else if Z.land b0 16 =? 0 then Some offset
    else
      let header_end := (offset + 4)%nat in
      if (length packet <? header_end)%nat then None
      else
        let ext_words := Z.to_nat (256 * default 0 (packet !! (offset + 2)%nat) +
                                   default 0 (packet !! (offset + 3)%nat)) in
        let offset := (header_end + 4 * ext_words)%nat in
        if (length packet <? offset)%nat then None else Some offset.

Definition validated_rtp_packet (s : VmSession) (packet : list Z) : option (Z * nat) :=
  payload_offset ← rtp_payload_offset packet;
  if (length packet <=? payload_offset)%nat then None
  else
    let pt := Z.land (default 0 (packet !! 1%nat)) 127 in
    if negb (pt =? vs_audio_pt s) && negb (bool_decide (Some pt = vs_telephone_event_pt s))
    then None else Some (pt, payload_offset).

(** The peer after a packet from [src], and whether the packet is accepted. *)
Definition learn_or_verify_peer (peer : option SocketAddr) (src : SocketAddr)
    : bool * option SocketAddr :=
  match peer with
  | Some existing => (bool_decide (existing = src), peer)
  | None => (true, Some src)
  end.

Definition validate_payload_type (pt : Z) : bool := pt <=? 127.

Definition max_record_samples (max_secs : Z) : result Z :=
  if max_secs =? 0 then Err "voicemail max recording duration must be positive"
  else
    let samples := max_secs * SAMPLE_RATE in
    if MAX_RECORD_SAMPLES <? samples then Err "voicemail max recording duration exceeds samples"
    else Ok samples.

Definition duration_secs (samples : nat) : Z :=
  let secs := (Z.of_nat samples + (SAMPLE_RATE - 1)) / SAMPLE_RATE in
  if secs <=? Int.u32_max then secs else Int.u32_max.

(** ** Recording

    The loop of [record_to_storage] on what the socket delivers: at each turn the
    clock, whether the session is still active, and the outcome of the receive. *)

Inductive Recv :=
  | RecvPacket (packet : list Z) (src : SocketAddr)
  | RecvTimeout
  | RecvErr.

Record RecTurn := {
  rt_active : bool;
  rt_now : Z;
  rt_recv : Recv;
  rt_after : Z;
}.

Record RecState := {
  rec_samples : list Z;
  rec_last_activity : Z;
  rec_peer : option SocketAddr;
}.

Definition decode_payload (c : VoicemailCodec) (payload : list Z) : list Z :=
  match c with Pcmu => decode_ulaw payload | Pcma => decode_alaw payload end.

(** One packet: [None] stops the recording. *)
Definition record_packet (s : VmSession) (max_samples : nat) (after : Z) (packet : list Z)
    (src : SocketAddr) (st : RecState) : option RecState :=
  match validated_rtp_packet s packet with
  | None => Some st
  | Some (pt, off) =>
      let '(ok, peer) := learn_or_verify_peer (rec_peer st) src in
      let st := {| rec_samples := rec_samples st; rec_last_activity := rec_last_activity st;
                   rec_peer := peer |} in
      if negb ok then Some st
      else
        let payload := drop off packet in
        if bool_decide (Some pt = vs_telephone_event_pt s) then
          if rtp_dtmf_is_end payload &&
             match dtmf_from_rtp_event (default 0 (payload !! 0%nat)) with
             | Some Pound => true | _ => false end
          then None
          else Some {| rec_samples := rec_samples st; rec_last_activity := after;
                       rec_peer := peer |}
        else if negb (pt =? vs_audio_pt s) then Some st
        else
          let pcm := decode_payload (vs_codec s) payload in
          if bool_decide (pcm = []) then Some st
          else
            let remaining := (max_samples - length (rec_samples st))%nat in
            Some {| rec_samples := rec_samples st ++ take remaining pcm;
                    rec_last_activity := after; rec_peer := peer |}
  end.

(** [Err] is a socket error; the samples are kept otherwise.  Times are seconds. *)
Fixpoint record_loop (s : VmSession) (max_samples : nat) (started max_secs idle_secs : Z)
    (turns : list RecTurn) (st : RecState) : result RecState :=
  match turns with
  | [] => Ok st
  | t :: turns' =>
      if negb (rt_active t) || (max_samples <=? length (rec_samples st))%nat then Ok st
      else if (0 <? max_secs) && (max_secs <=? rt_now t - started) then Ok st
      else if (0 <? idle_secs) && (idle_secs <=? rt_now t - rec_last_activity st) then Ok st
      else match rt_recv t with
        | RecvErr => Err "recv error"
        | RecvTimeout => record_loop s max_samples started max_secs idle_secs turns' st
        | RecvPacket packet src =>
            match record_packet s max_samples (rt_after t) packet src st with
            | None => Ok st
            | Some st' => record_loop s max_samples started max_secs idle_secs turns' st'
            end
        end
  end.

(** The samples [record_to_storage] writes, and the duration it reports; [peer] is the peer the
    session has already, from a greeting that was played. *)
Definition record_samples (s : VmSession) (peer : option SocketAddr) (max_secs idle_secs started : Z)
    (turns : list RecTurn) : result (list Z * Z) :=
  max_samples ← max_record_samples max_secs;
  st ← record_loop s (Z.to_nat max_samples) started max_secs idle_secs turns
         {| rec_samples := []; rec_last_activity := started; rec_peer := peer |};
  Ok (rec_samples st, duration_secs (length (rec_samples st))).

(** ** Playback *)

Definition encode_frame (c : VoicemailCodec) (frame : list Z) : list Z :=
  match c with Pcmu => encode_ulaw frame | Pcma => encode_alaw frame end.

(** [wav.samples.chunks(SAMPLES_PER_FRAME)], the last one padded with silence. *)
Fixpoint frames (fuel : nat) (samples : list Z) : list (list Z) :=
  match fuel, samples with
  | S fuel', _ :: _ =>
      let chunk := take SAMPLES_PER_FRAME samples in
      (chunk ++ replicate (SAMPLES_PER_FRAME - length chunk) 0) ::
      frames fuel' (drop SAMPLES_PER_FRAME samples)
  | _, _ => []
  end.

Fixpoint play_packets (s : VmSession) (ssrc seq ts : Z) (fs : list (list Z)) : list (list Z) :=
  match fs with
  | [] => []
  | f :: fs' =>
      build_rtp_packet (vs_audio_pt s) seq ts ssrc (encode_frame (vs_codec s) f) ::
      play_packets s ssrc (Int.wrap_u16 (seq + 1))
        (Int.wrap_u32 (ts + Z.of_nat SAMPLES_PER_FRAME)) fs'
  end.

(** What [play_wav] sends while the session stays active. *)
Definition play_wav_packets (s : VmSession) (ssrc seq ts : Z) (wav : DecodedWav)
    : result (list (list Z)) :=
  if negb (sample_rate wav =? SAMPLE_RATE) then Err "voicemail WAV sample rate must be 8000 Hz"
  else Ok (play_packets s ssrc seq ts (frames (length (samples wav)) (samples wav))).

(** The waiting before the first frame: five seconds, in turns that end with a packet, after a
    quarter of a second or with an error.  [None]: it is still waiting. *)
Definition PLAY_PEER_WAIT : Z := 5 * 1000000000.

Fixpoint wait_loop (s : VmSession) (deadline : Z) (turns : list RecTurn) (peer : option SocketAddr)
    : option (result SocketAddr * option SocketAddr) :=
  match turns with
  | [] => None
  | t :: turns =>
      if negb (rt_active t) then Some (Err "voicemail media session was removed", peer)
      else if deadline <=? rt_now t then Some (Err "timed out waiting for voicemail RTP peer", peer)
      else match rt_recv t with
        | RecvErr => Some (Err "recv error", peer)
        | RecvTimeout => wait_loop s deadline turns peer
        | RecvPacket packet src =>
            match validated_rtp_packet s packet with
            | None => wait_loop s deadline turns peer
            | Some _ =>
                let '(ok, peer) := learn_or_verify_peer peer src in
                if ok : bool then Some (Ok src, peer) else wait_loop s deadline turns peer
            end
        end
  end.

Definition wait_for_peer (s : VmSession) (now : Z) (turns : list RecTurn) (peer : option SocketAddr)
    : option (result SocketAddr * option SocketAddr) :=
  match peer with
  | Some p => Some (Ok p, peer)
  | None => wait_loop s (now + PLAY_PEER_WAIT) turns peer
  end.

(** What is in the socket between two frames: the last source that is accepted, and the peer. *)
Definition refresh_peer_nonblocking (s : VmSession) (queue : list (list Z * SocketAddr))
    (peer : option SocketAddr) : option SocketAddr * option SocketAddr :=
  foldl (fun '(latest, peer) '(packet, src) =>
    match validated_rtp_packet s packet with
    | None => (latest, peer)
    | Some _ =>
        let '(ok, peer) := learn_or_verify_peer peer src in
        (if ok : bool then Some src else latest, peer)
    end) (None, peer) queue.

(** What a frame meets: is the session active, what is in the socket, can the frame be sent? *)
Record PlayTurn := {
  pl_active : bool;
  pl_queue : list (list Z * SocketAddr);
  pl_sends : bool;
}.

(** The loop over the frames: the packets with where they went. *)
Fixpoint play_loop (s : VmSession) (ssrc seq ts : Z) (env : nat -> PlayTurn) (i : nat)
    (fs : list (list Z)) (dst : SocketAddr) (peer : option SocketAddr)
    : list (list Z * SocketAddr) * result unit :=
  match fs with
  | [] => ([], Ok tt)
  | f :: fs =>
      if negb (pl_active (env i)) then ([], Ok tt)
      else
        let '(updated, peer) := refresh_peer_nonblocking s (pl_queue (env i)) peer in
        let dst := default dst updated in
        let packet := build_rtp_packet (vs_audio_pt s) seq ts ssrc (encode_frame (vs_codec s) f) in
        if negb (pl_sends (env i)) then ([], Err "send error")
        else
          let '(sent, r) := play_loop s ssrc (Int.wrap_u16 (seq + 1))
                              (Int.wrap_u32 (ts + Z.of_nat SAMPLES_PER_FRAME)) env (S i) fs dst peer in
          ((packet, dst) :: sent, r)
  end.

(** [play_wav] after the file is read. *)
Definition play_to_peer (s : VmSession) (ssrc seq ts : Z) (wav : DecodedWav) (now : Z)
    (turns : list RecTurn) (env : nat -> PlayTurn) (peer : option SocketAddr)
    : option (list (list Z * SocketAddr) * result unit) :=
  if negb (sample_rate wav =? SAMPLE_RATE)
  then Some ([], Err "voicemail WAV sample rate must be 8000 Hz")
  else
    match wait_for_peer s now turns peer with
    | None => None
    | Some (Err e, _) => Some ([], Err e)
    | Some (Ok dst, peer) =>
        Some (play_loop s ssrc seq ts env 0 (frames (length (samples wav)) (samples wav)) dst peer)
    end.

(** ** The media registry *)

Section registry.
Context (cfg : Config).

(** The first port of the range, from the counter on, that binds. *)
Definition bind_socket : M (result Z) := fun w =>
  let lo := voicemail_rtp_port_min cfg in
  let hi := voicemail_rtp_port_max cfg in
  if lo =? 0 then (Val (Err "voicemail RTP port range cannot start at 0"), w)
  else if hi <? lo then (Val (Err "voicemail RTP port range is invalid"), w)
  else
    let range := hi - lo + 1 in
    let start := w_vm_port_counter w mod range in
    let w' := set_vm_port_counter (Int.wrap_u32 (w_vm_port_counter w + 1)) w in
    match find_first (fun p => negb (bool_decide (p ∈ taken_ports w)))
            (map (fun i => lo + (start + Z.of_nat i) mod range) (seq 0 (Z.to_nat range))) with
    | Some p => (Val (Ok p), w')
    | None => (Val (Err "no available voicemail RTP port in range"), w')
    end.

Definition media_allocate (call_id : str) (codec : VoicemailCodec) (audio_pt : Z)
    (te_pt : option Z) : M (result Z) :=
  if negb (validate_payload_type audio_pt) || negb (from_option validate_payload_type true te_pt)
  then mret (Err "RTP payload type must be in 0..=127")
  else
    bound ← bind_socket;
    match bound with
    | Err e => mret (Err e)
    | Ok port =>
        existing ← gets (fun w => w_voicemail_media w !! call_id);
        match existing with
        | Some _ => mret (Err "voicemail media call id already exists")
        | None =>
            _ ← modify (fun w => set_voicemail_media (<[call_id := {| vs_port := port;
                  vs_codec := codec; vs_audio_pt := audio_pt; vs_telephone_event_pt := te_pt |}]>
                  (w_voicemail_media w)) w);
            mret (Ok port)
        end
    end.

Definition media_remove (call_id : str) : M unit :=
  modify (fun w => set_voicemail_media (delete call_id (w_voicemail_media w)) w).
End registry.

(** ** Facts: packets *)

Lemma be_bytes_length n z : length (be_bytes n z) = n.
Proof. unfold be_bytes. rewrite length_reverse. revert z. by induction n; intros; simpl; auto. Qed.

Lemma build_rtp_packet_header pt seq ts ssrc payload :
  exists h, build_rtp_packet pt seq ts ssrc payload = 128 :: Z.land pt 127 :: h ++ payload /\
            length h = 10%nat.
Proof.
  exists (be_bytes 2 seq ++ be_bytes 4 ts ++ be_bytes 4 ssrc). unfold build_rtp_packet.
  rewrite <-!app_assoc. split; [done|]. by rewrite !length_app, !be_bytes_length.
Qed.

Lemma land_127_small pt : 0 <= pt <= 127 -> Z.land pt 127 = pt.
Proof. intros. change 127 with (Z.ones 7). rewrite Z.land_ones by lia. apply Z.mod_small. lia. Qed.

Lemma rtp_payload_offset_build pt seq ts ssrc payload :
  rtp_payload_offset (build_rtp_packet pt seq ts ssrc payload) = Some RTP_HEADER_LEN /\
  drop RTP_HEADER_LEN (build_rtp_packet pt seq ts ssrc payload) = payload.
Proof.
  destruct (build_rtp_packet_header pt seq ts ssrc payload) as (h & -> & Hh). split.
  - unfold rtp_payload_offset, RTP_HEADER_LEN. cbn [length lookup list_lookup default].
    rewrite length_app, Hh.
    by repeat (rewrite (proj2 (Nat.ltb_ge _ _)) by (cbn; lia); cbn -[Nat.ltb]).
  - unfold RTP_HEADER_LEN. cbn [drop]. rewrite drop_app_length' by done. done.
Qed.

(** A packet built for a payload type of the session is accepted by the receiving
    side, which reads back the payload type and the very payload that was sent. *)
Lemma rtp_packet_roundtrip s pt seq ts ssrc payload :
  0 <= pt <= 127 -> pt = vs_audio_pt s \/ vs_telephone_event_pt s = Some pt -> payload <> [] ->
  let packet := build_rtp_packet pt seq ts ssrc payload in
  validated_rtp_packet s packet = Some (pt, RTP_HEADER_LEN) /\
  drop RTP_HEADER_LEN packet = payload.
Proof.
  intros Hpt Hs Hp. assert (0 < length payload)%nat as Hlen by (destruct payload; [done|simpl; lia]).
  intros packet. destruct (rtp_payload_offset_build pt seq ts ssrc payload) as [Ho Hd].
  split; [|done]. unfold validated_rtp_packet. fold packet in Ho. rewrite Ho, Some_bind.
  unfold packet. destruct (build_rtp_packet_header pt seq ts ssrc payload) as (h & -> & Hh).
  change (default 0 ((128 :: Z.land pt 127 :: h ++ payload) !! 1%nat)) with (Z.land pt 127).
  cbn [length]. rewrite length_app, Hh. rewrite !(land_127_small pt) by done.
  rewrite (proj2 (Nat.leb_gt _ _)) by (unfold RTP_HEADER_LEN; lia).
  destruct Hs as [->|Hs]; [by rewrite Z.eqb_refl|].
  rewrite Hs, bool_decide_eq_true_2 by done. by rewrite andb_false_r.
Qed.

Definition sample_session : VmSession :=
  {| vs_port := 20000; vs_codec := Pcmu; vs_audio_pt := 0; vs_telephone_event_pt := Some 101 |}.

(** Whatever arrives, the offset stays inside the packet and the type in seven bits. *)
Lemma validated_rtp_packet_bounds s packet pt off :
  validated_rtp_packet s packet = Some (pt, off) -> (off < length packet)%nat.
Proof.
  unfold validated_rtp_packet. destruct (rtp_payload_offset packet) as [o|]; [|done].
  rewrite Some_bind. destruct (length packet <=? o)%nat eqn:E; [done|].
  apply Nat.leb_gt in E. case_match; naive_solver.
Qed.

(** ** Facts: recording *)

(** The payloads that made it into a recording. *)
Definition contribution (s : VmSession) (turns : list RecTurn) (src : SocketAddr)
    (payload : list Z) : Prop :=
  exists t packet off, t ∈ turns /\ rt_recv t = RecvPacket packet src /\
    validated_rtp_packet s packet = Some (vs_audio_pt s, off) /\ payload = drop off packet.

Definition recorded (s : VmSession) (peer : option SocketAddr) (n : nat) (turns : list RecTurn)
    (st : RecState) : Prop :=
  (is_Some peer -> rec_peer st = peer) /\
  match rec_peer st with
  | None => rec_samples st = []
  | Some src => exists payloads, Forall (contribution s turns src) payloads /\
      rec_samples st = take n (concat (map (decode_payload (vs_codec s)) payloads))
  end.

Lemma take_app_take {A} n (xs ys : list A) :
  take n xs ++ take (n - length (take n xs)) ys = take n (xs ++ ys).
Proof.
  rewrite take_app, length_take. f_equal. destruct (decide (n <= length xs)%nat).
  - by replace (n - _)%nat with 0%nat by lia; replace (n - length xs)%nat with 0%nat by lia.
  - f_equal. lia.
Qed.

Lemma take_take_app {A} n (xs ys : list A) : take n (take n xs ++ ys) = take n (xs ++ ys).
Proof.
  rewrite !take_app, take_take, length_take, Nat.min_id. f_equal. f_equal. lia.
Qed.

Lemma record_packet_peer s n now packet src st st' :
  record_packet s n now packet src st = Some st' -> is_Some (rec_peer st) -> rec_peer st' = rec_peer st.
Proof.
  unfold record_packet, learn_or_verify_peer. intros Hp [p Hq]. revert Hp. rewrite Hq.
  repeat case_match; intros; simplify_eq/=; congruence.
Qed.

Lemma record_packet_inv s peer n turns t packet src st st' :
  t ∈ turns -> rt_recv t = RecvPacket packet src -> recorded s peer n turns st ->
  record_packet s n (rt_after t) packet src st = Some st' -> recorded s peer n turns st'.
Proof.
  intros Ht Hr [Hpeer Hst] Hstep. split.
  { intros Hs. specialize (Hpeer Hs). rewrite (record_packet_peer _ _ _ _ _ _ _ Hstep); [done|].
    by rewrite Hpeer. }
  revert Hstep. unfold record_packet. clear Hpeer.
  destruct (validated_rtp_packet s packet) as [[pt off]|] eqn:Ev; [|by intros [= <-]].
  assert (forall p ok, learn_or_verify_peer (rec_peer st) src = (ok, p) ->
    match p with
    | None => rec_samples st = []
    | Some src0 => (ok = true -> src0 = src) /\ exists payloads,
        Forall (contribution s turns src0) payloads /\
        rec_samples st = take n (concat (map (decode_payload (vs_codec s)) payloads))
    end) as Hl.
  { unfold learn_or_verify_peer. intros p ok. revert Hst.
    destruct (rec_peer st) as [e|]; intros Hst [= <- <-].
    - split; [|done]. intros. by bool_simpl.
    - split; [done|]. exists []. split; [constructor|]. cbn. by rewrite take_nil. }
  destruct (learn_or_verify_peer (rec_peer st) src) as [ok p] eqn:El.
  specialize (Hl _ _ eq_refl). cbn [rec_samples rec_peer].
  assert (match p with
          | None => rec_samples st = []
          | Some src0 => exists payloads, Forall (contribution s turns src0) payloads /\
              rec_samples st = take n (concat (map (decode_payload (vs_codec s)) payloads))
          end) as Hkeep by (destruct p; naive_solver).
  destruct ok; cbn [negb]; [|by intros [= <-]].
  destruct (bool_decide _); [destruct (rtp_dtmf_is_end _ && _); [done|by intros [= <-]]|].
  destruct (pt =? vs_audio_pt s) eqn:Ept; cbn [negb]; [|by intros [= <-]].
  destruct (bool_decide _); intros [= <-]; [done|]. cbn [rec_samples rec_peer].
  destruct p as [src0|]; [|by destruct (rec_peer st)].
  destruct Hl as [Hsrc (ps & Hps & Hs)]. rewrite (Hsrc eq_refl) in *. bool_simpl. subst pt.
  exists (ps ++ [drop off packet]). split.
  - apply Forall_app. split; [done|]. constructor; [|constructor]. by exists t, packet, off.
  - rewrite Hs, map_app, concat_app. cbn [map concat]. rewrite app_nil_r. apply take_app_take.
Qed.

Lemma record_loop_inv s peer n started max_secs idle_secs all turns st st' :
  turns ⊆ all -> recorded s peer n all st ->
  record_loop s n started max_secs idle_secs turns st = Ok st' -> recorded s peer n all st'.
Proof.
  revert st. induction turns as [|t turns IH]; intros st Hsub Hst; [by intros [= <-]|].
  cbn [record_loop].
  destruct (negb (rt_active t) || _)%bool; [by intros [= <-]|].
  destruct ((0 <? max_secs) && _)%bool; [by intros [= <-]|].
  destruct ((0 <? idle_secs) && _)%bool; [by intros [= <-]|].
  destruct (rt_recv t) as [packet src| |] eqn:Er; [|apply IH; [set_solver|done]|done].
  destruct (record_packet _ _ _ _ _ _) as [st1|] eqn:Ep; [|by intros [= <-]].
  apply IH; [set_solver|]. eapply record_packet_inv; [|exact Er|exact Hst|exact Ep]. set_solver.
Qed.

Lemma max_record_samples_Ok secs n :
  0 <= secs -> max_record_samples secs = Ok n -> 0 < n <= MAX_RECORD_SAMPLES /\ n = secs * 8000.
Proof.
  intros Hs. unfold max_record_samples, SAMPLE_RATE. repeat case_match; try done. bool_simpl.
  intros [= <-]. lia.
Qed.

(** C29: a finished recording is never longer than the mailbox allows, and everything in
    it was sent by one peer: the samples are the decoded audio payloads of packets that
    arrived from a single address, in order, cut at the limit; when the session has a peer
    already, that is the address. *)
Theorem recording_bounded_single_peer s peer max_secs idle_secs started turns xs d :
  0 <= max_secs ->
  record_samples s peer max_secs idle_secs started turns = Ok (xs, d) ->
  0 <= d <= max_secs /\
  (xs = [] \/ exists src payloads, (is_Some peer -> peer = Some src) /\
     Forall (contribution s turns src) payloads /\
     xs = take (Z.to_nat (max_secs * 8000))
            (concat (map (decode_payload (vs_codec s)) payloads))).
Proof.
  unfold record_samples. intros Hs.
  destruct (max_record_samples max_secs) as [n|e] eqn:En; [|done].
  apply max_record_samples_Ok in En as [Hn ->]; [|done]. unfold MAX_RECORD_SAMPLES in Hn.
  cbn [mbind result_bind]. destruct (record_loop _ _ _ _ _ _ _) as [st|e] eqn:El; [|done].
  intros [= <- <-]. apply (record_loop_inv _ peer _ _ _ _ turns) in El as [Hpeer El]; [|done|].
  2: { split; [done|]. cbn. destruct peer; [|done]. exists []. cbn. by rewrite take_nil. }
  assert (length (rec_samples st) <= Z.to_nat (max_secs * 8000))%nat as Hlen.
  { destruct (rec_peer st); [destruct El as (ps & _ & ->)|rewrite El; simpl; lia].
    rewrite length_take. lia. }
  split.
  - clear El Hpeer. unfold duration_secs, SAMPLE_RATE, Int.u32_max. case_match; bool_simpl; div_lia.
  - destruct (rec_peer st) as [src|]; [|by left]. right. destruct El as (ps & Hps & E). exists src, ps.
    split_and!; [|done..]. intros Hsome. by rewrite <-(Hpeer Hsome).
Qed.

(** ** Facts: playback *)

Lemma frames_concat fuel xs :
  (length xs <= fuel)%nat -> exists pad, concat (frames fuel xs) = xs ++ replicate pad 0.
Proof.
  revert xs. induction fuel as [|fuel IH]; intros [|x xs] Hl;
    [by exists 0%nat|simpl in Hl; lia|by exists 0%nat|].
  cbn [frames concat]. destruct (decide (length (x :: xs) <= SAMPLES_PER_FRAME)%nat) as [Hle|Hgt].
  - rewrite drop_ge by done. exists (SAMPLES_PER_FRAME - length (x :: xs))%nat.
    rewrite take_ge by done. replace (frames fuel []) with (@nil (list Z)) by by destruct fuel.
    by rewrite app_nil_r.
  - destruct (IH (drop SAMPLES_PER_FRAME (x :: xs))) as [pad Hp].
    { rewrite length_drop. unfold SAMPLES_PER_FRAME in *. simpl in *. lia. }
    exists pad. rewrite Hp, length_take_le by lia. rewrite Nat.sub_diag, app_nil_r, app_assoc.
    by rewrite take_drop.
Qed.

Lemma frames_nonempty fuel xs : Forall (fun f => f <> []) (frames fuel xs).
Proof.
  revert xs. induction fuel as [|fuel IH]; intros [|x xs]; cbn [frames]; constructor; [done|apply IH].
Qed.

Definition packets_from (src : SocketAddr) (now : Z) (packets : list (list Z)) : list RecTurn :=
  map (fun p => {| rt_active := true; rt_now := now; rt_recv := RecvPacket p src;
                   rt_after := now |}) packets.

Lemma record_play s n max_secs idle_secs now src ssrc sq ts fs st :
  0 <= vs_audio_pt s <= 127 -> vs_telephone_event_pt s <> Some (vs_audio_pt s) -> 0 < max_secs ->
  Forall (fun f => f <> []) fs -> rec_last_activity st = now ->
  rec_peer st = None \/ rec_peer st = Some src ->
  exists st', record_loop s n now max_secs idle_secs
      (packets_from src now (play_packets s ssrc sq ts fs)) st = Ok st' /\
    ((length (rec_samples st) <= n)%nat -> rec_samples st' =
       take n (rec_samples st ++ concat (map (fun f => decode_payload (vs_codec s)
         (encode_frame (vs_codec s) f)) fs))).
Proof.
  intros Hpt Hte Hmax Hfs. revert sq ts st. induction Hfs as [|f fs Hf _ IH]; intros sq ts st Hla Hpeer.
  { exists st. split; [done|]. intros. cbn. by rewrite app_nil_r, take_ge. }
  cbn [play_packets packets_from map record_loop rt_active rt_now rt_recv negb orb rt_after].
  destruct (n <=? length (rec_samples st))%nat eqn:En.
  { apply Nat.leb_le in En. exists st. split; [done|]. intros Hle.
    rewrite take_app_le by lia. by rewrite take_ge by lia. }
  rewrite Hla, Z.sub_diag, (proj2 (Z.leb_gt max_secs 0)), andb_false_r by lia.
  assert ((0 <? idle_secs) && (idle_secs <=? 0) = false) as -> by (destruct (Z.ltb_spec 0 idle_secs);
    [by rewrite (proj2 (Z.leb_gt idle_secs 0)) by lia|done]).
  set (payload := encode_frame (vs_codec s) f).
  assert (payload <> []) as Hp by (unfold payload, encode_frame; destruct f, (vs_codec s); done).
  destruct (rtp_packet_roundtrip s (vs_audio_pt s) sq ts ssrc payload) as [Hv Hd]; [done|by left|done|].
  assert (learn_or_verify_peer (rec_peer st) src = (true, Some src)) as Hl.
  { unfold learn_or_verify_peer. destruct Hpeer as [->| ->]; [done|]. by rewrite bool_decide_eq_true_2. }
  unfold record_packet. rewrite Hv, Hl, Hd. cbn [negb rec_samples rec_last_activity].
  rewrite bool_decide_eq_false_2 by congruence. rewrite Z.eqb_refl. cbn [negb].
  rewrite bool_decide_eq_false_2 by (unfold decode_payload; destruct payload, (vs_codec s); done).
  match goal with |- exists st', record_loop _ _ _ _ _ (map _ (play_packets _ _ ?q ?t _)) ?st1 = _ /\ _ =>
    destruct (IH q t st1) as (st' & Hst' & Hs'); [done|by right|] end.
  exists st'. split; [exact Hst'|]. intros Hle. cbn [rec_samples] in Hs'. rewrite Hs'.
  - rewrite <-app_assoc. cbn [map concat]. fold payload.
    etrans; [apply take_app|]. etrans; [|symmetry; apply take_app]. f_equal. apply take_take_app.
  - rewrite length_app, length_take. lia.
Qed.

(** What a G.711 hop does to a sample. *)
Definition through_codec (c : VoicemailCodec) (x : Z) : Z :=
  match c with
  | Pcmu => ulaw_to_linear (linear_to_ulaw x)
  | Pcma => alaw_to_linear (linear_to_alaw x)
  end.

Lemma decode_encode_frame c f : decode_payload c (encode_frame c f) = map (through_codec c) f.
Proof.
  destruct c; cbn; unfold decode_ulaw, encode_ulaw, decode_alaw, encode_alaw; by rewrite map_map.
Qed.

(** What the server plays, a recorder of the same session gets: recording the packets
    of a played message yields the message, each sample through one G.711 hop, followed by
    the silence that fills the last frame, cut at the recording limit. *)
Theorem play_record_roundtrip s peer ssrc sq ts wav packets max_secs idle_secs now src :
  peer = None \/ peer = Some src ->
  0 <= vs_audio_pt s <= 127 -> vs_telephone_event_pt s <> Some (vs_audio_pt s) ->
  0 < max_secs -> max_secs * 8000 <= MAX_RECORD_SAMPLES ->
  play_wav_packets s ssrc sq ts wav = Ok packets ->
  exists pad d,
    record_samples s peer max_secs idle_secs now (packets_from src now packets) =
    Ok (take (Z.to_nat (max_secs * 8000))
          (map (through_codec (vs_codec s)) (samples wav ++ replicate pad 0)), d).
Proof.
  intros Hpeer Hpt Hte Hmax Hlim. unfold play_wav_packets. case_match; [done|]. intros [= <-].
  unfold record_samples, max_record_samples, SAMPLE_RATE.
  rewrite (proj2 (Z.eqb_neq max_secs 0)), (proj2 (Z.ltb_ge _ _)) by lia.
  cbn [mbind result_bind].
  destruct (record_play s (Z.to_nat (max_secs * 8000)) max_secs idle_secs now src ssrc sq ts
    (frames (length (samples wav)) (samples wav))
    {| rec_samples := []; rec_last_activity := now; rec_peer := peer |})
    as (st & -> & Hst); [done..|apply frames_nonempty|done|done|].
  destruct (frames_concat (length (samples wav)) (samples wav)) as [pad Hpad]; [done|].
  exists pad, (duration_secs (length (rec_samples st))). rewrite <-Hpad, concat_map.
  change (Ok st ≫= ?f) with (f st). cbv beta. f_equal. f_equal.
  rewrite Hst by (simpl; lia). cbn [rec_samples app]. do 2 f_equal. apply map_ext.
  intros. apply decode_encode_frame.
Qed.

Definition sample_wav : DecodedWav := {| sample_rate := 8000; samples := [100; -200; 30000] |}.

Lemma play_record_roundtrip_witness :
  exists pad d, record_samples sample_session None 1 0 5 (packets_from sample_src 5
    (play_packets sample_session 9 65535 0 (frames 3 (samples sample_wav)))) =
  Ok (take (Z.to_nat 8000) (map (through_codec Pcmu) ([100; -200; 30000] ++ replicate pad 0)), d).
Proof.
  apply (play_record_roundtrip sample_session None 9 65535 0 sample_wav _ 1 0 5 sample_src);
    [by left|by_decide|by_decide|lia|by_decide|reflexivity].
Defined.

Lemma recording_bounded_single_peer_witness :
  exists xs d, record_samples sample_session None 1 0 5 (packets_from sample_src 5
    [build_rtp_packet 0 1 0 9 [255; 127]]) = Ok (xs, d) /\ 0 <= d <= 1.
Proof.
  exists [0; 0], 1. assert (record_samples sample_session None 1 0 5 (packets_from sample_src 5
    [build_rtp_packet 0 1 0 9 [255; 127]]) = Ok ([0; 0], 1)) as E by (vm_compute; reflexivity).
  split; [exact E|]. exact (proj1 (recording_bounded_single_peer _ _ 1 _ _ _ _ _ ltac:(lia) E)).
Defined.

(** ** Facts: the peer of a playback *)

(** Once a peer is known, packets of others change nothing and those of the peer confirm it. *)
Lemma refresh_peer_known s queue p :
  exists latest, refresh_peer_nonblocking s queue (Some p) = (latest, Some p) /\ default p latest = p.
Proof.
  unfold refresh_peer_nonblocking. match goal with |- context [foldl ?g _ _] => set (f := g) end.
  assert (forall l, default p l = p -> exists latest,
    foldl f (l, Some p) queue = (latest, Some p) /\ default p latest = p) as H; [|by apply H].
  induction queue as [|[packet src] queue IH]; intros l Hl; [by exists l|]. cbn [foldl]. unfold f at 2. cbn.
  destruct (validated_rtp_packet s packet); [|by apply IH]. case_bool_decide; subst; by apply IH.
Qed.

(** The wait ends at its deadline at the latest; who is found sent a packet of the session. *)
Lemma wait_loop_ends s deadline turns peer t :
  t ∈ turns -> deadline <= rt_now t -> is_Some (wait_loop s deadline turns peer).
Proof.
  intros Ht Hd. revert peer. induction Ht as [t turns|u t turns Ht IH]; intros peer; cbn [wait_loop].
  - destruct (rt_active t); [|by eexists]. cbn. rewrite (proj2 (Z.leb_le _ _)) by done. by eexists.
  - repeat case_match; eauto.
Qed.

Lemma wait_for_peer_found s now turns peer dst peer' :
  wait_for_peer s now turns peer = Some (Ok dst, peer') ->
  peer' = Some dst /\ (peer = Some dst \/ peer = None /\ exists t packet, t ∈ turns /\ rt_active t = true /\
    rt_now t < now + PLAY_PEER_WAIT /\ rt_recv t = RecvPacket packet dst /\
    is_Some (validated_rtp_packet s packet)).
Proof.
  unfold wait_for_peer. destruct peer as [p|]; [intros [= <- <-]; auto|].
  intros H. enough (peer' = Some dst /\ exists t packet, t ∈ turns /\ rt_active t = true /\
    rt_now t < now + PLAY_PEER_WAIT /\ rt_recv t = RecvPacket packet dst /\
    is_Some (validated_rtp_packet s packet)) by naive_solver.
  induction turns as [|t turns IH]; [done|]. cbn [wait_loop] in H.
  assert (wait_loop s (now + PLAY_PEER_WAIT) turns None = Some (Ok dst, peer') -> peer' = Some dst /\
    exists u packet, u ∈ t :: turns /\ rt_active u = true /\ rt_now u < now + PLAY_PEER_WAIT /\
      rt_recv u = RecvPacket packet dst /\ is_Some (validated_rtp_packet s packet)) as Hrest.
  { intros (? & u & packet & ? & Hu)%IH. split; [done|]. exists u, packet. split; [by right|done]. }
  destruct (rt_active t) eqn:Ea; [|done]. cbn [negb] in H. destruct (Z.leb_spec (now + PLAY_PEER_WAIT) (rt_now t)); [done|].
  destruct (rt_recv t) as [packet src| |] eqn:Er; [|by apply Hrest|done].
  destruct (validated_rtp_packet s packet) eqn:Ev; [|by apply Hrest]. cbn in H. injection H as <- <-.
  split; [done|]. exists t, packet. rewrite Ev. split_and!; [by left|done..].
Qed.

(** The frames of a playback: a prefix of them when the session ends or a send fails, all of
    them otherwise, and every one to the same address whatever else arrives meanwhile. *)
Lemma play_loop_single_peer s ssrc sq ts env i fs p :
  exists k, (play_loop s ssrc sq ts env i fs p (Some p)).1 =
      map (fun packet => (packet, p)) (take k (play_packets s ssrc sq ts fs)) /\
    ((forall j, pl_active (env j) = true /\ pl_sends (env j) = true) ->
     k = length fs /\ (play_loop s ssrc sq ts env i fs p (Some p)).2 = Ok tt).
Proof.
  revert sq ts i. induction fs as [|f fs IH]; intros sq ts i; [by exists 0%nat|]. cbn [play_loop play_packets].
  destruct (pl_active (env i)) eqn:Ea; cbn [negb]; [|exists 0%nat; split; [done|]; intros Hall; by destruct (Hall i) as [? _]; congruence].
  destruct (refresh_peer_known s (pl_queue (env i)) p) as (latest & -> & ->).
  destruct (pl_sends (env i)) eqn:Es; cbn [negb]; [|exists 0%nat; split; [done|]; intros Hall; by destruct (Hall i) as [_ ?]; congruence].
  destruct (IH (Int.wrap_u16 (sq + 1)) (Int.wrap_u32 (ts + Z.of_nat SAMPLES_PER_FRAME)) (S i)) as (k & Hk & Hall).
  destruct (play_loop _ _ _ _ _ _ _ _ _) as [sent r]. cbn [fst snd] in *. exists (S k). split.
  - cbn [take map]. by rewrite Hk.
  - intros H. destruct (Hall H) as [-> ->]. done.
Qed.

(** A playback is heard by one listener only.  Whatever arrives at the socket before and while a
    message is played, all frames go to one address: the peer the session has, or else the
    source of a well-formed packet of the session that came within five seconds; they are the
    frames of the message in order, and all of them when the session stays active. *)
Theorem playback_single_listener s ssrc sq ts wav now turns env peer sent r :
  play_to_peer s ssrc sq ts wav now turns env peer = Some (sent, r) -> sent <> [] ->
  exists p packets k, play_wav_packets s ssrc sq ts wav = Ok packets /\
    sent = map (fun packet => (packet, p)) (take k packets) /\
    (peer = Some p \/ peer = None /\ exists t packet, t ∈ turns /\ rt_active t = true /\
       rt_now t < now + PLAY_PEER_WAIT /\ rt_recv t = RecvPacket packet p /\
       is_Some (validated_rtp_packet s packet)) /\
    ((forall j, pl_active (env j) = true /\ pl_sends (env j) = true) -> sent = map (fun packet => (packet, p)) packets).
Proof.
  unfold play_to_peer, play_wav_packets. case_match; [by intros [= <- <-]|].
  destruct (wait_for_peer s now turns peer) as [[[p|e] peer']|] eqn:Ew; [|by intros [= <- <-]|done].
  apply wait_for_peer_found in Ew as [-> Hp]. intros [= E] _.
  destruct (play_loop_single_peer s ssrc sq ts env 0 (frames (length (samples wav)) (samples wav)) p)
    as (k & Hk & Hall). rewrite E in Hk, Hall. cbn [fst snd] in *.
  eexists p, _, k. split_and!; [done..|]. intros H'. destruct (Hall H') as [-> _]. rewrite Hk. f_equal.
  apply take_ge. clear. generalize (frames (length (samples wav)) (samples wav)). intros fs.
  revert sq ts. induction fs as [|f fs IH]; intros; cbn; [done|]. specialize (IH (Int.wrap_u16 (sq + 1))
    (Int.wrap_u32 (ts + Z.of_nat SAMPLES_PER_FRAME))). lia.
Qed.

(** ** Facts: the registry *)

(** The ports tried are all those of the range, each once. *)
Lemma tried_ports lo hi start p :
  lo <= hi -> p ∈ map (fun i => lo + (start + Z.of_nat i) mod (hi - lo + 1))
                   (seq 0 (Z.to_nat (hi - lo + 1))) <-> lo <= p <= hi.
Proof.
  intros Hr. set (r := hi - lo + 1). rewrite list_elem_of_In, in_map_iff. split.
  - intros (i & <- & _). pose proof (Z.mod_pos_bound (start + Z.of_nat i) r). lia.
  - intros Hp. exists (Z.to_nat ((p - lo - start) mod r)).
    pose proof (Z.mod_pos_bound (p - lo - start) r ltac:(lia)). split.
    + rewrite Z2Nat.id by lia. rewrite Zplus_mod_idemp_r.
      replace (start + (p - lo - start)) with (p - lo) by lia. rewrite Z.mod_small by lia. lia.
    + apply in_seq. lia.
Qed.

Section registry_facts.
Context (cfg : Config).

(** Voicemail media is allocated exactly when it can be: with valid payload types, a
    non-empty port range and no session of the same call, [allocate] succeeds if and only
    if some port of the range is free, and the port it binds and records is such a port,
    held by no relay stream and no other voicemail session. *)
Theorem media_allocate_complete cid c apt te w :
  0 < voicemail_rtp_port_min cfg <= voicemail_rtp_port_max cfg ->
  validate_payload_type apt = true -> from_option validate_payload_type true te = true ->
  w_voicemail_media w !! cid = None ->
  let out := media_allocate cfg cid c apt te w in
  let free p := voicemail_rtp_port_min cfg <= p <= voicemail_rtp_port_max cfg /\ p ∉ taken_ports w in
  ((exists p, out.1 = Val (Ok p)) <-> (exists p, free p)) /\
  forall p, out.1 = Val (Ok p) -> free p /\ w_voicemail_media out.2 =
    <[cid := {| vs_port := p; vs_codec := c; vs_audio_pt := apt; vs_telephone_event_pt := te |}]>
      (w_voicemail_media w).
Proof.
  intros Hr Ha Ht Hn. unfold media_allocate. rewrite Ha, Ht. cbn [negb orb].
  unfold mbind, M_bind, bind_socket.
  rewrite (proj2 (Z.eqb_neq _ 0)), (proj2 (Z.ltb_ge _ _)) by lia.
  match goal with |- context [find_first ?f ?l] => destruct (find_first f l) as [q|] eqn:Ef end.
  - apply find_first_Some in Ef as [Hq Hfree]. apply tried_ports in Hq; [|lia]. bool_simpl.
    unfold gets, modify. cbn [w_voicemail_media set_vm_port_counter]. rewrite Hn. simpl. split.
    + split; eauto.
    + intros p [= <-]. done.
  - apply find_first_None in Ef. rewrite Forall_forall in Ef. simpl. split; [|done].
    split; [by intros []|]. intros (p & Hp & Hnt). specialize (Ef p).
    rewrite negb_false_iff, bool_decide_eq_true in Ef. destruct Hnt. apply Ef.
    apply tried_ports; [lia|done].
Qed.
End registry_facts.

Lemma media_allocate_complete_witness :
  exists p, (media_allocate sample_config "c1" Pcmu 0 (Some 101) sample_world).1 = Val (Ok p).
Proof.
  apply (media_allocate_complete sample_config "c1" Pcmu 0 (Some 101) sample_world);
    [by_decide|done|done|done|]. exists 20000. split; [by_decide|by_decide].
Defined.
