(* ===== verification/NoAnswer.v ===== *)
(** * The no-answer timer: [backend/src/sip/voicemail.rs]

    The table of timers (one entry per ringing call with a mailbox), the operations
    that claim and cancel a timer under its lock, and the timer task, split at its
    await points. *)

From S2P Require Import Prelude RustStr Net Message SecurityGuard Acl Sdp Media World.

Open Scope str_scope.
Open Scope Z_scope.

Inductive NoAnswerTimerCancel := TimerCanceled | TimerAlreadyFired | TimerNotFound.

#[export] Instance NoAnswerTimerCancel_eq_dec : EqDecision NoAnswerTimerCancel.
Proof. solve_decision. Defined.

Abbreviation timers := (gmap str NoAnswerTimerEntry).

Definition claim_no_answer_timer_to_fire (ts : timers) (call_id : str) : bool * timers :=
  match ts !! call_id with
  | Some (Ringing _) => (true, <[call_id := Firing]> ts)
  | _ => (false, ts)
  end.

Definition mark_fired_no_answer_timer_canceled (ts : timers) (call_id : str) : bool * timers :=
  match ts !! call_id with
  | Some Firing => (true, <[call_id := Canceled]> ts)
  | _ => (false, ts)
  end.

Definition no_answer_timer_should_continue (ts : timers) (call_id : str) : bool :=
  match ts !! call_id with Some Firing => true | _ => false end.

(** The task to abort, the answer, the table. *)
Definition cancel_timer (ts : timers) (call_id : str)
    : option nat * NoAnswerTimerCancel * timers :=
  match ts !! call_id with
  | Some (Ringing h) => (Some h, TimerCanceled, delete call_id ts)
  | Some Firing => (None, TimerAlreadyFired, <[call_id := Firing]> (delete call_id ts))
  | Some Canceled => (None, TimerCanceled, <[call_id := Canceled]> (delete call_id ts))
  | None => (None, TimerNotFound, delete call_id ts)
  end.

Definition cancel_timer_for_caller_cancel (ts : timers) (call_id : str)
    : option nat * NoAnswerTimerCancel * timers :=
  let '(marked, ts') := mark_fired_no_answer_timer_canceled ts call_id in
  if marked then (None, TimerCanceled, ts')
  else match ts' !! call_id with
    | Some (Ringing h) => (Some h, TimerCanceled, delete call_id ts')
    | Some Canceled => (None, TimerCanceled, <[call_id := Canceled]> (delete call_id ts'))
    | _ => (None, TimerNotFound, delete call_id ts')
    end.

(** ** In the handler monad *)

Definition timer_id (t : Task) : option nat :=
  match t with TaskNoAnswer i _ => Some i | _ => None end.

(** [handle.abort()]: the task runs no further. *)
Definition abort_task (h : option nat) (l : list Task) : list Task :=
  match h with
  | None => l
  | Some id => filter (fun t => timer_id t <> Some id) l
  end.

Definition cancel_no_answer_timer (call_id : str) : M NoAnswerTimerCancel := fun w =>
  let '(h, r, ts) := cancel_timer (w_no_answer w) call_id in
  (Val r, set_tasks (abort_task h (w_tasks w)) (set_no_answer ts w)).

Definition cancel_no_answer_timer_for_caller_cancel (call_id : str) : M NoAnswerTimerCancel :=
  fun w =>
  let '(h, r, ts) := cancel_timer_for_caller_cancel (w_no_answer w) call_id in
  (Val r, set_tasks (abort_task h (w_tasks w)) (set_no_answer ts w)).

Definition finish_no_answer_timer (call_id : str) : M unit :=
  modify (fun w => set_no_answer (delete call_id (w_no_answer w)) w).

(** An identifier no spawned timer has. *)
Definition fresh_task (l : list Task) : nat :=
  S (list_max (omap timer_id l)).

Definition start_no_answer_timer (t : NoAnswerStart) : M unit :=
  let cid := default "" (call_id (na_msg t)) in
  if Str.is_empty cid || Str.is_empty (na_callee t) then mret tt
  else modify (fun w =>
    let id := fresh_task (w_tasks w) in
    let old := match w_no_answer w !! cid with Some (Ringing h) => Some h | _ => None end in
    set_tasks (abort_task old (w_tasks w) ++ [TaskNoAnswer id t])
      (set_no_answer (<[cid := Ringing id]> (w_no_answer w)) w)).

(** ** The protocol

    Who may answer the caller of a ringing call that has a timer?  The callee's final
    response (relayed by [relay_response], which first cancels the timer and then looks the
    caller up among the pending dialogs), or voicemail (the timer task).  The INVITE is on its
    way to the callee before the timer is entered in the table.  [phase] is the place of the
    timer task between its await points ([Unarmed]: not entered yet); [pending] that the
    pending dialog is still there; [passed] that a final response of the callee got past the
    timer; [relayed] and [answered] record what the caller was sent; [gave_up] that the caller's
    CANCEL was processed while the timer was in the table; [early] that a final response was
    processed before it was.  The task wakes up after it was entered: its delay is at least a
    second. *)

Module Protocol.

Inductive Phase :=
  | Unarmed
  | Sleeping
  | Claimed
  | LegCanceled
  | Delivering
  | Delivered
  | Answering
  | Finished
  | Aborted.

#[export] Instance Phase_eq_dec : EqDecision Phase.
Proof. solve_decision. Defined.

Record State := {
  tbl : timers;
  phase : Phase;
  pending : bool;
  passed : bool;
  relayed : bool;
  answered : bool;
  gave_up : bool;
  early : bool;
}.

Section protocol.
Context (cid : str) (id : nat).

(** The INVITE has been forwarded. *)
Definition init : State :=
  {| tbl := ∅; phase := Unarmed; pending := true; passed := false; relayed := false;
     answered := false; gave_up := false; early := false |}.

(** Aborting stops the task wherever it waits. *)
Definition abort (h : option nat) (p : Phase) : Phase :=
  if decide (h = Some id) then match p with Finished => Finished | _ => Aborted end else p.

(** Table and phase after the check [if !no_answer_timer_should_continue { finish; return }]. *)
Definition check (next : Phase) (ts : timers) : timers * Phase :=
  if no_answer_timer_should_continue ts cid then (ts, next) else (delete cid ts, Finished).

Definition is_unarmed (p : Phase) : bool := bool_decide (p = Unarmed).

(** The steps, each atomic: it holds the timer lock or touches one other store. *)
Inductive step : State -> State -> Prop :=
  (** [start_no_answer_timer] enters the timer. *)
  | step_arm ts pd ps rl an gu ea :
      step (Build_State ts Unarmed pd ps rl an gu ea)
           (Build_State (<[cid := Ringing id]> ts) Sleeping pd ps rl an gu ea)
  (** The callee's final response: it passes unless the timer fired, ... *)
  | step_response ts ph pd ps rl an gu ea h r ts' :
      cancel_timer ts cid = (h, r, ts') ->
      step (Build_State ts ph pd ps rl an gu ea)
           (Build_State ts' (abort h ph) pd (ps || negb (bool_decide (r = TimerAlreadyFired)))
              rl an gu (ea || is_unarmed ph))
  (** ... and is relayed if the dialog is still pending then. *)
  | step_relay ts ph rl an gu ea :
      step (Build_State ts ph true true rl an gu ea) (Build_State ts ph true true true an gu ea)
  (** The caller's ACK or BYE, and the callee's BYE. *)
  | step_request ts ph pd ps rl an gu ea h r ts' :
      cancel_timer ts cid = (h, r, ts') ->
      step (Build_State ts ph pd ps rl an gu ea) (Build_State ts' (abort h ph) pd ps rl an gu ea)
  (** The caller's CANCEL. *)
  | step_caller_cancel ts ph pd ps rl an gu ea h r ts' :
      cancel_timer_for_caller_cancel ts cid = (h, r, ts') ->
      step (Build_State ts ph pd ps rl an gu ea)
           (Build_State ts' (abort h ph) pd ps rl an (gu || negb (is_unarmed ph)) ea)
  (** The removal of the pending dialog after a final response, a BYE or a CANCEL. *)
  | step_drop_pending ts ph pd ps rl an gu ea :
      step (Build_State ts ph pd ps rl an gu ea) (Build_State ts ph false ps rl an gu ea)
  (** The timer task. *)
  | step_claim ts pd ps rl an gu ea ok ts' :
      claim_no_answer_timer_to_fire ts cid = (ok, ts') ->
      step (Build_State ts Sleeping pd ps rl an gu ea)
           (Build_State ts' (if ok then Claimed else Finished) pd ps rl an gu ea)
  | step_cancel_leg ts pd ps rl an gu ea :
      step (Build_State ts Claimed pd ps rl an gu ea)
           (Build_State ts LegCanceled false ps rl an gu ea)
  | step_check1 ts pd ps rl an gu ea ts' ph' :
      check Delivering ts = (ts', ph') ->
      step (Build_State ts LegCanceled pd ps rl an gu ea) (Build_State ts' ph' pd ps rl an gu ea)
  | step_deliver ts pd ps rl an gu ea :
      step (Build_State ts Delivering pd ps rl an gu ea)
           (Build_State ts Delivered pd ps rl an gu ea)
  | step_check2 ts pd ps rl an gu ea ts' ph' :
      check Answering ts = (ts', ph') ->
      step (Build_State ts Delivered pd ps rl an gu ea) (Build_State ts' ph' pd ps rl an gu ea)
  | step_answer ts pd ps rl an gu ea :
      step (Build_State ts Answering pd ps rl an gu ea)
           (Build_State (delete cid ts) Finished pd ps rl true gu ea).

(** No response of the callee passed, or one came too early. *)
Definition unserved (st : State) : Prop :=
  early st = false -> passed st = false /\ relayed st = false.

(** What the phase knows: the entry of the table, and who was served. *)
Definition invariant (st : State) : Prop :=
  let entry := tbl st !! cid in
  match phase st with
  | Unarmed => entry = None /\ answered st = false /\ gave_up st = false /\ unserved st
  | Sleeping => entry = Some (Ringing id) /\ answered st = false /\ gave_up st = false /\ unserved st
  | Claimed => answered st = false /\
      (entry = Some Firing /\ gave_up st = false /\ unserved st \/
       entry = Some Canceled /\ gave_up st = true)
  | LegCanceled => answered st = false /\ pending st = false /\
      (entry = Some Firing /\ gave_up st = false /\ unserved st \/
       entry = Some Canceled /\ gave_up st = true)
  | Delivering | Delivered => answered st = false /\ pending st = false /\
      (early st = false -> relayed st = false) /\
      (entry = Some Firing /\ gave_up st = false \/ entry = Some Canceled /\ gave_up st = true)
  | Answering => answered st = false /\ pending st = false /\
      (early st = false -> relayed st = false) /\ (entry = Some Firing \/ entry = Some Canceled)
  | Finished => entry = None /\ (answered st = true -> pending st = false /\
      (early st = false -> relayed st = false))
  | Aborted => entry = None /\ answered st = false
  end.

(** How the lock-protected operations act on the entry. *)
Lemma cancel_timer_entry ts h r ts' :
  cancel_timer ts cid = (h, r, ts') ->
  match ts !! cid with
  | Some (Ringing i) => h = Some i /\ r = TimerCanceled /\ ts' !! cid = None
  | Some Firing => h = None /\ r = TimerAlreadyFired /\ ts' !! cid = Some Firing
  | Some Canceled => h = None /\ r = TimerCanceled /\ ts' !! cid = Some Canceled
  | None => h = None /\ r = TimerNotFound /\ ts' !! cid = None
  end.
Proof.
  unfold cancel_timer. destruct (ts !! cid) as [[]|] eqn:E; intros [= <- <- <-];
    by rewrite ?lookup_delete_eq, ?lookup_insert_eq.
Qed.

Lemma caller_cancel_entry ts h r ts' :
  cancel_timer_for_caller_cancel ts cid = (h, r, ts') ->
  match ts !! cid with
  | Some (Ringing i) => h = Some i /\ ts' !! cid = None
  | Some Firing | Some Canceled => h = None /\ ts' !! cid = Some Canceled
  | None => h = None /\ ts' !! cid = None
  end.
Proof.
  unfold cancel_timer_for_caller_cancel, mark_fired_no_answer_timer_canceled.
  destruct (ts !! cid) as [[]|] eqn:E; rewrite ?E; intros [= <- <- <-];
    by rewrite ?lookup_delete_eq, ?lookup_insert_eq.
Qed.

Lemma claim_entry ts ok ts' :
  claim_no_answer_timer_to_fire ts cid = (ok, ts') ->
  match ts !! cid with
  | Some (Ringing _) => ok = true /\ ts' !! cid = Some Firing
  | _ => ok = false /\ ts' = ts
  end.
Proof.
  unfold claim_no_answer_timer_to_fire.
  destruct (ts !! cid) as [[]|]; intros [= <- <-]; by rewrite ?lookup_insert_eq.
Qed.

Lemma check_entry next ts ts' ph' :
  check next ts = (ts', ph') ->
  (ts !! cid = Some Firing /\ ts' = ts /\ ph' = next) \/
  (ts !! cid <> Some Firing /\ ts' !! cid = None /\ ph' = Finished).
Proof.
  unfold check, no_answer_timer_should_continue.
  destruct (ts !! cid) as [[]|] eqn:E; intros [= <- <-]; rewrite ?lookup_delete_eq; auto.
Qed.

Lemma init_invariant : invariant init.
Proof. done. Qed.

(** Case analysis on the phase, the entry and the flags. *)
Ltac solve_phase :=
  destruct_and?; destruct_or?; destruct_and?; simplify_eq; repeat case_decide; simplify_eq/=;
  rewrite ?andb_false_r, ?orb_false_r, ?orb_true_r; auto 8; try (by split_and!); try tauto;
  try naive_solver.

(** Case analysis on a step, with what it does to the entry. *)
Ltac step_cases :=
  repeat match goal with
  | H : cancel_timer _ _ = _ |- _ => apply cancel_timer_entry in H
  | H : cancel_timer_for_caller_cancel _ _ = _ |- _ => apply caller_cancel_entry in H
  | H : check _ _ = _ |- _ => apply check_entry in H
  | H : claim_no_answer_timer_to_fire _ _ = _ |- _ => apply claim_entry in H
  end;
  try match goal with ph : Phase |- _ => destruct ph end; intros;
  try match goal with H : context [?ts !! cid] |- _ => destruct (ts !! cid) as [[]|] eqn:? end;
  rewrite ?lookup_delete_eq, ?lookup_insert_eq; solve_phase.

Lemma step_invariant st st' : step st st' -> invariant st -> invariant st'.
Proof.
  unfold invariant, unserved. intros Hs.
  destruct Hs; unfold abort, is_unarmed;
    cbn [tbl phase pending passed relayed answered gave_up early]; step_cases.
Qed.

Lemma reachable_invariant st : rtc step init st -> invariant st.
Proof.
  intros Hr. pose proof init_invariant as Hi. revert Hi.
  induction Hr as [|x y z Hs _ IH]; [done|]. intros Hx. apply IH. by eapply step_invariant.
Qed.


(** The timer task alone, from its entry in the table to its answer. *)
Lemma timer_answers ts pd ps rl gu ea :
  rtc step (Build_State (<[cid := Ringing id]> ts) Sleeping pd ps rl false gu ea)
    (Build_State (delete cid (<[cid := Firing]> (<[cid := Ringing id]> ts))) Finished false ps rl true gu ea).
Proof.
  eapply rtc_l; [eapply step_claim; unfold claim_no_answer_timer_to_fire; rewrite lookup_insert_eq; reflexivity|].
  eapply rtc_l; [eapply step_cancel_leg|].
  eapply rtc_l; [eapply step_check1; unfold check, no_answer_timer_should_continue; rewrite lookup_insert_eq; reflexivity|].
  eapply rtc_l; [eapply step_deliver|].
  eapply rtc_l; [eapply step_check2; unfold check, no_answer_timer_should_continue; rewrite lookup_insert_eq; reflexivity|].
  eapply rtc_l; [eapply step_answer|]. eapply rtc_refl.
Qed.

(** The early response: the callee answers between the forwarding of the INVITE and the entry
    of the timer, the answer is relayed, and later the timer answers too. *)
Theorem early_response_answered_twice :
  exists st, rtc step init st /\ relayed st = true /\ answered st = true.
Proof.
  eexists. split; [|split].
  - eapply rtc_l; [eapply step_response; unfold cancel_timer; rewrite lookup_empty; reflexivity|].
    eapply rtc_l; [eapply step_relay|]. eapply rtc_l; [eapply step_drop_pending|].
    eapply rtc_l; [eapply step_arm|]. apply timer_answers.
  - reflexivity.
  - reflexivity.
Qed.

(** The early CANCEL: it finds no timer, and voicemail answers a caller who hung up. *)
Theorem early_cancel_answered :
  let '(h, r, ts) := cancel_timer_for_caller_cancel (tbl init) cid in
  r = TimerNotFound /\
  exists st, rtc step (Build_State ts (abort h Unarmed) false false false false false false) st /\
    answered st = true.
Proof.
  unfold cancel_timer_for_caller_cancel, mark_fired_no_answer_timer_canceled. cbn [tbl init].
  rewrite lookup_empty. cbv beta iota. rewrite lookup_empty, delete_empty. split; [done|].
  eexists. split.
  - eapply rtc_l; [eapply step_arm|]. apply timer_answers.
  - reflexivity.
Qed.

(** Once the caller gave up before the task's last check, it is never answered. *)
Definition suppressed (st : State) : Prop :=
  answered st = false /\
  match phase st with
  | Unarmed => False
  | Sleeping => tbl st !! cid = None
  | Claimed | LegCanceled | Delivering | Delivered => tbl st !! cid = Some Canceled
  | Answering => False
  | Finished | Aborted => True
  end.

Lemma step_suppressed st st' : step st st' -> suppressed st -> suppressed st'.
Proof.
  unfold suppressed. intros Hs. destruct Hs; unfold abort; cbn [tbl phase answered]; step_cases.
Qed.

(** A caller who cancels after the timer was entered and before voicemail made its last check
    is not answered by voicemail afterwards, whatever happens next. *)
Theorem caller_cancel_suppresses st st' :
  rtc step init st -> gave_up st = true -> answered st = false -> phase st <> Answering ->
  rtc step st st' -> answered st' = false.
Proof.
  intros Hi%reachable_invariant Hg Ha Hp Hr.
  assert (suppressed st) as Hs.
  { split; [done|]. unfold invariant in Hi. destruct (phase st); naive_solver congruence. }
  clear -Hr Hs. induction Hr as [|x y z Hxy _ IH]; [by destruct Hs|].
  apply IH. by eapply step_suppressed.
Qed.
End protocol.


Lemma caller_cancel_suppresses_witness :
  answered (Build_State ∅ Finished false false false false true false) = false.
Proof.
  eapply (caller_cancel_suppresses "c" 1
    (Build_State {[ "c" := Canceled ]} Claimed true false false false true false)); [|done|done|done|].
  - eapply rtc_l; [eapply step_arm|]. eapply rtc_l; [eapply step_claim; reflexivity|].
    eapply rtc_l; [eapply step_caller_cancel; reflexivity|]. eapply rtc_refl.
  - eapply rtc_l; [eapply step_cancel_leg|]. eapply rtc_l; [eapply step_check1; reflexivity|].
    eapply rtc_refl.
Defined.
End Protocol.
