(* ===== verification/Mwi.v ===== *)
(** * Message-waiting indication: [backend/src/sip/voicemail_mwi.rs] *)

From S2P Require Import Prelude RustStr Net Message Response SecurityGuard Acl Sdp Media World.

Open Scope str_scope.
Open Scope Z_scope.

Definition build_message_summary_body (username domain : str) (new_count saved_count : Z) : str :=
  let waiting := if 0 <? new_count then "yes" else "no" in
  Str.terminated
    ["Messages-Waiting: " ++ waiting;
     "Message-Account: sip:" ++ username ++ "@" ++ domain;
     "Voice-Message: " ++ Str.show_int new_count ++ "/" ++ Str.show_int saved_count ++ " (0/0)"].

(** The response skeleton with its own [To]. *)
Definition base_response_with_to (req : SipMessage) (status : Z) (reason to : str)
    : SipResponseBuilder :=
  let b := builder_new status reason in
  let b := foldl (fun b via => builder_header b "Via" via) b (via_headers req) in
  let b := builder_header_opt b "From" (from_header req) in
  let b := builder_header b "To" to in
  let b := builder_header_opt b "Call-ID" (call_id req) in
  let b := builder_header_opt b "CSeq" (cseq req) in
  builder_header b "Server" "SIP3/0.1.0".

Definition registered_source_matches (registered_ip : str) (registered_port : Z)
    (src : SocketAddr) : bool :=
  match parse_ip registered_ip with
  | Some i => bool_decide (i = ip src)
  | None => false
  end && (registered_port =? port src).

Definition mwi_extract_param (hdr name : str) : option str :=
  find_map (fun part =>
    match Str.splitn 2 "=" (Str.trim part) with
    | key :: value :: _ =>
        if Str.eq_ignore_case (Str.trim key) name
        then Some (Str.trim_matches Str.DQUOTE (Str.trim value)) else None
    | _ => None
    end) (drop 1 (Str.split_char ";" hdr)).

(** [SELECT source_ip, source_port FROM sip_registrations WHERE ...] then [any]. *)
Definition source_is_registered (username domain : str) (src : SocketAddr) : M bool :=
  query (gets (fun w =>
    match live_registration w username domain with
    | Some r => registered_source_matches (reg_source_ip r) (reg_source_port r) src
    | None => false
    end)).

Definition count_status (w : World) (box_id : Z) (status : str) : Z :=
  Z.of_nat (length (filter (fun m => vm_box_id m = box_id /\ vm_status m = status)
    (w_voicemail_messages w))).

Definition message_counts (username domain : str) : M (Z * Z) :=
  query (gets (fun w =>
    match find_first (fun b => bool_decide (vb_username b = username /\ vb_domain b = domain))
            (w_voicemail_boxes w) with
    | Some b => (count_status w (vb_id b) "new", count_status w (vb_id b) "saved")
    | None => (0, 0)
    end)).

Section mwi.
Context `{Digests} (cfg : Config).

Definition mwi_server_tag (call_id : str) : str := "sip3-mwi-" ++ take 16 (sha1_hex call_id).

Definition mwi_subscribe_to_header (to call_id : str) : str :=
  if Str.contains ";tag=" (Str.to_lower to) then to
  else to ++ ";tag=" ++ mwi_server_tag call_id.

Definition mwi_build_notify (username domain call_id subscriber_tag : str) (cseq : Z)
    (new_count saved_count : Z) : str :=
  let body := build_message_summary_body username domain new_count saved_count in
  let from_tag := mwi_server_tag call_id in
  let branch := "z9hG4bK-vm-" ++ from_tag ++ "-" ++ Str.show_dec cseq in
  render ("NOTIFY sip:" ++ username ++ "@" ++ domain ++ " SIP/2.0")
    [("Via", "SIP/2.0/UDP " ++ domain ++ ";branch=" ++ branch);
     ("Max-Forwards", "70");
     ("From", "<sip:" ++ username ++ "@" ++ domain ++ ">;tag=" ++ from_tag);
     ("To", "<sip:" ++ username ++ "@" ++ domain ++ ">;tag=" ++ subscriber_tag);
     ("Call-ID", call_id);
     ("CSeq", Str.show_dec cseq ++ " NOTIFY");
     ("Event", "message-summary");
     ("Subscription-State", "active");
     ("Content-Type", "application/simple-message-summary");
     ("Content-Length", Str.show_dec (Str.len body))]
    body.

(** [WHERE subscriber = ? AND domain = ? AND expires_at > NOW()], as (call id, row). *)
Definition mwi_rows (w : World) (username domain : str) : list (str * MwiSub) :=
  omap (fun '(k, row) =>
    let '(s, d, cid) := (k : str * str * str) in
    if decide (s = username /\ d = domain) then
      if w_now w / 1000000000 <? mw_expires_at row then Some (cid, row) else None
    else None) (map_to_list (w_mwi_subs w)).

Definition set_mwi_cseq (username domain cid : str) (cseq : Z) : M unit :=
  modify (fun w => set_mwi_subs
    (alter (fun r => {| mw_tag := mw_tag r; mw_ip := mw_ip r; mw_port := mw_port r;
                        mw_cseq := cseq; mw_expires_at := mw_expires_at r |})
       (username, domain, cid) (w_mwi_subs w)) w).

(** One turn of the loop; the address that does not parse ends the whole loop. *)
Definition mwi_notify_one (username domain : str) (new_count saved_count : Z)
    (entry : str * MwiSub) : M unit :=
  let '(cid, row) := entry in
  let next_cseq := Int.wrap_u32 (mw_cseq row + 1) in
  let notify := mwi_build_notify username domain cid (mw_tag row) next_cseq new_count saved_count in
  match parse_addr (addr_text (mw_ip row) (mw_port row)) with
  | None => fail "invalid socket address syntax"
  | Some addr =>
      sent ← attempt (udp_send notify addr);
      match sent with
      | None => mret tt
      | Some _ => query (set_mwi_cseq username domain cid next_cseq)
      end
  end.

Definition notify_mailbox (username domain : str) : M unit :=
  counts ← message_counts username domain;
  let '(new_count, saved_count) := counts in
  _ ← ignore (enqueue_webhook "voicemail.mwi"
        [("event", "voicemail.mwi"); ("username", username); ("domain", domain);
         ("new_messages", Str.show_int new_count); ("saved_messages", Str.show_int saved_count)]);
  rows ← query (gets (fun w => mwi_rows w username domain));
  for_each rows (mwi_notify_one username domain new_count saved_count).

(** [INSERT ... ON DUPLICATE KEY UPDATE ..., cseq = cseq + 1] *)
Definition upsert_mwi (subscriber domain cid tag : str) (src : SocketAddr) (expires_at : Z)
    (w : World) : World :=
  let key := (subscriber, domain, cid) in
  let cseq := match w_mwi_subs w !! key with Some old => mw_cseq old + 1 | None => 1 end in
  set_mwi_subs (<[key := {| mw_tag := tag; mw_ip := show_ip (ip src); mw_port := port src;
     mw_cseq := cseq; mw_expires_at := expires_at |}]> (w_mwi_subs w)) w.

Definition mwi_handle_subscribe (msg : SipMessage) (src : SocketAddr) : M str :=
  let event := Str.to_lower (default "" (header msg "event")) in
  let event := Str.trim (default "" (head (Str.split_char ";" event))) in
  if negb (bool_decide (event = "message-summary"))
  then mret (build (base_response msg 489 "Bad Event"))
  else
    let from := default "" (from_header msg) in
    let from_uri := default "" (extract_uri from) in
    let subscriber := default "" (uri_username from_uri) in
    if Str.is_empty subscriber then mret (build (base_response msg 400 "Bad Request"))
    else
      let domain := sip_domain cfg in
      let cid := default "" (call_id msg) in
      let subscriber_tag := default "" (mwi_extract_param from "tag") in
      let exp := default 3600 (expires msg) in
      registered ← source_is_registered subscriber domain src;
      if negb registered then mret (build (base_response msg 403 "Forbidden"))
      else
        let contact := "<sip:" ++ subscriber ++ "@" ++ public_ip cfg ++ ":" ++
                       Str.show_dec (sip_port cfg) ++ ">" in
        let to := mwi_subscribe_to_header (default "" (to_header msg)) cid in
        if exp =? 0 then
          _ ← query (modify (fun w =>
                set_mwi_subs (delete (subscriber, domain, cid) (w_mwi_subs w)) w));
          mret (build (builder_header (builder_header (base_response_with_to msg 200 "OK" to)
            "Contact" contact) "Expires" "0"))
        else
          now ← unix_secs;
          _ ← query (modify (upsert_mwi subscriber domain cid subscriber_tag src (now + exp)));
          _ ← modify (fun w => set_tasks (w_tasks w ++ [TaskNotifyMailbox subscriber domain]) w);
          mret (build (builder_header (builder_header (base_response_with_to msg 200 "OK" to)
            "Contact" contact) "Expires" (Str.show_dec exp))).
End mwi.

(** ** Facts *)

Section mwi_facts.
Context `{!Digests}.

Definition notify_for (username domain : str) (counts : Z * Z) (entry : str * MwiSub) : str :=
  let '(cid, row) := entry in
  mwi_build_notify username domain cid (mw_tag row) (Int.wrap_u32 (mw_cseq row + 1))
    counts.1 counts.2.

(** The counts a mailbox reports. *)
Definition counts_of (w : World) (username domain : str) : Z * Z :=
  match find_first (fun b => bool_decide (vb_username b = username /\ vb_domain b = domain))
          (w_voicemail_boxes w) with
  | Some b => (count_status w (vb_id b) "new", count_status w (vb_id b) "saved")
  | None => (0, 0)
  end.

Definition row_addr (entry : str * MwiSub) : option SocketAddr :=
  parse_addr (addr_text (mw_ip entry.2) (mw_port entry.2)).

Definition bump (username domain : str) (subs : gmap (str * str * str) MwiSub)
    (entry : str * MwiSub) : gmap (str * str * str) MwiSub :=
  alter (fun r => {| mw_tag := mw_tag r; mw_ip := mw_ip r; mw_port := mw_port r;
                     mw_cseq := Int.wrap_u32 (mw_cseq entry.2 + 1);
                     mw_expires_at := mw_expires_at r |})
    (username, domain, entry.1) subs.

Lemma notify_one_run username domain counts entry a w :
  w_faults w = [] -> row_addr entry = Some a ->
  mwi_notify_one username domain counts.1 counts.2 entry w =
  (Val tt, set_mwi_subs (bump username domain (w_mwi_subs w) entry)
     (set_outbox (w_outbox w ++ [{| out_dst := a; out_stream := false;
        out_text := notify_for username domain counts entry |}]) w)).
Proof.
  intros Hf Ha. destruct entry as [cid row]. unfold mwi_notify_one.
  unfold row_addr in Ha. cbn [snd] in Ha. rewrite Ha. erewrite bind_val.
  2: { unfold attempt, udp_send, fault, mbind, M_bind. rewrite Hf. reflexivity. }
  cbv beta iota. rewrite query_ok by done. reflexivity.
Qed.

Lemma notify_loop username domain counts rows w addrs :
  w_faults w = [] -> mapM row_addr rows = Some addrs ->
  let out := for_each rows (mwi_notify_one username domain counts.1 counts.2) w in
  out.1 = Val tt /\
  w_outbox out.2 = w_outbox w ++ zip_with (fun a e =>
    {| out_dst := a; out_stream := false; out_text := notify_for username domain counts e |})
    addrs rows /\
  w_mwi_subs out.2 = foldl (bump username domain) (w_mwi_subs w) rows.
Proof.
  revert w addrs. induction rows as [|e rows IH]; intros w addrs Hf Ha.
  { inversion Ha; subst. cbn. by rewrite app_nil_r. }
  apply mapM_Some in Ha. inversion Ha as [|? a ? as' Hrow Hrows]; subst.
  cbn [for_each]. rewrite (bind_val _ _ _ _ _ (notify_one_run _ _ _ _ _ _ Hf Hrow)).
  match goal with |- context [for_each rows _ ?w2] =>
    destruct (IH w2 as') as (H1 & H2 & H3); [done|by apply mapM_Some|] end.
  rewrite H1, H2, H3. split_and!; [done| |done]. cbn. by rewrite <-app_assoc.
Qed.

(** A mailbox change reaches every live subscriber of the mailbox: each gets one
    NOTIFY, with the number of new and of saved messages at that moment and a CSeq one
    above the stored one, which is stored in turn. *)
Theorem mwi_notify_delivers username domain w addrs :
  w_faults w = [] -> mapM row_addr (mwi_rows w username domain) = Some addrs ->
  let rows := mwi_rows w username domain in
  let out := notify_mailbox username domain w in
  out.1 = Val tt /\
  w_outbox out.2 = w_outbox w ++ zip_with (fun a e =>
    {| out_dst := a; out_stream := false;
       out_text := notify_for username domain (counts_of w username domain) e |}) addrs rows /\
  w_mwi_subs out.2 = foldl (bump username domain) (w_mwi_subs w) rows.
Proof.
  intros Hf Ha. unfold notify_mailbox, message_counts.
  erewrite bind_val; [|by rewrite query_ok]. cbv beta. fold (counts_of w username domain).
  destruct (counts_of w username domain) as [n s] eqn:Ec.
  erewrite bind_val; [|by apply enqueue_run]. set (w1 := enqueued _ _ w).
  assert (w_faults w1 = []) as Hf1 by (by subst w1; rewrite enqueued_keeps).
  erewrite bind_val; [|by rewrite query_ok]. cbv beta.
  assert (mwi_rows w1 username domain = mwi_rows w username domain) as ->
    by (subst w1; by rewrite (enqueued_keeps (fun w => mwi_rows w username domain))).
  pose proof (notify_loop username domain (n, s) (mwi_rows w username domain) w1 addrs Hf1 Ha) as Hn.
  assert (w_outbox w1 = w_outbox w /\ w_mwi_subs w1 = w_mwi_subs w) as [<- <-]; [|exact Hn].
  subst w1. by rewrite !enqueued_keeps.
Qed.

(** One subscriber with an IPv6 address silences the mailbox: the text built from the
    stored address and port never parses, the loop stops with an error there, and the
    subscribers after it get no NOTIFY. *)
Theorem mwi_notify_stops_at_v6 username domain w cid row rows s :
  w_faults w = [] -> mwi_rows w username domain = (cid, row) :: rows ->
  mw_ip row = show_ip (V6 s) ->
  let out := notify_mailbox username domain w in
  (exists e, out.1 = Fail e) /\ w_outbox out.2 = w_outbox w.
Proof.
  intros Hf Hr Hip. unfold notify_mailbox, message_counts.
  erewrite bind_val; [|by rewrite query_ok]. cbv beta. fold (counts_of w username domain).
  destruct (counts_of w username domain) as [n sv].
  erewrite bind_val; [|by apply enqueue_run]. set (w1 := enqueued _ _ w).
  assert (w_faults w1 = []) as Hf1 by (by subst w1; rewrite enqueued_keeps).
  erewrite bind_val; [|by rewrite query_ok]. cbv beta.
  assert (mwi_rows w1 username domain = mwi_rows w username domain) as ->
    by (subst w1; by rewrite (enqueued_keeps (fun w => mwi_rows w username domain))).
  rewrite Hr. cbn [for_each].
  erewrite bind_fail; [|by unfold mwi_notify_one; rewrite Hip, parse_addr_v6].
  split; [by eexists|]. subst w1. cbn [snd]. by rewrite enqueued_keeps.
Qed.
End mwi_facts.

(** ** Examples *)

Definition mwi_sub_v4 : MwiSub :=
  {| mw_tag := "t4"; mw_ip := "198.51.100.7"; mw_port := 5062; mw_cseq := 4;
     mw_expires_at := 1700003600 |}.
Definition mwi_sub_v6 : MwiSub :=
  {| mw_tag := "t6"; mw_ip := show_ip (V6 [8193; 3512; 0; 0; 0; 0; 0; 1]); mw_port := 5062;
     mw_cseq := 1; mw_expires_at := 1700003600 |}.

Lemma mwi_notify_delivers_witness :
  let w := set_mwi_subs {[ ("alice", "sip.example.com", "s1") := mwi_sub_v4 ]} sample_world in
  let out := @notify_mailbox toy_digests "alice" "sip.example.com" w in
  out.1 = Val tt /\ length (w_outbox out.2) = 1%nat /\
  w_mwi_subs out.2 !! ("alice", "sip.example.com", "s1") =
    Some {| mw_tag := "t4"; mw_ip := "198.51.100.7"; mw_port := 5062; mw_cseq := 5;
            mw_expires_at := 1700003600 |}.
Proof.
  intros w out. destruct (@mwi_notify_delivers toy_digests "alice" "sip.example.com" w [sample_src])
    as (H1 & H2 & H3); [done|vm_compute; reflexivity|].
  split; [exact H1|]. unfold out. rewrite H2, H3. split; vm_compute; reflexivity.
Defined.

Lemma mwi_notify_stops_at_v6_witness :
  let w := set_mwi_subs {[ ("alice", "sip.example.com", "s0") := mwi_sub_v6 ]} sample_world in
  w_outbox (@notify_mailbox toy_digests "alice" "sip.example.com" w).2 = [].
Proof.
  intros w. etrans; [apply (@mwi_notify_stops_at_v6 toy_digests "alice" "sip.example.com" w "s0"
    mwi_sub_v6 [] [8193; 3512; 0; 0; 0; 0; 0; 1]);
    [done|vm_compute; reflexivity|reflexivity]|done].
Defined.
