(* ===== verification/Voicemail.v ===== *)
(** * The voicemail endpoint: [backend/src/sip/voicemail.rs]

    Access and delivery calls, the IVR driven by DTMF, the recording task and the
    no-answer timer task. *)

From S2P Require Import Prelude RustStr Net Message Response Forward SecurityGuard Acl Storage.
From S2P Require Import Sdp Media World Gateway VoicemailSdp VoicemailMedia NoAnswer Mwi.

Open Scope str_scope.
Open Scope Z_scope.

(** The [bcrypt] crate: [verify(password, hash)], [None] on a malformed hash. *)
Class Bcrypt := { bcrypt_verify : str -> str -> option bool }.

Definition VOICEMAIL_STATUS_NEW : str := "new".
Definition VOICEMAIL_STATUS_SAVED : str := "saved".
Definition VOICEMAIL_STATUS_DELETED : str := "deleted".

Inductive RecordingPersistenceDecision := Insert | DiscardCanceled | DiscardEmpty.

(** ** Pure helpers *)

Definition is_voicemail_access_target (target access_extension : str) : bool :=
  bool_decide (target = access_extension).

Definition is_message_summary_event (event : option str) : bool :=
  match event ≫= (fun v => head (Str.split_char ";" v)) with
  | Some token => Str.eq_ignore_case (Str.trim token) "message-summary"
  | None => false
  end.

(** The text outside quotes and angle brackets. *)
Fixpoint outside_address (in_angle in_quote escaped : bool) (s : str) : str :=
  match s with
  | [] => []
  | ch :: s' =>
      if in_quote then
        if escaped then outside_address in_angle true false s'
        else if decide (ch = Str.BACKSLASH) then outside_address in_angle true true s'
        else if decide (ch = Str.DQUOTE) then outside_address in_angle false false s'
        else outside_address in_angle true false s'
      else if decide (ch = Str.DQUOTE /\ in_angle = false)
        then outside_address in_angle true escaped s'
      else if decide (ch = "<"%char /\ in_angle = false)
        then outside_address true in_quote escaped s'
      else if decide (ch = ">"%char /\ in_angle = true)
        then outside_address false in_quote escaped s'
      else if in_angle then outside_address in_angle in_quote escaped s'
      else ch :: outside_address in_angle in_quote escaped s'
  end.

Definition has_outer_tag_param (to : str) : bool :=
  Str.contains ";tag=" (Str.to_lower (outside_address false false false to)).

Definition with_to_tag (to tag : str) : str :=
  if has_outer_tag_param to then to else to ++ ";tag=" ++ tag.

(** [from.and_then(extract_uri).and_then(|u| uri_username(&u))] *)
Definition header_user (from : option str) : option str :=
  addr ← from; uri ← extract_uri addr; uri_username uri.

Definition delivery_caller (from : option str) : option str :=
  caller ← header_user from;
  if decide (caller = "unknown") then None else Some caller.

Definition recording_persistence_decision (should_persist : bool) (duration_secs : Z)
    : RecordingPersistenceDecision :=
  if negb should_persist then DiscardCanceled
  else if duration_secs =? 0 then DiscardEmpty else Insert.

(** ** Candidates: one local call per Call-ID *)

Definition track_access_candidate (call_id : str) : M bool := fun w =>
  match w_voicemail_calls w !! call_id with
  | Some _ => (Val false, w)
  | None => (Val (negb (bool_decide (call_id ∈ w_access_pending w))),
             set_access_pending ({[ call_id ]} ∪ w_access_pending w) w)
  end.

Definition discard_access_candidate (call_id : str) (tracked : bool) : M unit :=
  when tracked (modify (fun w => set_access_pending (w_access_pending w ∖ {[ call_id ]}) w)).

Definition track_recording_candidate (call_id : str) : M bool := fun w =>
  let st := w_recording_state w in
  (Val (negb (bool_decide (call_id ∈ recording st))),
   set_recording_state {| recording := {[ call_id ]} ∪ recording st; canceled := canceled st |} w).

Definition discard_recording_candidate (call_id : str) (tracked : bool) : M unit :=
  when tracked (modify (fun w =>
    let st := w_recording_state w in
    set_recording_state {| recording := recording st ∖ {[ call_id ]};
                           canceled := canceled st ∖ {[ call_id ]} |} w)).

Definition mark_recording_canceled (call_id : str) : M bool := fun w =>
  let st := w_recording_state w in
  if decide (call_id ∈ recording st) then
    (Val true, set_recording_state
       {| recording := recording st; canceled := {[ call_id ]} ∪ canceled st |} w)
  else (Val false, w).

Definition should_persist_recording (call_id : str) : M bool := fun w =>
  let st := w_recording_state w in
  (Val (negb (bool_decide (call_id ∈ canceled st))),
   set_recording_state {| recording := recording st ∖ {[ call_id ]};
                          canceled := canceled st ∖ {[ call_id ]} |} w).

(** ** Queries *)

Definition find_box (w : World) (p : VoicemailBox -> bool) : option VoicemailBox :=
  find_first p (w_voicemail_boxes w).

(** [WHERE username = ? AND domain = ? AND enabled = 1] *)
Definition enabled_box (username domain : str) (w : World) : option VoicemailBox :=
  find_box w (fun b =>
    bool_decide (vb_username b = username /\ vb_domain b = domain) && (vb_enabled b =? 1)).

Definition lookup_enabled_box (username domain : str) : M (option VoicemailBox) :=
  row ← attempt (query (gets (enabled_box username domain)));
  mret (mjoin row).

(** [ORDER BY created_at DESC], stable. *)
Fixpoint insert_desc (m : VoicemailMessage) (l : list VoicemailMessage) : list VoicemailMessage :=
  match l with
  | [] => [m]
  | x :: l' => if vm_created_at x <? vm_created_at m then m :: l else x :: insert_desc m l'
  end.

Definition sort_desc (l : list VoicemailMessage) : list VoicemailMessage := foldl (fun l m => insert_desc m l) [] l.

Definition list_messages_for_mailbox (box_id : Z) : M (list VoicemailMessage) :=
  rows ← attempt (query (gets (fun w => sort_desc (filter (fun m =>
    vm_box_id m = box_id /\
    (vm_status m = VOICEMAIL_STATUS_NEW \/ vm_status m = VOICEMAIL_STATUS_SAVED))
    (w_voicemail_messages w)))));
  mret (default [] rows).

Definition kept_messages (w : World) (box_id : Z) : Z :=
  Z.of_nat (length (filter (fun m =>
    vm_box_id m = box_id /\ vm_status m <> VOICEMAIL_STATUS_DELETED) (w_voicemail_messages w))).

Definition mailbox_is_full (box_id max_messages : Z) : M bool :=
  query (gets (fun w => max_messages <=? kept_messages w box_id)).

(** [SELECT column FROM sip_voicemail_boxes WHERE id = ?], errors and [NULL] as [None]. *)
Definition box_column (box_id : Z) (f : VoicemailBox -> option str) : M (option str) :=
  row ← attempt (query (gets (fun w => find_box w (fun b => vb_id b =? box_id))));
  mret (mjoin row ≫= f).

(** [UPDATE sip_voicemail_messages SET ... WHERE id = ?] *)
Definition update_message (id : Z) (f : VoicemailMessage -> VoicemailMessage) (w : World) : World :=
  set_voicemail_messages (map (fun m => if vm_id m =? id then f m else m) (w_voicemail_messages w)) w.

Definition with_status (status : str) (heard : option Z) (m : VoicemailMessage) : VoicemailMessage :=
  {| vm_id := vm_id m; vm_box_id := vm_box_id m; vm_caller := vm_caller m;
     vm_callee := vm_callee m; vm_call_id := vm_call_id m; vm_duration_secs := vm_duration_secs m;
     vm_storage_key := vm_storage_key m; vm_status := status; vm_created_at := vm_created_at m;
     vm_heard_at := match heard with Some t => Some t | None => vm_heard_at m end |}.

Definition spawn (t : Task) : M unit := modify (fun w => set_tasks (w_tasks w ++ [t]) w).

Section voicemail.
Context `{!Digests, !HeaderOrder, !Bcrypt} (cfg : Config).

Definition is_voicemail_call (call_id : str) : M bool :=
  gets (fun w => bool_decide (is_Some (w_voicemail_calls w !! call_id))).

Definition is_access_invite (msg : SipMessage) : bool :=
  bool_decide (method msg = Some "INVITE") &&
  match request_uri msg ≫= uri_username with
  | Some target => is_voicemail_access_target target (voicemail_access_extension cfg)
  | None => false
  end.

Definition build_local_ok (msg : SipMessage) (local_user : str) (relay_port : Z)
    (n : VoicemailNegotiation) : M str :=
  session_id ← random_uint 8;
  let answer := build_answer (public_ip cfg) relay_port n session_id in
  let to_tag := "vm-" ++ Str.show_hex session_id in
  let to_with_tag := with_to_tag (default "" (to_header msg)) to_tag in
  let contact := "<sip:" ++ local_user ++ "@" ++ public_ip cfg ++ ":" ++
                 Str.show_dec (sip_port cfg) ++ ">" in
  let b := base_response_with_to msg 200 "OK" to_with_tag in
  let b := builder_header b "Contact" contact in
  let b := builder_header b "Content-Type" "application/sdp" in
  let b := builder_header b "Allow" "INVITE, ACK, CANCEL, BYE, INFO" in
  mret (build (builder_body b answer)).

(** ** Listening to the mailbox *)

(** A mailbox with a PIN asks for it first. *)
Definition initial_mode (settings : VoicemailBox) (caller : str) (has_pin : bool)
    : M VoicemailMode :=
  if has_pin then mret (PinEntry (vb_id settings) caller)
  else
    messages ← list_messages_for_mailbox (vb_id settings);
    mret (Playback caller (vb_id settings) messages 0).

Definition handle_access_invite (msg : SipMessage) (src : SocketAddr) : M str :=
  if negb (is_access_invite msg) then mret (build (base_response msg 404 "Not Found"))
  else
    let cid := default "" (call_id msg) in
    if Str.is_empty cid then mret (build (base_response msg 400 "Bad Request"))
    else
      tracked ← track_access_candidate cid;
      if negb tracked then mret (build (base_response msg 491 "Request Pending"))
      else
        let caller := default "" (header_user (from_header msg)) in
        if Str.is_empty caller then
          _ ← discard_access_candidate cid tracked;
          mret (build (base_response msg 400 "Bad Request"))
        else
          let domain := sip_domain cfg in
          settings ← lookup_enabled_box caller domain;
          match settings with
          | None =>
              _ ← discard_access_candidate cid tracked;
              mret (build (base_response msg 404 "Not Found"))
          | Some settings =>
              registered ← source_is_registered caller domain src;
              if negb registered then
                _ ← discard_access_candidate cid tracked;
                mret (build (base_response msg 403 "Forbidden"))
              else match negotiate_offer (body msg) with
                | Err _ =>
                    _ ← discard_access_candidate cid tracked;
                    mret (build (base_response msg 488 "Not Acceptable Here"))
                | Ok n =>
                    relay_port ← media_allocate cfg cid (codec n) (audio_pt n) (telephone_event_pt n);
                    match relay_port with
                    | Err _ =>
                        _ ← discard_access_candidate cid tracked;
                        mret (build (base_response msg 500 "Internal Server Error"))
                    | Ok relay_port =>
                        response ← build_local_ok msg (voicemail_access_extension cfg) relay_port n;
                        let has_pin := match vb_pin_hash settings with
                                       | Some h => negb (Str.is_empty h) | None => false end in
                        mode ← initial_mode settings caller has_pin;
                        _ ← modify (fun w => set_voicemail_calls (<[cid := {| vc_mode := mode;
                              vc_caller := caller; vc_callee := vb_username settings;
                              vc_pin_buffer := [] |}]> (w_voicemail_calls w)) w);
                        _ ← discard_access_candidate cid tracked;
                        _ ← match vb_greeting_storage_key settings with
                            | Some key => when (negb has_pin) (spawn (TaskPlay cid key))
                            | None => mret tt
                            end;
                        mret response
                    end
                end
          end.

(** ** Leaving a message *)

Definition handle_delivery_invite (msg : SipMessage) (callee : str) : M str :=
  let cid := default "" (call_id msg) in
  if Str.is_empty cid || Str.is_empty callee then mret (build (base_response msg 400 "Bad Request"))
  else
    tracked ← track_recording_candidate cid;
    if negb tracked then mret (build (base_response msg 491 "Request Pending"))
    else
      let domain := sip_domain cfg in
      match delivery_caller (from_header msg) with
      | None =>
          _ ← discard_recording_candidate cid tracked;
          mret (build (base_response msg 400 "Bad Request"))
      | Some caller =>
          caller_ok ← attempt (db_account_exists caller domain);
          match caller_ok with
          | None => _ ← discard_recording_candidate cid tracked; fail "database error"
          | Some false =>
              _ ← discard_recording_candidate cid tracked;
              mret (build (base_response msg 403 "Forbidden"))
          | Some true =>
              settings ← lookup_enabled_box callee domain;
              match settings with
              | None =>
                  _ ← discard_recording_candidate cid tracked;
                  mret (build (base_response msg 404 "Not Found"))
              | Some settings =>
                  full ← attempt (mailbox_is_full (vb_id settings) (vb_max_messages settings));
                  match full with
                  | None => _ ← discard_recording_candidate cid tracked; fail "database error"
                  | Some true =>
                      _ ← discard_recording_candidate cid tracked;
                      mret (build (base_response msg 486 "Busy Here"))
                  | Some false =>
                      match negotiate_offer (body msg) with
                      | Err _ =>
                          _ ← discard_recording_candidate cid tracked;
                          mret (build (base_response msg 488 "Not Acceptable Here"))
                      | Ok n =>
                          relay_port ← media_allocate cfg cid (codec n) (audio_pt n)
                                         (telephone_event_pt n);
                          match relay_port with
                          | Err _ =>
                              _ ← discard_recording_candidate cid tracked;
                              mret (build (base_response msg 500 "Internal Server Error"))
                          | Ok relay_port =>
                              response ← build_local_ok msg callee relay_port n;
                              _ ← modify (fun w => set_voicemail_calls (<[cid :=
                                    {| vc_mode := Recording (vb_id settings) (vb_username settings);
                                       vc_caller := caller; vc_callee := callee;
                                       vc_pin_buffer := [] |}]> (w_voicemail_calls w)) w);
                              _ ← spawn (TaskRecord {| rs_call_id := cid; rs_box_id := vb_id settings;
                                    rs_mailbox := vb_username settings; rs_domain := domain;
                                    rs_caller := caller; rs_callee := callee;
                                    rs_max_message_secs := vb_max_message_secs settings |});
                              mret response
                          end
                      end
                  end
              end
          end
      end.

(** The end of the recording task: [recorded] is the outcome of [record_to_storage]. *)
Definition storage_delete (key : str) : M unit :=
  b ← fault;
  modify (fun w => set_files (delete_key (voicemail_storage_dir cfg) key b (w_files w)).2 w).

Definition finish_recording (r : RecordingStart) (recorded : result (str * Z)) : M unit :=
  _ ← modify (fun w => set_voicemail_calls (delete (rs_call_id r) (w_voicemail_calls w)) w);
  _ ← media_remove (rs_call_id r);
  should_persist ← should_persist_recording (rs_call_id r);
  match recorded with
  | Err _ => mret tt
  | Ok (storage_key, duration_secs) =>
      match recording_persistence_decision should_persist duration_secs with
      | DiscardCanceled | DiscardEmpty => storage_delete storage_key
      | Insert =>
          now ← unix_secs;
          inserted ← attempt (query (modify (fun w => set_voicemail_messages
            (w_voicemail_messages w ++ [{|
               vm_id := next_id (map vm_id (w_voicemail_messages w));
               vm_box_id := rs_box_id r; vm_caller := rs_caller r; vm_callee := rs_callee r;
               vm_call_id := rs_call_id r; vm_duration_secs := duration_secs;
               vm_storage_key := storage_key; vm_status := VOICEMAIL_STATUS_NEW;
               vm_created_at := now; vm_heard_at := None |}]) w)));
          match inserted with
          | None => storage_delete storage_key
          | Some _ => ignore (notify_mailbox (rs_callee r) (rs_domain r))
          end
      end
  end.

(** [play_wav]: what a playback task sends to the caller, or why it stops. *)
Definition play_wav (cid key : str) (ssrc seq ts : Z) : M (result (list (list Z))) :=
  gets (fun w =>
    session ← ok_or (w_voicemail_media w !! cid) "voicemail media session not found";
    bytes ← read_key (voicemail_storage_dir cfg) key (w_files w);
    wav ← read_pcm16_wav bytes;
    play_wav_packets session ssrc seq ts wav).

(** ** Requests inside a voicemail call *)

Definition vm_handle_ack (msg : SipMessage) : M unit :=
  _ ← cancel_no_answer_timer (default "" (call_id msg)); mret tt.

Definition vm_handle_bye (msg : SipMessage) : M str :=
  let cid := default "" (call_id msg) in
  _ ← modify (fun w => set_voicemail_calls (delete cid (w_voicemail_calls w)) w);
  _ ← cancel_no_answer_timer cid;
  _ ← media_remove cid;
  mret (build (base_response msg 200 "OK")).

Definition vm_handle_cancel (msg : SipMessage) : M str :=
  let cid := default "" (call_id msg) in
  _ ← (if Str.is_empty cid then mret false else mark_recording_canceled cid);
  _ ← modify (fun w => set_voicemail_calls (delete cid (w_voicemail_calls w)) w);
  _ ← cancel_no_answer_timer cid;
  _ ← media_remove cid;
  mret (build (base_response msg 200 "OK")).

(** The playback state of a call: mailbox, messages, index. *)
Definition playback (w : World) (cid : str) : option (str * list VoicemailMessage * nat) :=
  call ← w_voicemail_calls w !! cid;
  match vc_mode call with
  | Playback mailbox _ messages i => Some (mailbox, messages, i)
  | _ => None
  end.

(** [active.get_mut(call_id)] with a playback mode. *)
Definition modify_playback (cid : str)
    (f : list VoicemailMessage -> nat -> list VoicemailMessage * nat) : M unit :=
  modify (fun w => set_voicemail_calls (alter (fun call =>
    match vc_mode call with
    | Playback mailbox box_id messages i =>
        let '(messages', i') := f messages i in
        {| vc_mode := Playback mailbox box_id messages' i'; vc_caller := vc_caller call;
           vc_callee := vc_callee call; vc_pin_buffer := vc_pin_buffer call |}
    | _ => call
    end) cid (w_voicemail_calls w)) w).

Definition modify_call (cid : str) (f : VoicemailCall -> VoicemailCall) : M unit :=
  modify (fun w => set_voicemail_calls (alter f cid (w_voicemail_calls w)) w).

Definition clear_pin (call : VoicemailCall) : VoicemailCall :=
  {| vc_mode := vc_mode call; vc_caller := vc_caller call; vc_callee := vc_callee call;
     vc_pin_buffer := [] |}.

Definition play_message_at_index (cid : str) (index : nat) : M unit :=
  pb ← gets (fun w => playback w cid);
  match pb with
  | None => mret tt
  | Some (_, messages, _) =>
      match messages !! index with
      | None => mret tt
      | Some m => _ ← media_remove cid; spawn (TaskPlay cid (vm_storage_key m))
      end
  end.

(** [messages.remove(index)] and the correction of the index; [None] is the panic of
    [Vec::remove] on an index out of range. *)
Definition remove_message (index : nat) (messages : list VoicemailMessage) (i : nat)
    : option (list VoicemailMessage * nat) :=
  if negb (index <? length messages)%nat then None
  else
    let messages' := delete index messages in
    Some (messages', if (length messages' <=? i)%nat && negb (bool_decide (messages' = []))
                     then (length messages' - 1)%nat else i).

(** The lock is taken twice: to find the row, and, after the query, to drop the message from
    the list, whose length is not looked at again. *)
Definition message_to_delete (cid : str) (index : nat) : M (option (Z * str)) :=
  gets (fun w =>
    '(mailbox, messages, _) ← playback w cid;
    m ← messages !! index;
    Some (vm_id m, mailbox)).

Definition remove_from_playback (cid : str) (index : nat) : M unit :=
  pb ← gets (fun w => playback w cid);
  match pb with
  | None => mret tt
  | Some (_, messages, i) =>
      match remove_message index messages i with
      | None => panic
      | Some r => modify_playback cid (fun _ _ => r)
      end
  end.

Definition delete_message_at_index (cid : str) (index : nat) : M unit :=
  found ← message_to_delete cid index;
  match found with
  | None => mret tt
  | Some (msg_id, mailbox) =>
      ok ← attempt (query (modify (update_message msg_id
             (with_status VOICEMAIL_STATUS_DELETED None))));
      match ok with
      | None => mret tt
      | Some _ =>
          _ ← remove_from_playback cid index;
          ignore (notify_mailbox mailbox (sip_domain cfg))
      end
  end.

Definition save_message_at_index (cid : str) (index : nat) : M unit :=
  pb ← gets (fun w => playback w cid);
  match pb with
  | None => mret tt
  | Some (mailbox, messages, _) =>
      match messages !! index with
      | None => mret tt
      | Some m =>
          now ← unix_secs;
          ok ← attempt (query (modify (update_message (vm_id m)
                 (with_status VOICEMAIL_STATUS_SAVED (Some now)))));
          match ok with
          | None => mret tt
          | Some _ =>
              _ ← modify_playback cid (fun messages i =>
                    (alter (with_status VOICEMAIL_STATUS_SAVED None) index messages, i));
              ignore (notify_mailbox mailbox (sip_domain cfg))
          end
      end
  end.

(** Moving to another message and playing it. *)
Definition go_to (cid : str) (new_index : nat) : M unit :=
  _ ← modify_playback cid (fun messages _ => (messages, new_index));
  play_message_at_index cid new_index.

(** [#] while the PIN is asked for. *)
Definition check_pin (cid : str) : M unit :=
  entry ← gets (fun w =>
    call ← w_voicemail_calls w !! cid;
    Some (vc_pin_buffer call,
          match vc_mode call with PinEntry b m => (b, m) | _ => (0, []) end));
  match entry with
  | None => mret tt
  | Some (pin, (box_id, mailbox)) =>
      pin_hash ← box_column box_id vb_pin_hash;
      match pin_hash with
      | None => mret tt
      | Some expected_hash =>
          if default false (bcrypt_verify pin expected_hash) then
            messages ← list_messages_for_mailbox box_id;
            _ ← modify_call cid (fun call => {| vc_mode := Playback mailbox box_id messages 0;
                  vc_caller := vc_caller call; vc_callee := vc_callee call;
                  vc_pin_buffer := [] |});
            greeting_key ← box_column box_id vb_greeting_storage_key;
            match greeting_key with
            | Some key => spawn (TaskPlay cid key)
            | None => mret tt
            end
          else modify_call cid clear_pin
      end
  end.

Definition handle_dtmf (cid : str) (mode : VoicemailMode) (dtmf : VoicemailDtmf) : M unit :=
  match mode, dtmf with
  | Recording _ _, Pound => media_remove cid
  | Playback _ _ messages i, One => when ((0 <? length messages)%nat && (0 <? i)%nat) (go_to cid (i - 1))
  | Playback _ _ messages i, Two | Playback _ _ messages i, Pound =>
      when ((0 <? length messages)%nat && (i + 1 <? length messages)%nat) (go_to cid (i + 1))
  | Playback _ _ messages i, Seven => when (0 <? length messages)%nat (delete_message_at_index cid i)
  | Playback _ _ messages i, Nine => when (0 <? length messages)%nat (save_message_at_index cid i)
  | Playback _ _ _ _, _ => mret tt
  | Recording _ _, _ => mret tt
  | PinEntry _ _, Pound => check_pin cid
  | PinEntry _ _, Star => modify_call cid clear_pin
  | PinEntry _ _, Digit d => modify_call cid (fun call => {| vc_mode := vc_mode call;
      vc_caller := vc_caller call; vc_callee := vc_callee call;
      vc_pin_buffer := vc_pin_buffer call ++ [d] |})
  | PinEntry _ _, _ => mret tt
  end.

Definition vm_handle_info (msg : SipMessage) : M str :=
  let cid := default "" (call_id msg) in
  mode ← gets (fun w => vc_mode <$> (w_voicemail_calls w !! cid));
  match mode with
  | None => mret (build (base_response msg 481 "Call/Transaction Does Not Exist"))
  | Some mode =>
      _ ← match parse_dtmf_relay (body msg) with
          | Some dtmf => handle_dtmf cid mode dtmf
          | None => mret tt
          end;
      mret (build (base_response msg 200 "OK"))
  end.

(** ** The timer task, between its await points *)

Definition max_forwards (msg : SipMessage) : Z :=
  default 70 (header msg "max-forwards" ≫= Str.parse_u32).

Definition timer_claim (cid : str) : M bool := fun w =>
  let '(ok, ts) := claim_no_answer_timer_to_fire (w_no_answer w) cid in
  (Val ok, set_no_answer ts w).

(** CANCEL to the callee, then the call's stores are emptied. *)
Definition timer_cancel_leg (t : NoAnswerStart) : M unit :=
  let cid := default "" (call_id (na_msg t)) in
  let cancel := build_forwarded_cancel_for_target (na_msg t) (na_target_uri t)
                  (Int.sat_sub (max_forwards (na_msg t)) 1) (sip_domain cfg) in
  _ ← ignore (send_sip cancel (na_target_addr t));
  _ ← modify (fun w => set_pending_dialogs (delete cid (w_pending_dialogs w)) w);
  _ ← modify (fun w => set_active_dialogs (delete cid (w_active_dialogs w)) w);
  _ ← relay_remove cid;
  gateway_remove cid.

Definition should_continue (cid : str) : M bool :=
  gets (fun w => no_answer_timer_should_continue (w_no_answer w) cid).

Definition cleanup_suppressed_no_answer_delivery (cid : str) : M unit :=
  _ ← mark_recording_canceled cid;
  _ ← modify (fun w => set_voicemail_calls (delete cid (w_voicemail_calls w)) w);
  media_remove cid.

(** The whole task, when nothing else runs in between. *)
Definition run_no_answer_timer (t : NoAnswerStart) : M unit :=
  let cid := default "" (call_id (na_msg t)) in
  fire ← timer_claim cid;
  if negb fire then mret tt
  else
    _ ← timer_cancel_leg t;
    go1 ← should_continue cid;
    if negb go1 then finish_no_answer_timer cid
    else
      delivered ← attempt (handle_delivery_invite (na_msg t) (na_callee t));
      let response := default (build (base_response (na_msg t) 500 "Internal Server Error"))
                        delivered in
      go2 ← should_continue cid;
      if negb go2 then
        _ ← cleanup_suppressed_no_answer_delivery cid;
        finish_no_answer_timer cid
      else
        _ ← ignore (send_sip response (na_src t));
        finish_no_answer_timer cid.

(** ** Startup *)

Definition is_identifiable_temp_file (name : str) : bool :=
  let lower := Str.to_lower name in
  Str.ends_with ".tmp" lower || Str.ends_with ".part" lower || Str.ends_with ".partial" lower.
End voicemail.

(** ** Facts: the IVR *)

(** The message index of a playback points at a message, or at zero when there is none. *)
Definition index_ok (m : VoicemailMode) : Prop :=
  match m with
  | Playback _ _ messages i => (i < length messages)%nat \/ messages = [] /\ i = 0%nat
  | _ => True
  end.

Definition calls_ok (w : World) : Prop :=
  map_Forall (fun _ call => index_ok (vc_mode call)) (w_voicemail_calls w).

Definition keeps_ok : relation World := fun w w' => calls_ok w -> calls_ok w'.

#[export] Instance keeps_ok_frame : IoFrame keeps_ok.
Proof.
  split; [split|by intros ???..]; [by intros ??|]. intros x y z Hxy Hyz Hx. by apply Hyz, Hxy.
Qed.

(** Anything that leaves the calls alone. *)
Lemma keeps_ok_same {A} (m : M A) : moves (same w_voicemail_calls) m -> moves keeps_ok m.
Proof. intros Hm w Hw. unfold calls_ok. by rewrite (Hm w). Qed.

Lemma keeps_ok_modify f :
  (forall w, w_voicemail_calls (f w) = w_voicemail_calls w) -> moves keeps_ok (modify f).
Proof. intros Hf w Hw. unfold calls_ok. cbn. by rewrite Hf. Qed.

Lemma keeps_ok_insert cid call :
  index_ok (vc_mode call) ->
  moves keeps_ok (modify (fun w => set_voicemail_calls (<[cid := call]> (w_voicemail_calls w)) w)).
Proof. intros Hc w Hw. by apply map_Forall_insert_2. Qed.

Lemma keeps_ok_delete cid :
  moves keeps_ok (modify (fun w => set_voicemail_calls (delete cid (w_voicemail_calls w)) w)).
Proof. intros w Hw. by apply map_Forall_delete. Qed.

Lemma keeps_ok_modify_call cid f :
  (forall call, index_ok (vc_mode call) -> index_ok (vc_mode (f call))) ->
  moves keeps_ok (modify_call cid f).
Proof.
  intros Hf w Hw k call. cbn. destruct (decide (k = cid)) as [->|Hk].
  - rewrite lookup_alter_eq. intros (c & E & ->)%fmap_Some. apply Hf. by apply (Hw _ _ E).
  - rewrite lookup_alter_ne by done. apply Hw.
Qed.

Lemma remove_message_ok index messages i :
  (index < length messages)%nat -> index_ok (Playback [] 0 messages i) ->
  exists r, remove_message index messages i = Some r /\ index_ok (Playback [] 0 r.1 r.2).
Proof.
  intros Hi Hok. unfold remove_message. rewrite (proj2 (Nat.ltb_lt _ _) Hi). cbn [negb].
  eexists; split; [done|]. cbn [fst snd index_ok] in *.
  destruct (lookup_lt_is_Some_2 messages index Hi) as [m Hm].
  pose proof (length_delete messages index ltac:(by eexists)) as Hl.
  destruct (delete index messages) as [|x l] eqn:E.
  - right. split; [done|]. cbn in Hl. rewrite bool_decide_eq_true_2 by done.
    rewrite andb_false_r. destruct Hok as [?|[-> ?]]; [lia|simpl in *; lia].
  - left. rewrite bool_decide_eq_false_2 by done. cbn [negb]. rewrite andb_true_r.
    case_match eqn:El; [simpl; lia|]. apply Nat.leb_gt in El. done.
Qed.

Lemma keeps_calls_cancel_timer cid : moves (same w_voicemail_calls) (cancel_no_answer_timer cid).
Proof. intros w. unfold cancel_no_answer_timer. by destruct (cancel_timer _ _) as [[] ?]. Qed.

Lemma keeps_calls_allocate cfg cid c a t :
  moves (same w_voicemail_calls) (media_allocate cfg cid c a t).
Proof.
  unfold media_allocate. solve_moves. intros w. unfold bind_socket. by repeat case_match.
Qed.

Lemma allocate_total cfg cid c a t : total (media_allocate cfg cid c a t).
Proof.
  unfold media_allocate. case_match; [auto with total|]. apply total_bind.
  - intros w. unfold bind_socket. repeat case_match; eauto.
  - intros [p|e]; [|auto with total]. apply total_bind; [auto with total|].
    intros [s|]; auto with total.
Qed.

Lemma keeps_tasks_allocate cfg cid c a t : moves (same w_tasks) (media_allocate cfg cid c a t).
Proof.
  unfold media_allocate. solve_moves. intros w. unfold bind_socket. by repeat case_match.
Qed.

Lemma keeps_calls_notify `{!Digests} u d : moves (same w_voicemail_calls) (notify_mailbox u d).
Proof.
  unfold notify_mailbox, message_counts, enqueue_webhook, json_rows, mwi_notify_one, udp_send, emit, set_mwi_cseq.
  solve_moves.
Qed.

Lemma keeps_calls_list box : moves (same w_voicemail_calls) (list_messages_for_mailbox box).
Proof. unfold list_messages_for_mailbox. solve_moves. Qed.

Lemma keeps_calls_box u d : moves (same w_voicemail_calls) (lookup_enabled_box u d).
Proof. unfold lookup_enabled_box. solve_moves. Qed.

Lemma keeps_calls_column b f : moves (same w_voicemail_calls) (box_column b f).
Proof. unfold box_column. solve_moves. Qed.

(** Frame goals about the calls: the operations above, the candidate sets, the rest. *)
Ltac keeps_ok_leaf :=
  first
    [ apply keeps_ok_same; first [ apply keeps_calls_cancel_timer | apply keeps_calls_allocate
        | apply keeps_calls_notify | apply keeps_calls_list | apply keeps_calls_box
        | apply keeps_calls_column ]
    | apply keeps_ok_delete
    | apply keeps_ok_modify; reflexivity
    | apply keeps_ok_insert; cbn; solve [auto | lia]
    | solve [intros ? Hk; unfold track_access_candidate, track_recording_candidate,
        mark_recording_canceled, should_persist_recording; repeat case_match; exact Hk] ].

Lemma keeps_calls_initial settings caller pin :
  moves (same w_voicemail_calls) (initial_mode settings caller pin).
Proof. unfold initial_mode, list_messages_for_mailbox. solve_moves. Qed.

Lemma initial_mode_ok settings caller pin w mode w' :
  initial_mode settings caller pin w = (Val mode, w') -> index_ok mode.
Proof.
  unfold initial_mode. destruct pin; [by intros [= <- _]|]. unfold mbind, M_bind.
  destruct (list_messages_for_mailbox _ w) as [[ms|e|] w1]; [|done..]. intros [= <- _].
  cbn. destruct ms; [by right|left; simpl; lia].
Qed.

Ltac moves_hook ::=
  lazymatch goal with |- moves keeps_ok (mbind _ (initial_mode _ _ _)) =>
    apply (moves_bind_returns index_ok);
      [apply keeps_ok_same, keeps_calls_initial|by intros; eapply initial_mode_ok|] end.

Ltac solve_ok := repeat first [ progress solve_moves | keeps_ok_leaf ].

Section ivr.
Context `{!Digests, !HeaderOrder, !Bcrypt} (cfg : Config).

Lemma go_to_ok cid i :
  (forall w, calls_ok w -> match playback w cid with
     | Some (_, messages, _) => (i < length messages)%nat | None => True end ->
   calls_ok (go_to cid i w).2).
Proof.
  intros w Hw Hi. unfold go_to, modify_playback. rewrite bind_modify.
  match goal with |- calls_ok (_ ?w1).2 => assert (calls_ok w1) as Hw1 end.
  { intros k call. cbn. destruct (decide (k = cid)) as [->|Hk].
    - rewrite lookup_alter_eq. unfold playback in Hi. intros (c & E & ->)%fmap_Some.
      rewrite E in Hi. cbn in Hi. pose proof (Hw _ _ E) as Hc. destruct (vc_mode c); try done.
      cbn. by left.
    - rewrite lookup_alter_ne by done. apply Hw. }
  revert Hw1. match goal with |- calls_ok ?w1 -> _ => generalize w1 end.
  change (moves keeps_ok (play_message_at_index cid i)). unfold play_message_at_index, media_remove, spawn.
  solve_ok.
Qed.

(** A delete handled in one go removes the message it found: [Vec::remove] is in range. *)
Lemma delete_message_run cid i w :
  (exists w1, w_voicemail_calls w1 = w_voicemail_calls w /\
              delete_message_at_index cfg cid i w = (Val tt, w1)) \/
  (exists mb ms j r w1, playback w cid = Some (mb, ms, j) /\ (i < length ms)%nat /\
     remove_message i ms j = Some r /\ w_voicemail_calls w1 = w_voicemail_calls w /\
     delete_message_at_index cfg cid i w =
       (_ ← modify_playback cid (fun _ _ => r); ignore (notify_mailbox mb (sip_domain cfg))) w1).
Proof.
  unfold delete_message_at_index, message_to_delete. rewrite bind_gets.
  destruct (playback w cid) as [[[mb ms] j]|] eqn:Ep; cbn [mbind option_bind]; [|left; eauto].
  destruct (ms !! i) as [m|] eqn:Em; cbn [mbind option_bind]; [|left; eauto].
  set (upd := attempt (query (modify (update_message (vm_id m) (with_status VOICEMAIL_STATUS_DELETED None))))).
  assert (moves (same w_voicemail_calls) upd) as Hu by (unfold upd; solve_moves).
  assert (total upd) as Ht by (unfold upd; auto with total).
  destruct (Ht w) as (r & w1 & E). rewrite (bind_val _ _ _ _ _ E).
  specialize (Hu w). rewrite E in Hu. cbn in Hu.
  destruct r as [[]|]; [|left; eauto]. right. apply lookup_lt_Some in Em as Hlt.
  assert (exists r, remove_message i ms j = Some r) as [r Hr].
  { unfold remove_message. rewrite (proj2 (Nat.ltb_lt _ _) Hlt). by eexists. }
  exists mb, ms, j, r, w1. split_and!; [done..|].
  unfold remove_from_playback. rewrite bind_assoc, bind_gets.
  replace (playback w1 cid) with (playback w cid) by (unfold playback; by rewrite Hu).
  by rewrite Ep, Hr.
Qed.

Lemma delete_message_ok cid i : moves keeps_ok (delete_message_at_index cfg cid i).
Proof.
  intros w Hw. destruct (delete_message_run cid i w)
    as [(w1 & Hu & ->)|(mb & ms & j & r & w1 & Ep & Hi & Hr & Hu & ->)].
  { unfold calls_ok. cbn. by rewrite Hu. }
  unfold modify_playback. rewrite bind_modify.
  match goal with |- calls_ok (_ ?w2).2 => assert (calls_ok w2) as Hw2 end.
  { intros k call. cbn. rewrite Hu. destruct (decide (k = cid)) as [->|Hk].
    - rewrite lookup_alter_eq. intros (c & Ec & ->)%fmap_Some.
      unfold playback in Ep. rewrite Ec in Ep. cbn in Ep. assert (index_ok (vc_mode c)) as Hc by apply (Hw _ _ Ec).
      revert Hc Ep. destruct (vc_mode c) as [| |mb' b' ms' j']; intros Hc Ep; simplify_eq.
      destruct (remove_message_ok i ms j Hi Hc) as (r' & Hr' & Hok). rewrite Hr in Hr'. injection Hr' as <-. by destruct r.
    - rewrite lookup_alter_ne by done. apply Hw. }
  revert Hw2. match goal with |- calls_ok ?w1 -> _ => generalize w1 end.
  change (moves keeps_ok (ignore (notify_mailbox mb (sip_domain cfg)))). solve_ok.
Qed.

(** Two deletes of the last message, both past their first look at the list: the second one
    to take the lock again panics. *)
Lemma concurrent_deletes_panic cid w mb ms i :
  playback w cid = Some (mb, ms, i) -> length ms = S i ->
  exists id w1, message_to_delete cid i w = (Val (Some (id, mb)), w) /\
    remove_from_playback cid i w = (Val tt, w1) /\
    (remove_from_playback cid i w1).1 = Panicked.
Proof.
  intros Hp Hl. assert (exists m, ms !! i = Some m) as [m Hm] by (apply lookup_lt_is_Some; lia).
  unfold message_to_delete, remove_from_playback. exists (vm_id m).
  assert (remove_message i ms i = Some (delete i ms, if negb (bool_decide (delete i ms = [])) then (i - 1)%nat else i))
    as Hr.
  { unfold remove_message. rewrite (proj2 (Nat.ltb_lt i (length ms))) by lia. cbn [negb].
    rewrite length_delete by by eexists. rewrite Hl. cbn [Nat.sub].
    rewrite Nat.sub_0_r, Nat.leb_refl. done. }
  eexists. split_and!.
  - unfold gets. rewrite Hp. cbn. by rewrite Hm.
  - rewrite bind_gets, Hp, Hr. done.
  - rewrite bind_gets. unfold playback in *. cbn. rewrite lookup_alter_eq.
    destruct (w_voicemail_calls w !! cid) as [c|]; [|done]. cbn in *.
    destruct (vc_mode c) eqn:Ec; try done. cbn. injection Hp as -> -> ->. unfold remove_message.
    rewrite length_delete by by eexists. rewrite Hl. cbn [Nat.sub].
    by rewrite Nat.sub_0_r, Nat.ltb_irrefl.
Qed.

Lemma save_message_ok cid i : moves keeps_ok (save_message_at_index cfg cid i).
Proof.
  unfold save_message_at_index. solve_ok. 
  apply (keeps_ok_modify_call cid). intros call.
  destruct (vc_mode call) eqn:Emd; [by rewrite Emd..|].
  cbn [vc_mode index_ok]. rewrite length_alter. intros [?|[-> ->]]; [by left|by right].
Qed.

Lemma check_pin_ok cid : moves keeps_ok (check_pin cid).
Proof.
  unfold check_pin, spawn. solve_ok; apply keeps_ok_modify_call; [|by intros []].
  intros call _. cbn. by match goal with |- context [length ?l] =>
    destruct l; [right|left; simpl; lia] end.
Qed.

Lemma handle_dtmf_ok cid mode dtmf w :
  calls_ok w -> vc_mode <$> (w_voicemail_calls w !! cid) = Some mode ->
  calls_ok (handle_dtmf cfg cid mode dtmf w).2.
Proof.
  intros Hw Hm. apply fmap_Some in Hm as (call & Hc & ->).
  assert (index_ok (vc_mode call)) as Hi by apply (Hw _ _ Hc).
  assert (forall i, match vc_mode call with Playback _ _ ms _ => (i < length ms)%nat | _ => True end ->
    calls_ok (go_to cid i w).2) as Hgo.
  { intros i Hlt. apply go_to_ok; [done|]. unfold playback. rewrite Hc. cbn.
    by destruct (vc_mode call). }
  assert (forall m : M unit, moves keeps_ok m -> calls_ok (m w).2) as Hmv by (intros m Hmm; by apply Hmm).
  destruct (vc_mode call) as [| |mb b ms i]; destruct dtmf; cbn [handle_dtmf]; try done;
    try solve [apply Hmv; first [ apply check_pin_ok | by apply keeps_ok_modify_call; intros []
                                | unfold media_remove; solve_ok ]].
  all: unfold when; match goal with |- calls_ok ((if ?b then _ else _) _).2 =>
         destruct b eqn:E; [|done] end.
  all: try (apply Hmv; first [apply delete_message_ok | apply save_message_ok]).
  all: apply andb_true_iff in E as [E1%Nat.ltb_lt E2%Nat.ltb_lt]; apply Hgo; cbn in Hi; lia.
Qed.

(** Whatever digits a caller sends, the IVR's message index points at an existing message (or
    the mailbox shown is empty): no voicemail handler takes the calls out of that state, also
    when queries fail halfway. *)
Lemma ivr_handlers_ok w :
  calls_ok w ->
  (forall msg, calls_ok (vm_handle_info cfg msg w).2) /\
  (forall msg src, calls_ok (handle_access_invite cfg msg src w).2) /\
  (forall msg callee, calls_ok (handle_delivery_invite cfg msg callee w).2) /\
  (forall msg, calls_ok (vm_handle_bye msg w).2 /\ calls_ok (vm_handle_cancel msg w).2 /\
               calls_ok (vm_handle_ack msg w).2) /\
  (forall r recorded, calls_ok (finish_recording cfg r recorded w).2).
Proof.
  intros Hw. assert (forall A (m : M A), moves keeps_ok m -> calls_ok (m w).2) as Hmv
    by (intros A m Hmm; by apply Hmm).
  split_and!.
  - intros msg. unfold vm_handle_info. rewrite bind_gets.
    destruct (vc_mode <$> _) as [mode|] eqn:Em; [|done].
    destruct (parse_dtmf_relay (body msg)) as [dtmf|]; [|done].
    pose proof (handle_dtmf_ok _ _ dtmf _ Hw Em) as Hd. unfold mbind, M_bind.
    by destruct (handle_dtmf _ _ _ _ w) as [[]].
  - intros msg src. apply Hmv. unfold handle_access_invite, discard_access_candidate,
      source_is_registered, build_local_ok, spawn. solve_ok.
  - intros msg callee. apply Hmv. unfold handle_delivery_invite, discard_recording_candidate,
      db_account_exists, mailbox_is_full, build_local_ok, spawn. solve_ok.
  - intros msg. unfold vm_handle_bye, vm_handle_cancel, vm_handle_ack, media_remove.
    split_and!; apply Hmv; solve_ok.
  - intros r recorded. apply Hmv. unfold finish_recording, media_remove, storage_delete. solve_ok.
Qed.
End ivr.

(** ** Facts: the PIN *)

Section pin.
Context `{!Digests, !Bcrypt} (cfg : Config).

Definition stored_hash (w : World) (box_id : Z) : option str :=
  find_box w (fun b => vb_id b =? box_id) ≫= vb_pin_hash.

Lemma box_column_run b f w :
  exists v r, box_column b f w = (Val r, set_faults v w) /\
    (r = None \/ r = find_box w (fun b' => vb_id b' =? b) ≫= f).
Proof.
  unfold box_column. destruct (query_gets_cases (fun w => find_box w (fun b' => vb_id b' =? b)) w)
    as [v [Hq|[e Hq]]]; exists v; unfold attempt, mbind, M_bind; rewrite Hq; eexists; split; auto.
Qed.

(** One digit of a call that waits for its PIN. *)
Lemma pin_step cid w call b mb dtmf :
  w_voicemail_calls w !! cid = Some call -> vc_mode call = PinEntry b mb ->
  exists call', w_voicemail_calls (handle_dtmf cfg cid (PinEntry b mb) dtmf w).2 =
                  <[cid := call']> (w_voicemail_calls w) /\
    ((vc_mode call' = PinEntry b mb /\
      (vc_pin_buffer call' = vc_pin_buffer call \/ vc_pin_buffer call' = [] \/
       exists d, dtmf = Digit d /\ vc_pin_buffer call' = vc_pin_buffer call ++ [d])) \/
     (vc_pin_buffer call' = [] /\ exists h, stored_hash w b = Some h /\
        bcrypt_verify (vc_pin_buffer call) h = Some true)).
Proof.
  intros Hc Hm.
  assert (forall f, alter f cid (w_voicemail_calls w) = <[cid := f call]> (w_voicemail_calls w)) as Ha
    by (intros f; rewrite <-(insert_id _ _ _ Hc) at 1; apply alter_insert_eq).
  assert (w_voicemail_calls w = <[cid := call]> (w_voicemail_calls w)) as Hid by by rewrite insert_id.
  destruct dtmf; cbn [handle_dtmf]; try (exists call; split; [exact Hid|]; left; auto; fail).
  - unfold check_pin. rewrite bind_gets, Hc. cbn [mbind option_bind]. rewrite Hm.
    destruct (box_column_run b vb_pin_hash w) as (v & r & Hr & Hrv).
    rewrite (bind_val _ _ _ _ _ Hr).
    destruct r as [h|]; [|exists call; split; [exact Hid|left; auto]].
    destruct Hrv as [?|Hrv]; [done|].
    destruct (bcrypt_verify (vc_pin_buffer call) h) as [[]|] eqn:Ev; cbn [default from_option id];
      [|exists (clear_pin call); split; [apply Ha|left; auto]..].
    pose proof (keeps_calls_list b (set_faults v w)) as Hl.
    assert (total (list_messages_for_mailbox b)) as Ht.
    { unfold list_messages_for_mailbox. auto with total. }
    destruct (Ht (set_faults v w)) as (ms & w1 & E1). rewrite (bind_val _ _ _ _ _ E1).
    rewrite E1 in Hl. cbn in Hl. unfold same in Hl. cbn in Hl.
    unfold modify_call. rewrite bind_modify.
    match goal with |- context [box_column b vb_greeting_storage_key ≫= _] =>
      match goal with |- context [(_ ≫= _) ?w2] =>
        destruct (box_column_run b vb_greeting_storage_key w2) as (v2 & r2 & Hr2 & _);
        rewrite (bind_val _ _ _ _ _ Hr2) end end.
    eexists. split.
    + destruct r2; cbn; rewrite Hl; apply Ha.
    + right. cbn. split; [done|]. by exists h.
  - exists (clear_pin call). split; [apply Ha|left; auto].
  - eexists. split; [apply Ha|]. left. cbn. eauto 6.
Qed.

(** The same for a whole INFO request. *)
Lemma info_pin_step msg w call b mb :
  let cid := default [] (call_id msg) in
  w_voicemail_calls w !! cid = Some call -> vc_mode call = PinEntry b mb ->
  exists call', w_voicemail_calls (vm_handle_info cfg msg w).2 !! cid = Some call' /\
    ((vc_mode call' = PinEntry b mb /\
      (vc_pin_buffer call' = vc_pin_buffer call \/ vc_pin_buffer call' = [] \/
       exists d, parse_dtmf_relay (body msg) = Some (Digit d) /\
                 vc_pin_buffer call' = vc_pin_buffer call ++ [d])) \/
     (exists h, stored_hash w b = Some h /\ bcrypt_verify (vc_pin_buffer call) h = Some true)).
Proof.
  intros cid Hc Hm. unfold vm_handle_info. fold cid. rewrite bind_gets, Hc. cbn [fmap option_fmap option_map].
  rewrite Hm. destruct (parse_dtmf_relay (body msg)) as [dtmf|] eqn:Ed; [|exists call; auto].
  destruct (pin_step cid w call b mb dtmf Hc Hm) as (call' & Hcall & Hcases).
  exists call'. split.
  - unfold mbind, M_bind. destruct (handle_dtmf _ _ _ _ w) as [[[]|e|] w1]; cbn in *;
      by rewrite Hcall, lookup_insert_eq.
  - destruct Hcases as [[? [?|[?|(d & -> & ?)]]]|[_ ?]]; eauto 8.
Qed.

(** C18: a caller who has not entered the PIN does not get into the mailbox: a request
    takes a call out of PIN entry only if the digits collected so far verify against the
    hash stored for the mailbox. *)
Theorem pin_guards_mailbox msg w call b mb :
  let cid := default [] (call_id msg) in
  w_voicemail_calls w !! cid = Some call -> vc_mode call = PinEntry b mb ->
  exists call', w_voicemail_calls (vm_handle_info cfg msg w).2 !! cid = Some call' /\
    (vc_mode call' = PinEntry b mb \/
     exists h, stored_hash w b = Some h /\ bcrypt_verify (vc_pin_buffer call) h = Some true).
Proof.
  intros cid Hc Hm. destruct (info_pin_step msg w call b mb Hc Hm) as (c & Hl & Hcs).
  exists c. split; [done|]. destruct Hcs as [[? _]|?]; auto.
Qed.

(** The digits that reach the PIN buffer. *)
Definition menu_digits : str := "1279".

Lemma dtmf_of_signal_digit v d : dtmf_of_signal v = Some (Digit d) -> d ∉ menu_digits.
Proof.
  unfold dtmf_of_signal. repeat (case_decide; [done|]).
  destruct v as [|x [|]]; [done| |done]. case_match; [|done]. intros [= ->].
  unfold menu_digits. rewrite !elem_of_cons, elem_of_nil. naive_solver.
Qed.

Lemma parse_dtmf_relay_digit bd d : parse_dtmf_relay bd = Some (Digit d) -> d ∉ menu_digits.
Proof.
  unfold parse_dtmf_relay. induction (Str.lines bd) as [|l ls IH]; [done|]. cbn [find_map].
  destruct (Str.split_once "=" l) as [[n v]|]; cbn [mbind option_bind]; [|done].
  case_match eqn:E1; [|by apply IH]. destruct (Str.eq_ignore_case _ _); [|done].
  simplify_eq. intros [= ->]. by eapply dtmf_of_signal_digit.
Qed.

Definition run_infos (msgs : list SipMessage) (w : World) : World :=
  foldl (fun w m => (vm_handle_info cfg m w).2) w msgs.

Lemma info_keeps_boxes msg : moves (same w_voicemail_boxes) (vm_handle_info cfg msg).
Proof.
  unfold vm_handle_info, handle_dtmf, go_to, play_message_at_index, delete_message_at_index,
    message_to_delete, remove_from_playback, save_message_at_index, check_pin, modify_playback, modify_call, media_remove, spawn,
    box_column, list_messages_for_mailbox, notify_mailbox, message_counts, enqueue_webhook, json_rows,
    mwi_notify_one, udp_send, emit, set_mwi_cseq.
  solve_moves.
Qed.

(** A PIN with one of the digits 1, 2, 7 or 9 can never be entered: the menu takes
    those signals, they never reach the PIN buffer, and a mailbox whose hash accepts only
    such PINs stays closed however long the caller types. *)
Theorem pin_with_menu_digit_never_opens cid msgs w b mb h caller callee :
  Forall (fun m => default [] (call_id m) = cid) msgs ->
  w_voicemail_calls w !! cid =
    Some {| vc_mode := PinEntry b mb; vc_caller := caller; vc_callee := callee; vc_pin_buffer := [] |} ->
  stored_hash w b = Some h ->
  (forall pin, bcrypt_verify pin h = Some true -> exists d, d ∈ pin /\ d ∈ menu_digits) ->
  exists call', w_voicemail_calls (run_infos msgs w) !! cid = Some call' /\
    vc_mode call' = PinEntry b mb.
Proof.
  intros Hmsgs Hc Hh Hpin.
  assert (exists call, w_voicemail_calls w !! cid = Some call /\ vc_mode call = PinEntry b mb /\
            Forall (fun d => d ∉ menu_digits) (vc_pin_buffer call)) as Hstart by (eexists; eauto).
  clear Hc. revert w Hh Hstart. induction Hmsgs as [|m msgs Hcid _ IH]; intros w Hh (call & Hc & Hm & Hb).
  { by exists call. }
  cbn [run_infos foldl]. apply IH.
  { unfold stored_hash, find_box. by rewrite (info_keeps_boxes m w). }
  subst cid. destruct (info_pin_step m w call b mb Hc Hm) as (call' & Hl & [[Hmode Hbuf]|(h' & Hh' & Hv)]).
  - exists call'. split_and!; [done..|]. destruct Hbuf as [->|[->|(d & Hd & ->)]]; [done|constructor|].
    apply Forall_app. split; [done|]. constructor; [|constructor]. by apply parse_dtmf_relay_digit in Hd.
  - assert (h' = h) as -> by congruence. destruct (Hpin _ Hv) as (d & Hd & Hmenu).
    rewrite Forall_forall in Hb. by destruct (Hb d Hd).
Qed.
End pin.

(** ** Facts: recordings *)

Section recordings.
Context `{!Digests, !Bcrypt} (cfg : Config).

Lemma vm_cancel_effect msg w cid :
  cid = default [] (call_id msg) -> cid <> [] -> cid ∈ recording (w_recording_state w) ->
  let w' := (vm_handle_cancel msg w).2 in
  cid ∈ canceled (w_recording_state w') /\ w_voicemail_messages w' = w_voicemail_messages w /\
  w_files w' = w_files w /\ w_faults w' = w_faults w.
Proof.
  intros -> Hne Hrec. unfold vm_handle_cancel. destruct (default [] (call_id msg)) as [|c cid]; [done|].
  cbn [Str.is_empty]. unfold mark_recording_canceled, cancel_no_answer_timer, media_remove, modify.
  unfold mbind, M_bind. rewrite decide_True by done. cbn.
  destruct (cancel_timer _ _) as [[h a] ts]. cbn. split_and!; [set_solver|done..].
Qed.

Lemma finish_canceled r key secs w path :
  rs_call_id r ∈ canceled (w_recording_state w) -> w_faults w = [] ->
  path_for_key (voicemail_storage_dir cfg) key = Ok path ->
  let w' := (finish_recording cfg r (Ok (key, secs)) w).2 in
  w_voicemail_messages w' = w_voicemail_messages w /\ w_files w' = delete path (w_files w) /\
  rs_call_id r ∉ recording (w_recording_state w') /\ w_voicemail_calls w' !! rs_call_id r = None.
Proof.
  intros Hc Hf Hp. unfold finish_recording, media_remove, should_persist_recording, modify.
  unfold mbind, M_bind. cbn. rewrite bool_decide_eq_true_2 by done. cbn.
  unfold storage_delete, fault, modify, mbind, M_bind, delete_key. cbn. rewrite Hf, Hp. cbn.
  rewrite lookup_delete_eq. split_and!; [done| |set_solver|done].
  destruct (w_files w !! path) eqn:E; cbn; [done|]. by rewrite delete_id.
Qed.

Lemma lookup_enabled_box_run u d w :
  exists v r, lookup_enabled_box u d w = (Val r, set_faults v w) /\ (r = None \/ r = enabled_box u d w).
Proof.
  unfold lookup_enabled_box. destruct (attempt_query_gets (enabled_box u d) w) as (v & r & Hr & Hc);
    [done|]. exists v, (mjoin r). rewrite (bind_val _ _ _ _ _ Hr). split; [done|].
  destruct Hc as [->| ->]; auto.
Qed.

(** A recording whose caller cancelled is never stored: after the CANCEL of a call that
    is being recorded, the end of the recording task inserts no message and removes the
    audio file, and the Call-ID is free again. *)
Theorem canceled_recording_discarded msg w r key secs path :
  rs_call_id r = default [] (call_id msg) -> rs_call_id r <> [] ->
  rs_call_id r ∈ recording (w_recording_state w) -> w_faults w = [] ->
  path_for_key (voicemail_storage_dir cfg) key = Ok path ->
  let w' := (finish_recording cfg r (Ok (key, secs)) (vm_handle_cancel msg w).2).2 in
  w_voicemail_messages w' = w_voicemail_messages w /\ w_files w' = delete path (w_files w) /\
  rs_call_id r ∉ recording (w_recording_state w') /\ w_voicemail_calls w' !! rs_call_id r = None.
Proof.
  intros Hid Hne Hrec Hf Hp.
  destruct (vm_cancel_effect msg w _ Hid Hne Hrec) as (Hc & Hm & Hfi & Hfa).
  destruct (finish_canceled r key secs (vm_handle_cancel msg w).2 path Hc) as (E1 & E2 & E3 & E4);
    [by rewrite Hfa|done|]. cbv zeta. rewrite E1, E2, Hm, Hfi. auto.
Qed.

(** Voicemail only records what it may: a delivery that starts a recording has a caller
    with an enabled account, a mailbox of the callee that is enabled and not full, and an
    offer that could be negotiated; the recording is for that mailbox and that caller. *)
Theorem delivery_requires msg callee w r :
  TaskRecord r ∈ w_tasks (handle_delivery_invite cfg msg callee w).2 ->
  TaskRecord r ∉ w_tasks w ->
  exists caller box n,
    delivery_caller (from_header msg) = Some caller /\
    account_enabled w caller (sip_domain cfg) = true /\
    enabled_box callee (sip_domain cfg) w = Some box /\
    kept_messages w (vb_id box) < vb_max_messages box /\
    negotiate_offer (body msg) = Ok n /\
    rs_box_id r = vb_id box /\ rs_caller r = caller /\ rs_call_id r = default [] (call_id msg).
Proof.
  unfold handle_delivery_invite. intros Hin Hnot. revert Hin.
  destruct (Str.is_empty _ || _)%bool; [done|].
  rewrite (bind_val _ _ _ _ _ (eq_refl (track_recording_candidate (default [] (call_id msg)) w))).
  set (w0 := set_recording_state _ w). change (w_tasks w) with (w_tasks w0) in Hnot.
  assert (forall A (m : M A) (w1 : World) (P : Prop), moves (same w_tasks) m ->
    w_tasks w1 = w_tasks w0 -> TaskRecord r ∈ w_tasks (m w1).2 -> P) as Hno.
  { intros A m w1 P Hm Hw1 Hin. rewrite (Hm w1), Hw1 in Hin. done. }
  assert (forall tracked (m : M str), moves (same w_tasks) m -> moves (same w_tasks)
    (_ ← discard_recording_candidate (default [] (call_id msg)) tracked; m)) as Hdisc
    by (intros; unfold discard_recording_candidate; solve_moves; done).
  destruct (negb _); [apply Hno; [solve_moves|done]|].
  destruct (delivery_caller (from_header msg)) as [caller|] eqn:Ecaller;
    [|apply Hno; [apply Hdisc; solve_moves|done]].
  destruct (attempt_query_gets (fun w => account_enabled w caller (sip_domain cfg)) w0)
    as (v1 & a & Ha & Hac); [done|]. unfold db_account_exists. rewrite (bind_val _ _ _ _ _ Ha).
  destruct Hac as [->| ->]; [apply Hno; [apply Hdisc; solve_moves|done]|].
  destruct (account_enabled w0 caller _) eqn:Eacc; [|apply Hno; [apply Hdisc; solve_moves|done]].
  edestruct (lookup_enabled_box_run callee) as (v2 & b & Hb & Hbc). rewrite (bind_val _ _ _ _ _ Hb).
  destruct b as [box|]; [|apply Hno; [apply Hdisc; solve_moves|done]].
  destruct Hbc as [?|Hbox]; [done|].
  edestruct (attempt_query_gets (fun w => vb_max_messages box <=? kept_messages w (vb_id box)))
    as (v3 & f & Hf & Hfc); [done|]. unfold mailbox_is_full. rewrite (bind_val _ _ _ _ _ Hf).
  destruct Hfc as [->| ->]; [apply Hno; [apply Hdisc; solve_moves|done]|].
  destruct (_ <=? _) eqn:Efull; [apply Hno; [apply Hdisc; solve_moves|done]|].
  destruct (negotiate_offer (body msg)) as [n|] eqn:En; [|apply Hno; [apply Hdisc; solve_moves|done]].
  match goal with |- context [(media_allocate _ ?cid ?c ?a ?t ≫= _) ?w4] =>
    destruct (allocate_total cfg cid c a t w4) as (res & w5 & E5);
    pose proof (keeps_tasks_allocate cfg cid c a t w4) as H5; rewrite E5 in H5;
    rewrite (bind_val _ _ _ _ _ E5) end.
  destruct res as [p|]; [|apply Hno; [apply Hdisc; solve_moves|done]].
  unfold build_local_ok. rewrite bind_assoc.
  assert (total (random_uint 8)) as Hr8 by apply total_random_uint.
  pose proof (moves_random_uint (R := same w_tasks) 8 w5) as H6.
  destruct (Hr8 w5) as (sid & w6 & E6). rewrite E6 in H6. rewrite (bind_val _ _ _ _ _ E6).
  cbn [fst snd same] in *. unfold spawn.
  erewrite bind_val by reflexivity. rewrite !bind_modify. cbn [w_tasks mret M_ret snd].
  intros Hin. cbn in Hin. rewrite H6, H5 in Hin. apply elem_of_app in Hin as [Hin|Hin]; [done|].
  apply list_elem_of_singleton in Hin as [= ->].
  exists caller, box, n. bool_simpl. split_and!; try done.
Qed.

(** Choosing another message never plays it: the handler drops the call's media session
    just before it starts the playback task, which then finds no session to play on. *)
Theorem chosen_message_never_plays cid w mb ms j i m :
  playback w cid = Some (mb, ms, j) -> ms !! i = Some m ->
  let w' := (go_to cid i w).2 in
  TaskPlay cid (vm_storage_key m) ∈ w_tasks w' /\
  forall ssrc seq ts, exists e, (play_wav cfg cid (vm_storage_key m) ssrc seq ts w').1 = Val (Err e).
Proof.
  intros Hp Hm w'. unfold w', go_to, modify_playback, play_message_at_index, media_remove, spawn.
  rewrite bind_modify, bind_gets.
  match goal with |- context [playback ?w1 cid] =>
    assert (playback w1 cid = Some (mb, ms, i)) as -> end.
  { unfold playback in *. cbn. rewrite lookup_alter_eq.
    destruct (w_voicemail_calls w !! cid) as [call|]; [|done]. cbn in *.
    destruct (vc_mode call) as [| |mb' b' ms' j'] eqn:Emd; by simplify_eq. }
  rewrite Hm, bind_modify. cbn. split; [set_solver|]. intros ssrc seq ts.
  rewrite lookup_delete_eq. by eexists.
Qed.
End recordings.

(** ** Examples *)

Definition toy_bcrypt : Bcrypt := {| bcrypt_verify pin hash := Some (bool_decide (pin = hash)) |}.

Definition sample_message (id : Z) : VoicemailMessage :=
  {| vm_id := id; vm_box_id := 1; vm_caller := "bob"; vm_callee := "alice"; vm_call_id := "r";
     vm_duration_secs := 3; vm_storage_key := "alice/r.wav"; vm_status := VOICEMAIL_STATUS_NEW;
     vm_created_at := 1699999000 + id; vm_heard_at := None |}.

Definition sample_box : VoicemailBox :=
  {| vb_id := 1; vb_username := "alice"; vb_domain := "sip.example.com"; vb_enabled := 1;
     vb_no_answer_secs := 25; vb_max_message_secs := 120; vb_max_messages := 100;
     vb_greeting_storage_key := None; vb_pin_hash := Some "1234"; vb_email := None |}.

(** A mailbox with two messages, [mode] the state of its owner's call [v1]. *)
Definition ivr_world (mode : VoicemailMode) (pin : str) : World :=
  set_voicemail_calls {[ "v1" := {| vc_mode := mode; vc_caller := "alice"; vc_callee := "alice";
                                    vc_pin_buffer := pin |} ]}
  (set_voicemail_messages [sample_message 1; sample_message 2]
  (set_voicemail_boxes [sample_box] sample_world)).

Definition info (signal : str) : SipMessage := message_of (render "INFO sip:*97@sip.example.com SIP/2.0"
  [("Via", "SIP/2.0/UDP 198.51.100.7:5062"); ("From", "<sip:alice@sip.example.com>;tag=1");
   ("To", "<sip:*97@sip.example.com>;tag=vm"); ("Call-ID", "v1"); ("CSeq", "3 INFO");
   ("Content-Type", "application/dtmf-relay")] ("Signal=" ++ signal)).

Lemma pin_guards_mailbox_witness :
  exists call', w_voicemail_calls (@vm_handle_info toy_digests toy_bcrypt sample_config (info "#")
      (ivr_world (PinEntry 1 "alice") "34")).2 !! "v1" = Some call' /\
    (vc_mode call' = PinEntry 1 "alice" \/
     exists h, stored_hash (ivr_world (PinEntry 1 "alice") "34") 1 = Some h /\
       @bcrypt_verify toy_bcrypt "34" h = Some true).
Proof.
  assert (default [] (call_id (info "#")) = "v1") as E by by_decide.
  pose proof (@pin_guards_mailbox toy_digests toy_bcrypt sample_config (info "#")
    (ivr_world (PinEntry 1 "alice") "34")
    {| vc_mode := PinEntry 1 "alice"; vc_caller := "alice"; vc_callee := "alice";
       vc_pin_buffer := "34" |} 1 "alice") as Hpin.
  cbv zeta in Hpin. rewrite E in Hpin. apply Hpin; reflexivity.
Defined.

Lemma pin_with_menu_digit_never_opens_witness :
  exists call', w_voicemail_calls (@run_infos toy_digests toy_bcrypt sample_config
      [info "1"; info "2"; info "3"; info "4"; info "#"] (ivr_world (PinEntry 1 "alice") [])) !! "v1" =
    Some call' /\ vc_mode call' = PinEntry 1 "alice".
Proof.
  eapply (@pin_with_menu_digit_never_opens toy_digests toy_bcrypt sample_config "v1" _ _ 1 "alice"
    "1234" "alice" "alice"); [by_decide|reflexivity|reflexivity|].
  intros pin. cbn. intros [= ->%bool_decide_eq_true_1]. exists "1"%char. split; by_decide.
Defined.

Definition recording_world : World :=
  set_files {[ "/var/lib/sip3/alice/r.wav" := [1; 2; 3] ]}
  (set_recording_state {| recording := {[ "v1" ]}; canceled := ∅ |} sample_world).

Definition sample_recording : RecordingStart :=
  {| rs_call_id := "v1"; rs_box_id := 1; rs_mailbox := "alice"; rs_domain := "sip.example.com";
     rs_caller := "bob"; rs_callee := "alice"; rs_max_message_secs := 120 |}.

Definition sample_cancel : SipMessage := message_of (render "CANCEL sip:alice@sip.example.com SIP/2.0"
  [("From", "<sip:bob@sip.example.com>;tag=1"); ("Call-ID", "v1"); ("CSeq", "7 CANCEL")] "").

Lemma canceled_recording_discarded_witness :
  let w' := (@finish_recording toy_digests sample_config sample_recording (Ok ("alice/r.wav", 3))
    (vm_handle_cancel sample_cancel recording_world).2).2 in
  w_voicemail_messages w' = [] /\ w_files w' = ∅.
Proof.
  destruct (@canceled_recording_discarded toy_digests sample_config sample_cancel recording_world
    sample_recording "alice/r.wav" 3 "/var/lib/sip3/alice/r.wav") as (E1 & E2 & _);
    [by_decide|by_decide|by_decide|done|by vm_compute|].
  cbv zeta. rewrite E1, E2. split; by_decide.
Defined.

Definition delivery_invite : SipMessage := message_of (render "INVITE sip:alice@sip.example.com SIP/2.0"
  [("From", "<sip:bob@sip.example.com>;tag=1"); ("To", "<sip:alice@sip.example.com>");
   ("Call-ID", "v1"); ("CSeq", "7 INVITE")] sample_offer).

Definition delivered_recording : RecordingStart :=
  {| rs_call_id := "v1"; rs_box_id := 1; rs_mailbox := "alice"; rs_domain := "sip.example.com";
     rs_caller := "bob"; rs_callee := "alice"; rs_max_message_secs := 120 |}.

Lemma delivery_requires_witness :
  let w := set_voicemail_boxes [sample_box] sample_world in
  exists caller box n, delivery_caller (from_header delivery_invite) = Some caller /\
    account_enabled w caller "sip.example.com" = true /\
    enabled_box "alice" "sip.example.com" w = Some box /\
    negotiate_offer (body delivery_invite) = Ok n.
Proof.
  intros w. destruct (delivery_requires sample_config
    delivery_invite "alice" w delivered_recording) as (caller & box & n & H1 & H2 & H3 & _ & H4 & _).
  - assert (w_tasks (handle_delivery_invite sample_config delivery_invite "alice" w).2 =
      [TaskRecord delivered_recording]) as -> by (vm_compute; reflexivity). by left.
  - intros Hin. by apply elem_of_nil in Hin.
  - by exists caller, box, n.
Defined.

Lemma chosen_message_never_plays_witness :
  let w := ivr_world (Playback "alice" 1 [sample_message 2; sample_message 1] 0) [] in
  exists e, (play_wav sample_config "v1" "alice/r.wav" 1 2 3 (go_to "v1" 1 w).2).1 = Val (Err e).
Proof.
  intros w. apply (chosen_message_never_plays sample_config "v1" w "alice"
    [sample_message 2; sample_message 1] 0 1 (sample_message 1)); reflexivity.
Defined.
