(* ===== verification/HttpApi.v ===== *)
(** * The frame of the HTTP API: [backend/src/api/mod.rs], [backend/src/api/jwt.rs]

    Results and headers of the handlers, password hashing, tokens, and the two middlewares that
    guard the routes.  The axum router, CORS and JSON are outside the model: a handler takes the
    decoded body and returns the decoded answer. *)

From S2P Require Import Prelude RustStr Net Message SecurityGuard Acl Storage Sdp Media World.
From S2P Require Import Voicemail.

Open Scope str_scope.
Open Scope Z_scope.

(** ** Sums in MySQL *)

(** What sqlx makes of a DECIMAL column.  An average comes as its sum and count. *)
Class SqlDecimal := {
  F64 : Type;
  f64_zero : F64;
  decimal_i64 : Z -> option Z;
  decimal_f64 : Z -> Z -> option F64;
}.

(** ** Results *)

(** [Result<Json<Value>, (StatusCode, String)>] *)
Definition Api (A : Type) : Type := A + (Z * str).

Definition api_err {A} (code : Z) (text : str) : M (Api A) := mret (inr (code, text)).

(** [m?] in a handler. *)
Definition api_bind {A B} (m : M (Api A)) (k : A -> M (Api B)) : M (Api B) :=
  r ← m; match r with inl a => k a | inr e => mret (inr e) end.

Declare Scope api_scope.
Notation "x '<-?' m ; k" := (api_bind m (fun x => k))
  (at level 20, m at level 100, k at level 200, right associativity) : api_scope.
Open Scope api_scope.

(** [sqlx::query(..).await.map_err(|e| (StatusCode::INTERNAL_SERVER_ERROR, e.to_string()))] *)
Definition db {A} (m : M A) : M (Api A) :=
  r ← attempt (query m);
  mret (match r with Some a => inl a | None => inr (500, "database error") end).

(** [begin], the statements, [commit]; an error takes the tables back ([restore w w'] is [w']
    with the tables of [w]). *)
Definition transaction (restore : World -> World -> World) (m : M unit) : M (Api unit) := fun w =>
  match (_ ← query (mret tt); _ ← m; query (mret tt)) w with
  | (Val _, w') => (Val (inl tt), w')
  | (Fail e, w') => (Val (inr (500, e)), restore w w')
  | (Panicked, w') => (Panicked, restore w w')
  end.

(** [COALESCE(?, column)] *)
Definition coalesce {A} (new : option A) (old : A) : A := default old new.
Definition coalesce_opt {A} (new old : option A) : option A :=
  match new with Some _ => new | None => old end.

(** [text LIKE pattern]: [%] is any text, [_] one character, a backslash takes the next one
    literally. *)
Fixpoint sql_like (p : str) : str -> bool :=
  match p with
  | [] => Str.is_empty
  | c :: p' =>
      if decide (c = "%"%char) then
        fix star t := sql_like p' t || match t with [] => false | _ :: t' => star t' end
      else fun t =>
        match t with
        | [] => false
        | d :: t' =>
            if decide (c = "_"%char) then sql_like p' t'
            else if decide (c = Str.BACKSLASH) then
              match p' with
              | e :: p'' => bool_decide (e = d) && sql_like p'' t'
              | [] => bool_decide (c = d) && sql_like p' t'
              end
            else bool_decide (c = d) && sql_like p' t'
        end
  end.

(** [LIKE '%s%'] *)
Definition like_anywhere (s text : str) : bool := sql_like ("%" ++ s ++ "%") text.

(** ** Headers *)

(** [HeaderMap]: lower-case names, in the order they arrived. *)
Definition HeaderMap := list (str * str).

(** [HeaderValue::to_str] *)
Definition visible_ascii (c : ascii) : bool :=
  Str.between 32 126 c || bool_decide (c = Str.TAB).

Definition header_get (name : str) (hs : HeaderMap) : option str :=
  v ← snd <$> find_first (fun kv => bool_decide (kv.1 = name)) hs;
  if forallb visible_ascii v then Some v else None.

(** ** Passwords: the bcrypt crate *)

Class BcryptHash := { bcrypt_hash : Z -> str -> option str }.

Class BcryptLaws `{Bcrypt, BcryptHash} : Prop := {
  bcrypt_verify_hash salt p h : bcrypt_hash salt p = Some h -> bcrypt_verify p h = Some true;
}.

Definition toy_bcrypt_hash : BcryptHash := {| bcrypt_hash _ p := Some p |}.

Lemma toy_bcrypt_laws : @BcryptLaws toy_bcrypt toy_bcrypt_hash.
Proof. constructor. intros salt p h [= <-]. cbn. by rewrite bool_decide_eq_true_2. Qed.

(** [bcrypt::hash(password, DEFAULT_COST)]: a salt of sixteen random bytes. *)
Definition hash_password `{BcryptHash} (password : str) : M (Api str) :=
  salt ← random_uint 16;
  mret (match bcrypt_hash salt password with
        | Some h => inl h
        | None => inr (500, "bcrypt error")
        end).

(** [verify(password, hash)?] *)
Definition verify_password `{Bcrypt} (password hash : str) : M (Api bool) :=
  mret (match bcrypt_verify password hash with
        | Some b => inl b
        | None => inr (500, "bcrypt error")
        end).

(** ** Tokens: [backend/src/api/jwt.rs], the jsonwebtoken crate *)

Record Claims := {
  cl_sub : str;
  cl_iat : Z;
  cl_exp : Z;
}.

(** [jwt_encode secret claims] and [jwt_decode secret now token], HS256. *)
Class Jwt := {
  jwt_encode : str -> Claims -> option str;
  jwt_decode : str -> Z -> str -> option Claims;
}.

(** Encoding succeeds; a token decodes under its own secret until a minute after its expiry. *)
Class JwtLaws `{Jwt} : Prop := {
  jwt_encode_total secret c : is_Some (jwt_encode secret c);
  jwt_decode_encode secret c token now :
    jwt_encode secret c = Some token -> 0 <= cl_exp c ->
    jwt_decode secret now token = if now - 60 <=? cl_exp c then Some c else None;
}.

(** [n as i64] for a [u64], and the wrap of [i64] addition. *)
Definition wrap_i64 (n : Z) : Z := (n + 2 ^ 63) mod 2 ^ 64 - 2 ^ 63.

Lemma wrap_i64_small n : - 2 ^ 63 <= n < 2 ^ 63 -> wrap_i64 n = n.
Proof. intros Hn. unfold wrap_i64. rewrite Z.mod_small; lia. Qed.

Definition issue_token `{Jwt} (username secret : str) (expiry_secs : Z) : M (Api str) :=
  now ← unix_secs;
  let claims := {| cl_sub := username; cl_iat := now;
                   cl_exp := wrap_i64 (now + wrap_i64 expiry_secs) |} in
  mret (match jwt_encode secret claims with
        | Some token => inl token
        | None => inr (500, "jwt error")
        end).

Definition verify_token `{Jwt} (now : Z) (token secret : str) : option Claims :=
  jwt_decode secret now token.

(** ** Middlewares *)

Definition extract_bearer_token (hs : HeaderMap) : option str :=
  v ← header_get "authorization" hs; Str.strip_prefix "Bearer " v.

Section middleware.
Context `{Jwt} (cfg : Config) (jwt_secret : str).

(** The claims put into the request, or 401. *)
Definition require_jwt (now : Z) (hs : HeaderMap) : option Claims :=
  token ← extract_bearer_token hs; verify_token now token jwt_secret.

Definition api_key_matches (hs : HeaderMap) : bool :=
  match auth_api_key cfg with
  | Some key => bool_decide (header_get "x-api-key" hs = Some key)
  | None => false
  end.

(** May the request pass? *)
Definition require_auth (now : Z) (hs : HeaderMap) : bool :=
  bool_decide (is_Some (require_jwt now hs)) || api_key_matches hs.

(** The routes behind [require_jwt] and behind [require_auth]. *)
Definition jwt_route {A} (hs : HeaderMap) (handler : Claims -> M (Api A)) : M (Api A) :=
  now ← unix_secs;
  match require_jwt now hs with
  | Some claims => handler claims
  | None => api_err 401 ""
  end.

Definition protected_route {A} (hs : HeaderMap) (handler : M (Api A)) : M (Api A) :=
  now ← unix_secs;
  if require_auth now hs then handler else api_err 401 "".
End middleware.

(** ** Facts *)

Definition no_wildcard (c : ascii) : Prop := c <> "%"%char /\ c <> "_"%char /\ c <> Str.BACKSLASH.

Lemma like_all t : sql_like "%" t = true.
Proof. induction t as [|c t IH]; [done|exact IH]. Qed.

Lemma like_prefix s t :
  Forall no_wildcard s -> sql_like (s ++ "%") t = Str.starts_with s t.
Proof.
  intros Hs. revert t. induction Hs as [|c s (H1 & H2 & H3) _ IH]; intros t.
  { etrans; [apply like_all|]. by destruct t. }
  transitivity (match t with [] => false | d :: t' => bool_decide (c = d) && sql_like (s ++ "%") t' end).
  { cbn [app sql_like]. rewrite decide_False by done. destruct t as [|d t]; [done|].
    cbv beta iota. by rewrite !decide_False. }
  destruct t as [|d t]; [done|]. rewrite IH. unfold Str.starts_with. cbn [Str.strip_prefix].
  case_bool_decide; case_decide; simplify_eq; done.
Qed.

(** Without wildcards in the text it is the search for that text. *)
Lemma like_anywhere_contains s t :
  Forall no_wildcard s -> like_anywhere s t = Str.contains s t.
Proof.
  intros Hs. unfold like_anywhere. change ("%" ++ s ++ "%") with ("%"%char :: s ++ "%").
  cbn [sql_like]. rewrite decide_True by done.
  induction t as [|d t IH]; cbn; rewrite like_prefix by done; [by destruct s|]. by rewrite IH.
Qed.

Lemma api_bind_ok {A B} (m : M (Api A)) (k : A -> M (Api B)) w a w' :
  m w = (Val (inl a), w') -> api_bind m k w = k a w'.
Proof. intros H. unfold api_bind. by rewrite (bind_val _ _ _ _ _ H). Qed.

Lemma api_bind_err {A B} (m : M (Api A)) (k : A -> M (Api B)) w e w' :
  m w = (Val (inr e), w') -> api_bind m k w = (Val (inr e), w').
Proof. intros H. unfold api_bind. by rewrite (bind_val _ _ _ _ _ H). Qed.

(** A statement succeeds, or nothing happens but the passing of a fault. *)
Lemma db_cases {A} (m : M A) w :
  (exists v r, db m w = (Val (inr r), set_faults v w)) \/
  exists v, w_faults (set_faults v w) = v /\
    db m w = (r ← attempt m;
              mret (match r with Some a => inl a | None => inr (500, "database error") end))
             (set_faults v w).
Proof.
  unfold db, query, fault. unfold attempt, mbind, M_bind.
  destruct (w_faults w) as [|[] v] eqn:E; cbn.
  - right. exists []. split; [done|]. replace (set_faults [] w) with w; [done|].
    destruct w; cbn in *; by subst.
  - left. by eexists v, _.
  - right. by exists v.
Qed.

(** What made a handler succeed. *)
Lemma api_bind_inv {A B} (m : M (Api A)) (k : A -> M (Api B)) w b w' :
  api_bind m k w = (Val (inl b), w') ->
  exists a w1, m w = (Val (inl a), w1) /\ k a w1 = (Val (inl b), w').
Proof.
  unfold api_bind, mbind, M_bind. destruct (m w) as [[[a|e]|e|] w1] eqn:E; [|done..]. eauto.
Qed.

Lemma db_inv {A} (m : M A) w a w' :
  db m w = (Val (inl a), w') -> exists v, m (set_faults v w) = (Val a, w').
Proof.
  destruct (db_cases m w) as [(v & r & E)|(v & _ & E)]; rewrite E; [done|].
  unfold attempt, mbind, M_bind. destruct (m _) as [[a'|e|] w1] eqn:Em; cbn; [|done..].
  intros [= -> ->]. eauto.
Qed.

Lemma db_ok {A} (m : M A) w a w' : w_faults w = [] -> m w = (Val a, w') -> db m w = (Val (inl a), w').
Proof. intros Hf Hm. unfold db, attempt, mbind, M_bind. by rewrite query_ok, Hm. Qed.

(** A read gives its value or the error; either way only a fault is used up. *)
Lemma db_gets {A} (f : World -> A) w :
  (forall v w, f (set_faults v w) = f w) ->
  exists v, db (gets f) w = (Val (inl (f w)), set_faults v w) \/
            db (gets f) w = (Val (inr (500, "database error")), set_faults v w).
Proof.
  intros Hf. unfold db, attempt, mbind, M_bind.
  destruct (query_gets_cases f w) as [v [E|[e E]]]; rewrite E; exists v; [left|by right].
  cbn. by rewrite Hf.
Qed.

(** A write happens, or the database fails; without a fault it happens. *)
Lemma write_run (g : World -> World) w w1 :
  g w = w1 -> (forall v, g (set_faults v w) = set_faults v (g w)) ->
  (exists v, (query (modify g) w).2 = set_faults v w \/ (query (modify g) w).2 = set_faults v w1) /\
  (w_faults w = [] -> query (modify g) w = (Val tt, w1)).
Proof.
  intros <- Hv. unfold query, fault, modify, mbind, M_bind.
  destruct (w_faults w) as [|[] v] eqn:E; cbn.
  - split; [|done]. exists []. right. rewrite <-Hv. f_equal. destruct w; cbn in *; by subst.
  - split; [|done]. exists v. by left.
  - split; [|done]. exists v. right. by rewrite Hv.
Qed.

(** Steps that only log, before the answer. *)
Lemma total_then {A B} (m : M A) (b : B) w : total m -> ((_ ← m; mret b) w).1 = Val b.
Proof. intros Hm. destruct (Hm w) as (a & w' & E). by rewrite (bind_val _ _ _ _ _ E). Qed.

(** *** Frames *)

Section frames.
Context {R : relation World} `{!IoFrame R}.

Lemma moves_api_bind {A B} (m : M (Api A)) (k : A -> M (Api B)) :
  moves R m -> (forall a, moves R (k a)) -> moves R (api_bind m k).
Proof. intros Hm Hk. apply moves_bind; [done|]. intros [a|e]; [apply Hk|apply moves_ret]. Qed.

Lemma moves_db {A} (m : M A) : moves R m -> moves R (db m).
Proof.
  intros Hm. apply moves_bind; [by apply moves_attempt, moves_query|]. intros; apply moves_ret.
Qed.

Lemma moves_transaction restore m :
  moves R m -> (forall w w', R w (restore w w')) -> moves R (transaction restore m).
Proof.
  intros Hm Hr w. unfold transaction.
  assert (moves R (_ ← query (mret tt); _ ← m; query (mret tt))) as Hall.
  { apply moves_bind; [apply moves_query, moves_ret|intros _].
    apply moves_bind; [done|intros _]. apply moves_query, moves_ret. }
  specialize (Hall w). revert Hall. generalize ((_ ← query (mret tt); _ ← m; query (mret tt)) w).
  intros [[a|e|] w'] Hall; cbn; [done|apply Hr..].
Qed.

Lemma moves_hash_password `{!BcryptHash} p : moves R (hash_password p).
Proof. apply moves_bind; [apply moves_random_uint|intros; apply moves_ret]. Qed.
End frames.

(** Hashing only uses up random bytes, and a hash that was made verifies its password. *)
Lemma random_uint_run n w : exists x r, random_uint n w = (Val x, set_random r w).
Proof.
  revert w. induction n as [|n IH]; intros w; cbn [random_uint].
  { exists 0, (w_random w). by destruct w. }
  assert (exists b r, random_byte w = (Val b, set_random r w)) as (b & r & E).
  { unfold random_byte. destruct (w_random w) as [|b bs] eqn:E; [|eauto].
    exists 0, []. by destruct w; cbn in *; subst. }
  rewrite (bind_val _ _ _ _ _ E). destruct (IH (set_random r w)) as (x & r' & E').
  rewrite (bind_val _ _ _ _ _ E'). by eexists _, r'.
Qed.

Lemma hash_password_inv `{!BcryptHash} p w h w1 :
  hash_password p w = (Val (inl h), w1) ->
  exists salt r, bcrypt_hash salt p = Some h /\ w1 = set_random r w.
Proof.
  unfold hash_password. destruct (random_uint_run 16 w) as (salt & r & E).
  rewrite (bind_val _ _ _ _ _ E). intros Hr.
  destruct (bcrypt_hash salt p) as [h'|] eqn:Eh; inversion Hr; subst. by exists salt, r.
Qed.

(** [keeps P]: the invariant [P] survives. *)
Definition keeps (P : World -> Prop) : relation World := fun w w' => P w -> P w'.

#[export] Instance keeps_preorder P : PreOrder (keeps P).
Proof. split; [by intros w Hw|]. intros x y z Hxy Hyz Hx. by apply Hyz, Hxy. Qed.

#[export] Hint Extern 0 (IoFrame (keeps _)) =>
  (split; [apply keeps_preorder|intros ???; assumption|intros ???; assumption]) : typeclass_instances.

Lemma keeps_same {A T} (f : World -> T) (P : World -> Prop) (m : M A) :
  (forall w w', f w' = f w -> P w -> P w') -> moves (same f) m -> moves (keeps P) m.
Proof. intros HP Hm w. unfold keeps. apply HP, Hm. Qed.

(** Follow a handler of the API; what is left are its writes. *)
Ltac solve_api :=
  repeat first
    [ match goal with |- forall _, _ => intro end
    | moves_leaf
    | simple apply moves_api_bind | simple apply moves_db | simple apply moves_hash_password
    | simple apply moves_bind | simple apply moves_query | simple apply moves_ignore
    | simple apply moves_attempt | simple apply moves_when | simple apply moves_for_each
    | progress cbv beta iota zeta
    | match goal with |- moves _ (match ?x with _ => _ end) => destruct x end ].

(** ** The guarded routes *)

Section routes.
Context `{!Jwt} (cfg : Config) (secret : str).

(** Without a valid token or the configured key, a protected route has no effect at all. *)
Lemma protected_route_refused {A} hs (h : M (Api A)) w :
  require_auth cfg secret (w_now w / 1000000000) hs = false ->
  protected_route cfg secret hs h w = (Val (inr (401, "")), w).
Proof. intros Ha. unfold protected_route, unix_secs. rewrite bind_gets. by rewrite Ha. Qed.

Lemma jwt_route_refused {A} hs (h : Claims -> M (Api A)) w :
  require_jwt secret (w_now w / 1000000000) hs = None ->
  jwt_route secret hs h w = (Val (inr (401, "")), w).
Proof. intros Ha. unfold jwt_route, unix_secs. rewrite bind_gets. by rewrite Ha. Qed.

(** No configured key: only a token opens a protected route. *)
Lemma require_auth_token now hs :
  auth_api_key cfg = None ->
  require_auth cfg secret now hs = bool_decide (is_Some (require_jwt secret now hs)).
Proof. intros Hk. unfold require_auth, api_key_matches. rewrite Hk. by rewrite orb_false_r. Qed.
End routes.

(** A reading of the token crate: the token is the bits of the secret and the claims. *)
Fixpoint bits (p : positive) : str :=
  match p with
  | xH => []
  | xO p => "0"%char :: bits p
  | xI p => "1"%char :: bits p
  end.

Fixpoint of_bits (s : str) : positive :=
  match s with
  | [] => xH
  | c :: s => if decide (c = "0"%char) then xO (of_bits s) else xI (of_bits s)
  end.

Lemma of_bits_bits p : of_bits (bits p) = p.
Proof. induction p as [p IH|p IH|]; cbn; by rewrite ?IH. Qed.

Definition toy_jwt : Jwt := {|
  jwt_encode secret c := Some (bits (encode (secret, cl_sub c, cl_iat c, cl_exp c)));
  jwt_decode secret now token :=
    match decode (of_bits token) with
    | Some (s, sub, iat, exp) =>
        if bool_decide (s = secret) && (now - 60 <=? exp)
        then Some {| cl_sub := sub; cl_iat := iat; cl_exp := exp |} else None
    | None => None
    end |}.

Lemma toy_jwt_laws : @JwtLaws toy_jwt.
Proof.
  split; [by eexists|]. intros secret [sub iat exp] token now [= <-] _. cbn -[encode decode].
  by rewrite of_bits_bits, decode_encode, bool_decide_eq_true_2.
Qed.
