(* ===== verification/Webhooks.v ===== *)
(** * Webhooks: [backend/src/api/webhook_dispatcher.rs], [backend/src/api/webhooks.rs]

    The outbox of events, the worker that posts them, and the administration of the
    subscriptions.  [enqueue] itself, which the SIP handlers call, is in [World]. *)

From S2P Require Import Prelude RustStr Net Message SecurityGuard Acl Storage Sdp Media World.
From S2P Require Import HttpApi.

Open Scope str_scope.
Open Scope Z_scope.

(** ** The outside: the HTTP client, the signature and the JSON text *)

Inductive PostOutcome := Responded (status : Z) | PostError (e : str).

(** What the client reports for a request sent at a time; the request itself is recorded in
    [w_posts]. *)
Class WebhookIo := {
  post : Z -> PostRequest -> PostOutcome;
  hmac_sha256_hex : str -> str -> str;
  json_text : list (str * str) -> str;
}.

(** ** The worker *)

Definition MAX_ATTEMPTS : Z := 10.

Definition backoff_secs (next_attempt : Z) : Z :=
  Z.min 60 (60 * Z.shiftl 1 (Z.min next_attempt 6)).

Definition update_delivery (id : Z) (f : Delivery -> Delivery) (w : World) : World :=
  set_deliveries (map (fun d => if wd_id d =? id then f d else d) (w_deliveries w)) w.

Definition set_delivered (now : Z) (d : Delivery) : Delivery :=
  {| wd_id := wd_id d; wd_webhook_id := wd_webhook_id d; wd_event_type := wd_event_type d;
     wd_payload := wd_payload d; wd_status := "delivered"; wd_attempts := wd_attempts d;
     wd_last_error := None; wd_next_retry_at := wd_next_retry_at d;
     wd_delivered_at := Some now |}.

Definition set_dead (attempts : Z) (err : str) (d : Delivery) : Delivery :=
  {| wd_id := wd_id d; wd_webhook_id := wd_webhook_id d; wd_event_type := wd_event_type d;
     wd_payload := wd_payload d; wd_status := "dead"; wd_attempts := attempts;
     wd_last_error := Some err; wd_next_retry_at := wd_next_retry_at d;
     wd_delivered_at := wd_delivered_at d |}.

Definition set_failed (attempts : Z) (err : str) (retry_at : option Z) (d : Delivery) : Delivery :=
  {| wd_id := wd_id d; wd_webhook_id := wd_webhook_id d; wd_event_type := wd_event_type d;
     wd_payload := wd_payload d; wd_status := "failed"; wd_attempts := attempts;
     wd_last_error := Some err; wd_next_retry_at := retry_at;
     wd_delivered_at := wd_delivered_at d |}.

Definition maybe_retry (id attempts : Z) (err : str) : M unit :=
  let next_attempt := attempts + 1 in
  if MAX_ATTEMPTS <=? next_attempt
  then query (modify (update_delivery id (set_dead next_attempt err)))
  else query (modify (fun w => update_delivery id (set_failed next_attempt err
         (Some (w_now w / 1000000000 + backoff_secs next_attempt))) w)).

Definition mark_failed (id : Z) (err : str) : M unit :=
  query (modify (update_delivery id (fun d =>
    set_failed (wd_attempts d) err (wd_next_retry_at d) d))).

Definition is_due (now : Z) (d : Delivery) : bool :=
  bool_decide (wd_status d = "pending") ||
  bool_decide (wd_status d = "failed") &&
  match wd_next_retry_at d with None => true | Some t => t <=? now end.

Definition by_id (d e : Delivery) : Prop := wd_id d <= wd_id e.

#[export] Instance by_id_dec : RelDecision by_id.
Proof. intros d e. unfold by_id. apply _. Defined.

(** [JOIN ... ORDER BY d.id ASC LIMIT 50]: (row, url || '|' || secret) *)
Definition due_deliveries (w : World) : list (Delivery * str) :=
  take 50 (omap (fun d =>
    if is_due (w_now w / 1000000000) d then
      (fun h => (d, wh_url h ++ "|" ++ wh_secret h)) <$>
        find_first (fun h => wh_id h =? wd_webhook_id d) (w_webhooks w)
    else None)
    (merge_sort by_id (w_deliveries w))).

Section worker.
Context `{WebhookIo}.

Definition sign (secret bd : str) : str := hmac_sha256_hex secret bd.

Definition is_success (status : Z) : bool := (200 <=? status) && (status <? 300).

Definition post_request (url secret : str) (d : Delivery) : PostRequest :=
  {| post_url := url; post_event := wd_event_type d;
     post_signature := sign secret (json_text (wd_payload d));
     post_delivery_id := wd_id d; post_body := json_text (wd_payload d) |}.

(** The body of the loop over the due rows. *)
Definition deliver (entry : Delivery * str) : M unit :=
  let '(d, url_secret) := entry in
  match Str.split_once "|" url_secret with
  | None => mark_failed (wd_id d) "invalid url|secret row"
  | Some (url, secret) =>
      let request := post_request url secret d in
      _ ← modify (fun w => set_posts (w_posts w ++ [request]) w);
      now ← gets w_now;
      match post now request with
      | Responded status =>
          if is_success status
          then query (modify (fun w =>
                 update_delivery (wd_id d) (set_delivered (w_now w / 1000000000)) w))
          else maybe_retry (wd_id d) (wd_attempts d) ("http " ++ Str.show_dec status)
      | PostError e => maybe_retry (wd_id d) (wd_attempts d) e
      end
  end.

Definition drain_once : M Z :=
  rows ← json_rows due_deliveries;
  _ ← for_each rows deliver;
  mret (Z.of_nat (length rows)).
End worker.

(** ** Administration *)

Definition api_query {A} (m : M A) (k : A -> M (Api unit)) : M (Api unit) :=
  r ← attempt (query m);
  match r with
  | Some a => k a
  | None => mret (inr (500, "database error"))
  end.

Record CreateWebhook := {
  cw_name : str;
  cw_url : str;
  cw_secret : str;
  cw_events : list str;
  cw_active : Z;
}.

Definition next_webhook_id (w : World) : Z := next_id (map wh_id (w_webhooks w)).

Definition create_webhook (bd : CreateWebhook) : M (Api Z) :=
  if Str.is_empty (Str.trim (cw_name bd)) || Str.is_empty (Str.trim (cw_url bd))
     || Str.is_empty (cw_secret bd)
  then mret (inr (400, "name, url, and secret are required"))
  else if bool_decide (cw_events bd = [])
  then mret (inr (400, "events must contain at least one event type"))
  else
    taken ← gets (fun w => existsb (fun h => bool_decide (wh_name h = cw_name bd)) (w_webhooks w));
    b ← fault;
    if b : bool then mret (inr (500, "database error"))
    else if taken : bool
    then mret (inr (409, "webhook name '" ++ cw_name bd ++ "' already exists"))
    else
      id ← gets next_webhook_id;
      _ ← modify (fun w => set_webhooks (w_webhooks w ++ [{| wh_id := id; wh_name := cw_name bd;
            wh_url := cw_url bd; wh_secret := cw_secret bd; wh_events := cw_events bd;
            wh_active := cw_active bd |}]) w);
      mret (inl id).

Record UpdateWebhook := {
  uw_name : option str;
  uw_url : option str;
  uw_secret : option str;
  uw_events : option (list str);
  uw_active : option Z;
}.

Definition list_webhooks : M (Api (list Webhook)) :=
  rows ← attempt (json_rows w_webhooks);
  mret (match rows with Some rows => inl rows | None => inr (500, "database error") end).

(** [UPDATE sip_webhooks SET .. WHERE id = ?], for a field that is given. *)
Definition update_field {A} (id : Z) (v : option A) (f : A -> Webhook -> Webhook) : M unit :=
  match v with
  | None => mret tt
  | Some a => query (modify (fun w => set_webhooks
                (map (fun h => if wh_id h =? id then f a h else h) (w_webhooks w)) w))
  end.

(** The unique key on the name. *)
Definition update_name (id : Z) (v : option str) : M unit :=
  match v with
  | None => mret tt
  | Some name =>
      clash ← gets (fun w => existsb (fun h => bool_decide (wh_name h = name) && negb (wh_id h =? id))
                               (w_webhooks w) && existsb (fun h => wh_id h =? id) (w_webhooks w));
      if clash : bool then _ ← fault; fail "duplicate entry"
      else update_field id v (fun n h => {| wh_id := wh_id h; wh_name := n; wh_url := wh_url h;
             wh_secret := wh_secret h; wh_events := wh_events h; wh_active := wh_active h |})
  end.

Definition update_webhook (id : Z) (bd : UpdateWebhook) : M (Api unit) :=
  transaction (fun w => set_webhooks (w_webhooks w)) (
    _ ← update_name id (uw_name bd);
    _ ← update_field id (uw_url bd) (fun u h => {| wh_id := wh_id h; wh_name := wh_name h; wh_url := u;
          wh_secret := wh_secret h; wh_events := wh_events h; wh_active := wh_active h |});
    _ ← update_field id (uw_secret bd) (fun s h => {| wh_id := wh_id h; wh_name := wh_name h;
          wh_url := wh_url h; wh_secret := s; wh_events := wh_events h; wh_active := wh_active h |});
    _ ← update_field id (uw_events bd) (fun e h => {| wh_id := wh_id h; wh_name := wh_name h;
          wh_url := wh_url h; wh_secret := wh_secret h; wh_events := e; wh_active := wh_active h |});
    update_field id (uw_active bd) (fun a h => {| wh_id := wh_id h; wh_name := wh_name h;
      wh_url := wh_url h; wh_secret := wh_secret h; wh_events := wh_events h; wh_active := a |})).

(** [ON DELETE CASCADE] *)
Definition delete_webhook (id : Z) : M (Api unit) :=
  api_query (fun w => (Val (existsb (fun h => wh_id h =? id) (w_webhooks w)),
      set_deliveries (filter (fun d => wd_webhook_id d <> id) (w_deliveries w))
        (set_webhooks (filter (fun h => wh_id h <> id) (w_webhooks w)) w)))
    (fun found : bool => mret (if found then inl tt else inr (404, "Webhook not found"))).

Definition is_retryable (d : Delivery) : bool :=
  bool_decide (wd_status d = "failed") || bool_decide (wd_status d = "dead").

Definition requeue (d : Delivery) : Delivery :=
  {| wd_id := wd_id d; wd_webhook_id := wd_webhook_id d; wd_event_type := wd_event_type d;
     wd_payload := wd_payload d; wd_status := "pending"; wd_attempts := wd_attempts d;
     wd_last_error := wd_last_error d; wd_next_retry_at := None;
     wd_delivered_at := wd_delivered_at d |}.

Definition retry_delivery (id : Z) : M (Api unit) :=
  api_query (fun w =>
      (Val (existsb (fun d => (wd_id d =? id) && is_retryable d) (w_deliveries w)),
       update_delivery id (fun d => if is_retryable d then requeue d else d) w))
    (fun found : bool => mret (if found then inl tt
       else inr (404, "Delivery not found or not in a retryable state"))).

Record DeliveryQuery := {
  dq_webhook_id : option Z;
  dq_status : option str;
  dq_limit : Z;
  dq_offset : Z;
}.

Definition list_deliveries (q : DeliveryQuery) : M (Api (list Delivery)) :=
  let limit := Z.min (dq_limit q) 500 in
  rows ← attempt (json_rows (fun w =>
    take (Z.to_nat limit) (drop (Z.to_nat (dq_offset q))
      (reverse (merge_sort by_id
        (filter (fun d => wd_webhook_id d = default (wd_webhook_id d) (dq_webhook_id q) /\
                          wd_status d = default (wd_status d) (dq_status q))
           (w_deliveries w)))))));
  mret (match rows with
        | Some rows => inl rows
        | None => inr (500, "database error")
        end).

(** ** Facts: the life of a delivery *)

(** Four states, and the attempts that go with each. *)
Definition lifecycle_ok (d : Delivery) : Prop :=
  wd_status d = "pending" /\ 0 <= wd_attempts d \/
  wd_status d = "failed" /\ 1 <= wd_attempts d < MAX_ATTEMPTS \/
  wd_status d = "delivered" /\ 0 <= wd_attempts d /\ is_Some (wd_delivered_at d) \/
  wd_status d = "dead" /\ MAX_ATTEMPTS <= wd_attempts d.

Definition outbox_ok (w : World) : Prop :=
  NoDup (map wd_id (w_deliveries w)) /\ Forall lifecycle_ok (w_deliveries w).

(** Delivered or given up. *)
Definition is_over (d : Delivery) : Prop := wd_status d = "delivered" \/ wd_status d = "dead".

(** What one attempt makes of a row. *)
Definition attempted (now : Z) (outcome : PostOutcome) (d : Delivery) : Delivery :=
  let fail err :=
    let n := wd_attempts d + 1 in
    if MAX_ATTEMPTS <=? n then set_dead n err d
    else set_failed n err (Some (now + backoff_secs n)) d in
  match outcome with
  | Responded status =>
      if is_success status then set_delivered now d else fail ("http " ++ Str.show_dec status)
  | PostError e => fail e
  end.

Lemma attempted_id now o d : wd_id (attempted now o d) = wd_id d.
Proof. unfold attempted. by repeat case_match. Qed.

Lemma due_open now d : lifecycle_ok d -> is_due now d = true -> 0 <= wd_attempts d /\ ~ is_over d.
Proof.
  unfold lifecycle_ok, is_due, is_over, MAX_ATTEMPTS. intros Hl Hd.
  apply orb_true_iff in Hd as [Hd|Hd]; [|apply andb_true_iff in Hd as [Hd _]];
    apply bool_decide_eq_true in Hd; rewrite Hd in *; naive_solver lia.
Qed.

Lemma attempted_ok now o d : 0 <= wd_attempts d -> lifecycle_ok (attempted now o d).
Proof.
  intros Ha. unfold attempted, lifecycle_ok.
  repeat case_match; cbn [wd_status wd_attempts wd_delivered_at set_delivered set_dead set_failed];
    rewrite ?Z.leb_le, ?Z.leb_gt in *; unfold MAX_ATTEMPTS in *; eauto 10 with lia.
Qed.

Section worker_facts.
Context `{!WebhookIo}.

(** The rows handed to [deliver]. *)
Definition entry_ok (e : Delivery * str) : Prop :=
  0 <= wd_attempts e.1 /\ is_Some (Str.split_once "|" e.2).

(** The request for an entry. *)
Definition request_of (e : Delivery * str) : PostRequest :=
  match Str.split_once "|" e.2 with
  | Some (url, secret) => post_request url secret e.1
  | None => post_request [] [] e.1
  end.

Definition outcome_of (w : World) (e : Delivery * str) : PostOutcome := post (w_now w) (request_of e).

(** The state after the request of an entry was handed to the client. *)
Definition posted (e : Delivery * str) (w : World) : World :=
  set_posts (w_posts w ++ [request_of e]) w.

(** The entry is the row of its id. *)
Definition current (e : Delivery * str) (w : World) : Prop :=
  forall d, d ∈ w_deliveries w -> wd_id d = wd_id e.1 -> d = e.1.

Lemma update_delivery_ext id f g w :
  (forall d, d ∈ w_deliveries w -> wd_id d = id -> f d = g d) ->
  update_delivery id f w = update_delivery id g w.
Proof.
  intros Hfg. unfold update_delivery. f_equal. apply map_ext_in. intros d Hd.
  destruct (wd_id d =? id) eqn:E; [|done]. apply Z.eqb_eq in E. apply Hfg; [|done].
  by apply list_elem_of_In.
Qed.

(** One turn of the loop: one post, and the row after the attempt unless the database fails. *)
Lemma deliver_run e w :
  entry_ok e -> current e w ->
  let w1 := update_delivery (wd_id e.1) (attempted (w_now w / 1000000000) (outcome_of w e)) (posted e w) in
  (exists v, (deliver e w).2 = set_faults v (posted e w) \/ (deliver e w).2 = set_faults v w1) /\
  (w_faults w = [] -> deliver e w = (Val tt, w1)).
Proof.
  intros [Ha [[url secret] Hs]] Hcur. cbv zeta. destruct e as [d us]. unfold current in Hcur.
  cbn [fst snd] in *. unfold deliver. rewrite Hs. unfold outcome_of, posted, request_of. cbn [fst snd].
  rewrite Hs. cbv zeta. rewrite bind_modify, bind_gets. set (wp := set_posts _ w).
  change (w_now wp) with (w_now w). change (w_faults w = []) with (w_faults wp = []).
  unfold maybe_retry, attempted.
  repeat case_match; apply write_run; try done;
    apply update_delivery_ext; intros d' Hd Hid; rewrite (Hcur d' Hd Hid); by repeat case_match.
Qed.

(** *** The whole drain *)

Definition ids (l : list (Delivery * str)) : list Z := map (fun e => wd_id e.1) l.

Lemma update_ids id f w :
  (forall d, wd_id (f d) = wd_id d) ->
  map wd_id (w_deliveries (update_delivery id f w)) = map wd_id (w_deliveries w).
Proof.
  intros Hf. unfold update_delivery. cbn. rewrite map_map. apply map_ext. intros d. by case_match.
Qed.

Lemma update_elem id f w d :
  (forall d, wd_id (f d) = wd_id d) ->
  d ∈ w_deliveries w -> (if wd_id d =? id then f d else d) ∈ w_deliveries (update_delivery id f w).
Proof.
  intros Hf Hd. unfold update_delivery. cbn. rewrite !list_elem_of_In in *.
  by apply (in_map (fun d => if wd_id d =? id then f d else d)).
Qed.

Lemma update_ok id f w :
  (forall d, wd_id (f d) = wd_id d) -> outbox_ok w ->
  (forall d, d ∈ w_deliveries w -> wd_id d = id -> lifecycle_ok (f d)) ->
  outbox_ok (update_delivery id f w).
Proof.
  intros Hf [Hn Hl] Hok. split; [by rewrite update_ids|]. unfold update_delivery. cbn.
  apply Forall_map, Forall_forall. intros d Hd. destruct (wd_id d =? id) eqn:E.
  - apply Hok; [done|by apply Z.eqb_eq].
  - rewrite Forall_forall in Hl. by apply Hl.
Qed.

(** The loop over entries that are rows of the table, each id once. *)
Record loop_ok (l : list (Delivery * str)) (w : World) : Prop := {
  lo_entries : Forall entry_ok l;
  lo_ids : NoDup (ids l);
  lo_rows : Forall (fun e => e.1 ∈ w_deliveries w) l;
  lo_outbox : outbox_ok w;
}.

Lemma loop_current e l w : loop_ok (e :: l) w -> current e w.
Proof.
  intros [_ _ Hr [Hn _]] d Hd Hid. apply Forall_cons in Hr as [He _].
  by eapply NoDup_map_inj.
Qed.

(** One turn keeps the loop going. *)
Lemma loop_step e l w :
  loop_ok (e :: l) w ->
  let w1 := update_delivery (wd_id e.1) (attempted (w_now w / 1000000000) (outcome_of w e)) w in
  loop_ok l w /\ loop_ok l w1 /\
  (forall d, d ∈ w_deliveries w -> wd_id d <> wd_id e.1 -> d ∈ w_deliveries w1) /\
  attempted (w_now w / 1000000000) (outcome_of w e) e.1 ∈ w_deliveries w1.
Proof.
  intros Hlo. pose proof (loop_current _ _ _ Hlo) as Hcur. destruct Hlo as [He Hn Hr Ho]. cbv zeta.
  apply Forall_cons in He as [He Hes]. apply Forall_cons in Hr as [Hre Hrs].
  cbn [ids map] in Hn. apply NoDup_cons in Hn as [Hne Hn].
  assert (forall d, d ∈ w_deliveries w -> wd_id d <> wd_id e.1 -> d ∈ w_deliveries
    (update_delivery (wd_id e.1) (attempted (w_now w / 1000000000) (outcome_of w e)) w)) as Hkeep.
  { intros d Hd Hid. pose proof (update_elem (wd_id e.1) _ w d
      (attempted_id (w_now w / 1000000000) (outcome_of w e)) Hd) as Hu.
    by rewrite (proj2 (Z.eqb_neq _ _) Hid) in Hu. }
  split_and!; [by split| |done|].
  - split; [done|done| |].
    + apply Forall_forall. intros e' He'. rewrite Forall_forall in Hrs. apply Hkeep; [by apply Hrs|].
      intros Hid. apply Hne. rewrite <-Hid. apply list_elem_of_In, in_map_iff. exists e'.
      split; [done|by apply list_elem_of_In].
    + apply update_ok; [apply attempted_id|done|]. intros d Hd Hid. rewrite (Hcur d Hd Hid).
      apply attempted_ok. apply He.
  - pose proof (update_elem (wd_id e.1) _ w e.1
      (attempted_id (w_now w / 1000000000) (outcome_of w e)) Hre) as Hu.
    by rewrite Z.eqb_refl in Hu.
Qed.

Lemma loop_posted l e w : loop_ok l w -> loop_ok l (posted e w).
Proof. intros [H1 H2 H3 H4]. by split. Qed.

Lemma loop_faults l v w : loop_ok l w -> loop_ok l (set_faults v w).
Proof. intros [H1 H2 H3 H4]. by split. Qed.

Lemma loop_safe l w :
  loop_ok l w ->
  let w' := (for_each l deliver w).2 in
  outbox_ok w' /\ map wd_id (w_deliveries w') = map wd_id (w_deliveries w) /\
  (forall d, d ∈ w_deliveries w -> wd_id d ∉ ids l -> d ∈ w_deliveries w') /\
  exists n, w_posts w' = w_posts w ++ map request_of (take n l).
Proof.
  revert w. induction l as [|e l IH]; intros w Hlo; cbv zeta.
  { split_and!; try done; [apply Hlo|]. exists O. cbn. by rewrite app_nil_r. }
  destruct (loop_step e l (posted e w) (loop_posted _ _ _ Hlo)) as (Hsame & Hnext & Hkeep & _).
  destruct (deliver_run e w) as [[v Hd] _]; [by destruct Hlo as [[]%Forall_cons]|by eapply loop_current|].
  change (outcome_of (posted e w) e) with (outcome_of w e) in *.
  change (w_now (posted e w)) with (w_now w) in *.
  set (w1 := update_delivery _ _ (posted e w)) in *. cbn [for_each]. unfold mbind, M_bind.
  destruct (deliver e w) as [r w2]. cbn [snd] in Hd.
  assert (loop_ok l w2 /\ map wd_id (w_deliveries w2) = map wd_id (w_deliveries w) /\
    (forall d, d ∈ w_deliveries w -> wd_id d <> wd_id e.1 -> d ∈ w_deliveries w2) /\
    w_posts w2 = w_posts w ++ [request_of e]) as (Hl2 & Hi2 & Hk2 & Hp2).
  { destruct Hd as [->| ->]; [split_and!; [by apply loop_faults|done..]|].
    split_and!; [by apply loop_faults|exact (update_ids _ _ (posted e w) (attempted_id _ _))|done..]. }
  assert (outbox_ok w2) as Ho2 by apply Hl2.
  destruct r as [[]|err|]; cbn [snd].
  - destruct (IH w2 Hl2) as (Ho & Hi & Hk & n & Hp). split_and!; [done|congruence| |].
    + intros d Hd' Hnot. cbn [ids map] in Hnot. apply not_elem_of_cons in Hnot as [Hne Hnot].
      apply Hk; [|done]. by apply Hk2.
    + exists (S n). rewrite Hp, Hp2, <-app_assoc. done.
  - split_and!; [done..| |exists 1%nat; cbn; by rewrite Hp2]. intros d Hd' Hnot. cbn [ids map] in Hnot.
    apply not_elem_of_cons in Hnot as [Hne _]. by apply Hk2.
  - split_and!; [done..| |exists 1%nat; cbn; by rewrite Hp2]. intros d Hd' Hnot. cbn [ids map] in Hnot.
    apply not_elem_of_cons in Hnot as [Hne _]. by apply Hk2.
Qed.

Lemma loop_done l w :
  loop_ok l w -> w_faults w = [] ->
  exists w', for_each l deliver w = (Val tt, w') /\ w_posts w' = w_posts w ++ map request_of l /\
    forall e, e ∈ l -> attempted (w_now w / 1000000000) (outcome_of w e) e.1 ∈ w_deliveries w'.
Proof.
  revert w. induction l as [|e l IH]; intros w Hlo Hf.
  { exists w. split_and!; [done|by rewrite app_nil_r|]. by intros e He%not_elem_of_nil. }
  destruct (loop_step e l (posted e w) (loop_posted _ _ _ Hlo)) as (_ & Hnext & _ & Hin).
  destruct (deliver_run e w) as [_ Hd]; [by destruct Hlo as [[]%Forall_cons]|by eapply loop_current|].
  change (outcome_of (posted e w) e) with (outcome_of w e) in *.
  change (w_now (posted e w)) with (w_now w) in *.
  specialize (Hd Hf). set (w1 := update_delivery _ _ (posted e w)) in *.
  destruct (IH w1 Hnext Hf) as (w' & Hw' & Hp & Hall). exists w'. cbn [for_each].
  rewrite (bind_val _ _ _ _ _ Hd). split_and!; [done|by rewrite Hp; cbn; rewrite <-app_assoc|].
  intros e' [->|He']%elem_of_cons; [|by apply (Hall e')].
  destruct (loop_safe l w1 Hnext) as (_ & _ & Hk & _). rewrite Hw' in Hk. apply Hk; [done|].
  rewrite attempted_id. destruct Hlo as [_ Hn _ _]. by apply NoDup_cons in Hn as [].
Qed.

Lemma due_entry w e :
  e ∈ due_deliveries w ->
  e.1 ∈ w_deliveries w /\ is_due (w_now w / 1000000000) e.1 = true /\
  exists h, h ∈ w_webhooks w /\ wh_id h = wd_webhook_id e.1 /\ e.2 = wh_url h ++ "|" ++ wh_secret h.
Proof.
  unfold due_deliveries. intros He. apply (elem_of_take) in He as (i & He & _).
  apply list_elem_of_lookup_2 in He. apply list_elem_of_omap in He as (d & Hd & Hx).
  rewrite (merge_sort_Permutation by_id) in Hd. destruct (is_due _ d) eqn:Edue; [|done].
  apply fmap_Some in Hx as (h & Hh & ->). apply find_first_Some in Hh as [Hin Hid].
  cbn [fst snd]. split_and!; [done..|]. exists h. split_and!; [done| |done]. by apply Z.eqb_eq.
Qed.

Lemma split_pipe u s : exists a b, Str.split_once "|" (u ++ "|" ++ s) = Some (a, b).
Proof.
  destruct (Str.split_once _ _) as [[a b]|] eqn:E; [by eauto|].
  apply Str.split_once_is_None in E. exfalso. apply E.
  apply elem_of_app. right. by left.
Qed.

Lemma NoDup_omap_fst (f : Delivery -> option (Delivery * str)) l :
  (forall d e, f d = Some e -> e.1 = d) -> NoDup (map wd_id l) -> NoDup (ids (omap f l)).
Proof.
  intros Hf. induction l as [|d l IH]; cbn [map]; [done|]. intros [Hn Hl]%NoDup_cons.
  cbn [omap list_omap]. destruct (f d) as [e|] eqn:E; [|by apply IH]. cbn [ids map].
  apply NoDup_cons. split; [|by apply IH]. rewrite (Hf _ _ E). intros Hin. apply Hn.
  apply list_elem_of_In, in_map_iff in Hin as (e' & He' & Hin). rewrite <-He'.
  apply list_elem_of_In, list_elem_of_omap in Hin as (d' & Hd' & E'). rewrite (Hf _ _ E').
  apply list_elem_of_In, in_map. by apply list_elem_of_In.
Qed.

Lemma due_loop_ok w : outbox_ok w -> loop_ok (due_deliveries w) w.
Proof.
  intros Hok. pose proof Hok as [Hn Hl]. split; [..|done].
  - apply Forall_forall. intros e He. apply due_entry in He as (Hin & Hdue & h & _ & _ & Hus).
    rewrite Forall_forall in Hl. split; [by eapply due_open; [apply Hl|]|]. rewrite Hus.
    destruct (split_pipe (wh_url h) (wh_secret h)) as (a & b & ->). by eexists.
  - unfold due_deliveries. set (l := omap _ _). assert (NoDup (ids l)) as Hd.
    { apply NoDup_omap_fst.
      - intros d e. case_match; [|done]. by intros (h & _ & ->)%fmap_Some.
      - by rewrite (merge_sort_Permutation by_id). }
    unfold ids in *. rewrite <-(take_drop 50 l), map_app in Hd. by apply NoDup_app in Hd as [].
  - apply Forall_forall. intros e He. by apply due_entry in He as [].
Qed.

(** Delivered and dead rows are not in the batch. *)
Lemma over_not_due w d :
  outbox_ok w -> d ∈ w_deliveries w -> is_over d -> wd_id d ∉ ids (due_deliveries w).
Proof.
  intros [Hn Hl] Hd Hover Hin. apply list_elem_of_In, in_map_iff in Hin as (e & Hid & He).
  apply list_elem_of_In in He. destruct (due_entry w e He) as (Hin & Hdue & _).
  assert (e.1 = d) as <- by by eapply NoDup_map_inj.
  rewrite Forall_forall in Hl. by destruct (due_open _ _ (Hl _ Hin) Hdue) as [_ ?].
Qed.

(** A drain, whatever the endpoints answer and whichever query fails. *)
Definition drained (w w' : World) : Prop :=
  outbox_ok w' /\ map wd_id (w_deliveries w') = map wd_id (w_deliveries w) /\
  (forall d, d ∈ w_deliveries w -> is_over d -> d ∈ w_deliveries w') /\
  (exists n, w_posts w' = w_posts w ++ map request_of (take n (due_deliveries w))).

(** A drain of rows that can be read, when the database answers. *)
Definition drained_all (w w' : World) : Prop :=
  w_posts w' = w_posts w ++ map request_of (due_deliveries w) /\
  forall e, e ∈ due_deliveries w ->
    attempted (w_now w / 1000000000) (outcome_of w e) e.1 ∈ w_deliveries w'.

Lemma drained_nothing v w : outbox_ok w -> drained w (set_faults v w).
Proof. intros Hok. split_and!; [done..|]. exists O. cbn. by rewrite app_nil_r. Qed.

Lemma drain_read v w :
  outbox_ok w ->
  let m := (_ ← for_each (due_deliveries w) deliver; mret (Z.of_nat (length (due_deliveries w)))) in
  drained w (m (set_faults v w)).2 /\
  (v = [] -> (m (set_faults v w)).1 = Val (Z.of_nat (length (due_deliveries w))) /\
             drained_all w (m (set_faults v w)).2).
Proof.
  intros Hok. cbv zeta. pose proof (loop_faults _ v _ (due_loop_ok w Hok)) as Hlo.
  destruct (loop_safe _ _ Hlo) as (Ho & Hi & Hk & Hp). set (m := for_each _ _) in *.
  assert ((m ≫= (fun _ => mret (Z.of_nat (length (due_deliveries w))))) (set_faults v w) =
    (match (m (set_faults v w)).1 with Val _ => Val (Z.of_nat (length (due_deliveries w)))
     | Fail e => Fail e | Panicked => Panicked end, (m (set_faults v w)).2)) as ->
    by (unfold mbind, M_bind; by destruct (m _) as [[]]).
  cbn [fst snd]. split; [split_and!; [done|done| |done]|].
  - intros d Hd Hov. apply Hk; [done|by apply over_not_due].
  - intros ->. destruct (loop_done _ _ Hlo eq_refl) as (w' & Hw' & Hposts & Hall). fold m in Hw'.
    by rewrite Hw'.
Qed.

Lemma drain_run w :
  outbox_ok w ->
  let '(r, w') := drain_once w in
  drained w w' /\
  (w_faults w = [] ->
   if readable due_deliveries w
   then r = Val (Z.of_nat (length (due_deliveries w))) /\ drained_all w w'
   else r = Fail "mismatched types" /\ w' = w).
Proof.
  intros Hok. unfold drain_once, json_rows. rewrite bind_assoc.
  destruct (query_gets_cases due_deliveries w) as [v [Hq|[e Hq]]].
  - rewrite (bind_val _ _ _ _ _ Hq), bind_assoc, bind_gets.
    change (due_deliveries (set_faults v w)) with (due_deliveries w).
    change (w_json_strings (set_faults v w)) with (w_json_strings w). fold (readable due_deliveries w).
    assert (w_faults w = [] -> v = []) as Hv.
    { intros Hf. rewrite query_ok in Hq by done. injection Hq as Hq. apply (f_equal w_faults) in Hq.
      cbn in Hq. by rewrite <-Hq. }
    destruct (readable due_deliveries w).
    + destruct (drain_read v w Hok) as [Hd Hall]. rewrite bind_ret.
      match goal with |- let '(_, _) := ?x in _ => destruct x as [r w'] end. auto.
    + cbn. split; [by apply drained_nothing|]. intros Hf. split; [done|]. rewrite (Hv Hf), <-Hf. by destruct w.
  - rewrite (bind_fail _ _ _ _ _ Hq). split; [by apply drained_nothing|].
    intros Hf. by rewrite query_ok in Hq.
Qed.

(** The waiting time between attempts: always one minute. *)
Lemma backoff_constant n : 0 <= n -> backoff_secs n = 60.
Proof.
  intros Hn. unfold backoff_secs. rewrite Z.shiftl_mul_pow2 by lia.
  assert (0 < 2 ^ Z.min n 6) by (apply Z.pow_pos_nonneg; lia). lia.
Qed.

(** Retries do not back off.  Whatever number of attempts failed before, a row that fails
    again is due one minute later: the wait never grows, though the code means to double it
    with each attempt. *)
Theorem retries_do_not_back_off now d e :
  0 <= wd_attempts d -> wd_attempts d + 1 < MAX_ATTEMPTS ->
  let d' := attempted now (PostError e) d in
  wd_status d' = "failed" /\ wd_attempts d' = wd_attempts d + 1 /\
  wd_next_retry_at d' = Some (now + 60).
Proof.
  intros H0 Hm. unfold attempted. cbv zeta.
  replace (MAX_ATTEMPTS <=? _) with false by (symmetry; apply Z.leb_gt; lia).
  cbn [wd_status wd_attempts wd_next_retry_at set_failed]. by rewrite backoff_constant by lia.
Qed.

(** ** Facts: the address of a webhook *)

(** The url and the secret are taken apart at the first bar: right for a url without one,
    whatever the secret; a url with a bar loses its end to the secret. *)
Lemma webhook_address u s :
  "|"%char ∉ u -> Str.split_once "|" (u ++ "|" ++ s) = Some (u, s).
Proof. intros Hu. by apply Str.split_once_app. Qed.

Lemma webhook_address_bar a b s :
  "|"%char ∉ a -> Str.split_once "|" ((a ++ "|" ++ b) ++ "|" ++ s) = Some (a, b ++ "|" ++ s).
Proof. intros Ha. rewrite <-!app_assoc. by apply Str.split_once_app. Qed.
End worker_facts.

(** ** The outbox over time *)

Section outbox.
Context `{!WebhookIo}.

Inductive outbox_step : World -> World -> Prop :=
  | outbox_enqueue event payload w : outbox_step w (enqueue_webhook event payload w).2
  | outbox_drain w : outbox_step w (drain_once w).2
  | outbox_retry id w : outbox_step w (retry_delivery id w).2
  | outbox_create bd w : outbox_step w (create_webhook bd w).2
  | outbox_update id bd w : outbox_step w (update_webhook id bd w).2
  | outbox_delete id w : outbox_step w (delete_webhook id w).2
  | outbox_time now faults w : outbox_step w (set_now now (set_faults faults w)).

Definition keeps_outbox : relation World := fun w w' => outbox_ok w -> outbox_ok w'.

#[local] Instance keeps_outbox_io : IoFrame keeps_outbox.
Proof.
  split; [split|by intros ???..]; [by intros ??|]. intros x y z Hxy Hyz Hx. by apply Hyz, Hxy.
Qed.

Lemma insert_delivery_ok id event payload w :
  outbox_ok w -> outbox_ok (insert_delivery id event payload w).
Proof.
  intros [Hn Hl]. split; unfold insert_delivery; cbn.
  - apply NoDup_map_snoc; [done|]. apply next_id_fresh.
  - apply Forall_app. split; [done|]. repeat constructor; cbn; lia.
Qed.

Lemma requeue_ok id w :
  outbox_ok w -> outbox_ok (update_delivery id (fun d => if is_retryable d then requeue d else d) w).
Proof.
  intros Hok. apply update_ok; [intros d; by case_match|done|]. intros d Hd _.
  destruct Hok as [_ Hl]. rewrite Forall_forall in Hl. specialize (Hl d Hd).
  destruct (is_retryable d); [|done]. left. split; [done|]. cbn.
  unfold lifecycle_ok, MAX_ATTEMPTS in Hl. naive_solver lia.
Qed.

Lemma update_keeps_deliveries id bd : moves (same w_deliveries) (update_webhook id bd).
Proof.
  intros w. unfold update_webhook, transaction.
  match goal with |- context [match ?m w with _ => _ end] =>
    assert (moves (same w_deliveries) m) as Hm by (unfold update_name, update_field; solve_moves);
    specialize (Hm w); by destruct (m w) as [[]] end.
Qed.

Lemma outbox_step_ok w w' : outbox_step w w' -> outbox_ok w -> outbox_ok w'.
Proof.
  assert (forall A (m : M A) w, moves keeps_outbox m -> outbox_ok w -> outbox_ok (m w).2) as Hm
    by (intros A m w0 Hk Hw; by apply Hk).
  destruct 1; intros Hok.
  - apply Hm; [|done]. apply moves_bind; [unfold json_rows; solve_moves|]. intros hooks.
    apply moves_for_each. intros h. case_match; [|apply moves_ret].
    apply moves_query, moves_modify. intros w0 Hw0. by apply insert_delivery_ok.
  - pose proof (drain_run w Hok) as Hd. destruct (drain_once w) as [r w']. apply Hd.
  - apply Hm; [|done]. apply moves_bind; [apply moves_attempt, moves_query; intros w0 Hw0; by apply requeue_ok|].
    intros [[]|]; apply moves_ret.
  - apply Hm; [|done]. unfold create_webhook. repeat case_match; try apply moves_ret.
    solve_moves; apply moves_modify; intros w0 Hw0; exact Hw0.
  - assert (w_deliveries (update_webhook id bd w).2 = w_deliveries w) as Hd
      by apply update_keeps_deliveries. unfold outbox_ok. by rewrite Hd.
  - apply Hm; [|done]. apply moves_bind; [apply moves_attempt, moves_query|intros [[]|]; apply moves_ret].
    intros w0 [Hn Hl]. split; cbn; [by apply NoDup_map_filter|by apply Forall_filter_keep].
  - done.
Qed.

(** C17: the outbox is a state machine.  Over any sequence of events, drains, administrator's
    actions and failures every row is in one of its four states with the attempts that go
    with it, and ids are unique.  In every such state a drain, whatever the endpoints answer
    and whichever query fails, loses and adds no row, never touches a delivered or dead row
    again, and posts the requests of the first rows of the batch of due rows, in the order of
    their ids and each once.  When the database answers and the driver can read the JSON
    column, that is the whole batch, and every row of it is afterwards delivered, failed with a
    retry time, or dead; when the driver cannot, a drain that finds a row fails, posts nothing
    and changes nothing. *)
Theorem outbox_lifecycle w0 w :
  rtc outbox_step w0 w -> outbox_ok w0 ->
  outbox_ok w /\ NoDup (map wd_id (map fst (due_deliveries w))) /\
  let '(r, w') := drain_once w in
  outbox_ok w' /\ map wd_id (w_deliveries w') = map wd_id (w_deliveries w) /\
  (forall d, d ∈ w_deliveries w -> is_over d -> d ∈ w_deliveries w') /\
  (exists n, w_posts w' = w_posts w ++ map request_of (take n (due_deliveries w))) /\
  (w_faults w = [] ->
   if readable due_deliveries w then
     r = Val (Z.of_nat (length (due_deliveries w))) /\
     w_posts w' = w_posts w ++ map request_of (due_deliveries w) /\
     forall e, e ∈ due_deliveries w ->
       attempted (w_now w / 1000000000) (outcome_of w e) e.1 ∈ w_deliveries w'
   else r = Fail "mismatched types" /\ w' = w).
Proof.
  intros Hr H0. assert (outbox_ok w) as Hok.
  { induction Hr as [|x y z Hxy _ IH]; [done|]. by eapply IH, outbox_step_ok. }
  pose proof (drain_run w Hok) as Hd. destruct (drain_once w) as [r w'].
  split_and!; [done| |apply Hd..]. rewrite map_map. apply (due_loop_ok w Hok).
Qed.

(** With a driver that does not decode JSON into text, as sqlx's for MySQL, no event reaches
    an endpoint: enqueueing fails as soon as there is an active webhook. *)
Theorem webhooks_unreadable event payload w h :
  w_faults w = [] -> w_json_strings w = false -> h ∈ active_webhooks w ->
  enqueue_webhook event payload w = (Fail "mismatched types", w).
Proof.
  intros Hf Hj Hh. unfold enqueue_webhook. eapply bind_fail. rewrite json_rows_run by done.
  unfold readable. rewrite Hj. cbn [orb]. rewrite bool_decide_eq_false_2; [done|].
  intros E. rewrite E in Hh. by apply not_elem_of_nil in Hh.
Qed.
End outbox.

(** ** Examples *)

(** An endpoint that always answers 503. *)
Definition toy_io : WebhookIo :=
  {| post _ _ := Responded 503; hmac_sha256_hex k b := k ++ b; json_text _ := "{}" |}.

Definition hooked_world : World :=
  set_webhooks [{| wh_id := 1; wh_name := "crm"; wh_url := "https://crm.example.com/hook";
    wh_secret := "k"; wh_events := ["registration.changed"]; wh_active := 1 |}] sample_world.

Lemma outbox_lifecycle_witness :
  let w := (enqueue_webhook "registration.changed" [] hooked_world).2 in
  map (fun d => (wd_status d, wd_attempts d)) (w_deliveries (@drain_once toy_io w).2) = [("failed", 1)] /\
  map post_url (w_posts (@drain_once toy_io w).2) = ["https://crm.example.com/hook"] /\
  outbox_ok w.
Proof.
  cbv zeta. split; [vm_compute; reflexivity|]. split; [vm_compute; reflexivity|].
  destruct (@outbox_lifecycle toy_io hooked_world
    (enqueue_webhook "registration.changed" [] hooked_world).2) as (Hok & _); [| |exact Hok].
  - eapply rtc_once, outbox_enqueue.
  - split; [apply NoDup_nil_2|by apply Forall_nil].
Defined.

Lemma retries_do_not_back_off_witness :
  let d := {| wd_id := 1; wd_webhook_id := 1; wd_event_type := "e"; wd_payload := [];
    wd_status := "failed"; wd_attempts := 8; wd_last_error := None; wd_next_retry_at := None;
    wd_delivered_at := None |} in
  wd_next_retry_at (attempted 1000 (PostError "timeout") d) = Some 1060.
Proof. cbv zeta. eapply (retries_do_not_back_off 1000); vm_compute; congruence. Defined.
