(* ===== verification/Email.v ===== *)
(** * Mail: [backend/src/api/email_worker.rs]

    The outbox of notifications about new voicemail and the worker that sends them. *)

From S2P Require Import Prelude RustStr Net Message SecurityGuard Acl Storage Sdp Media World.
From S2P Require Import HttpApi.

Open Scope str_scope.
Open Scope Z_scope.

(** ** The outside: the lettre crate *)

Record Mail := {
  ma_from : str;
  ma_to : str;
  ma_subject : str;
  ma_body : str;
  ma_attachment : option (str * list Z);
}.

(** [to_addr.parse::<Mailbox>()], and the SMTP server at a time: [None] when it took the mail. *)
Class Smtp := {
  is_mailbox : str -> bool;
  smtp_send : Z -> Mail -> option str;
}.

(** ** The outbox *)

Definition MAX_MAIL_ATTEMPTS : Z := 5.

Definition set_sent (now : Z) (e : Email) : Email :=
  {| em_id := em_id e; em_mailbox_id := em_mailbox_id e; em_to_addr := em_to_addr e;
     em_subject := em_subject e; em_body := em_body e; em_attachment_key := em_attachment_key e;
     em_status := "sent"; em_attempts := em_attempts e; em_last_error := None;
     em_scheduled_at := em_scheduled_at e; em_sent_at := Some now |}.

Definition set_unsent (status : str) (attempts : Z) (err : str) (scheduled_at : Z) (e : Email) : Email :=
  {| em_id := em_id e; em_mailbox_id := em_mailbox_id e; em_to_addr := em_to_addr e;
     em_subject := em_subject e; em_body := em_body e; em_attachment_key := em_attachment_key e;
     em_status := status; em_attempts := attempts; em_last_error := Some err;
     em_scheduled_at := scheduled_at; em_sent_at := em_sent_at e |}.

Definition update_email (id : Z) (f : Email -> Email) (w : World) : World :=
  set_emails (map (fun e => if em_id e =? id then f e else e) (w_emails w)) w.

(** [enqueue_new_message] *)
Definition enqueue_new_message (mailbox_id : Z) (to_addr caller : str) (duration_secs : Z)
    (attachment_key : str) : M unit :=
  query (modify (fun w => set_emails (w_emails w ++ [{|
    em_id := next_id (map em_id (w_emails w)); em_mailbox_id := mailbox_id; em_to_addr := to_addr;
    em_subject := "New voicemail from " ++ caller;
    em_body := "You have a new voicemail." ++ [Str.LF; Str.LF] ++ "Caller: " ++ caller ++ [Str.LF] ++
      "Duration: " ++ Str.show_dec duration_secs ++ " seconds" ++ [Str.LF; Str.LF] ++
      "Listen via the admin UI or SIP *97 access.";
    em_attachment_key := Some attachment_key; em_status := "pending"; em_attempts := 0;
    em_last_error := None; em_scheduled_at := w_now w / 1000000000; em_sent_at := None |}]) w)).

(** [WHERE status = 'pending' OR (status = 'failed' AND scheduled_at <= NOW())] *)
Definition mail_due (now : Z) (e : Email) : bool :=
  bool_decide (em_status e = "pending") ||
  bool_decide (em_status e = "failed") && (em_scheduled_at e <=? now).

Definition mail_by_id (a b : Email) : Prop := em_id a <= em_id b.

#[export] Instance mail_by_id_dec : RelDecision mail_by_id.
Proof. intros a b. unfold mail_by_id. apply _. Defined.

(** [ORDER BY id ASC LIMIT 25] *)
Definition due_mail (w : World) : list Email :=
  take 25 (filter (fun e => mail_due (w_now w / 1000000000) e = true) (merge_sort mail_by_id (w_emails w))).

Section worker.
Context (cfg : Config) `{Smtp}.

(** [key.rsplit('/').next()] *)
Definition last_segment (key : str) : str := default "voicemail.wav" (last (Str.split_char "/" key)).

(** The mail of a row, or why there is none. *)
Definition build_mail (w : World) (e : Email) : result Mail :=
  if negb (is_mailbox (smtp_from_address cfg)) then Err "invalid from_address"
  else if negb (is_mailbox (em_to_addr e)) then Err "invalid to_addr"
  else
    let mail attachment :=
      {| ma_from := smtp_from_address cfg; ma_to := em_to_addr e; ma_subject := em_subject e;
         ma_body := em_body e; ma_attachment := attachment |} in
    match em_attachment_key e with
    | None => Ok (mail None)
    | Some key =>
        match read_key (voicemail_storage_dir cfg) key (w_files w) with
        | Ok bytes => Ok (mail (Some (last_segment key, bytes)))
        | Err err => Err ("read attachment: " ++ err)
        end
    end.

(** The error of an attempt, [None] when the mail went out. *)
Definition build_and_send (w : World) (e : Email) : option str :=
  match build_mail w e with
  | Ok mail => smtp_send (w_now w) mail
  | Err err => Some err
  end.

(** The body of the loop: was it sent? *)
Definition send_row (e : Email) : M bool :=
  outcome ← gets (fun w => build_and_send w e);
  match outcome with
  | None =>
      _ ← query (modify (fun w => update_email (em_id e) (set_sent (w_now w / 1000000000)) w));
      mret true
  | Some err =>
      let next_attempt := em_attempts e + 1 in
      _ ← if MAX_MAIL_ATTEMPTS <=? next_attempt
          then query (modify (update_email (em_id e) (fun r =>
                 set_unsent "dead" next_attempt err (em_scheduled_at r) r)))
          else query (modify (fun w => update_email (em_id e)
                 (set_unsent "failed" next_attempt err (w_now w / 1000000000 + 300)) w));
      mret false
  end.

Fixpoint send_rows (rows : list Email) : M Z :=
  match rows with
  | [] => mret 0
  | e :: rows =>
      sent ← send_row e;
      n ← send_rows rows;
      mret ((if sent : bool then 1 else 0) + n)
  end.

(** [EmailWorker::drain_once] *)
Definition drain_mail : M Z :=
  if Str.is_empty (smtp_host cfg) then mret 0
  else
    rows ← query (gets due_mail);
    sent ← send_rows rows;
    _ ← attempt (query (gets (fun w => length (filter (fun e =>
          em_status e = "pending" \/ em_status e = "failed") (w_emails w)))));
    mret sent.
End worker.

(** ** The life of a mail *)

Definition mail_open (e : Email) : bool :=
  bool_decide (em_status e = "pending") || bool_decide (em_status e = "failed").

(** What the worker may do to a row at a time. *)
Inductive mail_event (now : Z) (e : Email) : Email -> Prop :=
  | mail_sent : mail_open e = true -> mail_event now e (set_sent now e)
  | mail_retry err :
      mail_open e = true -> em_attempts e + 1 < MAX_MAIL_ATTEMPTS ->
      mail_event now e (set_unsent "failed" (em_attempts e + 1) err (now + 300) e)
  | mail_given_up err :
      mail_open e = true -> MAX_MAIL_ATTEMPTS <= em_attempts e + 1 ->
      mail_event now e (set_unsent "dead" (em_attempts e + 1) err (em_scheduled_at e) e).

(** The rows named in [ids] may have had one event, the others none. *)
Definition touched (now : Z) (ids : list Z) (old new : list Email) : Prop :=
  Forall2 (fun e e' => e' = e \/ em_id e ∈ ids /\ mail_event now e e') old new.

Lemma event_id now e e' : mail_event now e e' -> em_id e' = em_id e.
Proof. by destruct 1. Qed.

Lemma touched_refl now ids l : touched now ids l l.
Proof. induction l; constructor; auto. Qed.

(** Events on different rows together. *)
Lemma touched_trans now a b x y z :
  touched now a x y -> touched now b y z -> (forall i, i ∈ a -> i ∉ b) -> touched now (a ++ b) x z.
Proof.
  intros Hxy Hyz Hd. revert z Hyz. induction Hxy as [|e e' x y He _ IH]; intros z Hyz.
  { inversion Hyz. constructor. }
  inversion Hyz as [|? e'' ? z' He' Hyz']; subst. constructor; [|by apply IH].
  destruct He as [->|[Ha He]], He' as [->|[Hb He']].
  - by left.
  - right. split; [|done]. apply elem_of_app. by right.
  - right. split; [|done]. apply elem_of_app. by left.
  - exfalso. apply (Hd (em_id e) Ha). by rewrite <-(event_id _ _ _ He).
Qed.

Lemma touched_ids now ids old new : touched now ids old new -> map em_id new = map em_id old.
Proof.
  induction 1 as [|e e' old new He _ IH]; [done|]. cbn. f_equal; [|done].
  destruct He as [->|[_ He]]; [done|by eapply event_id].
Qed.

(** A row outside [ids] is still there. *)
Lemma touched_elem now ids old new e :
  touched now ids old new -> e ∈ old -> em_id e ∉ ids -> e ∈ new.
Proof.
  intros Ht He Hn. apply list_elem_of_lookup_1 in He as [i Hi].
  destruct (Forall2_lookup_l _ _ _ _ _ Ht Hi) as (e' & Hi' & [->|[? _]]); [|done].
  by eapply list_elem_of_lookup_2.
Qed.

(** The update of one row. *)
Lemma update_touched now id f w e :
  e ∈ w_emails w -> NoDup (map em_id (w_emails w)) -> em_id e = id -> mail_event now e (f e) ->
  touched now [id] (w_emails w) (w_emails (update_email id f w)).
Proof.
  intros He Hn <- Hev. unfold touched, update_email. cbn. apply Forall2_fmap_r, Forall_Forall2_diag.
  apply Forall_forall. intros r Hr. unfold compose.
  destruct (Z.eqb_spec (em_id r) (em_id e)) as [Hid|]; [|by left].
  assert (r = e) as -> by by eapply (NoDup_map_inj em_id).
  right. split; [by apply list_elem_of_singleton|done].
Qed.

Lemma mail_due_open now e : mail_due now e = true -> mail_open e = true.
Proof. unfold mail_due, mail_open. rewrite !orb_true_iff, andb_true_iff. naive_solver. Qed.

(** Two worlds that differ in faults and in events of [ids]. *)
Definition mailed (ids : list Z) (w w' : World) : Prop :=
  w_now w' = w_now w /\ w_files w' = w_files w /\
  touched (w_now w / 1000000000) ids (w_emails w) (w_emails w').

Lemma mailed_faults ids v w : mailed ids w (set_faults v w).
Proof. split_and!; [done..|apply touched_refl]. Qed.

Lemma mailed_refl ids w : mailed ids w w.
Proof. split_and!; [done..|apply touched_refl]. Qed.

Lemma mailed_trans a b x y z :
  mailed a x y -> mailed b y z -> (forall i, i ∈ a -> i ∉ b) -> mailed (a ++ b) x z.
Proof.
  intros (Hn1 & Hf1 & H1) (Hn2 & Hf2 & H2) Hd. split_and!; [congruence..|].
  rewrite Hn1 in H2. by eapply touched_trans.
Qed.

Section worker_facts.
Context (cfg : Config) `{!Smtp}.

(** What an attempt makes of a row. *)
Definition after_attempt (now : Z) (outcome : option str) (e : Email) : Email :=
  match outcome with
  | None => set_sent now e
  | Some err =>
      if MAX_MAIL_ATTEMPTS <=? em_attempts e + 1
      then set_unsent "dead" (em_attempts e + 1) err (em_scheduled_at e) e
      else set_unsent "failed" (em_attempts e + 1) err (now + 300) e
  end.

Lemma after_attempt_event now o e : mail_open e = true -> mail_event now e (after_attempt now o e).
Proof.
  intros Ho. unfold after_attempt. destruct o as [err|]; [|by constructor].
  destruct (Z.leb_spec MAX_MAIL_ATTEMPTS (em_attempts e + 1)); by constructor.
Qed.

(** A write to one row: the row has its event, or the database fails. *)
Lemma write_row f e w (ok : bool) :
  e ∈ w_emails w -> NoDup (map em_id (w_emails w)) ->
  mail_event (w_now w / 1000000000) e (f w e) -> (forall v w, f (set_faults v w) = f w) ->
  let m : M bool := _ ← query (modify (fun w => update_email (em_id e) (f w) w)); mret ok in
  mailed [em_id e] w (m w).2 /\
  (w_faults w = [] -> exists w', m w = (Val ok, w') /\ w_faults w' = [] /\ f w e ∈ w_emails w').
Proof.
  intros He Hn Hev Hf m.
  set (w1 := update_email (em_id e) (f w) w).
  assert (forall v, mailed [em_id e] w (set_faults v w1)) as Hm.
  { intros v. split_and!; [done..|]. by eapply update_touched. }
  destruct (write_run (fun w => update_email (em_id e) (f w) w) w w1 eq_refl) as [[v Hv] Hok].
  { intros v. unfold update_email. cbn. by rewrite Hf. }
  unfold m, mbind, M_bind. split.
  - destruct (query _ w) as [[[]|err|] w2]; cbn in *; (destruct Hv as [->| ->]; [apply mailed_faults|apply Hm]).
  - intros Hfa. rewrite Hok by done. eexists. split; [reflexivity|]. split; [done|].
    unfold w1, update_email. cbn. apply list_elem_of_In, in_map_iff. exists e. rewrite Z.eqb_refl.
    split; [done|]. by apply list_elem_of_In.
Qed.

Lemma send_row_run e w :
  mail_open e = true -> e ∈ w_emails w -> NoDup (map em_id (w_emails w)) ->
  mailed [em_id e] w (send_row cfg e w).2 /\
  (w_faults w = [] -> exists w',
     send_row cfg e w = (Val (bool_decide (build_and_send cfg w e = None)), w') /\ w_faults w' = [] /\
     after_attempt (w_now w / 1000000000) (build_and_send cfg w e) e ∈ w_emails w').
Proof.
  intros Ho He Hn. unfold send_row. rewrite bind_gets.
  destruct (build_and_send cfg w e) as [err|] eqn:Eo.
  - rewrite bool_decide_eq_false_2 by done. cbv zeta. cbn [after_attempt].
    destruct (Z.leb_spec MAX_MAIL_ATTEMPTS (em_attempts e + 1)) as [Hd|Hd].
    + apply (write_row (fun _ r => set_unsent "dead" (em_attempts e + 1) err (em_scheduled_at r) r));
        [done..|by constructor|done].
    + apply (write_row (fun w => set_unsent "failed" (em_attempts e + 1) err (w_now w / 1000000000 + 300)));
        [done..|by constructor|done].
  - rewrite bool_decide_eq_true_2 by done.
    apply (write_row (fun w => set_sent (w_now w / 1000000000))); [done..|by constructor|done].
Qed.

(** The rows that are worked on: open rows of the table, each once. *)
Definition batch (rows : list Email) (w : World) : Prop :=
  NoDup (map em_id rows) /\ NoDup (map em_id (w_emails w)) /\
  Forall (fun e => mail_open e = true /\ e ∈ w_emails w) rows.

Lemma batch_next e rows w w' :
  batch (e :: rows) w -> mailed [em_id e] w w' -> batch rows w'.
Proof.
  intros (Hn & Ht & Hr) (_ & _ & Hm). cbn in Hn. apply NoDup_cons in Hn as [Hne Hn].
  apply Forall_cons in Hr as [_ Hr]. split_and!; [done|by rewrite (touched_ids _ _ _ _ Hm)|].
  apply Forall_forall. intros r Hin. rewrite Forall_forall in Hr. destruct (Hr r Hin) as [Ho Hw].
  split; [done|]. eapply touched_elem; [done..|]. rewrite list_elem_of_singleton. intros Hid.
  apply Hne. rewrite <-Hid. apply list_elem_of_In, in_map, list_elem_of_In, Hin.
Qed.

Lemma build_and_send_mailed ids w w' e :
  mailed ids w w' -> build_and_send cfg w' e = build_and_send cfg w e.
Proof. intros (Hn & Hf & _). unfold build_and_send, build_mail. by rewrite Hn, Hf. Qed.

(** The whole batch: one event for each row at most, and without faults one for each. *)
Lemma send_rows_run rows w :
  batch rows w ->
  mailed (map em_id rows) w (send_rows cfg rows w).2 /\
  (w_faults w = [] -> exists w', send_rows cfg rows w =
     (Val (Z.of_nat (length (filter (fun e => build_and_send cfg w e = None) rows))), w') /\
     w_faults w' = [] /\
     Forall (fun e => after_attempt (w_now w / 1000000000) (build_and_send cfg w e) e ∈ w_emails w') rows).
Proof.
  revert w. induction rows as [|e rows IH]; intros w Hb.
  { split; [apply mailed_refl|]. intros Hf. by exists w. }
  pose proof Hb as (Hn & Ht & Hr). cbn in Hn. apply NoDup_cons in Hn as [Hne _].
  apply Forall_cons in Hr as [[Ho He] _].
  destruct (send_row_run e w Ho He Ht) as [Hm Hok].
  destruct (IH (send_row cfg e w).2 (batch_next _ _ _ _ Hb Hm)) as [IHm IHok].
  assert (forall i, i ∈ [em_id e] -> i ∉ map em_id rows) as Hd.
  { by intros i ->%list_elem_of_singleton. }
  cbn [send_rows map]. change (em_id e :: map em_id rows) with ([em_id e] ++ map em_id rows). split.
  - assert (mailed ([em_id e] ++ map em_id rows) w (send_row cfg e w).2) as H1.
    { eapply mailed_trans; [exact Hm|apply mailed_refl|done]. }
    assert (mailed ([em_id e] ++ map em_id rows) w (send_rows cfg rows (send_row cfg e w).2).2) as H2
      by by eapply mailed_trans.
    unfold mbind, M_bind in *. destruct (send_row cfg e w) as [[b|err|] w1]; [|exact H1..].
    cbn [snd] in *. by destruct (send_rows cfg rows w1) as [[n|err|] w2].
  - intros Hf. destruct (Hok Hf) as (w1 & E1 & Hf1 & Hin). rewrite E1 in Hm, IHm, IHok. cbn [snd] in *.
    destruct (IHok Hf1) as (w2 & E2 & Hf2 & Hall). exists w2.
    rewrite (bind_val _ _ _ _ _ E1), (bind_val _ _ _ _ _ E2).
    assert (forall r, build_and_send cfg w1 r = build_and_send cfg w r) as Hbs
      by by intros r; eapply build_and_send_mailed.
    rewrite (list_filter_iff _ (fun r => build_and_send cfg w r = None)) by by intros r; rewrite Hbs.
    split_and!; [|done|].
    + unfold mret, M_ret. f_equal. f_equal. rewrite filter_cons.
      case_bool_decide; case_decide; try done; cbn [length]; lia.
    + rewrite E2 in IHm. cbn [snd] in IHm. destruct IHm as (_ & _ & Htw). apply Forall_cons. split.
      * eapply touched_elem; [exact Htw|done|]. destruct (after_attempt_event (w_now w / 1000000000)
          (build_and_send cfg w e) e Ho); cbn; done.
      * eapply Forall_impl; [exact Hall|]. intros r. cbn. destruct Hm as [-> _]. by rewrite Hbs.
Qed.
End worker_facts.

(** ** The outbox over time *)

(** Four states, and the attempts and times that go with each. *)
Definition mail_ok (e : Email) : Prop :=
  em_status e = "pending" /\ em_attempts e = 0 /\ em_sent_at e = None \/
  em_status e = "failed" /\ 1 <= em_attempts e < MAX_MAIL_ATTEMPTS /\ em_sent_at e = None \/
  em_status e = "sent" /\ 0 <= em_attempts e < MAX_MAIL_ATTEMPTS /\ is_Some (em_sent_at e) \/
  em_status e = "dead" /\ em_attempts e = MAX_MAIL_ATTEMPTS /\ em_sent_at e = None.

Definition mail_outbox_ok (w : World) : Prop :=
  NoDup (map em_id (w_emails w)) /\ Forall mail_ok (w_emails w).

Lemma event_ok now e e' : mail_ok e -> mail_event now e e' -> mail_ok e'.
Proof.
  intros Hok He. assert (mail_open e = true) as Ho by by destruct He.
  unfold mail_open in Ho. apply orb_true_iff in Ho.
  assert (0 <= em_attempts e < MAX_MAIL_ATTEMPTS /\ em_sent_at e = None) as [Ha Hs].
  { unfold mail_ok, MAX_MAIL_ATTEMPTS in *.
    destruct Ho as [Ho%bool_decide_eq_true|Ho%bool_decide_eq_true]; rewrite Ho in Hok; naive_solver lia. }
  unfold mail_ok. destruct He; cbn.
  - right; right; left. eauto.
  - right; left. split_and!; [done|lia|done|done].
  - right; right; right. split_and!; [done|lia|done].
Qed.

Lemma touched_ok now ids old new :
  touched now ids old new -> Forall mail_ok old -> Forall mail_ok new.
Proof.
  induction 1 as [|e e' old new He _ IH]; [done|]. intros [Hok Hall]%Forall_cons. apply Forall_cons.
  split; [|by apply IH]. destruct He as [->|[_ He]]; [done|by eapply event_ok].
Qed.

(** The addressed mail: what a row says, whatever became of it. *)
Definition letter (e : Email) := (em_id e, em_to_addr e, em_subject e, em_body e, em_attachment_key e).

Lemma event_letter now e e' : mail_event now e e' -> letter e' = letter e.
Proof. by destruct 1. Qed.

(** What stays true from [w] on: no mail is lost or rewritten, what is over stays as it is, and
    attempts only count up. *)
Definition mail_progress (w w' : World) : Prop :=
  forall e, e ∈ w_emails w -> exists e', e' ∈ w_emails w' /\ letter e' = letter e /\
    (mail_open e = false -> e' = e) /\ em_attempts e <= em_attempts e'.

#[export] Instance mail_progress_preorder : PreOrder mail_progress.
Proof.
  split; [intros w e He; exists e; split_and!; [done..|lia]|]. intros x y z Hxy Hyz e He.
  destruct (Hxy e He) as (e1 & H1 & Hl1 & Hf1 & Ha1). destruct (Hyz e1 H1) as (e2 & H2 & Hl2 & Hf2 & Ha2).
  exists e2. split_and!; [done|congruence| |lia]. intros Ho. specialize (Hf1 Ho) as ->. by apply Hf2.
Qed.

Lemma mailed_progress ids w w' : mailed ids w w' -> mail_progress w w'.
Proof.
  intros (_ & _ & Ht) e He. apply list_elem_of_lookup_1 in He as [i Hi].
  destruct (Forall2_lookup_l _ _ _ _ _ Ht Hi) as (e' & Hi' & He). exists e'.
  split; [by eapply list_elem_of_lookup_2|]. destruct He as [->|[_ He]]; [split_and!; [done..|lia]|].
  split_and!; [by eapply event_letter| |].
  - intros Hf. by destruct He; rewrite Hf in *.
  - destruct He; cbn; lia.
Qed.

Section outbox.
Context (cfg : Config) `{!Smtp}.

Lemma due_batch w v :
  NoDup (map em_id (w_emails w)) -> batch (due_mail (set_faults v w)) (set_faults v w).
Proof.
  intros Hn. unfold batch, due_mail. cbn. split_and!; [|done|].
  - eapply sublist_NoDup; [|apply fmap_sublist, sublist_take]. apply NoDup_map_filter.
    by rewrite (merge_sort_Permutation mail_by_id).
  - apply Forall_take, Forall_forall. intros e [Hd He]%list_elem_of_filter.
    rewrite (merge_sort_Permutation mail_by_id) in He. split; [by eapply mail_due_open|done].
Qed.

(** A drain, whatever fails. *)
Lemma drain_mailed w :
  NoDup (map em_id (w_emails w)) -> exists ids, mailed ids w (drain_mail cfg w).2.
Proof.
  intros Hn. unfold drain_mail. destruct (Str.is_empty _); [exists []; apply mailed_refl|].
  destruct (query_gets_cases due_mail w) as [v [E|[err E]]];
    [rewrite (bind_val _ _ _ _ _ E)|rewrite (bind_fail _ _ _ _ _ E); exists []; apply mailed_faults].
  pose proof (due_batch w v Hn) as Hb. destruct (send_rows_run cfg _ _ Hb) as [Hm _].
  exists (map em_id (due_mail (set_faults v w))). revert Hm. generalize (due_mail (set_faults v w)).
  intros rows (Hnow & Hfs & Ht). unfold mbind, M_bind.
  destruct (send_rows cfg rows (set_faults v w)) as [[n|err|] w2]; [|by split..].
  cbn [snd] in *. unfold attempt.
  destruct (query_gets_cases (fun w => length (filter (fun e =>
    em_status e = "pending" \/ em_status e = "failed") (w_emails w))) w2) as [v2 [E2|[err E2]]];
    rewrite E2; by split.
Qed.

(** C27: a drain is a round of events.  Whatever fails, every row of the outbox is afterwards as
    it was or has gone through exactly one event of the mail's life; when nothing fails, the
    first twenty-five rows that are due have all been attempted, each with the outcome of its
    own mail, and the number of those sent is returned. *)
Theorem drain_refines w :
  mail_outbox_ok w ->
  Forall2 (fun e e' => e' = e \/ mail_event (w_now w / 1000000000) e e')
    (w_emails w) (w_emails (drain_mail cfg w).2) /\
  (w_faults w = [] -> Str.is_empty (smtp_host cfg) = false ->
   (drain_mail cfg w).1 =
     Val (Z.of_nat (length (filter (fun e => build_and_send cfg w e = None) (due_mail w)))) /\
   Forall (fun e => after_attempt (w_now w / 1000000000) (build_and_send cfg w e) e ∈
                    w_emails (drain_mail cfg w).2) (due_mail w)).
Proof.
  intros [Hn _]. split.
  - destruct (drain_mailed w Hn) as (ids & _ & _ & Ht). eapply Forall2_impl; [exact Ht|].
    intros e e' [->|[_ He]]; [by left|by right].
  - intros Hf Hs. unfold drain_mail. rewrite Hs. erewrite bind_val by by rewrite query_ok. cbv beta.
    pose proof (due_batch w (w_faults w) Hn) as Hb.
    replace (set_faults (w_faults w) w) with w in Hb by by destruct w.
    destruct (send_rows_run cfg _ _ Hb) as [_ Hok]. destruct (Hok Hf) as (w' & E & Hf' & Hall).
    rewrite (bind_val _ _ _ _ _ E). unfold attempt, mbind, M_bind. rewrite query_ok by done. done.
Qed.

(** The worker, new mail, and what the environment does in between. *)
Inductive mail_step : World -> World -> Prop :=
  | mail_drain w : mail_step w (drain_mail cfg w).2
  | mail_enqueue box to caller secs key w :
      mail_step w (enqueue_new_message box to caller secs key w).2
  | mail_environment now faults files w :
      mail_step w (set_now now (set_faults faults (set_files files w))).

Lemma mail_step_ok w w' :
  mail_step w w' -> mail_outbox_ok w -> mail_outbox_ok w' /\ mail_progress w w'.
Proof.
  intros Hst [Hn Hok]. destruct Hst as [w|box to caller secs key w|now faults files w].
  - destruct (drain_mailed w Hn) as [ids Hm]. split; [|by eapply mailed_progress].
    destruct Hm as (_ & _ & Ht). split; [by rewrite (touched_ids _ _ _ _ Ht)|by eapply touched_ok].
  - unfold enqueue_new_message, query, fault, modify, mbind, M_bind.
    destruct (w_faults w) as [|[] v]; cbn; (split; [split|]; cbn); try done.
    all: try (apply NoDup_map_snoc; [done|apply next_id_fresh]).
    all: try (apply Forall_app; split; [done|]; apply Forall_singleton; by left).
    all: intros e He; exists e; split_and!; [|done..|lia]; cbn; rewrite ?elem_of_app; auto.
  - split; [by split|]. intros e He. exists e. split_and!; [done..|lia].
Qed.

(** The life of a mail.  From an outbox in order, through any sequence of drains, new mail,
    failing statements and passing time, every row is pending, waiting for a retry, sent or
    given up after five attempts; no mail is lost or rewritten, and what was sent or given up
    stays as it is: it is not sent again. *)
Theorem email_lifecycle w w' :
  rtc mail_step w w' -> mail_outbox_ok w -> mail_outbox_ok w' /\ mail_progress w w'.
Proof.
  induction 1 as [w|x y z Hxy _ IH]; intros Hok; [by split|].
  destruct (mail_step_ok x y Hxy Hok) as [Hy Hp]. destruct (IH Hy) as [Hz Hp'].
  split; [done|by etrans].
Qed.
End outbox.

(** ** Examples *)

(** A server that refuses one address. *)
Definition toy_smtp : Smtp := {|
  is_mailbox s := bool_decide ("@"%char ∈ s);
  smtp_send _ m := if bool_decide (ma_to m = "full@example.com") then Some "552 mailbox full" else None |}.
#[local] Existing Instance toy_smtp.

Definition two_mails : World :=
  let w := set_files {[ "/var/lib/sip3/1001/a.wav" := [1; 2; 3] ]} sample_world in
  (enqueue_new_message 2 "full@example.com" "1002" 9 "1001/a.wav"
    (enqueue_new_message 1 "carol@example.com" "1002" 7 "1001/a.wav" w).2).2.

Lemma two_mails_ok : mail_outbox_ok two_mails.
Proof.
  split; [by_decide|]. unfold two_mails.
  vm_compute. repeat (apply Forall_cons; split; [by left|]). apply Forall_nil_2.
Qed.

Lemma drain_refines_witness :
  (drain_mail sample_config two_mails).1 = Val 1 /\
  map em_status (w_emails (drain_mail sample_config two_mails).2) = ["sent"; "failed"].
Proof.
  destruct (drain_refines sample_config two_mails two_mails_ok) as [_ Hd].
  destruct Hd as [Hr _]; [by_decide|by_decide|]. split; [|vm_compute; reflexivity].
  rewrite Hr. vm_compute. reflexivity.
Defined.

Lemma email_lifecycle_witness :
  mail_outbox_ok (drain_mail sample_config two_mails).2 /\
  mail_progress two_mails (drain_mail sample_config two_mails).2.
Proof.
  apply (email_lifecycle sample_config); [apply rtc_once, mail_drain|apply two_mails_ok].
Defined.
