(* ===== verification/Auth.v ===== *)
(** * Administrator sessions: [backend/src/api/auth.rs], [backend/src/api/admin_users.rs]

    Login with its abuse guard, password change, and the table of administrators. *)

From S2P Require Import Prelude RustStr Net Message SecurityGuard Acl Storage Sdp Media World.
From S2P Require Import Voicemail HttpApi.

Open Scope str_scope.
Open Scope Z_scope.
Open Scope api_scope.

(** ** The guard of the API *)

Definition auth_guard_is_blocked (ip : str) : M bool := fun w =>
  let '(b, g) := is_blocked (w_now w) ip (w_auth_guard w) in (Val b, set_auth_guard g w).

Definition auth_guard_record_failure (s : AuthSurface) (ip : str) (u : option str) : M bool :=
  fun w =>
  let '(b, g) := record_failure (w_now w) s ip u (w_auth_guard w) in (Val b, set_auth_guard g w).

Definition auth_guard_record_success (ip : str) (u : option str) : M unit :=
  modify (fun w => set_auth_guard (record_success ip u (w_auth_guard w)) w).

(** ** The client's address *)

(** The first element that is not blank, when it is an address. *)
Definition forwarded_ip (hs : HeaderMap) : option str :=
  forwarded ← header_get "x-forwarded-for" hs;
  first ← find_first (fun s => negb (Str.is_empty s)) (map Str.trim (Str.split_char "," forwarded));
  _ ← parse_ip first;
  Some first.

Definition real_ip (hs : HeaderMap) : option str :=
  v ← header_get "x-real-ip" hs; _ ← parse_ip v; Some v.

Definition extract_client_ip (hs : HeaderMap) : str :=
  match forwarded_ip hs with
  | Some ip => ip
  | None => default "0.0.0.0" (real_ip hs)
  end.

(** ** Administrators *)

(** [SELECT .. FROM admin_users WHERE username = ?] *)
Definition admin_named (username : str) (w : World) : option AdminUser :=
  find_first (fun u => bool_decide (au_username u = username)) (w_admin_users w).

Definition set_admin_hash (hash : str) (u : AdminUser) : AdminUser :=
  {| au_id := au_id u; au_username := au_username u; au_password_hash := hash |}.

(** [UPDATE admin_users SET password_hash = ? WHERE id = ?]; how many rows matched. *)
Definition update_admin_hash (id : Z) (hash : str) : M Z := fun w =>
  (Val (Z.of_nat (length (filter (fun u => au_id u = id) (w_admin_users w)))),
   set_admin_users (map (fun u => if au_id u =? id then set_admin_hash hash u else u)
                     (w_admin_users w)) w).

(** ** Login *)

Record LoginRequest := { lr_username : str; lr_password : str }.

Record LoginResponse := { lo_token : str; lo_username : str; expires_in : Z }.

Section auth.
Context (cfg : Config) (jwt_secret : str) `{Jwt} `{Bcrypt} `{BcryptHash}.

(** A failed attempt: count it, log it, and ban the address when a threshold is reached. *)
Definition login_failed (source_ip username detail : str) : M unit :=
  blocked ← auth_guard_record_failure ApiLogin source_ip (Some username);
  _ ← ignore (db_persist_event ApiLogin AuthFailed source_ip (Some username) detail);
  when (blocked && persist_acl_bans cfg)
    (_ ← match parse_ip source_ip with
         | Some i => ignore (db_persist_acl_ban i (acl_ban_priority cfg)
                               "auto-ban: api login brute force")
         | None => mret tt
         end;
     ignore (db_persist_event ApiLogin IpBlocked source_ip (Some username)
               "api login source blocked by threshold")).

(** The rest of [login] once the password is right. *)
Definition login_succeeded (source_ip username : str) (user : AdminUser) : M (Api LoginResponse) :=
  _ ← auth_guard_record_success source_ip (Some username);
  _ ← ignore (db_persist_event ApiLogin AuthSucceeded source_ip (Some username)
        "api login succeeded");
  t <-? issue_token (au_username user) jwt_secret (jwt_expiry_secs cfg);
  mret (inl {| lo_token := t; lo_username := au_username user;
               expires_in := jwt_expiry_secs cfg |}).

Definition login (hs : HeaderMap) (bd : LoginRequest) : M (Api LoginResponse) :=
  if Str.is_empty (lr_username bd) || Str.is_empty (lr_password bd)
  then api_err 400 "username and password are required"
  else
    let source_ip := extract_client_ip hs in
    blocked ← auth_guard_is_blocked source_ip;
    if blocked : bool then
      _ ← ignore (db_persist_event ApiLogin AuthFailed source_ip (Some (lr_username bd))
            "api login blocked by guard");
      api_err 401 "Invalid credentials"
    else
      user <-? db (gets (admin_named (lr_username bd)));
      match user with
      | None =>
          _ ← login_failed source_ip (lr_username bd) "api login failed: user not found";
          api_err 401 "Invalid credentials"
      | Some user =>
          valid <-? verify_password (lr_password bd) (au_password_hash user);
          if negb valid then
            _ ← login_failed source_ip (lr_username bd) "api login failed: bad password";
            api_err 401 "Invalid credentials"
          else login_succeeded source_ip (lr_username bd) user
      end.

Definition me (claims : Claims) : str := cl_sub claims.

Record ChangePasswordRequest := { current_password : str; new_password : str }.

Definition change_password (claims : Claims) (bd : ChangePasswordRequest) : M (Api unit) :=
  if Str.len (new_password bd) <? 6 then api_err 400 "new password must be at least 6 characters"
  else
    user <-? db (gets (admin_named (cl_sub claims)));
    match user with
    | None => api_err 404 "Admin user not found"
    | Some user =>
        valid <-? verify_password (current_password bd) (au_password_hash user);
        if negb valid then api_err 401 "Current password is incorrect"
        else
          new_hash <-? hash_password (new_password bd);
          _ <-? db (update_admin_hash (au_id user) new_hash);
          mret (inl tt)
    end.

(** ** The table of administrators *)

Definition next_admin_id (w : World) : Z := next_id (map au_id (w_admin_users w)).

Definition insert_admin (username hash : str) (w : World) : World :=
  set_admin_users (w_admin_users w ++ [{| au_id := next_admin_id w; au_username := username;
    au_password_hash := hash |}]) w.

Record CreateAdminUser := { ca_username : str; ca_password : str }.

(** The statement fails, violates the unique key, or inserts. *)
Definition create_admin (bd : CreateAdminUser) : M (Api Z) :=
  if Str.is_empty (ca_username bd) || Str.is_empty (ca_password bd)
  then api_err 400 "username and password are required"
  else if Str.len (ca_password bd) <? 6
  then api_err 400 "password must be at least 6 characters"
  else
    hash <-? hash_password (ca_password bd);
    b ← fault;
    if b : bool then api_err 500 "database error"
    else
      taken ← gets (fun w => existsb (fun u => bool_decide (au_username u = ca_username bd))
                               (w_admin_users w));
      if taken : bool then api_err 409 "Admin user with this username already exists"
      else
        id ← gets next_admin_id;
        _ ← modify (insert_admin (ca_username bd) hash);
        mret (inl id).

Definition update_admin (id : Z) (password : option str) : M (Api unit) :=
  match password with
  | None => api_err 400 "password is required"
  | Some password =>
      if Str.is_empty password then api_err 400 "password is required"
      else if Str.len password <? 6 then api_err 400 "password must be at least 6 characters"
      else
        hash <-? hash_password password;
        rows <-? db (update_admin_hash id hash);
        if rows =? 0 then api_err 404 "Admin user not found" else mret (inl tt)
  end.

(** The two statements of [delete_user]: the count, and the deletion that follows it. *)
Definition count_admins : M Z := gets (fun w => Z.of_nat (length (w_admin_users w))).

Definition delete_admin_row (id : Z) : M bool := fun w =>
  (Val (existsb (fun u => au_id u =? id) (w_admin_users w)),
   set_admin_users (filter (fun u => au_id u <> id) (w_admin_users w)) w).

Definition delete_checked (count id : Z) : M (Api unit) :=
  if count <=? 1 then api_err 409 "Cannot delete the last admin user"
  else
    found <-? db (delete_admin_row id);
    if negb found then api_err 404 "Admin user not found" else mret (inl tt).

Definition delete_admin (id : Z) : M (Api unit) :=
  count <-? db count_admins; delete_checked count id.

Definition list_admins : M (Api (list AdminUser)) := db (gets w_admin_users).
End auth.

(** ** Facts: sessions *)

Section sessions.
Context (cfg : Config) (jwt_secret : str) `{!Jwt} `{!Bcrypt}.
Implicit Types (hs : HeaderMap) (bd : LoginRequest).

Definition login_blocked (w : World) hs : bool :=
  (is_blocked (w_now w) (extract_client_ip hs) (w_auth_guard w)).1.

(** The request is complete, comes from an address that is not blocked, and has the name and
    the password of an administrator. *)
Definition admin_credentials (w : World) hs bd : Prop :=
  lr_username bd <> [] /\ lr_password bd <> [] /\ login_blocked w hs = false /\
  exists u, admin_named (lr_username bd) w = Some u /\
    bcrypt_verify (lr_password bd) (au_password_hash u) = Some true.

(** The claims of a token issued now. *)
Definition session_claims (w : World) (username : str) : Claims :=
  let now := w_now w / 1000000000 in
  {| cl_sub := username; cl_iat := now;
     cl_exp := wrap_i64 (now + wrap_i64 (jwt_expiry_secs cfg)) |}.

Lemma auth_guard_is_blocked_run hs w :
  exists g, auth_guard_is_blocked (extract_client_ip hs) w =
    (Val (login_blocked w hs), set_auth_guard g w).
Proof.
  unfold auth_guard_is_blocked, login_blocked. destruct (is_blocked _ _ _) as [b g]. by exists g.
Qed.

Lemma event_logged s e ip u d : total (ignore (db_persist_event s e ip u d)).
Proof. unfold db_persist_event. auto with total. Qed.

Lemma event_keeps_now s e ip u d : moves (same w_now) (ignore (db_persist_event s e ip u d)).
Proof. unfold db_persist_event. solve_moves. Qed.

Lemma login_failed_total ip u d : total (login_failed cfg ip u d).
Proof.
  apply total_bind.
  { intros w. unfold auth_guard_record_failure. destruct (record_failure _ _ _ _ _). eauto. }
  intros b. apply total_bind; [apply event_logged|]. intros _. apply total_when.
  apply total_bind; [|intros; apply event_logged].
  case_match; [|apply total_ret]. unfold db_persist_acl_ban. auto with total.
Qed.

Lemma login_succeeded_run ip username u w :
  (login_succeeded cfg jwt_secret ip username u w).1 =
  Val match jwt_encode jwt_secret (session_claims w (au_username u)) with
      | Some t => inl {| lo_token := t; lo_username := au_username u;
                         expires_in := jwt_expiry_secs cfg |}
      | None => inr (500, "jwt error")
      end.
Proof.
  unfold login_succeeded, auth_guard_record_success. rewrite bind_modify.
  set (w1 := set_auth_guard _ w).
  destruct (event_logged ApiLogin AuthSucceeded ip (Some username) "api login succeeded" w1)
    as (a & w2 & E). rewrite (bind_val _ _ _ _ _ E).
  pose proof (event_keeps_now ApiLogin AuthSucceeded ip (Some username) "api login succeeded" w1)
    as Hn. rewrite E in Hn. unfold same in Hn. cbn [snd] in Hn. change (w_now w1) with (w_now w) in Hn.
  unfold session_claims. rewrite <-Hn.
  unfold issue_token, unix_secs, api_bind. rewrite bind_assoc, bind_gets. cbv zeta.
  by destruct (jwt_encode _ _).
Qed.

(** Whatever fails, a token is given only to an administrator's credentials. *)
Lemma login_requires_credentials hs bd w r :
  (login cfg jwt_secret hs bd w).1 = Val (inl r) ->
  admin_credentials w hs bd /\ lo_username r = lr_username bd /\
  jwt_encode jwt_secret (session_claims w (lr_username bd)) = Some (lo_token r).
Proof.
  unfold login. destruct (_ || _) eqn:He; [done|]. apply orb_false_iff in He as [Hu Hp].
  destruct (auth_guard_is_blocked_run hs w) as [g Hg]. rewrite (bind_val _ _ _ _ _ Hg).
  destruct (login_blocked w hs) eqn:Hb.
  { unfold api_err. rewrite total_then; [done|apply event_logged]. }
  destruct (db_gets (admin_named (lr_username bd)) (set_auth_guard g w)) as [v [E|E]]; [done|..];
    [rewrite (api_bind_ok _ _ _ _ _ E)|by rewrite (api_bind_err _ _ _ _ _ E)].
  change (admin_named (lr_username bd) (set_auth_guard g w)) with (admin_named (lr_username bd) w).
  destruct (admin_named (lr_username bd) w) as [u|] eqn:Hn; cycle 1.
  { unfold api_err. rewrite total_then; [done|apply login_failed_total]. }
  unfold verify_password. destruct (bcrypt_verify _ _) as [[]|] eqn:Hv; cycle 1; [|done|].
  { erewrite api_bind_ok by done. cbn [negb]. unfold api_err.
    rewrite total_then; [done|apply login_failed_total]. }
  erewrite api_bind_ok by done. cbn [negb]. rewrite login_succeeded_run.
  change (session_claims (set_faults v (set_auth_guard g w))) with (session_claims w).
  apply find_first_Some in Hn as Hname. destruct Hname as [_ Hname%bool_decide_eq_true].
  rewrite Hname.
  destruct (jwt_encode _ _) as [t|] eqn:Hj; intros [= <-]. cbn. split_and!; [|done..].
  split_and!; [by destruct (lr_username bd)|by destruct (lr_password bd)|done|]. by exists u.
Qed.

(** With them, on a database that answers, a token is given. *)
Lemma login_grants `{!JwtLaws} hs bd w :
  w_faults w = [] -> admin_credentials w hs bd -> exists r, (login cfg jwt_secret hs bd w).1 = Val (inl r).
Proof.
  intros Hf (Hu & Hp & Hb & u & Hn & Hv). unfold login.
  destruct (lr_username bd) as [|c cs] eqn:Eu; [done|]. destruct (lr_password bd) eqn:Ep; [done|].
  cbn [Str.is_empty orb]. rewrite <-Ep in *. rewrite <-Eu in *.
  destruct (auth_guard_is_blocked_run hs w) as [g Hg]. rewrite (bind_val _ _ _ _ _ Hg), Hb.
  erewrite api_bind_ok by (by apply db_ok). cbv beta.
  change (admin_named (lr_username bd) (set_auth_guard g w)) with (admin_named (lr_username bd) w).
  rewrite Hn. unfold verify_password. rewrite Hv. erewrite api_bind_ok by done. cbn [negb].
  rewrite login_succeeded_run.
  destruct (jwt_encode_total jwt_secret (session_claims (set_auth_guard g w) (au_username u))) as [t ->].
  eauto.
Qed.

Lemma session_expiry w u :
  0 <= jwt_expiry_secs cfg < 2 ^ 62 -> 0 <= w_now w / 1000000000 < 2 ^ 62 ->
  cl_exp (session_claims w u) = w_now w / 1000000000 + jwt_expiry_secs cfg.
Proof.
  intros He Hn. cbn [cl_exp session_claims]. rewrite (wrap_i64_small (jwt_expiry_secs cfg)) by lia.
  rewrite wrap_i64_small; lia.
Qed.

(** C14: a login is a session.  On a database that answers, a login is granted exactly to the name
    and password of an administrator, sent from an address that is not blocked; and the token
    it returns passes the JWT middleware as that administrator from then on until a minute
    after its lifetime, and never later. *)
Theorem login_is_session `{!JwtLaws} hs bd w :
  w_faults w = [] -> 0 <= jwt_expiry_secs cfg < 2 ^ 62 -> 0 <= w_now w / 1000000000 < 2 ^ 62 ->
  ((exists r, (login cfg jwt_secret hs bd w).1 = Val (inl r)) <-> admin_credentials w hs bd) /\
  forall r, (login cfg jwt_secret hs bd w).1 = Val (inl r) ->
  forall t hs', extract_bearer_token hs' = Some (lo_token r) ->
    me <$> require_jwt jwt_secret t hs' =
    if t <=? w_now w / 1000000000 + jwt_expiry_secs cfg + 60 then Some (lr_username bd) else None.
Proof.
  intros Hf He Hn. split; [split|].
  - by intros [r (? & _)%login_requires_credentials].
  - by apply login_grants.
  - intros r (_ & _ & Htok)%login_requires_credentials t hs' Hh.
    unfold require_jwt, verify_token. rewrite Hh. cbn [mbind option_bind].
    pose proof (session_expiry w (lr_username bd) He Hn) as Hexp.
    rewrite (jwt_decode_encode _ _ _ _ Htok) by (rewrite Hexp; lia). rewrite Hexp.
    replace (t - 60 <=? _) with (t <=? w_now w / 1000000000 + jwt_expiry_secs cfg + 60);
      [by case_match|]. apply eq_true_iff_eq. rewrite !Z.leb_le. lia.
Qed.
End sessions.

(** ** Facts: the table of administrators *)

(** There is an administrator; ids and names are unique. *)
Definition admins_ok (w : World) : Prop :=
  w_admin_users w <> [] /\ NoDup (map au_id (w_admin_users w)) /\
  NoDup (map au_username (w_admin_users w)).

Lemma set_admin_hash_row id hash w :
  admins_ok w -> admins_ok (update_admin_hash id hash w).2.
Proof.
  unfold admins_ok, update_admin_hash. cbn. intros (Hne & Hi & Hu).
  rewrite !map_update_key by (intros u; by case_match). split_and!; [|done..].
  by destruct (w_admin_users w).
Qed.

Lemma insert_admin_ok username hash w :
  existsb (fun u => bool_decide (au_username u = username)) (w_admin_users w) = false ->
  admins_ok w -> admins_ok (insert_admin username hash w).
Proof.
  intros Hfree (Hne & Hi & Hu). unfold admins_ok, insert_admin. cbn. split_and!.
  - by destruct (w_admin_users w).
  - apply NoDup_map_snoc; [done|]. apply next_id_fresh.
  - apply NoDup_map_snoc; [done|]. cbn. intros (u & Hname & Hin)%elem_of_map.
    apply not_true_iff_false in Hfree. apply Hfree, existsb_exists. exists u.
    split; [by apply list_elem_of_In|]. by apply bool_decide_eq_true.
Qed.

(** Two rows, one id to delete: one row stays. *)
Lemma delete_keeps_one (l : list AdminUser) id :
  NoDup (map au_id l) -> (1 < length l)%nat -> filter (fun u => au_id u <> id) l <> [].
Proof.
  intros Hn Hl Hf. destruct l as [|a [|b l]]; [cbn in Hl; lia..|].
  assert (forall u, u ∈ a :: b :: l -> au_id u = id) as Hall.
  { intros u Hu. destruct (decide (au_id u = id)); [done|]. exfalso.
    assert (u ∈ filter (fun u => au_id u <> id) (a :: b :: l)) as Hin
      by (apply list_elem_of_filter; done).
    rewrite Hf in Hin. by apply not_elem_of_nil in Hin. }
  cbn [map] in Hn. apply NoDup_cons in Hn as [Ha _]. apply Ha.
  rewrite (Hall a), <-(Hall b) by set_solver. set_solver.
Qed.

Lemma delete_admin_ok id : moves (keeps admins_ok) (delete_admin id).
Proof.
  intros w Hok. unfold delete_admin, count_admins.
  destruct (db_gets (fun w => Z.of_nat (length (w_admin_users w))) w) as [v [E|E]]; [done|..];
    [rewrite (api_bind_ok _ _ _ _ _ E)|by rewrite (api_bind_err _ _ _ _ _ E)].
  unfold delete_checked. destruct (Z.leb_spec (Z.of_nat (length (w_admin_users w))) 1) as [|Hc];
    [done|]. assert (admins_ok (set_faults v w)) as Hok' by done.
  revert Hok' Hc. change (w_admin_users w) with (w_admin_users (set_faults v w)).
  generalize (set_faults v w). clear. intros w Hok Hc.
  destruct (db_cases (delete_admin_row id) w) as [(v & r & E)|(v & _ & E)];
    [by rewrite (api_bind_err _ _ _ _ _ E)|].
  erewrite api_bind_ok by exact E. destruct Hok as (Hne & Hi & Hu).
  assert (admins_ok (delete_admin_row id w).2) as Hdel.
  { split_and!; cbn; [apply delete_keeps_one; [done|lia]|by apply NoDup_map_filter..]. }
  by case_match.
Qed.

Section admins.
Context (cfg : Config) (jwt_secret : str) `{!Jwt} `{!Bcrypt} `{!BcryptHash}.

Lemma create_admin_ok bd : moves (keeps admins_ok) (create_admin bd).
Proof.
  unfold create_admin, api_err. do 2 (case_match; [apply moves_ret|]).
  apply moves_api_bind; [apply moves_hash_password|]. intros hash.
  apply moves_bind; [apply moves_fault|]. intros []; [apply moves_ret|]. intros w.
  rewrite bind_gets. case_match; [done|]. rewrite bind_gets, bind_modify. cbn.
  intros Hok. by apply insert_admin_ok.
Qed.

Lemma update_admin_ok id p : moves (keeps admins_ok) (update_admin id p).
Proof.
  unfold update_admin, api_err. solve_api. intros w Hok. by apply set_admin_hash_row.
Qed.

Lemma change_password_ok claims bd : moves (keeps admins_ok) (change_password claims bd).
Proof.
  unfold change_password, api_err, verify_password. solve_api. intros w Hok. by apply set_admin_hash_row.
Qed.

Lemma login_keeps {T} (f : World -> T) hs bd :
  (forall v w, f (set_faults v w) = f w) -> (forall v w, f (set_random v w) = f w) ->
  (forall v w, f (set_auth_guard v w) = f w) -> (forall v w, f (set_security_events v w) = f w) ->
  (forall v w, f (set_acl_rows v w) = f w) ->
  moves (same f) (login cfg jwt_secret hs bd).
Proof.
  intros Hf Hr Hg He Ha.
  assert (IoFrame (same f)) by (split; [apply same_preorder|by intros; apply Hf|by intros; apply Hr]).
  unfold login, login_succeeded, login_failed, db_persist_event, db_persist_acl_ban, verify_password,
    issue_token, api_err, auth_guard_record_success.
  solve_api; try (apply moves_modify; intros; first [apply Hg|apply He|apply Ha]);
    intros w; unfold auth_guard_is_blocked, auth_guard_record_failure, same;
    case_match; cbn [snd]; apply Hg.
Qed.

(** The requests that can change the table, each run to its end. *)
Inductive admin_step : World -> World -> Prop :=
  | step_login hs bd w : admin_step w (login cfg jwt_secret hs bd w).2
  | step_change claims bd w : admin_step w (change_password claims bd w).2
  | step_create bd w : admin_step w (create_admin bd w).2
  | step_update id p w : admin_step w (update_admin id p w).2
  | step_delete id w : admin_step w (delete_admin id w).2
  | step_environment now faults rnd w :
      admin_step w (set_now now (set_faults faults (set_random rnd w))).

Lemma admin_step_ok w w' : admin_step w w' -> keeps admins_ok w w'.
Proof.
  destruct 1; [|by apply change_password_ok|by apply create_admin_ok|by apply update_admin_ok
               |by apply delete_admin_ok|by intros ?].
  unfold keeps, admins_ok. by rewrite (login_keeps w_admin_users hs bd).
Qed.
End admins.

(** ** Theorems on administrators *)

Lemma admin_named_update id hash w u name :
  admins_ok w -> admin_named (au_username u) w = Some u -> id = au_id u ->
  admin_named name (update_admin_hash id hash w).2 =
  if decide (name = au_username u) then Some (set_admin_hash hash u) else admin_named name w.
Proof.
  intros (_ & Hi & Hu) Hn ->. unfold admin_named in *. cbn. apply find_first_Some in Hn as Hin.
  destruct Hin as [Hin _]. revert Hi Hu Hin. clear Hn.
  induction (w_admin_users w) as [|x l IH]; [by intros _ _ ?%not_elem_of_nil|].
  cbn [map]. intros [Hx Hi]%NoDup_cons [Hy Hu]%NoDup_cons Hin. cbn [find_first].
  destruct (Z.eqb_spec (au_id x) (au_id u)) as [E|E].
  - assert (x = u) as ->.
    { apply elem_of_cons in Hin as [->|Hin]; [done|]. exfalso. apply Hx.
      rewrite E. apply elem_of_map. eauto. }
    cbn [set_admin_hash au_username]. case_decide as Hd.
    { subst. by rewrite !bool_decide_eq_true_2. }
    rewrite bool_decide_eq_false_2, map_update_none; [done| |done].
    apply Forall_forall. intros y Hyl. apply Z.eqb_neq. intros Ey. apply Hx. rewrite <-Ey.
    apply elem_of_map. eauto.
  - apply elem_of_cons in Hin as [->|Hin]; [done|]. rewrite IH by done. case_decide as Hd; [|done].
    subst. rewrite bool_decide_eq_false_2; [done|]. intros Hname. apply Hy. rewrite Hname.
    apply elem_of_map. eauto.
Qed.

(** A password change needs the current password and takes effect.  When it is reported as
    done, the caller knew the administrator's password, the new one has six bytes or more, it
    is the one that now verifies for this administrator, and no other administrator's row has
    changed. *)
Theorem password_change_effective `{!Bcrypt, !BcryptHash, !BcryptLaws} claims bd w w' :
  admins_ok w -> change_password claims bd w = (Val (inl tt), w') ->
  6 <= Str.len (new_password bd) /\
  (exists u, admin_named (cl_sub claims) w = Some u /\
     bcrypt_verify (current_password bd) (au_password_hash u) = Some true) /\
  (exists u, admin_named (cl_sub claims) w' = Some u /\
     bcrypt_verify (new_password bd) (au_password_hash u) = Some true) /\
  forall name, name <> cl_sub claims -> admin_named name w' = admin_named name w.
Proof.
  intros Hok. unfold change_password. destruct (Z.ltb_spec (Str.len (new_password bd)) 6) as [|Hl];
    [done|]. intros (u & w1 & Hu & Hrest)%api_bind_inv. apply db_inv in Hu as [v Hu].
  inversion Hu; subst u w1. clear Hu.
  change (admin_named (cl_sub claims) (set_faults v w)) with (admin_named (cl_sub claims) w) in Hrest.
  destruct (admin_named (cl_sub claims) w) as [u|] eqn:Hn; [|done].
  apply api_bind_inv in Hrest as (valid & w2 & Hv & Hrest). unfold verify_password in Hv.
  destruct (bcrypt_verify _ _) as [b|] eqn:Hb; [|done]. inversion Hv; subst valid w2. clear Hv.
  destruct b; [|done]. cbn [negb] in Hrest.
  apply api_bind_inv in Hrest as (h & w3 & Hh & Hrest).
  apply hash_password_inv in Hh as (salt & rnd & Hver%bcrypt_verify_hash & Ew3).
  assert (w_admin_users w3 = w_admin_users w) as H3 by by rewrite Ew3.
  apply api_bind_inv in Hrest as (n & w4 & Hup & Hret). apply db_inv in Hup as [v' Hup].
  inversion Hret; subst w4. clear Hret.
  assert (w' = (update_admin_hash (au_id u) h (set_faults v' w3)).2) as -> by by rewrite Hup.
  assert (admins_ok (set_faults v' w3)) as Hok' by (unfold admins_ok; cbn; by rewrite H3).
  apply find_first_Some in Hn as Hname. destruct Hname as [_ Hname%bool_decide_eq_true].
  assert (admin_named (au_username u) (set_faults v' w3) = Some u) as Hn3
    by (unfold admin_named in *; cbn; by rewrite H3, Hname).
  split_and!; [done|eauto| |].
  - rewrite (admin_named_update _ _ _ u) by done. rewrite Hname, decide_True by done. eauto.
  - intros name Hne. rewrite (admin_named_update _ _ _ u) by done.
    rewrite Hname, decide_False by done. unfold admin_named. cbn. by rewrite H3.
Qed.

(** C15: somebody can always log in.  Over any sequence of logins, password changes and
    administrations, each run to its end and with any failures, the table keeps at least one
    administrator, and ids and names stay unique. *)
Theorem admins_invariant cfg jwt_secret `{!Jwt, !Bcrypt, !BcryptHash} w w' :
  rtc (admin_step cfg jwt_secret) w w' -> admins_ok w -> admins_ok w'.
Proof. induction 1 as [|x y z Hxy _ IH]; [done|]. intros Hok. by eapply IH, admin_step_ok. Qed.

(** Two deletions at once lock everybody out.  The count of [delete_user] and its DELETE are
    two statements: when two requests both count two administrators before either deletes, both
    succeed, the table is empty, and no login is granted any more. *)
Theorem concurrent_deletes_lock_out cfg jwt_secret `{!Jwt, !Bcrypt} a b w :
  w_faults w = [] -> w_admin_users w = [a; b] -> au_id a <> au_id b ->
  exists n w1 w2, count_admins w = (Val n, w) /\
    delete_checked n (au_id a) w = (Val (inl tt), w1) /\
    delete_checked n (au_id b) w1 = (Val (inl tt), w2) /\ w_admin_users w2 = [] /\
    forall hs bd r, (login cfg jwt_secret hs bd w2).1 <> Val (inl r).
Proof.
  intros Hf Ht Hne.
  assert (forall id l w, w_faults w = [] -> w_admin_users w = l ->
    existsb (fun u => au_id u =? id) l = true ->
    delete_checked 2 id w =
      (Val (inl tt), set_admin_users (filter (fun u => au_id u <> id) l) w)) as Hdel.
  { intros id l w0 Hf0 <- Hin. unfold delete_checked. change (2 <=? 1) with false. cbv iota.
    erewrite api_bind_ok by (by apply db_ok). by rewrite Hin. }
  eexists 2, _, _. split; [by unfold count_admins, gets; rewrite Ht|].
  split; [apply (Hdel _ [a; b]); [done..|]; cbn; by rewrite Z.eqb_refl|].
  assert (filter (fun u => au_id u <> au_id a) [a; b] = [b]) as Ha
    by by rewrite filter_cons_False, filter_cons_True by naive_solver.
  assert (filter (fun u => au_id u <> au_id b) [b] = []) as Hb
    by by rewrite filter_cons_False by naive_solver.
  rewrite Ha. split; [apply (Hdel _ [b]); [done..|]; cbn; by rewrite Z.eqb_refl|].
  rewrite Hb. split; [done|]. intros hs bd r (Hcred & _)%login_requires_credentials.
  by destruct Hcred as (_ & _ & _ & u & Hu & _).
Qed.

(** ** Examples *)

Definition demo_admin (id : Z) (name : str) : AdminUser :=
  {| au_id := id; au_username := name; au_password_hash := name ++ "-password" |}.

Definition admin_world : World := set_admin_users [demo_admin 1 "root"; demo_admin 2 "ops"] sample_world.

Definition root_login : LoginRequest := {| lr_username := "root"; lr_password := "root-password" |}.

(** The answer to a login that was granted. *)
Definition granted (a : res (Api LoginResponse)) : LoginResponse :=
  match a with
  | Val (inl r) => r
  | _ => {| lo_token := ""; lo_username := ""; expires_in := 0 |}
  end.

Definition root_session : LoginResponse :=
  granted (@login sample_config "k" toy_jwt toy_bcrypt [] root_login admin_world).1.

Definition bearer (r : LoginResponse) : HeaderMap := [("authorization", "Bearer " ++ lo_token r)].

Lemma login_is_session_witness :
  me <$> @require_jwt toy_jwt "k" 1700086460 (bearer root_session) = Some "root" /\
  me <$> @require_jwt toy_jwt "k" 1700086461 (bearer root_session) = None.
Proof.
  destruct (@login_is_session sample_config "k" toy_jwt toy_bcrypt toy_jwt_laws [] root_login
    admin_world) as [_ Htok]; [done|by vm_compute..|].
  pose proof (Htok root_session ltac:(vm_compute; reflexivity)) as Ht.
  split; rewrite Ht by (vm_compute; reflexivity); vm_compute; reflexivity.
Defined.

Definition root_claims : Claims := {| cl_sub := "root"; cl_iat := 0; cl_exp := 0 |}.

Definition root_change : ChangePasswordRequest :=
  {| current_password := "root-password"; new_password := "correct horse" |}.

Lemma admin_world_ok : admins_ok admin_world.
Proof. split_and!; [done|apply (bool_decide_eq_true_1 _); vm_compute; reflexivity..]. Qed.

Lemma password_change_effective_witness :
  let w' := (@change_password toy_bcrypt toy_bcrypt_hash root_claims root_change admin_world).2 in
  admin_named "ops" w' = Some (demo_admin 2 "ops") /\
  exists u, admin_named "root" w' = Some u /\
    @bcrypt_verify toy_bcrypt "correct horse" (au_password_hash u) = Some true.
Proof.
  intros w'. destruct (@password_change_effective toy_bcrypt toy_bcrypt_hash toy_bcrypt_laws
    root_claims root_change admin_world w') as (_ & _ & Hnew & Hother);
    [apply admin_world_ok|vm_compute; reflexivity|].
  split; [|exact Hnew]. rewrite Hother by done. vm_compute. reflexivity.
Defined.

Lemma admins_invariant_witness :
  admins_ok (delete_admin 1 (delete_admin 2 admin_world).2).2.
Proof.
  apply (@admins_invariant sample_config "k" toy_jwt toy_bcrypt toy_bcrypt_hash admin_world);
    [|apply admin_world_ok]. eapply rtc_l; [|eapply rtc_once]; apply step_delete.
Defined.

Lemma concurrent_deletes_lock_out_witness :
  exists w1 w2, delete_checked 2 1 admin_world = (Val (inl tt), w1) /\
    delete_checked 2 2 w1 = (Val (inl tt), w2) /\ w_admin_users w2 = [].
Proof.
  destruct (@concurrent_deletes_lock_out sample_config "k" toy_jwt toy_bcrypt (demo_admin 1 "root")
    (demo_admin 2 "ops") admin_world) as (n & w1 & w2 & Hn & H1 & H2 & He & _); [done..|].
  inversion Hn; subst n. by exists w1, w2.
Defined.
