(* ===== verification/Presence.v ===== *)
(** * Presence subscriptions: [backend/src/sip/presence.rs] *)

From S2P Require Import Prelude RustStr Net Message Response SecurityGuard Acl Sdp Media World.

Open Scope str_scope.
Open Scope Z_scope.

Inductive PresenceStatus := StatusOpen | StatusClosed.

Definition show_status (s : PresenceStatus) : str :=
  match s with StatusOpen => "open" | StatusClosed => "closed" end.

(** The value of the first [;param=...] of a header, compared without case. *)
Definition extract_param (header_val param : str) : option str :=
  find_map (fun part =>
    let part := Str.trim part in
    match Str.strip_prefix (Str.to_lower param ++ "=") (Str.to_lower part) with
    | Some _ => Some (Str.trim_matches Str.DQUOTE (drop (length param + 1) part))
    | None => None
    end) (Str.split_char ";" header_val).

Definition build_pidf (target domain : str) (status : PresenceStatus) : str :=
  "<?xml version=" ++ quoted "1.0" ++ " encoding=" ++ quoted "UTF-8" ++ "?>" ++ [Str.LF] ++
  "<presence xmlns=" ++ quoted "urn:ietf:params:xml:ns:pidf" ++ [Str.LF] ++
  "entity=" ++ quoted ("sip:" ++ target ++ "@" ++ domain) ++ ">" ++ [Str.LF] ++
  "<tuple id=" ++ quoted "1" ++ ">" ++ [Str.LF] ++
  "<status><basic>" ++ show_status status ++ "</basic></status>" ++ [Str.LF] ++
  "</tuple>" ++ [Str.LF] ++
  "</presence>".

Definition build_notify (branch_hex subscriber subscriber_tag target domain server_domain
    call_id : str) (cseq : Z) (sub_state : str) (status : PresenceStatus) : str :=
  let pidf := build_pidf target domain status in
  let branch := "z9hG4bKpres" ++ branch_hex in
  let to_tag := if Str.is_empty subscriber_tag then "" else ";tag=" ++ subscriber_tag in
  render ("NOTIFY sip:" ++ subscriber ++ "@" ++ domain ++ " SIP/2.0")
    [("Via", "SIP/2.0/UDP " ++ server_domain ++ ";branch=" ++ branch);
     ("From", "<sip:" ++ target ++ "@" ++ domain ++ ">;tag=pres-srv-1");
     ("To", "<sip:" ++ subscriber ++ "@" ++ domain ++ ">" ++ to_tag);
     ("Call-ID", call_id);
     ("CSeq", Str.show_dec cseq ++ " NOTIFY");
     ("Event", "presence");
     ("Subscription-State", sub_state);
     ("Content-Type", "application/pidf+xml");
     ("Content-Length", Str.show_dec (Str.len pidf))]
    pidf.

Section presence.
Context (cfg : Config).

Definition get_status (username domain : str) : M PresenceStatus :=
  count ← attempt (query (gets (fun w =>
    match live_registration w username domain with Some _ => 1 | None => 0 end)));
  mret (if 0 <? default 0 count then StatusOpen else StatusClosed).

(** [WHERE target = ? AND domain = ? AND expires_at > NOW()], as (subscriber, row). *)
Definition watchers (w : World) (target domain : str) : list (str * PresenceSub) :=
  omap (fun '(k, row) =>
    let '(subscriber, t, d) := (k : str * str * str) in
    if decide (t = target /\ d = domain) then
      if w_now w / 1000000000 <? ps_expires_at row then Some (subscriber, row) else None
    else None) (map_to_list (w_presence_subs w)).

(** [UPDATE sip_presence_subscriptions SET cseq = ? WHERE ...] *)
Definition set_sub_cseq (subscriber target domain : str) (cseq : Z) : M unit :=
  modify (fun w => set_presence_subs
    (alter (fun r => {| ps_call_id := ps_call_id r; ps_cseq := cseq; ps_tag := ps_tag r;
                        ps_ip := ps_ip r; ps_port := ps_port r;
                        ps_expires_at := ps_expires_at r |})
       (subscriber, target, domain) (w_presence_subs w)) w).

Definition notify_one (username domain : str) (status : PresenceStatus)
    (entry : str * PresenceSub) : M unit :=
  let '(subscriber, row) := entry in
  let new_cseq := Z.min Int.u32_max (ps_cseq row + 1) in
  _ ← ignore (query (set_sub_cseq subscriber username domain new_cseq));
  match parse_addr (addr_text (ps_ip row) (ps_port row)) with
  | None => mret tt
  | Some addr =>
      now ← unix_secs;
      let remaining := Z.max 0 (ps_expires_at row - now) in
      hex ← random_hex 4;
      ignore (udp_send (build_notify hex subscriber (ps_tag row) username domain
        (sip_domain cfg) (ps_call_id row) new_cseq
        ("active;expires=" ++ Str.show_dec remaining) status) addr)
  end.

Definition notify_status_change (username domain : str) (status : PresenceStatus) : M unit :=
  rows ← attempt (query (gets (fun w => watchers w username domain)));
  match rows with
  | None => mret tt
  | Some rows => for_each rows (notify_one username domain status)
  end.

(** [INSERT ... ON DUPLICATE KEY UPDATE ..., cseq = cseq + 1] *)
Definition upsert_sub (subscriber target domain call_id tag : str) (src : SocketAddr)
    (expires_at : Z) (w : World) : World :=
  let key := (subscriber, target, domain) in
  let cseq := match w_presence_subs w !! key with
              | Some old => ps_cseq old + 1 | None => 1 end in
  set_presence_subs (<[key := {| ps_call_id := call_id; ps_cseq := cseq; ps_tag := tag;
     ps_ip := show_ip (ip src); ps_port := port src; ps_expires_at := expires_at |}]>
     (w_presence_subs w)) w.

Definition handle_subscribe (msg : SipMessage) (src : SocketAddr) : M str :=
  let event := Str.to_lower (default "presence" (header msg "event")) in
  let event := Str.trim (default "presence" (head (Str.split_char ";" event))) in
  if negb (bool_decide (event = "presence")) && negb (bool_decide (event = "dialog"))
  then mret (build (base_response msg 489 "Bad Event"))
  else
    let from := default "" (from_header msg) in
    let from_uri := default "" (extract_uri from) in
    let subscriber := default "" (uri_username from_uri) in
    let subscriber_tag := default "" (extract_param from "tag") in
    let req_uri := default "" (request_uri msg) in
    let target := default "" (uri_username req_uri) in
    if Str.is_empty subscriber || Str.is_empty target
    then mret (build (base_response msg 400 "Bad Request"))
    else
      let domain := sip_domain cfg in
      let cid := default "" (call_id msg) in
      let exp := default 300 (expires msg) in
      if exp =? 0 then
        _ ← query (modify (fun w => set_presence_subs
              (delete (subscriber, target, domain) (w_presence_subs w)) w));
        hex ← random_hex 4;
        _ ← ignore (udp_send (build_notify hex subscriber subscriber_tag target domain
              (sip_domain cfg) cid 1 "terminated;reason=timeout" StatusClosed) src);
        mret (build (base_response msg 200 "OK"))
      else
        now ← unix_secs;
        _ ← query (modify (upsert_sub subscriber target domain cid subscriber_tag src (now + exp)));
        cseq ← attempt (query (gets (fun w => w_presence_subs w !! (subscriber, target, domain))));
        let cseq := match cseq with Some (Some row) => ps_cseq row | _ => 1 end in
        status ← get_status target domain;
        hex ← random_hex 4;
        _ ← ignore (udp_send (build_notify hex subscriber subscriber_tag target domain
              (sip_domain cfg) cid cseq ("active;expires=" ++ Str.show_dec exp) status) src);
        mret (build (base_response msg 200 "OK")).
End presence.
