(* ===== verification/ConferenceMedia.v ===== *)
(** * Conference media

    [backend/src/sip/conference_sdp.rs]: offer and answer.
    [backend/src/sip/conference_media.rs]: rooms and participants, the [*6] mute switch, the
    receive loop (one packet) and the mixer (one tick).

    A room of [w_conf_media] is the map of its participants.  The mixer task of a room exists
    as long as the room; its recorder is never set by the code, and the recording branch of the
    mixer, which is not reached, is in [Recorder]. *)

From S2P Require Import Prelude RustStr Net Message SecurityGuard Acl G711 Storage Sdp Media.
From S2P Require Import World Gateway VoicemailSdp VoicemailMedia.

Open Scope str_scope.
Open Scope Z_scope.

(** ** Offer and answer *)

Definition rtpmap_name (c : ConferenceCodec) : str :=
  match c with ConfPcmu => "PCMU" | ConfPcma => "PCMA" end.

Record ConferenceNegotiation := {
  cn_codec : ConferenceCodec;
  cn_audio_pt : Z;
  cn_telephone_event_pt : option Z;
}.

(** The first G.711 type and the first telephone-event type; the scan of the lines and the
    resolution of a payload type are those of the voicemail endpoint. *)
Definition conf_pick_step (maps : list (Z * str * Z))
    (c : option (ConferenceCodec * Z) * option Z) (pt : Z)
    : option (ConferenceCodec * Z) * option Z :=
  let '(chosen, te) := c in
  match resolve maps pt with
  | Some (name, 8000) =>
      if decide (name = "PCMU") then
        (match chosen with None => Some (ConfPcmu, pt) | _ => chosen end, te)
      else if decide (name = "PCMA") then
        (match chosen with None => Some (ConfPcma, pt) | _ => chosen end, te)
      else (chosen, match te with None => Some pt | _ => te end)
  | _ => c
  end.

Definition conf_negotiate_offer (sdp : str) : result ConferenceNegotiation :=
  let st := scan_offer (Str.lines sdp) scan_init in
  if negb (in_audio st) then Err "no m=audio section in offer"
  else if negb (profile_ok st) then Err "audio profile is not RTP/AVP (encrypted-only offer)"
  else
    match foldl (conf_pick_step (rtpmaps st)) (None, None) (audio_pts st) with
    | (Some (codec, pt), te) =>
        Ok {| cn_codec := codec; cn_audio_pt := pt; cn_telephone_event_pt := te |}
    | (None, _) => Err "no PCMU or PCMA payload type offered for audio"
    end.

Definition conf_build_answer (public_ip : str) (port : Z) (n : ConferenceNegotiation)
    (session_id : Z) : str :=
  let sid := Str.show_dec session_id in
  let apt := Str.show_dec (cn_audio_pt n) in
  let pts := match cn_telephone_event_pt n with
             | Some te => apt ++ " " ++ Str.show_dec te | None => apt end in
  Str.terminated
    (["v=0"; "o=sip3 " ++ sid ++ " " ++ sid ++ " IN IP4 " ++ public_ip; "s=SIP3 Conference";
      "c=IN IP4 " ++ public_ip; "t=0 0";
      "m=audio " ++ Str.show_dec port ++ " RTP/AVP " ++ pts;
      "a=rtpmap:" ++ apt ++ " " ++ rtpmap_name (cn_codec n) ++ "/8000"] ++
     match cn_telephone_event_pt n with
     | Some te => ["a=rtpmap:" ++ Str.show_dec te ++ " telephone-event/8000";
                   "a=fmtp:" ++ Str.show_dec te ++ " 0-15"]
     | None => []
     end ++ ["a=ptime:20"; "a=sendrecv"]).

(** ** A participant *)

Definition with_dtmf (d : DtmfState) (m : bool) (p : Participant) : Participant :=
  {| relay_port := relay_port p; pt_codec := pt_codec p; pt_audio_pt := pt_audio_pt p;
     pt_telephone_event_pt := pt_telephone_event_pt p; muted := m; pt_peer := pt_peer p;
     latest_frame := latest_frame p; frame_locked := frame_locked p; out_seq := out_seq p; out_ts := out_ts p;
     out_ssrc := out_ssrc p; dtmf_state := d |}.

Definition with_media (peer : option SocketAddr) (frame : list Z) (p : Participant) : Participant :=
  {| relay_port := relay_port p; pt_codec := pt_codec p; pt_audio_pt := pt_audio_pt p;
     pt_telephone_event_pt := pt_telephone_event_pt p; muted := muted p; pt_peer := peer;
     latest_frame := frame; frame_locked := frame_locked p; out_seq := out_seq p; out_ts := out_ts p;
     out_ssrc := out_ssrc p; dtmf_state := dtmf_state p |}.

Definition with_counters (seq ts : Z) (p : Participant) : Participant :=
  {| relay_port := relay_port p; pt_codec := pt_codec p; pt_audio_pt := pt_audio_pt p;
     pt_telephone_event_pt := pt_telephone_event_pt p; muted := muted p; pt_peer := pt_peer p;
     latest_frame := latest_frame p; frame_locked := frame_locked p; out_seq := seq; out_ts := ts;
     out_ssrc := out_ssrc p; dtmf_state := dtmf_state p |}.

(** The receive task takes or releases the lock of [latest_frame]. *)
Definition with_lock (b : bool) (p : Participant) : Participant :=
  {| relay_port := relay_port p; pt_codec := pt_codec p; pt_audio_pt := pt_audio_pt p;
     pt_telephone_event_pt := pt_telephone_event_pt p; muted := muted p; pt_peer := pt_peer p;
     latest_frame := latest_frame p; frame_locked := b; out_seq := out_seq p; out_ts := out_ts p;
     out_ssrc := out_ssrc p; dtmf_state := dtmf_state p |}.

Definition STAR6_TIMEOUT : Z := 3 * 1000000000.

Definition recent_star (now : Z) (prev : option (Z * Z)) : bool :=
  match prev with
  | Some (d, t) => (d =? 10) && (Int.sat_sub now t <? STAR6_TIMEOUT)
  | None => false
  end.

(** The new mute state when [*6] is complete, and the participant afterwards. *)
Definition record_dtmf (now event : Z) (p : Participant) : option bool * Participant :=
  let d := dtmf_state p in
  if recent_star now (last_digit d) && (event =? 6) then
    (Some (negb (muted p)),
     with_dtmf {| last_digit := None; last_event_ts := last_event_ts d |} (negb (muted p)) p)
  else
    (None, with_dtmf {| last_digit := Some (event, now); last_event_ts := last_event_ts d |}
             (muted p) p).

Definition be_value (bs : list Z) : Z := foldl (fun a b => 256 * a + b) 0 bs.

Definition handle_dtmf_packet (now : Z) (packet payload : list Z) (p : Participant) : Participant :=
  if (length payload <? 4)%nat then p
  else
    let event := Z.land (default 0 (payload !! 0%nat)) 15 in
    let end_marker := negb (Z.land (default 0 (payload !! 1%nat)) 128 =? 0) in
    let rtp_ts := be_value (take 4 (drop 4 packet)) in
    let already_handled := bool_decide (last_event_ts (dtmf_state p) = Some rtp_ts) in
    if negb end_marker || already_handled then p
    else
      let d := {| last_digit := last_digit (dtmf_state p); last_event_ts := Some rtp_ts |} in
      (record_dtmf now event (with_dtmf d (muted p) p)).2.

Definition conf_payload_offset (packet : list Z) : nat :=
  let b0 := default 0 (packet !! 0%nat) in
  let offset := (RTP_HEADER_LEN + 4 * Z.to_nat (Z.land b0 15))%nat in
  if negb (Z.land b0 16 =? 0) && (offset + 4 <=? length packet)%nat then
    let ext_len := Z.to_nat (256 * default 0 (packet !! (offset + 2)%nat) +
                             default 0 (packet !! (offset + 3)%nat)) in
    (offset + 4 + 4 * ext_len)%nat
  else offset.

Definition conf_decode (c : ConferenceCodec) (payload : list Z) : list Z :=
  match c with ConfPcmu => decode_ulaw payload | ConfPcma => decode_alaw payload end.

Definition conf_encode (c : ConferenceCodec) (frame : list Z) : list Z :=
  match c with ConfPcmu => encode_ulaw frame | ConfPcma => encode_alaw frame end.

(** [truncate] or [resize] to one frame. *)
Definition fit_frame (pcm : list Z) : list Z :=
  if (SAMPLES_PER_FRAME <? length pcm)%nat then take SAMPLES_PER_FRAME pcm
  else pcm ++ replicate (SAMPLES_PER_FRAME - length pcm) 0.

(** One packet of [run_recv_loop]. *)
Definition conf_receive (now : Z) (src : SocketAddr) (packet : list Z) (p : Participant)
    : Participant :=
  if (length packet <? RTP_HEADER_LEN)%nat then p
  else
    let p := with_media (Some src) (latest_frame p) p in
    let pt := Z.land (default 0 (packet !! 1%nat)) 127 in
    let payload_offset := conf_payload_offset packet in
    if (length packet <=? payload_offset)%nat then p
    else
      let payload := drop payload_offset packet in
      if bool_decide (Some pt = pt_telephone_event_pt p) then
        handle_dtmf_packet now packet payload p
      else if negb (pt =? pt_audio_pt p) then p
      else
        let pcm := conf_decode (pt_codec p) payload in
        match pcm with
        | [] => p
        | _ => with_media (pt_peer p) (fit_frame pcm) p
        end.

(** ** The mixer *)

(** The frame a participant contributes in a tick; none when [try_lock] finds the lock held by
    the receive task. *)
Definition snapshot_frame (p : Participant) : option (list Z) :=
  if frame_locked p then None
  else match latest_frame p with [] => None | f => Some f end.

Definition tick_frame (p : Participant) : option (list Z) :=
  if muted p then None else snapshot_frame p.

(** [for (a, s) in acc.iter_mut().zip(f.iter()) { *a += *s }] *)
Definition add_frame (acc f : list Z) : list Z := zip_with Z.add acc f ++ drop (length f) acc.

Definition clamp_i16 (v : Z) : Z := Z.max (-32768) (Z.min 32767 v).

Definition mix_for_receiver (receiver : str) (frames : list (str * option (list Z))) : list Z :=
  map clamp_i16 (foldl (fun acc '(other, frame) =>
    if bool_decide (other = receiver) then acc
    else match frame with Some f => add_frame acc f | None => acc end)
    (replicate SAMPLES_PER_FRAME 0) frames).

Definition room_frames (room : gmap str Participant) : list (str * option (list Z)) :=
  map (fun kv => (kv.1, tick_frame kv.2)) (map_to_list room).

(** What one participant is sent in a tick: the packet and where it goes. *)
Definition tick_packet (room : gmap str Participant) (cid : str) (p : Participant)
    : option (SocketAddr * list Z) :=
  match pt_peer p with
  | Some peer =>
      let payload := conf_encode (pt_codec p) (mix_for_receiver cid (room_frames room)) in
      Some (peer, build_rtp_packet (pt_audio_pt p) (out_seq p) (out_ts p) (out_ssrc p) payload)
  | None => None
  end.

Definition advance_counters (p : Participant) : Participant :=
  match pt_peer p with
  | Some _ => with_counters ((out_seq p + 1) mod 2 ^ 16)
                (Int.wrap_u32 (out_ts p + Z.of_nat SAMPLES_PER_FRAME)) p
  | None => p
  end.

(** One tick of [run_mixer_loop]: what is sent, and the room afterwards. *)
Definition mixer_tick (room : gmap str Participant)
    : list (SocketAddr * list Z) * gmap str Participant :=
  (omap (fun kv => tick_packet room kv.1 kv.2) (map_to_list room), advance_counters <$> room).

(** ** Rooms *)

Section rooms.
Context (cfg : Config).

Definition conf_bind_socket : M Z := fun w =>
  let range := Int.sat_sub (conference_rtp_port_max cfg) (conference_rtp_port_min cfg) in
  if range =? 0 then (Fail "conference RTP port range is empty", w)
  else
    let '(p, counter) := bind_sip_tries (Z.to_nat range) (conference_rtp_port_min cfg) range
                           (w_conf_port_counter w) (taken_ports w) in
    let w := set_conf_port_counter counter w in
    match p with
    | Some p => (Val p, w)
    | None => (Fail "no available conference RTP port in range", w)
    end.

(** [room.participants.insert]: the receive task of a participant that was there keeps its
    socket. *)
Definition add_participant (room_id : Z) (cid : str) (p : Participant) : M unit :=
  modify (fun w =>
    let room := default ∅ (w_conf_media w !! room_id) in
    let replaced := from_option (fun old => {[relay_port old]}) ∅ (room !! cid) in
    set_other_ports (w_other_ports w ∪ replaced)
      (set_conf_media (<[room_id := <[cid := p]> room]> (w_conf_media w)) w)).

(** The size of a room that is there. *)
Definition room_size (room_id : Z) (w : World) : Z :=
  from_option (fun room => Z.of_nat (size room)) 0 (w_conf_media w !! room_id).

(** [metrics::set_conference_participants(&room_id.to_string(), n)] *)
Definition gauge_set (room_id n : Z) (w : World) : World :=
  set_participants_gauge ((room_id, n) :: w_participants_gauge w) w.

Definition join (room_id : Z) (cid : str) (c : ConferenceCodec) (apt : Z) (te : option Z) : M Z :=
  port ← conf_bind_socket;
  seq ← random_uint 2;
  ts ← random_uint 4;
  ssrc ← random_uint 4;
  _ ← add_participant room_id cid
        {| relay_port := port; pt_codec := c; pt_audio_pt := apt; pt_telephone_event_pt := te;
           muted := false; pt_peer := None; latest_frame := []; frame_locked := false; out_seq := seq; out_ts := ts;
           out_ssrc := ssrc;
           dtmf_state := {| last_digit := None; last_event_ts := None |} |};
  _ ← modify (fun w => gauge_set room_id (room_size room_id w) w);
  mret port.

Definition leave (room_id : Z) (cid : str) : M unit :=
  modify (fun w =>
    match w_conf_media w !! room_id with
    | None => w
    | Some room =>
        let room := delete cid room in
        if bool_decide (room = ∅)
        then gauge_set room_id 0 (set_conf_media (delete room_id (w_conf_media w)) w)
        else gauge_set room_id (Z.of_nat (size room))
               (set_conf_media (<[room_id := room]> (w_conf_media w)) w)
    end).

Definition set_muted (room_id : Z) (cid : str) (m : bool) : M bool := fun w =>
  match w_conf_media w !! room_id ≫= (.!! cid) with
  | Some p =>
      (Val true, set_conf_media (alter (<[cid := with_dtmf (dtmf_state p) m p]>) room_id
                                   (w_conf_media w)) w)
  | None => (Val false, w)
  end.

Definition record_dtmf_for (room_id : Z) (cid : str) (event : Z) : M (option bool) := fun w =>
  match w_conf_media w !! room_id ≫= (.!! cid) with
  | Some p =>
      let '(toggled, p') := record_dtmf (w_now w) event p in
      (Val toggled, set_conf_media (alter (<[cid := p']>) room_id (w_conf_media w)) w)
  | None => (Val None, w)
  end.

Definition participant_count (room_id : Z) : M nat :=
  gets (fun w => from_option size 0%nat (w_conf_media w !! room_id)).

Definition shutdown_all : M unit := modify (set_conf_media ∅).
End rooms.

(** ** Facts: the mixer *)

Definition sum_list (l : list Z) : Z := foldr Z.add 0 l.

#[export] Instance sum_list_perm : Proper (Permutation ==> eq) sum_list.
Proof. intros l l' Hl. unfold sum_list. induction Hl; simpl; lia. Qed.

(** The samples the mixer works on: no frame yet, or a whole one. *)
Definition wf_frame (p : Participant) : Prop :=
  latest_frame p = [] \/ length (latest_frame p) = SAMPLES_PER_FRAME.

Definition wf_room (room : gmap str Participant) : Prop := map_Forall (fun _ p => wf_frame p) room.

(** What a participant adds to sample [i] of the others' audio: nothing when muted, or when its
    frame is being replaced at that moment. *)
Definition contribution (i : nat) (p : Participant) : Z :=
  if muted p || frame_locked p then 0 else default 0 (latest_frame p !! i).

(** The reference: sample [i] of the sum of everyone but [cid]. *)
Definition others_sum (room : gmap str Participant) (cid : str) (i : nat) : Z :=
  sum_list (map (fun kv => contribution i kv.2) (map_to_list (delete cid room))).

Lemma add_frame_length acc f : length f = length acc -> length (add_frame acc f) = length acc.
Proof.
  intros Hf. unfold add_frame. rewrite drop_ge by lia. rewrite app_nil_r, length_zip_with. lia.
Qed.

Lemma add_frame_lookup acc f i a s :
  acc !! i = Some a -> f !! i = Some s -> add_frame acc f !! i = Some (a + s).
Proof.
  intros Ha Hs. unfold add_frame. rewrite lookup_app_l.
  - by rewrite lookup_zip_with, Ha; simpl; rewrite Hs.
  - rewrite length_zip_with. apply lookup_lt_Some in Ha, Hs. lia.
Qed.

Definition mix_step (receiver : str) (acc : list Z) (e : str * option (list Z)) : list Z :=
  let '(other, frame) := e in
  if bool_decide (other = receiver) then acc
  else match frame with Some f => add_frame acc f | None => acc end.

Lemma mix_step_ok receiver k p acc i a :
  wf_frame p -> length acc = SAMPLES_PER_FRAME -> acc !! i = Some a ->
  let r := mix_step receiver acc (k, tick_frame p) in
  length r = SAMPLES_PER_FRAME /\
  r !! i = Some (a + if decide (k <> receiver) then contribution i p else 0).
Proof.
  intros Hp Hacc Ha. assert (Hi := lookup_lt_Some _ _ _ Ha).
  unfold mix_step, tick_frame, snapshot_frame, contribution.
  case_bool_decide as Hk; case_decide; try done; [by rewrite Z.add_0_r|].
  destruct (muted p); [by rewrite Z.add_0_r|]. destruct (frame_locked p); [by rewrite Z.add_0_r|].
  destruct (latest_frame p) as [|s0 f] eqn:Hf; [simpl; by rewrite Z.add_0_r|].
  assert (Hlen : length (s0 :: f) = length acc) by (destruct Hp as [?|?]; congruence).
  destruct (lookup_lt_is_Some_2 (s0 :: f) i) as [s Hs]; [lia|].
  split; [rewrite add_frame_length; lia|]. rewrite Hs. by apply add_frame_lookup.
Qed.

Lemma mix_fold receiver (ps : list (str * Participant)) acc i a :
  Forall (fun kv => wf_frame kv.2) ps -> length acc = SAMPLES_PER_FRAME -> acc !! i = Some a ->
  let r := foldl (mix_step receiver) acc (map (fun kv => (kv.1, tick_frame kv.2)) ps) in
  length r = SAMPLES_PER_FRAME /\
  r !! i = Some (a + sum_list (map (fun kv => contribution i kv.2)
                                 (filter (fun kv => kv.1 <> receiver) ps))).
Proof.
  intros Hps. revert acc a. induction Hps as [|[k p] ps Hp _ IH]; intros acc a Hacc Ha.
  { split; [done|]. by rewrite Z.add_0_r. }
  destruct (mix_step_ok receiver k p acc i a Hp Hacc Ha) as [Hacc' Ha'].
  destruct (IH _ _ Hacc' Ha') as [Hlen Hl]. split; [exact Hlen|]. etrans; [exact Hl|]. f_equal.
  rewrite filter_cons. cbn [fst]. case_decide; simpl; lia.
Qed.

Lemma mix_for_receiver_sum receiver (ps : list (str * Participant)) i :
  Forall (fun kv => wf_frame kv.2) ps -> (i < SAMPLES_PER_FRAME)%nat ->
  let mix := mix_for_receiver receiver (map (fun kv => (kv.1, tick_frame kv.2)) ps) in
  mix !! i = Some (clamp_i16 (sum_list (map (fun kv => contribution i kv.2)
                                          (filter (fun kv => kv.1 <> receiver) ps)))) /\
  length mix = SAMPLES_PER_FRAME.
Proof.
  intros Hps Hi. destruct (mix_fold receiver ps (replicate SAMPLES_PER_FRAME 0) i 0 Hps) as [Hlen Hl].
  - apply length_replicate.
  - by apply lookup_replicate_2.
  - unfold mix_step in Hl, Hlen. cbn zeta. unfold mix_for_receiver. split; [|by rewrite length_map].
    rewrite list_lookup_fmap. setoid_rewrite Hl. done.
Qed.

Lemma filter_map_to_list_delete {A} (m : gmap str A) k :
  filter (fun kv : str * A => kv.1 <> k) (map_to_list m) ≡ₚ map_to_list (delete k m).
Proof.
  apply NoDup_Permutation.
  - apply NoDup_filter, NoDup_map_to_list.
  - apply NoDup_map_to_list.
  - intros [c x]. rewrite list_elem_of_filter, !elem_of_map_to_list, lookup_delete_Some. naive_solver.
Qed.

(** C32: a conference participant hears the others and only them: each of the 160 samples of a
    tick is the sum of that sample over the other participants that are not muted (and whose
    frame is not being replaced at that moment), clamped to 16 bits, whatever order the room's
    map is visited in; the own voice and muted participants contribute nothing. *)
Theorem conference_mix_spec room cid i :
  wf_room room -> (i < SAMPLES_PER_FRAME)%nat ->
  mix_for_receiver cid (room_frames room) !! i = Some (clamp_i16 (others_sum room cid i)) /\
  length (mix_for_receiver cid (room_frames room)) = SAMPLES_PER_FRAME.
Proof.
  intros Hwf Hi. unfold room_frames. destruct (mix_for_receiver_sum cid (map_to_list room) i) as [-> Hlen]; [|done|].
  - apply Forall_forall. intros [c p] Hp%elem_of_map_to_list. by apply (Hwf c).
  - split; [|done]. unfold others_sum. by rewrite filter_map_to_list_delete.
Qed.

(** Packets keep the frames whole. *)
Lemma fit_frame_length pcm : length (fit_frame pcm) = SAMPLES_PER_FRAME.
Proof.
  unfold fit_frame. destruct (_ <? _)%nat eqn:E.
  - apply Nat.ltb_lt in E. rewrite length_take. lia.
  - apply Nat.ltb_ge in E. rewrite length_app, length_replicate. lia.
Qed.

Lemma conf_receive_wf now src packet p : wf_frame p -> wf_frame (conf_receive now src packet p).
Proof.
  intros Hp. unfold conf_receive, handle_dtmf_packet, record_dtmf.
  repeat case_match; try exact Hp. right. apply fit_frame_length.
Qed.

(** Silence is never heard: the mixer does not consume the frame it mixed, so when the
    others stop sending, every later tick repeats their last frame, however many ticks
    pass. *)
Theorem conference_last_frame_repeats room cid n :
  mix_for_receiver cid (room_frames (Nat.iter n (fun r => (mixer_tick r).2) room)) =
  mix_for_receiver cid (room_frames room).
Proof.
  f_equal. induction n as [|n IH]; [done|]. rewrite <-IH, Nat.iter_succ.
  generalize (Nat.iter n (fun r => (mixer_tick r).2) room). intros r.
  unfold room_frames, mixer_tick. cbn [snd]. rewrite map_to_list_fmap.
  generalize (map_to_list r). intros l.
  induction l as [|[k p] l IHl]; [done|]. simpl. f_equal; [|exact IHl]. f_equal.
  unfold advance_counters. by destruct (pt_peer p).
Qed.

(** ** Facts: the mute switch *)

(** The digits of a participant in order, with their times. *)
Definition run_dtmf (evs : list (Z * Z)) (p : Participant) : Participant :=
  foldl (fun p '(now, event) => (record_dtmf now event p).2) p evs.

(** The reference: how often a [6] directly follows a [*] within three seconds. *)
Fixpoint star6_count (prev : option (Z * Z)) (evs : list (Z * Z)) : nat :=
  match evs with
  | [] => 0
  | (now, event) :: evs' =>
      let here := match prev with
        | Some (t, d) => (d =? 10) && (event =? 6) && (now - t <? 3 * 1000000000)
        | None => false
        end in
      (Nat.b2n here + star6_count (Some (now, event)) evs')%nat
  end.

(** The state remembers the last digit, or nothing after a [6]. *)
Definition remembers (p : Participant) (prev : option (Z * Z)) : Prop :=
  match prev with
  | Some (t, d) => last_digit (dtmf_state p) = Some (d, t) \/
                   (d = 6 /\ last_digit (dtmf_state p) = None)
  | None => last_digit (dtmf_state p) = None
  end.

Lemma record_dtmf_star6 now event p prev :
  remembers p prev ->
  remembers (record_dtmf now event p).2 (Some (now, event)) /\
  muted (record_dtmf now event p).2 =
    xorb (muted p) (Nat.odd (star6_count prev [(now, event)])).
Proof.
  intros Hp. assert (Hr : recent_star now (last_digit (dtmf_state p)) && (event =? 6) =
    match prev with
    | Some (t, d) => (d =? 10) && (event =? 6) && (now - t <? 3 * 1000000000)
    | None => false
    end).
  { destruct prev as [[t d]|]; [destruct Hp as [->|[-> ->]]|rewrite Hp]; simpl; [|done..].
    unfold Int.sat_sub, STAR6_TIMEOUT. destruct (d =? 10), (event =? 6) eqn:E; simpl; try done;
      rewrite ?andb_true_r, ?andb_false_r; [|done].
    destruct (_ <? _) eqn:E1, (now - t <? _) eqn:E2; done || lia. }
  unfold record_dtmf. rewrite Hr. cbn [star6_count]. rewrite <-Hr.
  destruct (recent_star _ _ && _) eqn:E; simpl; [|by rewrite xorb_false_r; auto].
  rewrite xorb_true_r. split; [right|done]. split; [|done]. bool_simpl. lia.
Qed.

(** The mute switch counts exactly the [*6] sequences: after any digits at any times, the
    participant is muted according to the parity of the number of times a 6 directly followed
    a star within three seconds. *)
Theorem star6_refines evs p :
  last_digit (dtmf_state p) = None ->
  muted (run_dtmf evs p) = xorb (muted p) (Nat.odd (star6_count None evs)).
Proof.
  intros Hp. change (remembers p None) in Hp. revert p Hp. generalize (@None (Z * Z)).
  induction evs as [|[now event] evs IH]; intros prev p Hp; [by rewrite xorb_false_r|].
  destruct (record_dtmf_star6 now event p prev Hp) as [Hp' Hm].
  cbn [run_dtmf foldl]. specialize (IH _ _ Hp'). unfold run_dtmf in IH. rewrite IH, Hm.
  cbn [star6_count]. rewrite Nat.add_0_r, Nat.odd_add, xorb_assoc. done.
Qed.

(** ** Facts: rooms *)

Lemma conf_bind_socket_spec cfg w :
  match conf_bind_socket cfg w with
  | (Val p, w') => p ∉ taken_ports w /\ exists c, w' = set_conf_port_counter c w
  | (Fail _, w') => w' = w \/ exists c, w' = set_conf_port_counter c w
  | (Panicked, _) => False
  end.
Proof.
  unfold conf_bind_socket. destruct (_ =? 0) eqn:Hr; [by left|].
  destruct (bind_sip_tries _ _ _ _ _) as [[p|] c] eqn:E; [|by right; exists c].
  apply bind_sip_tries_free in E; [|unfold Int.sat_sub in *; lia]. split; [apply E|by exists c].
Qed.

(** What a successful [join] does: a fresh port, a new participant, nothing else. *)
Lemma join_spec cfg room_id cid c apt te w port w' :
  join cfg room_id cid c apt te w = (Val port, w') ->
  port ∉ taken_ports w /\
  exists p, relay_port p = port /\ muted p = false /\ latest_frame p = [] /\
    pt_codec p = c /\ pt_audio_pt p = apt /\ pt_telephone_event_pt p = te /\
    let room := default ∅ (w_conf_media w !! room_id) in
    w_conf_media w' = <[room_id := <[cid := p]> room]> (w_conf_media w) /\
    w_other_ports w' =
      w_other_ports w ∪ from_option (fun old => {[relay_port old]}) ∅ (room !! cid).
Proof.
  unfold join. pose proof (conf_bind_socket_spec cfg w) as Hb. unfold mbind at 1, M_bind at 1.
  destruct (conf_bind_socket cfg w) as [[a|e|] w0]; [|done..].
  destruct Hb as [Hfree [n ->]]. set (w0 := set_conf_port_counter n w).
  assert (Hs : forall (T : Type) (f : World -> T) k v, IoFrame (same f) -> f (random_uint k v).2 = f v).
  { intros T f k v Hf. apply (moves_random_uint (R := same f)). }
  destruct (total_random_uint 2 w0) as (x & w1 & H1). rewrite (bind_val _ _ _ _ _ H1).
  destruct (total_random_uint 4 w1) as (y & w2 & H2). rewrite (bind_val _ _ _ _ _ H2).
  destruct (total_random_uint 4 w2) as (z & w3 & H3). rewrite (bind_val _ _ _ _ _ H3).
  assert (Hm : w_conf_media w3 = w_conf_media w).
  { pose proof (Hs _ w_conf_media 4%nat w2 _) as E3. rewrite H3 in E3.
    pose proof (Hs _ w_conf_media 4%nat w1 _) as E2. rewrite H2 in E2.
    pose proof (Hs _ w_conf_media 2%nat w0 _) as E1. rewrite H1 in E1. simpl in *. congruence. }
  assert (Ho : w_other_ports w3 = w_other_ports w).
  { pose proof (Hs _ w_other_ports 4%nat w2 _) as E3. rewrite H3 in E3.
    pose proof (Hs _ w_other_ports 4%nat w1 _) as E2. rewrite H2 in E2.
    pose proof (Hs _ w_other_ports 2%nat w0 _) as E1. rewrite H1 in E1. simpl in *. congruence. }
  intros [= <- <-]. split; [done|].
  exists {| relay_port := a; pt_codec := c; pt_audio_pt := apt; pt_telephone_event_pt := te;
    muted := false; pt_peer := None; latest_frame := []; frame_locked := false; out_seq := x; out_ts := y; out_ssrc := z;
    dtmf_state := {| last_digit := None; last_event_ts := None |} |}.
  simpl. by rewrite Hm, Ho.
Qed.

(** Leaving undoes joining: a call that was not in the room takes a port nobody holds, and
    when it leaves, the rooms are as they were, the room itself included if it was only opened
    for this call. *)
Theorem join_leave_restores cfg room_id cid c apt te w port w' :
  (forall r, w_conf_media w !! room_id = Some r -> r <> ∅ /\ r !! cid = None) ->
  join cfg room_id cid c apt te w = (Val port, w') ->
  port ∉ taken_ports w /\ w_conf_media (leave room_id cid w').2 = w_conf_media w /\
  w_other_ports w' = w_other_ports w.
Proof.
  intros Hr (Hfree & p & _ & _ & _ & _ & _ & _ & Hm & Ho)%join_spec. simpl in *.
  split; [done|]. unfold leave, modify. rewrite Hm, lookup_insert_eq. cbn [snd w_conf_media].
  destruct (w_conf_media w !! room_id) as [r|] eqn:Er; simpl in *.
  - destruct (Hr r eq_refl) as [Hne Hc]. rewrite Hc in Ho. rewrite delete_insert_id by done.
    rewrite bool_decide_eq_false_2 by done. rewrite insert_insert_eq, insert_id by done.
    split; [done|]. set_solver.
  - rewrite delete_insert_id by apply lookup_empty. rewrite bool_decide_eq_true_2 by done.
    rewrite delete_insert_id by done. split; [done|]. rewrite lookup_empty in Ho. set_solver.
Qed.

(** A repeated INVITE is not idempotent: joining again under the same Call-ID binds a
    second port and leaves the first one open with no participant to close it. *)
Theorem join_again_leaks cfg room_id cid c apt te w port w' room old :
  w_conf_media w !! room_id = Some room -> room !! cid = Some old ->
  join cfg room_id cid c apt te w = (Val port, w') ->
  port <> relay_port old /\ relay_port old ∈ w_other_ports w' /\
  exists p, w_conf_media w' !! room_id = Some (<[cid := p]> room) /\ relay_port p = port.
Proof.
  intros Hroom Hold (Hfree & p & Hp & _ & _ & _ & _ & _ & Hm & Ho)%join_spec. simpl in *.
  rewrite Hroom in *. simpl in *. rewrite Hold in Ho. simpl in Ho. split_and!.
  - intros ->. apply Hfree. unfold taken_ports, ports_outside_relay. rewrite !elem_of_union.
    left. right. apply elem_of_list_to_set. unfold conference_ports. apply list_elem_of_bind.
    exists (room_id, room). split; [|by apply elem_of_map_to_list].
    apply list_elem_of_fmap. exists (cid, old). by rewrite elem_of_map_to_list.
  - rewrite Ho. set_solver.
  - exists p. by rewrite Hm, lookup_insert_eq.
Qed.

(** ** Examples *)

Definition sample_participant (m : bool) (frame : list Z) (port : Z) : Participant :=
  {| relay_port := port; pt_codec := ConfPcmu; pt_audio_pt := 0; pt_telephone_event_pt := Some 101;
     muted := m; pt_peer := Some sample_src; latest_frame := frame; frame_locked := false; out_seq := 1; out_ts := 2;
     out_ssrc := 3; dtmf_state := {| last_digit := None; last_event_ts := None |} |}.

(** Two loud speakers, a muted one, and one who has not spoken. *)
Definition sample_room : gmap str Participant :=
  {[ "a" := sample_participant false (replicate 160 30000) 10100;
     "b" := sample_participant false (replicate 160 30000) 10101;
     "c" := sample_participant true (replicate 160 5) 10102;
     "d" := sample_participant false [] 10103 ]}.

Lemma sample_room_wf : wf_room sample_room.
Proof.
  unfold wf_room, sample_room.
  repeat (apply map_Forall_insert_2; [first [by left|by right]|]).
  apply map_Forall_empty.
Qed.

Lemma conference_mix_spec_witness :
  mix_for_receiver "d" (room_frames sample_room) !! 7%nat = Some 32767 /\
  mix_for_receiver "a" (room_frames sample_room) !! 7%nat = Some 30000.
Proof.
  destruct (conference_mix_spec sample_room "d" 7 sample_room_wf) as [Hd _].
  { unfold SAMPLES_PER_FRAME. lia. }
  destruct (conference_mix_spec sample_room "a" 7 sample_room_wf) as [Ha _].
  { unfold SAMPLES_PER_FRAME. lia. }
  rewrite Ha, Hd. split; vm_compute; reflexivity.
Defined.

Lemma star6_refines_witness :
  muted (run_dtmf [(0, 10); (2 * 1000000000, 6); (3 * 1000000000, 6)]
    (sample_participant false [] 10100)) = true.
Proof. rewrite star6_refines; reflexivity. Defined.

Definition conference_world : World := set_conf_media {[ 1 := sample_room ]} sample_world.

Lemma join_leave_restores_witness :
  exists port w', join sample_config 1 "e" ConfPcmu 0 None conference_world = (Val port, w') /\
    port = 10104 /\ w_conf_media (leave 1 "e" w').2 = {[ 1 := sample_room ]}.
Proof.
  destruct (join sample_config 1 "e" ConfPcmu 0 None conference_world) as [[port|e|] w'] eqn:E;
    [|apply (f_equal fst) in E; vm_compute in E; discriminate E..].
  exists port, w'. split; [reflexivity|]. split.
  - pose proof (f_equal fst E) as Ep. vm_compute in Ep. by injection Ep.
  - apply (join_leave_restores sample_config 1 "e" ConfPcmu 0 None conference_world port w');
      [|exact E].
    intros r Hr. assert (r = sample_room) as -> by (injection Hr as <-; reflexivity).
    split; [discriminate|reflexivity].
Defined.

Lemma join_again_leaks_witness :
  exists port w', join sample_config 1 "a" ConfPcmu 0 None conference_world = (Val port, w') /\
    10100 ∈ w_other_ports w'.
Proof.
  destruct (join sample_config 1 "a" ConfPcmu 0 None conference_world) as [[port|e|] w'] eqn:E;
    [|apply (f_equal fst) in E; vm_compute in E; discriminate E..].
  exists port, w'. split; [reflexivity|].
  apply (join_again_leaks sample_config 1 "a" ConfPcmu 0 None conference_world port w' sample_room
    (sample_participant false (replicate 160 30000) 10100)); [reflexivity..|exact E].
Defined.
