(* ===== verification/Recorder.v ===== *)
(** * The recorder of a conference room: [backend/src/sip/conference_media.rs]

    The part of the mixer that records, and taking the recording out as a WAV file.  A room has a
    recorder or not ([None]); nothing in the sources gives it one. *)

From stdpp Require Import infinite fin_sets.
From S2P Require Import Prelude RustStr Net Message SecurityGuard Acl G711 Storage Sdp Media World.
From S2P Require Import VoicemailMedia ConferenceMedia.

Open Scope str_scope.
Open Scope Z_scope.

Definition MAX_RECORDING_SAMPLES : Z := 8000 * 60 * 30.

(** [RoomRecorder]; the time it was started is read by nothing. *)
Record RoomRecorder := { rr_samples : list Z }.

(** The mix of everybody, if anybody has a frame. *)
Definition room_mix (frames : list (str * option (list Z))) : option (list Z) :=
  let '(acc, has_audio) :=
    foldl (fun '(acc, has_audio) '(_, frame) =>
             match frame with Some f => (add_frame acc f, true) | None => (acc, has_audio) end)
      (replicate SAMPLES_PER_FRAME 0, false) frames in
  if has_audio : bool then Some (map clamp_i16 acc) else None.

(** The recording part of a tick of [run_mixer_loop]. *)
Definition record_tick (room : gmap str Participant) (recorder : option RoomRecorder) : option RoomRecorder :=
  match room_mix (room_frames room), recorder with
  | Some mix, Some r =>
      Some (if Z.of_nat (length (rr_samples r)) <? MAX_RECORDING_SAMPLES
            then {| rr_samples := rr_samples r ++ mix |} else r)
  | _, _ => recorder
  end.

(** The file and its seconds, and the recorder with an empty buffer; [Panic] is that of the
    encoder. *)
Definition flush_recorder (recorder : option RoomRecorder)
    : outcome (option (list Z * Z)) * option RoomRecorder :=
  match recorder with
  | None => (Done None, None)
  | Some r =>
      let samples := rr_samples r in
      let duration_secs := Int.wrap_u32 (Z.of_nat (length samples)) / 8000 in
      (match pcm16_wav_bytes samples 8000 with
       | Done wav => Done (Some (wav, duration_secs))
       | Panic => Panic
       end, Some {| rr_samples := [] |})
  end.

(** ** Facts *)

(** Recording over a sequence of ticks. *)
Definition record_ticks (rooms : list (gmap str Participant)) (r : option RoomRecorder) : option RoomRecorder :=
  foldl (fun r room => record_tick room r) r rooms.

Lemma room_mix_fold frames acc b r :
  (forall kv, kv ∈ frames -> kv.1 <> r) ->
  (foldl (fun '(acc, has_audio) '(_, frame) =>
            match frame with Some f => (add_frame acc f, true) | None => (acc, has_audio) end)
     (acc, b) frames).1 = foldl (mix_step r) acc frames.
Proof.
  revert acc b. induction frames as [|[k f] frames IH]; intros acc b Hr; [done|]. cbn [foldl].
  unfold mix_step at 2. rewrite bool_decide_eq_false_2 by (apply (Hr (k, f)); set_solver).
  destruct f; apply IH; intros kv Hkv; apply Hr; set_solver.
Qed.

(** What is recorded is what somebody who is not in the room would hear. *)
Lemma room_mix_outsider frames r mix :
  (forall kv, kv ∈ frames -> kv.1 <> r) -> room_mix frames = Some mix -> mix = mix_for_receiver r frames.
Proof.
  intros Hr. unfold room_mix. pose proof (room_mix_fold frames (replicate SAMPLES_PER_FRAME 0) false r Hr) as E.
  destruct (foldl _ (replicate SAMPLES_PER_FRAME 0, false) frames) as [acc []]; [|done]. cbn in E.
  intros [= <-]. unfold mix_for_receiver. by rewrite E.
Qed.

#[local] Instance ascii_inhabited : Inhabited ascii := populate zero.

(** A name that is not in a room. *)
Definition outsider (room : gmap str Participant) : str := fresh (dom room).

Lemma outsider_not_in room : room !! outsider room = None.
Proof. apply (not_elem_of_dom (D := gset str)). unfold outsider. apply is_fresh. Qed.

Lemma outsider_fresh room kv : kv ∈ room_frames room -> kv.1 <> outsider room.
Proof.
  unfold room_frames. intros ([k p] & -> & Hin%elem_of_map_to_list)%list_elem_of_fmap. cbn. intros ->.
  by rewrite outsider_not_in in Hin.
Qed.

(** Each sample is the clamped sum over the participants that are not muted and whose frame is
    not being replaced. *)
Definition everybodys_sum (room : gmap str Participant) (i : nat) : Z :=
  sum_list (map (fun kv => contribution i kv.2) (map_to_list room)).

Lemma room_mix_spec room mix :
  wf_room room -> room_mix (room_frames room) = Some mix ->
  length mix = SAMPLES_PER_FRAME /\
  forall i, (i < SAMPLES_PER_FRAME)%nat -> mix !! i = Some (clamp_i16 (everybodys_sum room i)).
Proof.
  intros Hwf Hm. apply (room_mix_outsider _ (outsider room)) in Hm as ->; [|apply outsider_fresh].
  assert (Forall (fun kv => wf_frame kv.2) (map_to_list room)) as Hf.
  { apply Forall_forall. intros [c p] Hp%elem_of_map_to_list. by apply (Hwf c). }
  unfold room_frames. split.
  - apply (mix_for_receiver_sum (outsider room) (map_to_list room) 0 Hf). unfold SAMPLES_PER_FRAME. lia.
  - intros i Hi. destruct (mix_for_receiver_sum (outsider room) (map_to_list room) i Hf Hi) as [-> _].
    unfold everybodys_sum. by rewrite filter_map_to_list_delete, delete_id by apply outsider_not_in.
Qed.

Lemma clamp_i16_range v : Int.is_i16 (clamp_i16 v).
Proof. unfold Int.is_i16, Int.i16_min, Int.i16_max, clamp_i16. lia. Qed.

Lemma room_mix_range frames mix : room_mix frames = Some mix -> Forall Int.is_i16 mix.
Proof.
  unfold room_mix. destruct (foldl _ _ _) as [acc []]; [|done]. intros [= <-].
  apply Forall_map, Forall_true. intros. apply clamp_i16_range.
Qed.

(** The frames of a sequence of ticks, and how many are kept. *)
Definition mixes (rooms : list (gmap str Participant)) : list (list Z) :=
  omap (fun room => room_mix (room_frames room)) rooms.

Definition MAX_FRAMES : nat := Z.to_nat 90000.

Lemma concat_frames_length (ms : list (list Z)) :
  Forall (fun m => length m = SAMPLES_PER_FRAME) ms -> length (concat ms) = (SAMPLES_PER_FRAME * length ms)%nat.
Proof. induction 1 as [|m ms Hm _ IH]; cbn [concat length]; [lia|]. rewrite length_app, IH, Hm. lia. Qed.

Lemma mixes_length rooms : Forall wf_room rooms -> Forall (fun m => length m = SAMPLES_PER_FRAME) (mixes rooms).
Proof.
  induction 1 as [|room rooms Hr _ IH]; [constructor|]. unfold mixes. cbn.
  destruct (room_mix (room_frames room)) as [m|] eqn:E; [|done]. constructor; [by apply (room_mix_spec room)|done].
Qed.

Lemma record_ticks_frames rooms ms :
  Forall wf_room rooms -> Forall (fun m => length m = SAMPLES_PER_FRAME) ms ->
  record_ticks rooms (Some {| rr_samples := concat (take MAX_FRAMES ms) |}) =
  Some {| rr_samples := concat (take MAX_FRAMES (ms ++ mixes rooms)) |}.
Proof.
  intros Hrooms. revert ms. induction Hrooms as [|room rooms Hr _ IH]; intros ms Hms.
  { by rewrite app_nil_r. }
  unfold record_ticks, mixes in *. cbn [foldl omap list_omap]. unfold record_tick at 2.
  destruct (room_mix (room_frames room)) as [m|] eqn:E; [|by apply IH]. cbn [rr_samples].
  assert (length m = SAMPLES_PER_FRAME) as Hm by by apply (room_mix_spec room).
  rewrite concat_frames_length by by apply Forall_take. rewrite length_take.
  rewrite cons_middle, (app_assoc ms). rewrite <- (IH (ms ++ [m])) by by apply Forall_app_2; [|repeat constructor].
  f_equal. f_equal. f_equal. unfold MAX_RECORDING_SAMPLES, SAMPLES_PER_FRAME.
  destruct (decide (length ms < MAX_FRAMES)%nat) as [Hlt|Hge].
  - rewrite (proj2 (Z.ltb_lt _ _)) by (unfold MAX_FRAMES in *; lia).
    rewrite !take_ge by (rewrite ?length_app; cbn [length]; lia). rewrite concat_app. cbn. by rewrite app_nil_r.
  - rewrite (proj2 (Z.ltb_ge _ _)) by (unfold MAX_FRAMES in *; lia). rewrite take_app_le by lia. done.
Qed.

(** A recording of a room.  Whatever the room was in a sequence of ticks, a recorder that was
    started empty holds one frame of 160 samples for each tick in which somebody was heard, up
    to half an hour, each the clamped sum of all who were not muted (and whose frame was not being
    replaced).  Taking it out empties the
    buffer and gives a file with its seconds, which reads back as these samples while it has
    at most ten million; from there up to half an hour the reader refuses the file. *)
Theorem recording_spec rooms :
  Forall wf_room rooms ->
  let r := record_ticks rooms (Some {| rr_samples := [] |}) in
  let xs := concat (take MAX_FRAMES (mixes rooms)) in
  r = Some {| rr_samples := xs |} /\ Z.of_nat (length xs) <= MAX_RECORDING_SAMPLES /\
  (forall room mix, room ∈ rooms -> room_mix (room_frames room) = Some mix ->
     forall i, (i < SAMPLES_PER_FRAME)%nat -> mix !! i = Some (clamp_i16 (everybodys_sum room i))) /\
  exists wav, flush_recorder r = (Done (Some (wav, Z.of_nat (length xs) / 8000)), Some {| rr_samples := [] |}) /\
    read_pcm16_wav wav =
      if MAX_WAV_SAMPLES <? Z.of_nat (length xs) then Err "WAV data exceeds maximum sample limit"
      else Ok {| sample_rate := 8000; samples := xs |}.
Proof.
  intros Hrooms r xs. pose proof (mixes_length rooms Hrooms) as Hms.
  assert (r = Some {| rr_samples := xs |}) as Hr by by apply (record_ticks_frames rooms []).
  assert (Z.of_nat (length xs) <= MAX_RECORDING_SAMPLES) as Hlen.
  { unfold xs. rewrite concat_frames_length by by apply Forall_take. rewrite length_take.
    unfold MAX_RECORDING_SAMPLES, SAMPLES_PER_FRAME, MAX_FRAMES. lia. }
  assert (Forall Int.is_i16 xs) as Hi.
  { apply Forall_concat, Forall_take. unfold mixes. clear. induction rooms as [|room rooms IH]; [constructor|]. cbn.
    destruct (room_mix (room_frames room)) eqn:E; [|done]. constructor; [by eapply room_mix_range|done]. }
  split; [done|]. split; [done|]. split.
  { intros room mix Hin Hmix. rewrite Forall_forall in Hrooms. by apply room_mix_spec; [apply Hrooms|]. }
  destruct (read_wav_bytes xs 8000) as (wav & Hw & Hread); [done|done| |done|].
  { unfold MAX_RECORDING_SAMPLES, Int.u32_max in *. lia. }
  exists wav. split; [|done]. rewrite Hr. unfold flush_recorder. cbn [rr_samples]. rewrite Hw.
  do 4 f_equal. unfold Int.wrap_u32. rewrite Z.mod_small; [done|]. unfold MAX_RECORDING_SAMPLES in *. lia.
Qed.

Lemma recording_spec_witness :
  record_ticks [sample_room; sample_room] (Some {| rr_samples := [] |}) =
    Some {| rr_samples := concat (take MAX_FRAMES (mixes [sample_room; sample_room])) |}.
Proof.
  apply (recording_spec [sample_room; sample_room]).
  constructor; [|constructor; [|constructor]]; apply sample_room_wf.
Defined.
