(* ===== verification/Conference.v ===== *)
(** * The conference endpoint: [backend/src/sip/conference.rs]

    Calls to a conference room: admission, the SDP answer, the participant table, and the
    requests inside such a call. *)

From S2P Require Import Prelude RustStr Net Message Response SecurityGuard Acl Storage Sdp Media.
From S2P Require Import World Gateway VoicemailSdp VoicemailMedia NoAnswer Mwi Voicemail.
From S2P Require Import ConferenceMedia.

Open Scope str_scope.
Open Scope Z_scope.

Definition extract_pin_from_uri (uri : str) : option str :=
  find_map (fun param =>
    '(key, value) ← Str.split_once "=" param;
    if decide (Str.trim key = "pin") then Some (Str.trim value) else None)
    (drop 1 (Str.split_char ";" uri)).

(** [backend/src/models/conference.rs] *)
Definition validate_conference_extension (extension : str) : bool :=
  (length extension =? 9)%nat && forallb Str.is_digit extension.

(** Append [;tag=<tag>] unless the value has a tag. *)
Definition conf_with_to_tag (to tag : str) : str :=
  if Str.is_empty to then ";tag=" ++ tag
  else if Str.contains ";tag=" (Str.to_lower to) then to
  else to ++ ";tag=" ++ tag.

(** The event code of the first character of the [Signal=] line. *)
Definition dtmf_relay_event (bd : str) : option Z :=
  signal ← find_map (fun l =>
    let l := Str.trim l in
    match Str.strip_prefix "Signal=" l with
    | Some s => Some s
    | None => Str.strip_prefix "signal=" l
    end) (Str.lines bd);
  c ← head (Str.trim signal);
  if decide (c = "*"%char) then Some 10
  else if decide (c = "#"%char) then Some 11
  else if Str.is_digit c then Some (Str.code c - 48)
  else None.

Definition parse_dtmf_relay_for_star6 (bd : str) (room_id : Z) (cid : str) : M (option bool) :=
  match dtmf_relay_event bd with
  | Some event => record_dtmf_for room_id cid event
  | None => mret None
  end.

(** ** Tables *)

Definition find_room (w : World) (extension domain : str) : option ConferenceRoomRow :=
  find_first (fun r => bool_decide (cr_extension r = extension) &&
                       bool_decide (cr_domain r = domain) && (cr_enabled r =? 1)) (w_conf_rooms w).

Definition lookup_room (extension domain : str) : M (option (Z * Z)) :=
  if negb (validate_conference_extension extension) then mret None
  else
    row ← attempt (query (gets (fun w => find_room w extension domain)));
    mret ((fun r => (cr_id r, cr_max_participants r)) <$> mjoin row).

Definition room_pin_hash (w : World) (room_id : Z) : option str :=
  find_first (fun r => cr_id r =? room_id) (w_conf_rooms w) ≫= cr_pin_hash.

(** [SELECT COUNT( * ) ... WHERE room_id = ? AND left_at IS NULL] *)
Definition active_count (w : World) (room_id : Z) : Z :=
  Z.of_nat (size (filter (fun kv : str * ConferenceParticipantRow =>
    cp_room_id kv.2 = room_id /\ cp_left_at kv.2 = None) (w_conf_participants w))).

(** [INSERT ... ON DUPLICATE KEY UPDATE]: the room of a row that is there stays. *)
Definition upsert_participant (room_id : Z) (cid account : str) (src : SocketAddr) (port : Z)
    (codec_label : str) : M unit :=
  modify (fun w => set_conf_participants (<[cid := {|
    cp_room_id := from_option cp_room_id room_id (w_conf_participants w !! cid);
    cp_account := account; cp_source_ip := show_ip (ip src); cp_source_port := Net.port src;
    cp_relay_port := port; cp_codec := codec_label; cp_muted := 0;
    cp_joined_at := w_now w / 1000000000; cp_left_at := None |}]> (w_conf_participants w)) w).

(** ** Handlers *)

Definition is_conference_call (cid : str) : M bool :=
  gets (fun w => bool_decide (is_Some (w_conf_calls w !! cid))).

Section conference.
Context (cfg : Config) `{Bcrypt}.

(** Is this caller let into a room with this PIN hash?  The reason when not. *)
Definition pin_refusal (pin_hash : option str) (request_uri : str) : option str :=
  match pin_hash with
  | None => None
  | Some expected_hash =>
      match extract_pin_from_uri request_uri with
      | Some pin =>
          if default false (bcrypt_verify pin expected_hash) then None
          else Some "Forbidden - Invalid PIN"
      | None => Some "Forbidden - PIN Required"
      end
  end.

(** The call is admitted: join the room, record the participant, answer. *)
Definition admit_participant (msg : SipMessage) (src : SocketAddr) (room_id : Z)
    (caller extension : str) (n : ConferenceNegotiation) : M str :=
  let cid := default "" (call_id msg) in
  joined ← attempt (join cfg room_id cid (cn_codec n) (cn_audio_pt n) (cn_telephone_event_pt n));
  match joined with
  | None => mret (build (base_response msg 500 "Internal Server Error"))
  | Some port =>
      session_id ← unix_secs;
      let answer := conf_build_answer (public_ip cfg) port n session_id in
      _ ← ignore (query (upsert_participant room_id cid caller src port (rtpmap_name (cn_codec n))));
      let to_tag := "conf-" ++ Str.show_hex session_id in
      let to_with_tag := conf_with_to_tag (default "" (to_header msg)) to_tag in
      let contact := "<sip:" ++ extension ++ "@" ++ public_ip cfg ++ ":" ++
                     Str.show_dec (sip_port cfg) ++ ">" in
      _ ← modify (fun w => set_conf_calls (<[cid := {| cc_room_id := room_id;
            cc_extension := extension; cc_domain := sip_domain cfg;
            cc_caller_account := caller; cc_to_tag := to_tag |}]> (w_conf_calls w)) w);
      let b := base_response_with_to msg 200 "OK" to_with_tag in
      let b := builder_header b "Contact" contact in
      let b := builder_header b "Content-Type" "application/sdp" in
      let b := builder_header b "Allow" "INVITE, ACK, CANCEL, BYE, INFO" in
      mret (build (builder_body b answer))
  end.

Definition conf_handle_invite (msg : SipMessage) (src : SocketAddr) (room_id max_participants : Z)
    : M str :=
  let request_uri := default "" (request_uri msg) in
  let extension := default "" (uri_username request_uri) in
  let caller := default "unknown" (header_user (from_header msg)) in
  if Str.is_empty (default "" (call_id msg)) then mret (build (base_response msg 400 "Bad Request"))
  else if bool_decide (caller = "unknown") then mret (build (base_response msg 403 "Forbidden"))
  else
    caller_ok ← db_account_exists caller (sip_domain cfg);
    if negb caller_ok then mret (build (base_response msg 403 "Forbidden"))
    else
      pin_hash ← query (gets (fun w => room_pin_hash w room_id));
      match pin_refusal pin_hash request_uri with
      | Some reason => mret (build (base_response msg 403 reason))
      | None =>
          count ← query (gets (fun w => active_count w room_id));
          if max_participants <=? count then mret (build (base_response msg 486 "Busy Here"))
          else
            match conf_negotiate_offer (body msg) with
            | Err _ => mret (build (base_response msg 488 "Not Acceptable Here"))
            | Ok n => admit_participant msg src room_id caller extension n
            end
      end.

Definition conf_handle_ack (msg : SipMessage) : M unit := mret tt.

Definition mark_left (cid : str) : M unit :=
  modify (fun w => set_conf_participants (alter (fun r =>
    match cp_left_at r with
    | Some _ => r
    | None => {| cp_room_id := cp_room_id r; cp_account := cp_account r;
        cp_source_ip := cp_source_ip r; cp_source_port := cp_source_port r;
        cp_relay_port := cp_relay_port r; cp_codec := cp_codec r; cp_muted := cp_muted r;
        cp_joined_at := cp_joined_at r; cp_left_at := Some (w_now w / 1000000000) |}
    end) cid (w_conf_participants w)) w).

Definition mark_muted (cid : str) (m : bool) : M unit :=
  modify (fun w => set_conf_participants (alter (fun r =>
    {| cp_room_id := cp_room_id r; cp_account := cp_account r; cp_source_ip := cp_source_ip r;
       cp_source_port := cp_source_port r; cp_relay_port := cp_relay_port r;
       cp_codec := cp_codec r; cp_muted := if m then 1 else 0; cp_joined_at := cp_joined_at r;
       cp_left_at := cp_left_at r |}) cid (w_conf_participants w)) w).

Definition conf_handle_bye (msg : SipMessage) : M str :=
  let cid := default "" (call_id msg) in
  removed ← gets (fun w => w_conf_calls w !! cid);
  _ ← modify (fun w => set_conf_calls (delete cid (w_conf_calls w)) w);
  _ ← match removed with
      | Some call =>
          _ ← leave (cc_room_id call) cid;
          ignore (query (mark_left cid))
      | None => mret tt
      end;
  mret (build (base_response msg 200 "OK")).

Definition conf_handle_cancel (msg : SipMessage) : M str := conf_handle_bye msg.

Definition conf_handle_info (msg : SipMessage) : M str :=
  let cid := default "" (call_id msg) in
  let ctype := Str.to_lower (default "" (header msg "content-type")) in
  if negb (Str.contains "application/dtmf-relay" ctype) &&
     negb (Str.contains "application/dtmf" ctype)
  then mret (build (base_response msg 200 "OK"))
  else
    call ← gets (fun w => w_conf_calls w !! cid);
    match call with
    | None => mret (build (base_response msg 481 "Call/Transaction Does Not Exist"))
    | Some call =>
        toggled ← parse_dtmf_relay_for_star6 (body msg) (cc_room_id call) cid;
        _ ← match toggled with
            | Some now_muted => ignore (query (mark_muted cid now_muted))
            | None => mret tt
            end;
        mret (build (base_response msg 200 "OK"))
    end.

Definition reconcile_active_on_startup : M unit :=
  query (modify (fun w => set_conf_participants ((fun r =>
    match cp_left_at r with
    | Some _ => r
    | None => {| cp_room_id := cp_room_id r; cp_account := cp_account r;
        cp_source_ip := cp_source_ip r; cp_source_port := cp_source_port r;
        cp_relay_port := cp_relay_port r; cp_codec := cp_codec r; cp_muted := cp_muted r;
        cp_joined_at := cp_joined_at r; cp_left_at := Some (w_now w / 1000000000) |}
    end) <$> w_conf_participants w) w)).
End conference.

(** ** Facts: admission *)

Section admission.
Context (cfg : Config) `{!Bcrypt}.

Definition conf_caller (msg : SipMessage) : str := default "unknown" (header_user (from_header msg)).

(** Everything a caller needs to get into a room. *)
Record admissible (w : World) (msg : SipMessage) (room_id max : Z) : Prop := {
  adm_account : account_enabled w (conf_caller msg) (sip_domain cfg) = true;
  adm_pin : forall hash, room_pin_hash w room_id = Some hash -> exists pin,
    extract_pin_from_uri (default "" (request_uri msg)) = Some pin /\
    bcrypt_verify pin hash = Some true;
  adm_room : active_count w room_id < max;
  adm_offer : is_ok (conf_negotiate_offer (body msg)) = true;
}.

Lemma pin_refusal_none hash uri :
  pin_refusal hash uri = None ->
  forall h, hash = Some h ->
  exists pin, extract_pin_from_uri uri = Some pin /\ bcrypt_verify pin h = Some true.
Proof.
  unfold pin_refusal. intros Hr h ->. destruct (extract_pin_from_uri uri) as [pin|]; [|done].
  exists pin. split; [done|]. by destruct (bcrypt_verify pin h) as [[]|].
Qed.

(** An INVITE to a room either leaves everything but the fault schedule as it was, or is
    admissible and goes on to [admit_participant]. *)
Lemma conf_handle_invite_cases msg src room_id max w :
  (exists r v, conf_handle_invite cfg msg src room_id max w = (r, set_faults v w)) \/
  (admissible w msg room_id max /\ exists n v,
     conf_handle_invite cfg msg src room_id max w =
     admit_participant cfg msg src room_id (conf_caller msg)
       (default "" (uri_username (default "" (request_uri msg)))) n (set_faults v w)).
Proof.
  assert (Hid : forall r : res str, exists r' v, (r, w) = (r', set_faults v w)).
  { intros r. exists r, (w_faults w). by destruct w. }
  unfold conf_handle_invite. fold (conf_caller msg).
  destruct (Str.is_empty _); [left; apply Hid|]. destruct (bool_decide _); [left; apply Hid|].
  unfold db_account_exists.
  destruct (query_gets_cases (fun w => account_enabled w (conf_caller msg) (sip_domain cfg)) w)
    as [v1 [E1|[e E1]]]; [|left; eexists _, v1; by rewrite (bind_fail _ _ _ _ _ E1)].
  rewrite (bind_val _ _ _ _ _ E1). cbv beta.
  change (account_enabled (set_faults v1 w)) with (account_enabled w).
  destruct (account_enabled w _ _) eqn:Hacc; cbn [negb]; [|left; by eexists _, v1].
  destruct (query_gets_cases (fun w => room_pin_hash w room_id) (set_faults v1 w))
    as [v2 [E2|[e E2]]]; [|left; eexists _, v2; by rewrite (bind_fail _ _ _ _ _ E2)].
  rewrite (bind_val _ _ _ _ _ E2). cbv beta.
  change (room_pin_hash (set_faults v2 (set_faults v1 w))) with (room_pin_hash w).
  destruct (pin_refusal _ _) eqn:Hpin; [left; by eexists _, v2|].
  destruct (query_gets_cases (fun w => active_count w room_id) (set_faults v2 (set_faults v1 w)))
    as [v3 [E3|[e E3]]]; [|left; eexists _, v3; by rewrite (bind_fail _ _ _ _ _ E3)].
  rewrite (bind_val _ _ _ _ _ E3). cbv beta.
  change (active_count (set_faults v3 (set_faults v2 (set_faults v1 w)))) with (active_count w).
  destruct (max <=? active_count w room_id) eqn:Hfull; [left; by eexists _, v3|].
  destruct (conf_negotiate_offer (body msg)) as [n|e] eqn:Hn; [|left; by eexists _, v3].
  right. split; [|by exists n, v3]. split; [done| |lia|by rewrite Hn].
  by apply pin_refusal_none.
Qed.

(** C30: nobody gets into a conference uninvited: if an INVITE changes the rooms, the calls or
    the participant table, then its caller has an enabled account, gave the room's PIN if it
    has one, the room had a free place, and the offer has a codec the mixer speaks. *)
Theorem conference_admission msg src room_id max w r w' :
  conf_handle_invite cfg msg src room_id max w = (r, w') ->
  w_conf_media w' <> w_conf_media w \/ w_conf_calls w' <> w_conf_calls w \/
  w_conf_participants w' <> w_conf_participants w ->
  admissible w msg room_id max.
Proof.
  intros Hrun Hchanged.
  destruct (conf_handle_invite_cases msg src room_id max w) as [(r0 & v & E)|[Hadm _]]; [|done].
  rewrite E in Hrun. simplify_eq. simpl in Hchanged. tauto.
Qed.

(** ** Facts: capacity *)

Lemma upsert_count room_id cid account src port label w room' :
  (forall row, w_conf_participants w !! cid = Some row -> cp_room_id row = room_id) ->
  let w' := (upsert_participant room_id cid account src port label w).2 in
  active_count w' room' <= active_count w room' + if decide (room' = room_id) then 1 else 0.
Proof.
  intros Hrow. unfold active_count. cbn.
  replace (from_option cp_room_id room_id (w_conf_participants w !! cid)) with room_id
    by (destruct (w_conf_participants w !! cid) as [row|] eqn:E; [symmetry; by apply Hrow|done]).
  set (f := fun kv : str * ConferenceParticipantRow => cp_room_id kv.2 = room' /\ cp_left_at kv.2 = None).
  change (fun kv : str * ConferenceParticipantRow => cp_room_id kv.2 = room' /\ cp_left_at kv.2 = None)
    with f.
  rewrite map_filter_insert. case_decide as Hf.
  - destruct Hf as [Hf _]. simpl in Hf. rewrite decide_True by done.
    rewrite map_size_insert. destruct (filter f _ !! cid); unfold id; lia.
  - rewrite map_filter_delete.
    assert (size (delete cid (filter f (w_conf_participants w))) <=
            size (filter f (w_conf_participants w)))%nat.
    { apply map_subseteq_size, delete_subseteq. }
    case_decide; lia.
Qed.

(** The participant table after [admit_participant]: as it was, or with this call's row. *)
Lemma admit_participant_table msg src room_id caller ext n w :
  let cid := default "" (call_id msg) in
  let w' := (admit_participant cfg msg src room_id caller ext n w).2 in
  w_conf_participants w' = w_conf_participants w \/
  exists port label w0, w_conf_participants w0 = w_conf_participants w /\
    w_conf_participants w' =
    w_conf_participants (upsert_participant room_id cid caller src port label w0).2.
Proof.
  intros cid w'. subst w'. unfold admit_participant. fold cid.
  assert (Hj : forall w, w_conf_participants
    (attempt (join cfg room_id cid (cn_codec n) (cn_audio_pt n) (cn_telephone_event_pt n)) w).2 =
    w_conf_participants w).
  { change (moves (same w_conf_participants) (attempt (join cfg room_id cid (cn_codec n)
      (cn_audio_pt n) (cn_telephone_event_pt n)))). unfold join, add_participant. solve_moves.
    intros u'. unfold same, conf_bind_socket. repeat case_match; by simplify_eq/=. }
  specialize (Hj w).
  destruct (attempt (join cfg room_id cid _ _ _) w) as [[[port|]|e|] w1] eqn:Ej.
  2-4: left; unfold mbind, M_bind; rewrite Ej; exact Hj.
  rewrite (bind_val _ _ _ _ _ Ej). unfold unix_secs. rewrite bind_gets. cbv beta.
  destruct (ignore_query_write (upsert_participant room_id cid caller src port
    (rtpmap_name (cn_codec n))) w1) as [v [E|E]]; [done|..].
  - right. exists port, (rtpmap_name (cn_codec n)), (set_faults v w1). split; [exact Hj|].
    by rewrite (bind_val _ _ _ _ _ E).
  - left. rewrite (bind_val _ _ _ _ _ E). exact Hj.
Qed.

(** An INVITE to a room with at most [max] active participants leaves it so, and no other room
    gains any, if this Call-ID was not used for another room before. *)
Lemma invite_capacity msg src room_id max w :
  (forall row, w_conf_participants w !! default "" (call_id msg) = Some row ->
     cp_room_id row = room_id) ->
  active_count w room_id <= max ->
  let w' := (conf_handle_invite cfg msg src room_id max w).2 in
  active_count w' room_id <= max /\
  forall room', room' <> room_id -> active_count w' room' <= active_count w room'.
Proof.
  intros Hrow Hmax w'. subst w'.
  destruct (conf_handle_invite_cases msg src room_id max w)
    as [(r0 & v & ->)|[Hadm (n & v & ->)]]; [by split|].
  destruct (admit_participant_table msg src room_id (conf_caller msg)
    (default "" (uri_username (default "" (request_uri msg)))) n (set_faults v w))
    as [Heq|(port & label & w0 & Hw0 & Heq)].
  { unfold active_count. rewrite Heq. by split. }
  assert (Hc : forall room', active_count w0 room' = active_count w room')
    by (intros; unfold active_count; by rewrite Hw0).
  assert (Hle : forall room', active_count (admit_participant cfg msg src room_id (conf_caller msg)
    (default "" (uri_username (default "" (request_uri msg)))) n (set_faults v w)).2 room' <=
    active_count w room' + if decide (room' = room_id) then 1 else 0).
  { intros room'. rewrite <-Hc. unfold active_count at 1. rewrite Heq. apply upsert_count.
    by rewrite Hw0. }
  pose proof (adm_room _ _ _ _ Hadm). split.
  - specialize (Hle room_id). rewrite decide_True in Hle by done. lia.
  - intros room' Hne. specialize (Hle room'). rewrite decide_False in Hle by done. lia.
Qed.

(** A change of the table in which every active row was active before. *)
Lemma active_count_le w w' room :
  (forall k r', w_conf_participants w' !! k = Some r' -> cp_left_at r' = None ->
     exists r, w_conf_participants w !! k = Some r /\ cp_left_at r = None /\ cp_room_id r = cp_room_id r') ->
  active_count w' room <= active_count w room.
Proof.
  intros Hr. unfold active_count. apply inj_le. rewrite <-!size_dom. apply subseteq_size. intros k.
  rewrite !elem_of_dom. intros (r' & (Hk & Hroom & Hleft)%map_lookup_filter_Some).
  destruct (Hr k r' Hk Hleft) as (r & Hk' & Hl & Hroom'). exists r.
  apply map_lookup_filter_Some. cbn in *. split_and!; [done|congruence|done].
Qed.

Definition fewer : relation World := fun w w' => forall room, active_count w' room <= active_count w room.

#[local] Instance fewer_io : IoFrame fewer.
Proof.
  split; [split|intros; intros ?; apply Z.le_refl..]; [intros ??; apply Z.le_refl|].
  intros x y z Hxy Hyz room.
  specialize (Hxy room). specialize (Hyz room). lia.
Qed.

Lemma fewer_same {A} (m : M A) : moves (same w_conf_participants) m -> moves fewer m.
Proof. intros Hm w room. unfold active_count. rewrite (Hm w). apply Z.le_refl. Qed.

Lemma fewer_mark_left cid : moves fewer (mark_left cid).
Proof.
  intros w room. apply active_count_le. cbn. intros k r'. destruct (decide (k = cid)) as [->|Hk].
  - rewrite lookup_alter_eq. intros (r & Hr & ->)%fmap_Some Hl. by destruct (cp_left_at r) eqn:E; [congruence|].
  - rewrite lookup_alter_ne by done. eauto.
Qed.

Lemma fewer_mark_muted cid b : moves fewer (mark_muted cid b).
Proof.
  intros w room. apply active_count_le. cbn. intros k r'. destruct (decide (k = cid)) as [->|Hk].
  - rewrite lookup_alter_eq. intros (r & Hr & ->)%fmap_Some Hl. eauto.
  - rewrite lookup_alter_ne by done. eauto.
Qed.

Lemma bye_fewer msg : moves fewer (conf_handle_bye msg).
Proof.
  unfold conf_handle_bye. cbv zeta. apply moves_bind; [apply moves_gets|]. intros removed.
  apply moves_bind; [by apply fewer_same; intros w|]. intros _.
  apply moves_bind; [|intros; apply moves_ret]. destruct removed as [call|]; [|apply moves_ret].
  apply moves_bind; [|intros; apply moves_ignore, moves_query, fewer_mark_left].
  apply fewer_same. intros w. unfold same, leave. cbn. by repeat case_match.
Qed.

Lemma info_fewer msg : moves fewer (conf_handle_info msg).
Proof.
  unfold conf_handle_info. cbv zeta. case_match; [apply moves_ret|].
  apply moves_bind; [apply moves_gets|]. intros [call|]; [|apply moves_ret].
  apply moves_bind.
  { apply fewer_same. intros w. unfold same, parse_dtmf_relay_for_star6, record_dtmf_for.
    repeat case_match; by simplify_eq/=. }
  intros t.
  apply moves_bind; [|intros; apply moves_ret]. destruct t; [|apply moves_ret].
  apply moves_ignore, moves_query, fewer_mark_muted.
Qed.

Lemma reconcile_fewer : moves fewer reconcile_active_on_startup.
Proof.
  apply moves_query. intros w room. apply active_count_le. cbn. intros k r'.
  rewrite lookup_fmap. intros (r & Hr & ->)%fmap_Some Hl. by destruct (cp_left_at r) eqn:E; [congruence|].
Qed.

(** The handlers that write the table, one at a time, in a server whose room [r] has [places r]
    places; no Call-ID is used for two rooms. *)
Inductive conf_step (places : Z -> Z) : World -> World -> Prop :=
  | conf_step_invite msg src room_id w :
      (forall row, w_conf_participants w !! default "" (call_id msg) = Some row ->
         cp_room_id row = room_id) ->
      conf_step places w (conf_handle_invite cfg msg src room_id (places room_id) w).2
  | conf_step_bye msg w : conf_step places w (conf_handle_bye msg w).2
  | conf_step_cancel msg w : conf_step places w (conf_handle_cancel msg w).2
  | conf_step_info msg w : conf_step places w (conf_handle_info msg w).2
  | conf_step_restart w : conf_step places w (reconcile_active_on_startup w).2
  | conf_step_environment now faults rnd w :
      conf_step places w (set_now now (set_faults faults (set_random rnd w))).

(** C31: when conference requests are handled one at a time and no Call-ID is used for two
    rooms, no room gets more active participants in the database than it has places, over any
    sequence of INVITE, BYE, CANCEL, INFO, restarts and failures.  (Two INVITEs at once can
    overbook a room: [concurrent_invites_overbook].) *)
Theorem conference_capacity places w w' :
  rtc (conf_step places) w w' -> (forall room, active_count w room <= places room) ->
  forall room, active_count w' room <= places room.
Proof.
  induction 1 as [|x y z Hxy _ IH]; [done|]. intros Hx. apply IH. clear IH. intros room.
  assert (forall A (m : M A) w, moves fewer m -> (forall r, active_count w r <= places r) ->
    active_count (m w).2 room <= places room) as Hm.
  { intros A m w0 Hf H0. specialize (Hf w0 room). specialize (H0 room). cbn in Hf. lia. }
  destruct Hxy as [msg src r w0 Hrow|msg w0|msg w0|msg w0|w0|? ? ? w0]; 
    [|by apply Hm; auto using bye_fewer, info_fewer, reconcile_fewer..|].
  - destruct (invite_capacity msg src r (places r) w0 Hrow (Hx r)) as [Hr Ho].
    destruct (decide (room = r)) as [->|Hne]; [done|]. specialize (Ho room Hne). specialize (Hx room). lia.
  - exact (Hx room).
Qed.

(** A row for a Call-ID that has none. *)
Lemma upsert_fresh_count room_id cid account src port label w :
  w_conf_participants w !! cid = None ->
  active_count (upsert_participant room_id cid account src port label w).2 room_id =
    active_count w room_id + 1.
Proof.
  intros Hc. unfold active_count. cbn. rewrite Hc. cbn [from_option].
  rewrite map_filter_insert_True by done. rewrite map_size_insert_None; [lia|].
  apply map_lookup_filter_None. by left.
Qed.

(** Two INVITEs for the last place of a room, both past the count when the first row is
    written: both have found a place, and the room has one participant too many. *)
Theorem concurrent_invites_overbook room_id max cid1 acc1 src1 port1 label1
    cid2 acc2 src2 port2 label2 w :
  w_conf_participants w !! cid1 = None -> w_conf_participants w !! cid2 = None -> cid1 <> cid2 ->
  active_count w room_id = max - 1 ->
  (max <=? active_count w room_id) = false /\
  active_count ((_ ← upsert_participant room_id cid1 acc1 src1 port1 label1;
                upsert_participant room_id cid2 acc2 src2 port2 label2) w).2 room_id = max + 1.
Proof.
  intros H1 H2 Hne Hc. split; [apply Z.leb_gt; lia|].
  set (w1 := (upsert_participant room_id cid1 acc1 src1 port1 label1 w).2).
  change (active_count (upsert_participant room_id cid2 acc2 src2 port2 label2 w1).2 room_id = max + 1).
  rewrite upsert_fresh_count by (subst w1; cbn; by rewrite lookup_insert_ne).
  subst w1. rewrite upsert_fresh_count by done. lia.
Qed.

(** Hanging up always leaves the conference: after a BYE (or CANCEL) for a call in
    conference, answered 200 whatever the database does, the call is gone from the calls and
    from its room, and every other participant is where it was. *)
Theorem conference_bye_leaves msg w call :
  let cid := default "" (call_id msg) in
  w_conf_calls w !! cid = Some call ->
  let '(r, w') := conf_handle_bye msg w in
  r = Val (build (base_response msg 200 "OK")) /\
  w_conf_calls w' = delete cid (w_conf_calls w) /\
  (w_conf_media w' !! cc_room_id call ≫= (.!! cid)) = None /\
  forall room c, (room, c) <> (cc_room_id call, cid) ->
    (w_conf_media w' !! room ≫= (.!! c)) = (w_conf_media w !! room ≫= (.!! c)).
Proof.
  intros cid Hcall. unfold conf_handle_bye. fold cid. rewrite bind_gets, bind_modify, Hcall.
  rewrite bind_assoc.
  set (w1 := (leave (cc_room_id call) cid (set_conf_calls (delete cid (w_conf_calls w)) w)).2).
  assert (Hl : leave (cc_room_id call) cid (set_conf_calls (delete cid (w_conf_calls w)) w) =
               (Val tt, w1)) by done.
  rewrite (bind_val _ _ _ _ _ Hl). cbv beta.
  assert (exists w2, ignore (query (mark_left cid)) w1 = (Val tt, w2) /\
            w_conf_media w2 = w_conf_media w1 /\ w_conf_calls w2 = w_conf_calls w1)
    as (w2 & Hm & Hmedia & Hcalls).
  { destruct (ignore_query_write (mark_left cid) w1) as [v [E|E]]; [done|..]; rewrite E; by eexists. }
  rewrite (bind_val _ _ _ _ _ Hm).
  split; [done|]. cbn [snd]. rewrite Hmedia, Hcalls. unfold w1, leave, modify. cbn [snd w_conf_media].
  destruct (w_conf_media w !! cc_room_id call) as [room|] eqn:Er; cbn; rewrite Er; cbn.
  2: { rewrite Er. done. }
  case_bool_decide as He; (split; [done|]); cbn.
  - rewrite lookup_delete_eq. split; [done|]. intros r c Hne.
    destruct (decide (r = cc_room_id call)) as [->|Hr]; [|by rewrite lookup_delete_ne].
    rewrite lookup_delete_eq, Er. simpl.
    assert (Hc : delete cid room !! c = None) by (rewrite He; apply lookup_empty).
    rewrite lookup_delete_ne in Hc; [done|]. congruence.
  - rewrite lookup_insert_eq. simpl. rewrite lookup_delete_eq. split; [done|]. intros r c Hne.
    destruct (decide (r = cc_room_id call)) as [->|Hr]; [|by rewrite lookup_insert_ne].
    rewrite lookup_insert_eq, Er. simpl. rewrite lookup_delete_ne; [done|]. congruence.
Qed.
End admission.

(** ** Examples *)

Definition room_world : World :=
  set_conf_rooms [{| cr_id := 1; cr_extension := "900000000"; cr_domain := "sip.example.com";
    cr_name := "Team"; cr_enabled := 1; cr_max_participants := 2; cr_pin_hash := Some "1234" |}] sample_world.

Definition room_invite : SipMessage := message_of (render
  "INVITE sip:900000000@sip.example.com;pin=1234 SIP/2.0"
  [("From", "<sip:alice@sip.example.com>;tag=1"); ("To", "<sip:900000000@sip.example.com>");
   ("Call-ID", "c1"); ("CSeq", "1 INVITE")]
  (Str.terminated ["v=0"; "c=IN IP4 198.51.100.7"; "m=audio 4000 RTP/AVP 0"])).

Definition joined_world : World :=
  (conf_handle_invite sample_config (H := toy_bcrypt) room_invite sample_src 1 2 room_world).2.

Lemma conference_admission_witness :
  admissible sample_config (H := toy_bcrypt) room_world room_invite 1 2.
Proof.
  apply (@conference_admission sample_config toy_bcrypt room_invite sample_src 1 2 room_world
    (conf_handle_invite sample_config (H := toy_bcrypt) room_invite sample_src 1 2 room_world).1
    joined_world).
  - unfold joined_world. apply surjective_pairing.
  - right. left. intros Heq. apply (f_equal size) in Heq. vm_compute in Heq. discriminate Heq.
Defined.

Lemma conference_capacity_witness :
  active_count joined_world 1 = 1 /\ active_count joined_world 1 <= 2.
Proof.
  split; [vm_compute; reflexivity|]. unfold joined_world.
  apply (@conference_capacity sample_config toy_bcrypt (fun _ => 2) room_world).
  - apply rtc_once. apply (conf_step_invite _ (fun _ => 2)). intros row Hrow. vm_compute in Hrow. discriminate Hrow.
  - intros room. vm_compute. discriminate.
Defined.

Definition room_bye : SipMessage := message_of (render "BYE sip:900000000@sip.example.com SIP/2.0"
  [("From", "<sip:alice@sip.example.com>;tag=1"); ("Call-ID", "c1"); ("CSeq", "2 BYE")] "").

Lemma conference_bye_leaves_witness :
  w_conf_calls (conf_handle_bye room_bye joined_world).2 = delete ("c1" : str) (w_conf_calls joined_world).
Proof.
  pose proof (conference_bye_leaves room_bye joined_world {| cc_room_id := 1;
    cc_extension := "900000000"; cc_domain := "sip.example.com"; cc_caller_account := "alice";
    cc_to_tag := "conf-6553f100" |}) as H.
  destruct (conf_handle_bye room_bye joined_world) as [r w'].
  destruct H as (_ & H & _); [vm_compute; reflexivity|exact H].
Defined.
