(* ===== verification/Registrar.v ===== *)
(** * Registration: [backend/src/sip/registrar.rs]

    Digest authentication with signed nonces, the contact a registration stores,
    and the REGISTER handler. *)

From S2P Require Import Prelude RustStr Net Message Response SecurityGuard Acl Sdp Media World.
From S2P Require Import Presence.

Open Scope str_scope.
Open Scope Z_scope.

(** ** Contacts *)

Definition is_contact_uri_param (key : str) : bool :=
  bool_decide (key ∈ ["transport"; "user"; "method"; "maddr"; "ttl"; "lr"; "ob"; "gr"; "alias"]).

Definition contact_param_key (param : str) : str :=
  Str.to_lower (Str.trim (match Str.split_once "=" param with Some (n, _) => n | None => param end)).

Definition contact_uri_preserving_uri_params (contact : str) : str :=
  let bracketed := if Str.starts_with "<" (Str.trim_start contact) then extract_uri contact else None in
  match bracketed with
  | Some uri => uri
  | None =>
      let parts := Str.split_char ";" (Str.trim contact) in
      let uri := Str.trim (default (Str.trim contact) (head parts)) in
      foldl (fun uri param =>
        if is_contact_uri_param (contact_param_key param)
        then uri ++ ";" ++ Str.trim param else uri) uri (tail parts)
  end.

Definition uri_param_suffix (uri : str) : str :=
  let without_scheme :=
    match Str.strip_prefix "sip:" uri with
    | Some r => r
    | None => default uri (Str.strip_prefix "sips:" uri)
    end in
  let host_and_params :=
    match Str.split_once "@" without_scheme with Some (_, r) => r | None => without_scheme end in
  match Str.find_char ";" host_and_params with
  | Some idx => drop idx host_and_params
  | None => ""
  end.

Definition socket_addr_uri_host_port (src : SocketAddr) : str :=
  match ip src with
  | V4 _ _ _ _ => show_ip (ip src) ++ ":" ++ Str.show_dec (port src)
  | V6 _ => "[" ++ show_ip (ip src) ++ "]:" ++ Str.show_dec (port src)
  end.

Definition routable_contact_uri (contact fallback_username : str) (src : SocketAddr) : str :=
  let uri := contact_uri_preserving_uri_params contact in
  let lower := Str.to_lower uri in
  let scheme := if Str.starts_with "sips:" lower then "sips" else "sip" in
  let username :=
    match uri_username uri with
    | Some u => if Str.is_empty u then fallback_username else u
    | None => fallback_username
    end in
  let params := uri_param_suffix uri in
  scheme ++ ":" ++ username ++ "@" ++ socket_addr_uri_host_port src ++ params.

(** ** Nonces and digests *)

Section digests.
Context `{Digests}.

(** The nonce made at UNIX time [ts] with sixteen random hexadecimal digits. *)
Definition make_nonce (secret : str) (ts : Z) (random_hex : str) : str :=
  let data := Str.show_hex_pad 8 (Int.wrap_u32 ts) ++ random_hex in
  let mac := md5_hex (secret ++ ":" ++ data) in
  data ++ ":" ++ mac.

Definition generate_nonce (secret : str) : M str :=
  ts ← unix_secs;
  hex ← random_hex 8;
  mret (make_nonce secret ts hex).

Definition validate_nonce (now : Z) (nonce secret : str) (max_age_secs : Z) : bool :=
  if (length nonce <? 57)%nat then false
  else if negb (bool_decide (nonce !! 24%nat = Some ":"%char)) then false
  else
    let data := take 24 nonce in
    let mac := drop 25 nonce in
    if negb (length mac =? 32)%nat then false
    else
      let expected_mac := md5_hex (secret ++ ":" ++ data) in
      if negb (bool_decide (expected_mac = mac)) then false
      else match Str.parse_radix 16 Int.u64_max (take 8 data) with
        | Some ts => Int.sat_sub now ts <? max_age_secs
        | None => false
        end.

Definition param (params : gmap str str) (name : str) : str := default "" (params !! name).

(** The [response] a client must send. *)
Definition expected_response (params : gmap str str) (ha1 mth : str) : str :=
  let ha2 := md5_hex (mth ++ ":" ++ param params "uri") in
  if decide (param params "qop" = "auth") then
    md5_hex (ha1 ++ ":" ++ param params "nonce" ++ ":" ++ param params "nc" ++ ":" ++
             param params "cnonce" ++ ":" ++ param params "qop" ++ ":" ++ ha2)
  else md5_hex (ha1 ++ ":" ++ param params "nonce" ++ ":" ++ ha2).

Definition verify_digest_with_ha1 (params : gmap str str) (ha1 mth : str) : bool :=
  bool_decide (expected_response params ha1 mth = param params "response").

(** ** The handler *)

Context (cfg : Config) (secret : str).

Definition unauthorized_response (msg : SipMessage) (domain : str) : M str :=
  nonce ← generate_nonce secret;
  mret (build (builder_header (base_response msg 401 "Unauthorized")
    "WWW-Authenticate" (make_www_authenticate domain nonce))).

(** A failed attempt: count it, log it, ban the source when a threshold is
    reached, and challenge again. *)
Definition reject_register (msg : SipMessage) (src : SocketAddr) (username detail : str) : M str :=
  let source_ip := show_ip (ip src) in
  blocked ← guard_record_failure SipRegister source_ip (Some username);
  _ ← ignore (db_persist_event SipRegister AuthFailed source_ip (Some username) detail);
  _ ← when (blocked && persist_acl_bans cfg)
    (_ ← ignore (db_persist_acl_ban (ip src) (acl_ban_priority cfg)
                   "auto-ban: sip register brute force");
     ignore (db_persist_event SipRegister IpBlocked source_ip (Some username)
               "register source blocked by threshold"));
  unauthorized_response msg (sip_domain cfg).

(** [contact.split(';').find(..).and_then(..)] *)
Definition contact_expires (contact : str) : option Z :=
  p ← find_first (fun p => Str.starts_with "expires=" (Str.to_lower (Str.trim p)))
        (Str.split_char ";" contact);
  s ← Str.split_char "=" p !! 1%nat;
  Str.parse_u32 (Str.trim s).

Definition register_expires (msg : SipMessage) (contact : str) : Z :=
  match expires msg with
  | Some e => e
  | None => default (registration_expires cfg) (contact_expires contact)
  end.

(** The part of [handle_register] after authentication succeeded. *)
Definition process_registration (msg : SipMessage) (src : SocketAddr) (username : str) : M str :=
  let domain := sip_domain cfg in
  let source_ip := show_ip (ip src) in
  let contact := default "*" (Message.contact msg) in
  let exp := register_expires msg contact in
  if bool_decide (Str.trim contact = "*") || (exp =? 0) then
    _ ← query (modify (fun w => set_registrations
          (delete (username, domain) (w_registrations w)) w));
    _ ← notify_status_change cfg username domain StatusClosed;
    mret (build (base_response msg 200 "OK"))
  else
    let contact_uri := routable_contact_uri contact username src in
    now ← unix_secs;
    _ ← query (modify (fun w => set_registrations
          (<[(username, domain) := {| contact_uri := contact_uri;
              reg_user_agent := default "" (user_agent msg); reg_expires_at := now + exp;
              reg_source_ip := source_ip; reg_source_port := port src |}]>
            (w_registrations w)) w));
    _ ← notify_status_change cfg username domain StatusOpen;
    _ ← ignore (enqueue_webhook "registration.changed"
          [("event", "registration.changed"); ("username", username); ("domain", domain);
           ("contact", contact_uri); ("source_ip", source_ip); ("expires", Str.show_dec exp)]);
    mret (build (builder_header (base_response msg 200 "OK") "Contact"
      ("<" ++ contact_uri ++ ">;expires=" ++ Str.show_dec exp))).

(** [SELECT COALESCE(ha1_hash, ''), enabled FROM sip_accounts WHERE ...] *)
Definition account_row (w : World) (username domain : str) : option (str * Z) :=
  a ← w_accounts w !! (username, domain);
  Some (default "" (ac_ha1_hash a), ac_enabled a).

Definition credentials_ok (row : option (str * Z)) (params : gmap str str) : bool :=
  match row with
  | Some (ha1, enabled) =>
      negb (enabled =? 0) && negb (Str.is_empty ha1) && verify_digest_with_ha1 params ha1 "REGISTER"
  | None => false
  end.

Definition register_username (msg : SipMessage) : str :=
  default "" (uri_username (default "" (extract_uri (default "" (from_header msg))))).

Definition handle_register (msg : SipMessage) (src : SocketAddr) : M str :=
  let username := register_username msg in
  if Str.is_empty username then mret (build (base_response msg 400 "Bad Request"))
  else
    let source_ip := show_ip (ip src) in
    blocked ← guard_is_blocked source_ip;
    if blocked : bool then mret (build (base_response msg 403 "Forbidden"))
    else
      let domain := sip_domain cfg in
      match authorization msg with
      | None => unauthorized_response msg domain
      | Some auth_header =>
          match parse_auth_params auth_header with
          | Panic => panic
          | Done params =>
              now ← unix_secs;
              if negb (validate_nonce now (param params "nonce") secret (nonce_max_age_secs cfg))
              then reject_register msg src username
                     "register auth failed: stale or invalid nonce"
              else
                row ← query (gets (fun w => account_row w username domain));
                if negb (credentials_ok row params)
                then reject_register msg src username
                       "register auth failed: invalid account or digest"
                else
                  _ ← guard_record_success source_ip (Some username);
                  _ ← ignore (db_persist_event SipRegister AuthSucceeded source_ip
                        (Some username) "register auth succeeded");
                  process_registration msg src username
          end
      end.
End digests.

(** ** Nonces *)

Section nonces.
Context `{!Digests, !DigestLaws}.

Lemma random_hex_length n w r w' :
  random_hex n w = (Val r, w') -> length r = (2 * n)%nat.
Proof.
  revert w r w'. induction n as [|n IH]; intros w r w' E; [by inversion E|].
  cbn [random_hex] in E. destruct (random_byte w) as [[b|e|] w1] eqn:Eb;
    unfold mbind, M_bind in E; rewrite Eb in E; [|done..].
  destruct (total_random_hex n w1) as (r' & w2 & E2). rewrite E2 in E. cbv [mret M_ret] in E. simplify_eq.
  rewrite length_app, (Str.show_hex_pad_length 1), (IH _ _ _ E2); [lia|].
  unfold random_byte in Eb. change (16 ^ Z.of_nat 2) with 256.
  destruct (w_random w) as [|x xs]; simplify_eq; [lia|]. by apply Z.mod_pos_bound.
Qed.

(** On data followed by its own digest only the timestamp decides. *)
Lemma validate_nonce_mac now data secret max_age :
  length data = 24%nat ->
  validate_nonce now (data ++ ":" ++ md5_hex (secret ++ ":" ++ data)) secret max_age =
  match Str.parse_radix 16 Int.u64_max (take 8 data) with
  | Some ts => Int.sat_sub now ts <? max_age
  | None => false
  end.
Proof.
  intros Hl. unfold validate_nonce. rewrite length_app. cbn [app length].
  rewrite md5_hex_length, Hl. rewrite (proj2 (Nat.ltb_ge _ _)) by lia.
  rewrite lookup_app_r, Hl by lia. rewrite take_app_length' by done.
  rewrite drop_app_ge, Hl by lia. cbn [Nat.sub skipn].
  by rewrite drop_0, md5_hex_length, !bool_decide_eq_true_2.
Qed.

(** A nonce is accepted exactly when it is 24 characters of data followed by the
    keyed digest of those very characters, the first eight of them read as a
    hexadecimal timestamp, and that timestamp is younger than the configured age: no
    other text passes, whatever its length or characters. *)
Theorem validate_nonce_spec now nonce secret max_age :
  validate_nonce now nonce secret max_age = true <->
  exists data ts,
    length data = 24%nat /\ nonce = data ++ ":" ++ md5_hex (secret ++ ":" ++ data) /\
    Str.parse_radix 16 Int.u64_max (take 8 data) = Some ts /\
    Int.sat_sub now ts < max_age.
Proof.
  split.
  - unfold validate_nonce. intros Hv. repeat (case_match; try done). bool_simpl.
    match goal with Ht : Str.parse_radix _ _ _ = Some ?t |- _ => exists (take 24 nonce), t end.
    match goal with Hn : (length nonce <? 57)%nat = false |- _ => apply Nat.ltb_ge in Hn end.
    split_and!; [by rewrite length_take; lia| |done|done].
    match goal with Hm : md5_hex _ = _ |- _ => rewrite Hm end.
    rewrite <-(take_drop_middle nonce 24 ":"%char) at 1 by done. done.
  - intros (data & ts & Hl & -> & Hts & Hage).
    rewrite validate_nonce_mac, Hts by done. by apply Z.ltb_lt.
Qed.

(** The nonce the server hands out at second [ts] is accepted while it is younger
    than the configured age and rejected from then on. *)
Theorem generated_nonce_valid secret w nonce w' ts now max_age :
  generate_nonce secret w = (Val nonce, w') ->
  ts = w_now w / 1000000000 -> 0 <= ts < 2 ^ 32 ->
  validate_nonce now nonce secret max_age = (Int.sat_sub now ts <? max_age).
Proof.
  unfold generate_nonce. unfold unix_secs at 1. rewrite bind_gets. intros E -> Hts.
  set (ts := w_now w / 1000000000) in *.
  destruct (total_random_hex 8 w) as (hex & w1 & Eh). rewrite (bind_val _ _ _ _ _ Eh) in E.
  pose proof (random_hex_length _ _ _ _ Eh) as Hlen. cbv [mret M_ret] in E. simplify_eq.
  unfold make_nonce, Int.wrap_u32. rewrite Z.mod_small by done.
  set (data := Str.show_hex_pad 8 ts ++ hex).
  assert (length (Str.show_hex_pad 8 ts) = 8%nat) as H8 by by apply Str.show_hex_pad_length.
  assert (length data = 24%nat) as H24 by (unfold data; rewrite length_app; lia).
  change (data ++ ?x :: ?y) with (data ++ [x] ++ y). rewrite validate_nonce_mac by done.
  unfold data. rewrite take_app_length' by done.
  rewrite Str.parse_show_hex_pad; [done|done|]. unfold Int.u64_max. lia.
Qed.
End nonces.

(** ** The registration table *)

Lemma moves_udp_send R `{!IoFrame R} text addr :
  (forall v w, R w (set_outbox v w)) -> moves R (udp_send text addr).
Proof. intros Ho. unfold udp_send, emit. solve_moves. apply moves_modify. intros. apply Ho. Qed.

Lemma notify_status_change_total cfg u d st : total (notify_status_change cfg u d st).
Proof.
  unfold notify_status_change, notify_one, set_sub_cseq, unix_secs.
  apply total_bind; [auto with total|]. intros [rows|]; [|auto with total].
  apply total_for_each. intros [sub row]. apply total_bind; [auto with total|]. intros _.
  destruct (parse_addr _); auto 10 with total.
Qed.

Lemma notify_status_change_keeps cfg u d st :
  moves (same w_registrations) (notify_status_change cfg u d st).
Proof.
  unfold notify_status_change, notify_one, set_sub_cseq, unix_secs. solve_moves.
  apply moves_udp_send; [apply _|done].
Qed.

Section register.
Context `{!Digests} (cfg : Config) (secret : str).
Implicit Types (msg : SipMessage) (src : SocketAddr).

Lemma unauthorized_keeps msg domain :
  moves (same w_registrations) (unauthorized_response secret msg domain).
Proof. unfold unauthorized_response, generate_nonce. solve_moves. Qed.

Lemma reject_register_keeps msg src u d :
  moves (same w_registrations) (reject_register cfg secret msg src u d).
Proof.
  unfold reject_register, db_persist_event, db_persist_acl_ban. solve_moves; [moves_unfold|].
  apply unauthorized_keeps.
Qed.

(** After authentication only the account's own binding can change. *)
Lemma process_registration_keeps msg src u k :
  k <> (u, sip_domain cfg) ->
  moves (same (fun w => w_registrations w !! k)) (process_registration cfg msg src u).
Proof.
  intros Hk. unfold process_registration, enqueue_webhook, json_rows, unix_secs.
  assert (forall st, moves (same (fun w => w_registrations w !! k))
            (notify_status_change cfg u (sip_domain cfg) st)) as Hn.
  { intros st w. unfold same. by rewrite (notify_status_change_keeps cfg u (sip_domain cfg) st w). }
  solve_moves; try apply Hn; apply moves_modify; intros w; unfold same; simpl;
    [by rewrite lookup_delete_ne|by rewrite lookup_insert_ne].
Qed.

Definition blocked_now (w : World) (source_ip : str) : bool :=
  (is_blocked (w_now w) source_ip (w_guard w)).1.

(** The request [msg] proves that it comes from the account [username]. *)
Definition authenticated (w : World) msg src : Prop :=
  exists auth params ha1 enabled,
    authorization msg = Some auth /\ parse_auth_params auth = Done params /\
    validate_nonce (w_now w / 1000000000) (param params "nonce") secret
      (nonce_max_age_secs cfg) = true /\
    account_row w (register_username msg) (sip_domain cfg) = Some (ha1, enabled) /\
    enabled <> 0 /\ ha1 <> [] /\ param params "response" = expected_response params ha1 "REGISTER".

Lemma credentials_ok_Some row params :
  credentials_ok row params = true ->
  exists ha1 enabled, row = Some (ha1, enabled) /\ enabled <> 0 /\ ha1 <> [] /\
    param params "response" = expected_response params ha1 "REGISTER".
Proof.
  unfold credentials_ok, verify_digest_with_ha1. intros Hc. destruct row as [[ha1 en]|]; [|done].
  bool_simpl. exists ha1, en. split_and!; [done..| |done]. by destruct ha1.
Qed.

Lemma guard_is_blocked_run source_ip w :
  exists g, guard_is_blocked source_ip w = (Val (blocked_now w source_ip), set_guard g w).
Proof.
  unfold guard_is_blocked, blocked_now. destruct (is_blocked _ _ _) as [b g]. by exists g.
Qed.

(** The registration table changes only for a source that is not blocked and a
    request that carries a fresh nonce of this server and the digest of an enabled
    account's credentials; and then only the binding of that very account changes.  Every
    other REGISTER leaves the table as it was, whatever fails on the way. *)
Lemma register_requires_credentials msg src w :
  w_registrations (handle_register cfg secret msg src w).2 = w_registrations w \/
  (blocked_now w (show_ip (ip src)) = false /\ authenticated w msg src /\
   forall k, k <> (register_username msg, sip_domain cfg) ->
     w_registrations (handle_register cfg secret msg src w).2 !! k = w_registrations w !! k).
Proof.
  unfold handle_register. destruct (Str.is_empty _); [by left|].
  destruct (guard_is_blocked_run (show_ip (ip src)) w) as [g Hg].
  rewrite (bind_val _ _ _ _ _ Hg).
  destruct (blocked_now _ _) eqn:Hb; [by left|].
  destruct (authorization msg) as [auth|] eqn:Ea; [|left; by rewrite unauthorized_keeps].
  destruct (parse_auth_params auth) as [params|] eqn:Ep; [|by left].
  unfold unix_secs. rewrite !bind_gets. cbn [w_now set_guard].
  destruct (validate_nonce _ _ _ _) eqn:Ev; cbn [negb];
    [|left; by rewrite reject_register_keeps].
  destruct (query_gets_cases (fun w => account_row w (register_username msg) (sip_domain cfg))
    (set_guard g w)) as [v [Hq|[e Hq]]];
    [rewrite (bind_val _ _ _ _ _ Hq)|rewrite (bind_fail _ _ _ _ _ Hq); by left].
  destruct (credentials_ok _ params) eqn:Ec; cbn [negb];
    [|left; by rewrite reject_register_keeps].
  right. split_and!; [done| |].
  - apply credentials_ok_Some in Ec as (ha1 & en & Hrow & Hen & Hha & Hd).
    by exists auth, params, ha1, en.
  - intros k Hk. unfold db_persist_event.
    match goal with |- w_registrations (?m ?w1).2 !! k = _ =>
      assert (moves (same (fun w => w_registrations w !! k)) m) as Hm end.
    { solve_moves; [moves_unfold|]. by apply process_registration_keeps. }
    by etrans; [apply (Hm (set_faults v (set_guard g w)))|].
Qed.

(** What an authenticated REGISTER asks for. *)
Definition unregisters msg : bool :=
  let contact := default "*" (Message.contact msg) in
  bool_decide (Str.trim contact = "*") || (register_expires cfg msg contact =? 0).

Definition new_binding (w : World) msg src : Registration :=
  let contact := default "*" (Message.contact msg) in
  {| contact_uri := routable_contact_uri contact (register_username msg) src;
     reg_user_agent := default "" (user_agent msg);
     reg_expires_at := w_now w / 1000000000 + register_expires cfg msg contact;
     reg_source_ip := show_ip (ip src); reg_source_port := port src |}.

Definition register_reply msg src : str :=
  let contact := default "*" (Message.contact msg) in
  if unregisters msg then build (base_response msg 200 "OK")
  else build (builder_header (base_response msg 200 "OK") "Contact"
    ("<" ++ routable_contact_uri contact (register_username msg) src ++ ">;expires=" ++
     Str.show_dec (register_expires cfg msg contact))).

Definition registered_table (w : World) msg src : gmap (str * str) Registration :=
  let key := (register_username msg, sip_domain cfg) in
  if unregisters msg then delete key (w_registrations w)
  else <[key := new_binding w msg src]> (w_registrations w).

Lemma run_total {A B} (m : M A) (f : A -> M B) w (P : res B * World -> Prop) :
  total m -> (forall a w', (m w).2 = w' -> P (f a w')) -> P ((m ≫= f) w).
Proof.
  intros Hm HP. destruct (Hm w) as (a & w' & E). rewrite (bind_val _ _ _ _ _ E).
  apply HP. by rewrite E.
Qed.

Lemma process_registration_effect msg src w :
  w_faults w = [] ->
  let out := process_registration cfg msg src (register_username msg) w in
  out.1 = Val (register_reply msg src) /\ w_registrations out.2 = registered_table w msg src.
Proof.
  intros Hf. unfold process_registration, register_reply, registered_table.
  fold (unregisters msg). destruct (unregisters msg) eqn:Eu; cbv zeta.
  - erewrite bind_val; [|by rewrite query_ok].
    eapply (run_total _ _ _ (fun out => out.1 = _ /\ _ out.2 = _));
      [apply notify_status_change_total|].
    intros [] w' <-. split; [done|]. cbn. by rewrite notify_status_change_keeps.
  - unfold unix_secs. rewrite bind_gets. erewrite bind_val; [|by rewrite query_ok].
    eapply (run_total _ _ _ (fun out => out.1 = _ /\ _ out.2 = _));
      [apply notify_status_change_total|].
    intros [] w' <-. eapply (run_total _ _ _ (fun out => out.1 = _ /\ _ out.2 = _)).
    { apply total_ignore, safe_enqueue. }
    intros [] w'' <-. split; [done|]. cbn [mret M_ret snd]. unfold enqueue_webhook, json_rows.
    etrans; [refine ((_ : moves (same w_registrations) _) _); solve_moves|].
    by rewrite notify_status_change_keeps.
Qed.

Lemma authenticated_register_run msg src w :
  w_faults w = [] -> register_username msg <> [] ->
  blocked_now w (show_ip (ip src)) = false -> authenticated w msg src ->
  let out := handle_register cfg secret msg src w in
  out.1 = Val (register_reply msg src) /\ w_registrations out.2 = registered_table w msg src.
Proof.
  intros Hf Hu Hb (auth & params & ha1 & en & Ha & Hp & Hv & Hrow & Hen & Hha & Hd) out.
  unfold out, handle_register. destruct (register_username msg) as [|c u] eqn:Eu; [done|].
  cbn [Str.is_empty]. destruct (guard_is_blocked_run (show_ip (ip src)) w) as [g Hg].
  rewrite (bind_val _ _ _ _ _ Hg), Hb, Ha, Hp. unfold unix_secs. rewrite bind_gets.
  cbn [w_now set_guard]. rewrite Hv. cbn [negb].
  erewrite bind_val; [|by rewrite query_ok]. cbv beta.
  change (account_row (set_guard g w) ?u ?d) with (account_row w u d). rewrite Hrow.
  assert (credentials_ok (Some (ha1, en)) params = true) as ->.
  { unfold credentials_ok, verify_digest_with_ha1. rewrite bool_decide_eq_true_2 by done.
    destruct ha1; [done|]. by destruct (Z.eqb_spec en 0). }
  cbn [negb]. unfold guard_record_success. rewrite bind_modify.
  erewrite bind_val; [|by eapply ignore_ok; unfold db_persist_event; rewrite query_ok].
  rewrite <-Eu. match goal with |- (process_registration _ _ _ _ ?w1).1 = _ /\ _ =>
    exact (process_registration_effect msg src w1 Hf) end.
Qed.

(** The rows of the webhooks that want an event. *)
Lemma enqueue_webhook_run event payload w :
  w_faults w = [] -> exists d, ignore (enqueue_webhook event payload) w = (Val tt, set_deliveries d w).
Proof.
  intros Hf. rewrite enqueue_run by done. exists (w_deliveries (enqueued event payload w)). f_equal.
  unfold enqueued. case_match; [|by destruct w]. generalize (active_webhooks w). intros hs. clear.
  revert w. induction hs as [|h hs IH]; intros w; [by destruct w|]. cbn [foldl]. rewrite IH.
  case_bool_decide; by destruct w.
Qed.

(** Nobody follows the presence of [username]. *)
Definition unwatched (w : World) (username : str) : Prop :=
  forall k row, w_presence_subs w !! k = Some row -> k.1.2 <> username.

Lemma unwatched_notify w username domain status :
  unwatched w username -> w_faults w = [] -> notify_status_change cfg username domain status w = (Val tt, w).
Proof.
  intros Hun Hf. unfold notify_status_change.
  assert (watchers w username domain = []) as Hw.
  { unfold watchers. apply elem_of_nil_inv. intros [sub row] ([[[s t] d] row'] & Hin & Hx)%list_elem_of_omap.
    apply elem_of_map_to_list in Hin. specialize (Hun _ _ Hin). cbn in Hun, Hx.
    rewrite decide_False in Hx; [done|]. by intros [-> _]. }
  erewrite bind_val; [|unfold attempt; rewrite query_ok by done; reflexivity]. cbv beta iota. by rewrite Hw.
Qed.

(** All that an authenticated REGISTER changes when nobody watches its user: its row, the
    guard's bookkeeping without a new block, the security log and the webhook outbox. *)
Lemma authenticated_register_world msg src w :
  w_faults w = [] -> register_username msg <> [] -> unwatched w (register_username msg) ->
  blocked_now w (show_ip (ip src)) = false -> authenticated w msg src -> unregisters msg = false ->
  exists g e d, (handle_register cfg secret msg src w).2 =
      set_deliveries d (set_registrations (registered_table w msg src) (set_security_events e (set_guard g w))) /\
    blocks g = blocks (prune_expired_blocks (w_now w) (w_guard w)).
Proof.
  intros Hf Hu Hun Hb (auth & params & ha1 & en & Ha & Hp & Hv & Hrow & Hen & Hha & Hd) Hreg.
  unfold handle_register. destruct (register_username msg) as [|c u] eqn:Eu; [done|].
  cbn [Str.is_empty]. set (g := prune_expired_blocks (w_now w) (w_guard w)).
  assert (guard_is_blocked (show_ip (ip src)) w = (Val false, set_guard g w)) as Hg by (rewrite <-Hb; reflexivity).
  rewrite (bind_val _ _ _ _ _ Hg), Ha, Hp. unfold unix_secs. rewrite bind_gets.
  cbn [w_now set_guard]. rewrite Hv. cbn [negb].
  erewrite bind_val; [|by rewrite query_ok]. cbv beta.
  change (account_row (set_guard g w) ?u ?d) with (account_row w u d). rewrite Hrow.
  assert (credentials_ok (Some (ha1, en)) params = true) as ->.
  { unfold credentials_ok, verify_digest_with_ha1. rewrite bool_decide_eq_true_2 by done.
    destruct ha1; [done|]. by destruct (Z.eqb_spec en 0). }
  cbn [negb]. unfold guard_record_success. rewrite bind_modify.
  erewrite bind_val; [|by eapply ignore_ok; unfold db_persist_event; rewrite query_ok].
  unfold process_registration, registered_table. cbv zeta. fold (unregisters msg). rewrite Hreg, Eu.
  unfold unix_secs. rewrite bind_gets. erewrite bind_val; [|by rewrite query_ok].
  erewrite bind_val; [|by apply unwatched_notify].
  edestruct enqueue_webhook_run as [d Hq]; [|erewrite bind_val; [|exact Hq]]; [done|].
  eexists _, _, d. split; [cbn; unfold new_binding; rewrite Eu; reflexivity|done].
Qed.

(** An authenticated REGISTER of a source that is not blocked, on a database that
    answers, gets [200 OK] (with the contact the server will route to and the granted
    lifetime) and stores exactly the account's binding, or removes it when the contact is
    [*] or the lifetime is zero. *)
Theorem register_effect msg src w :
  w_faults w = [] -> register_username msg <> [] ->
  blocked_now w (show_ip (ip src)) = false -> authenticated w msg src ->
  let out := handle_register cfg secret msg src w in
  out.1 = Val (register_reply msg src) /\ w_registrations out.2 = registered_table w msg src.
Proof. apply authenticated_register_run. Qed.
End register.

(** ** Examples *)

Definition sample_nonce : str :=
  @make_nonce toy_digests "s3cret" 1699999990 "0123456789abcdef".

Definition sample_params : gmap str str :=
  {[ "username" := "alice"; "nonce" := sample_nonce; "uri" := "sip:sip.example.com" ]}.

Definition sample_register : SipMessage := message_of (render
  "REGISTER sip:sip.example.com SIP/2.0"
  [("Via", "SIP/2.0/UDP 198.51.100.7:5062;branch=z9hG4bK1"); ("From", "<sip:alice@sip.example.com>;tag=1");
   ("To", "<sip:alice@sip.example.com>"); ("Call-ID", "r1"); ("CSeq", "2 REGISTER");
   ("Contact", "<sip:alice@10.0.0.9:5062;transport=udp>"); ("Expires", "600");
   ("Authorization", "Digest username=" ++ quoted "alice" ++ ", nonce=" ++ quoted sample_nonce ++
      ", uri=" ++ quoted "sip:sip.example.com" ++ ", response=" ++
      quoted (@expected_response toy_digests sample_params "ha1-alice" "REGISTER"))] "").

Lemma validate_nonce_spec_witness :
  @validate_nonce toy_digests 1700000000 sample_nonce "s3cret" 300 = true.
Proof.
  apply (@validate_nonce_spec toy_digests toy_digests_laws).
  exists (take 24 sample_nonce), 1699999990. split_and!; by_decide.
Defined.

Lemma generated_nonce_valid_witness :
  exists nonce w', @generate_nonce toy_digests "s3cret" sample_world = (Val nonce, w') /\
    @validate_nonce toy_digests 1700000299 nonce "s3cret" 300 = true /\
    @validate_nonce toy_digests 1700000300 nonce "s3cret" 300 = false.
Proof.
  exists (@make_nonce toy_digests "s3cret" 1700000000 (replicate 16 "0"%char)), sample_world.
  assert (@generate_nonce toy_digests "s3cret" sample_world = (Val (@make_nonce toy_digests
    "s3cret" 1700000000 (replicate 16 "0"%char)), sample_world)) as E by (vm_compute; reflexivity).
  split; [exact E|].
  assert (0 <= 1700000000 < 2 ^ 32) as Hts by lia.
  assert (1700000000 = w_now sample_world / 1000000000) as Hnow by by_decide.
  split.
  - etrans; [exact (@generated_nonce_valid toy_digests toy_digests_laws "s3cret" sample_world _
      sample_world 1700000000 1700000299 300 E Hnow Hts)|by_decide].
  - etrans; [exact (@generated_nonce_valid toy_digests toy_digests_laws "s3cret" sample_world _
      sample_world 1700000000 1700000300 300 E Hnow Hts)|by_decide].
Defined.

Lemma register_requires_credentials_witness :
  w_registrations (@handle_register toy_digests sample_config "s3cret" sample_register
    sample_src sample_world).2 !! ("bob", "sip.example.com") = None.
Proof.
  destruct (@register_requires_credentials toy_digests sample_config "s3cret" sample_register
    sample_src sample_world) as [Hr|(_ & _ & Hr)].
  - rewrite Hr. by_decide.
  - rewrite Hr by by_decide. by_decide.
Defined.

Lemma sample_authenticated :
  @authenticated toy_digests sample_config "s3cret" sample_world sample_register sample_src.
Proof.
  exists (default [] (authorization sample_register)),
    (done_or ∅ (parse_auth_params (default [] (authorization sample_register)))), "ha1-alice", 1.
  split_and!; [by_decide|apply is_done_eq; by_decide|by_decide..].
Qed.

Lemma register_effect_witness :
  w_registrations (@handle_register toy_digests sample_config "s3cret" sample_register
    sample_src sample_world).2 !! ("alice", "sip.example.com") =
  Some {| contact_uri := "sip:alice@198.51.100.7:5062;transport=udp"; reg_user_agent := "";
          reg_expires_at := 1700000600; reg_source_ip := "198.51.100.7";
          reg_source_port := 5062 |}.
Proof.
  destruct (@register_effect toy_digests sample_config "s3cret" sample_register sample_src
    sample_world) as [_ Hr]; [done|by_decide|by_decide|apply sample_authenticated|].
  rewrite Hr. vm_compute. reflexivity.
Defined.
