(* ===== verification/Accounts.v ===== *)
(** * SIP accounts: [backend/src/api/accounts.rs]

    Creating, changing and deleting accounts, with the cascades of the foreign keys; the table is
    the one the registrar authenticates against. *)

From S2P Require Import Prelude RustStr Net Message Response SecurityGuard Acl Storage Sdp Media.
From S2P Require Import World Voicemail HttpApi Registrar Conference.

Open Scope str_scope.
Open Scope Z_scope.
Open Scope api_scope.

(** ** Names *)

Definition SIP_USERNAME_RULE_MESSAGE : str := "SIP username must be a 3-6 digit extension".

Definition validate_sip_username (username : str) : bool :=
  (3 <=? Str.len username) && (Str.len username <=? 6) && forallb Str.is_digit username.

(** ** The table *)

Definition account_ids (w : World) : list Z :=
  map (fun kv => ac_id kv.2) (map_to_list (w_accounts w)).

(** [WHERE id = ?] *)
Definition account_by_id (id : Z) (w : World) : option ((str * str) * Account) :=
  find_first (fun kv => ac_id kv.2 =? id) (map_to_list (w_accounts w)).

Definition is_box_of (key : str * str) (b : VoicemailBox) : bool :=
  bool_decide ((vb_username b, vb_domain b) = key).

Definition set_box_domain (domain : str) (b : VoicemailBox) : VoicemailBox :=
  {| vb_id := vb_id b; vb_username := vb_username b; vb_domain := domain;
     vb_enabled := vb_enabled b; vb_no_answer_secs := vb_no_answer_secs b;
     vb_max_message_secs := vb_max_message_secs b; vb_max_messages := vb_max_messages b;
     vb_greeting_storage_key := vb_greeting_storage_key b; vb_pin_hash := vb_pin_hash b;
     vb_email := vb_email b |}.

(** [ON UPDATE CASCADE]: the mailboxes follow their account. *)
Definition move_boxes (old : str * str) (domain : str) (w : World) : World :=
  set_voicemail_boxes
    (map (fun b => if is_box_of old b then set_box_domain domain b else b) (w_voicemail_boxes w)) w.

(** [ON DELETE CASCADE]: mailboxes, their messages and their greetings go. *)
Definition drop_boxes (key : str * str) (w : World) : World :=
  let gone := map vb_id (filter (fun b => is_box_of key b = true) (w_voicemail_boxes w)) in
  set_greetings (filter (fun g => gr_box_id g ∉ gone) (w_greetings w))
    (set_voicemail_messages (filter (fun m => vm_box_id m ∉ gone) (w_voicemail_messages w))
      (set_voicemail_boxes (filter (fun b => is_box_of key b = false) (w_voicemail_boxes w)) w)).

(** ** Handlers *)

Record CreateAccount := {
  nc_username : str;
  nc_password : str;
  nc_display_name : option str;
  nc_domain : option str;
}.

Record UpdateAccount := {
  up_password : option str;
  up_display_name : option str;
  up_domain : option str;
  up_enabled : option Z;
}.

(** What a row of the list shows of the calls of an account. *)
Definition calls_of (key : str * str) (w : World) : list CallRow :=
  let aor := key.1 ++ "@" ++ key.2 in
  filter (fun c => call_caller c = aor \/ call_callee c = aor) (map snd (map_to_list (w_calls w))).

Definition last_call_at (key : str * str) (w : World) : option Z :=
  foldr (fun c m => Some (from_option (Z.max (call_started_at c)) (call_started_at c) m)) None
    (calls_of key w).

(** [ORDER BY created_at DESC]: the ids count up with the creations. *)
Definition created_after (a b : (str * str) * Account) : Prop := ac_id b.2 <= ac_id a.2.

#[export] Instance created_after_dec : RelDecision created_after.
Proof. intros a b. unfold created_after. apply _. Defined.

Definition list_accounts : M (Api (list ((str * str) * Account * option Z * Z))) :=
  db (gets (fun w => map (fun kv => (kv.1, kv.2, last_call_at kv.1 w,
                                     Z.of_nat (length (calls_of kv.1 w))))
                         (merge_sort created_after (map_to_list (w_accounts w))))).

Section accounts.
Context (cfg : Config) `{Digests} `{BcryptHash}.

(** MD5(username:realm:password) *)
Definition compute_ha1 (username password : str) : str :=
  md5_hex (username ++ ":" ++ auth_realm cfg ++ ":" ++ password).

Definition new_account (id : Z) (bd : CreateAccount) (password_hash : str) : Account :=
  {| ac_id := id; ac_password_hash := password_hash; ac_display_name := nc_display_name bd;
     ac_ha1_hash := Some (compute_ha1 (nc_username bd) (nc_password bd)); ac_enabled := 1 |}.

Definition create_account (bd : CreateAccount) : M (Api Z) :=
  if Str.is_empty (nc_username bd) || Str.is_empty (nc_password bd)
  then api_err 400 "username and password are required"
  else if negb (validate_sip_username (nc_username bd))
  then api_err 400 SIP_USERNAME_RULE_MESSAGE
  else
    password_hash <-? hash_password (nc_password bd);
    let domain := default (auth_realm cfg) (nc_domain bd) in
    b ← fault;
    if b : bool then api_err 500 "database error"
    else
      taken ← gets (fun w => bool_decide (is_Some (w_accounts w !! (nc_username bd, domain))));
      if taken : bool then api_err 409 "Account already exists for this username and domain"
      else
        id ← gets (fun w => next_id (account_ids w));
        _ ← modify (fun w => set_accounts
              (<[(nc_username bd, domain) := new_account id bd password_hash]> (w_accounts w)) w);
        mret (inl id).

(** The row after [UPDATE .. SET x = COALESCE(?, x)]. *)
Definition updated_account (bd : UpdateAccount) (hashes : option (str * str)) (a : Account) : Account :=
  {| ac_id := ac_id a; ac_password_hash := coalesce (fst <$> hashes) (ac_password_hash a);
     ac_display_name := coalesce_opt (up_display_name bd) (ac_display_name a);
     ac_ha1_hash := coalesce_opt (snd <$> hashes) (ac_ha1_hash a);
     ac_enabled := coalesce (up_enabled bd) (ac_enabled a) |}.

(** [UPDATE sip_accounts .. WHERE id = ?]: the unique key may refuse the new domain. *)
Definition update_account_row (id : Z) (bd : UpdateAccount) (hashes : option (str * str)) : M unit :=
  row ← gets (account_by_id id);
  match row with
  | None => mret tt
  | Some ((username, domain), a) =>
      let domain' := coalesce (up_domain bd) domain in
      clash ← gets (fun w => bool_decide (domain' <> domain /\
                                          is_Some (w_accounts w !! (username, domain'))));
      if clash : bool then fail "duplicate entry"
      else modify (fun w => move_boxes (username, domain) domain'
             (set_accounts (<[(username, domain') := updated_account bd hashes a]>
                (delete (username, domain) (w_accounts w))) w))
  end.

(** The hashes of a new password. *)
Definition new_hashes (username : str) (password : option str) : M (Api (option (str * str))) :=
  match password with
  | None => mret (inl None)
  | Some p =>
      h <-? hash_password p;
      mret (inl (Some (h, compute_ha1 username p)))
  end.

Definition restore_accounts (w w' : World) : World :=
  set_voicemail_boxes (w_voicemail_boxes w) (set_accounts (w_accounts w) w').

Definition update_account (id : Z) (bd : UpdateAccount) : M (Api unit) :=
  row <-? db (gets (account_by_id id));
  match row with
  | None => api_err 404 "Account not found"
  | Some ((username, _), _) =>
      hashes <-? new_hashes username (up_password bd);
      transaction restore_accounts (query (update_account_row id bd hashes))
  end.

(** [DELETE FROM sip_accounts WHERE id = ?]; was there a row? *)
Definition delete_account_row (id : Z) : M bool := fun w =>
  match account_by_id id w with
  | Some (key, _) => (Val true, drop_boxes key (set_accounts (delete key (w_accounts w)) w))
  | None => (Val false, w)
  end.

Definition delete_account (id : Z) : M (Api unit) :=
  found <-? db (delete_account_row id);
  if negb found then api_err 404 "Account not found" else mret (inl tt).
End accounts.

(** ** Facts *)

(** The keys of the mailboxes. *)
Definition box_keys (w : World) : list (str * str) :=
  map (fun b => (vb_username b, vb_domain b)) (w_voicemail_boxes w).

(** Every account is an extension of three to six digits, ids are unique, and every mailbox
    belongs to an account, of its own. *)
Record directory (accounts : gmap (str * str) Account) (boxes : list (str * str)) : Prop := {
  di_names k a : accounts !! k = Some a -> validate_sip_username k.1 = true;
  di_ids k1 k2 a1 a2 : accounts !! k1 = Some a1 -> accounts !! k2 = Some a2 ->
    ac_id a1 = ac_id a2 -> k1 = k2;
  di_owners k : k ∈ boxes -> is_Some (accounts !! k);
  di_boxes : NoDup boxes;
}.

Definition accounts_ok (w : World) : Prop := directory (w_accounts w) (box_keys w).

Lemma account_by_id_Some id w k a :
  account_by_id id w = Some (k, a) -> w_accounts w !! k = Some a /\ ac_id a = id.
Proof.
  unfold account_by_id. intros [Hin Hid]%find_first_Some. apply elem_of_map_to_list in Hin.
  split; [done|by apply Z.eqb_eq].
Qed.

Lemma account_id_known w k a : w_accounts w !! k = Some a -> ac_id a ∈ account_ids w.
Proof.
  intros Hk. unfold account_ids. apply elem_of_map. exists (k, a). split; [done|].
  by apply elem_of_map_to_list.
Qed.

Lemma move_boxes_keys old d w :
  box_keys (move_boxes old d w) = map (fun k => if decide (k = old) then (k.1, d) else k) (box_keys w).
Proof.
  unfold box_keys, move_boxes. cbn. rewrite !map_map. apply map_ext. intros b. unfold is_box_of.
  case_bool_decide; case_decide; done.
Qed.

(** Renaming one key to one that is free. *)
Lemma NoDup_rename (old : str * str) d ks :
  NoDup ks -> (d = old.2 \/ (old.1, d) ∉ ks) ->
  NoDup (map (fun k => if decide (k = old) then (k.1, d) else k) ks).
Proof.
  intros Hn Hd. apply NoDup_fmap_2_strong; [|done]. intros x y Hx Hy Hxy.
  destruct Hd as [Hd|Hd].
  - destruct old as [u d0]. cbn in Hd. subst d0.
    repeat case_decide; subst; cbn in *; congruence.
  - repeat case_decide; subst; cbn in *; congruence.
Qed.

Section facts.
Context (cfg : Config) `{!Digests} `{!BcryptHash}.

Lemma create_account_inv bd w id w1 :
  create_account cfg bd w = (Val (inl id), w1) ->
  validate_sip_username (nc_username bd) = true /\
  exists h v r, let key := (nc_username bd, default (auth_realm cfg) (nc_domain bd)) in
    w_accounts w !! key = None /\ id = next_id (account_ids w) /\
    w1 = set_accounts (<[key := new_account cfg id bd h]> (w_accounts w)) (set_faults v (set_random r w)).
Proof.
  unfold create_account. case_match; [done|]. destruct (validate_sip_username _); [|done].
  cbn [negb]. intros (h & w2 & Hh & Hrest)%api_bind_inv. split; [done|].
  apply hash_password_inv in Hh as (salt & r & _ & ->). exists h. cbv zeta in Hrest |- *.
  destruct (fault_run (set_random r w)) as (b & v & E). rewrite (bind_val _ _ _ _ _ E) in Hrest.
  destruct b; [done|]. rewrite bind_gets in Hrest.
  case_bool_decide as Hfree; [done|]. rewrite bind_gets, bind_modify in Hrest.
  cbv [mret M_ret] in Hrest. inversion Hrest; subst. exists v, r. split_and!; [|done..].
  by apply eq_None_not_Some.
Qed.

Lemma insert_account_ok w key id bd h :
  accounts_ok w -> validate_sip_username key.1 = true -> w_accounts w !! key = None ->
  id = next_id (account_ids w) ->
  accounts_ok (set_accounts (<[key := new_account cfg id bd h]> (w_accounts w)) w).
Proof.
  intros [Hn Hi Ho Hb] Hv Hfree ->. split; cbn.
  - intros k a. rewrite lookup_insert_Some. naive_solver.
  - intros k1 k2 a1 a2. rewrite !lookup_insert_Some.
    assert (forall k a, w_accounts w !! k = Some a -> ac_id a <> next_id (account_ids w)) as Hfresh.
    { intros k a Hk%account_id_known%next_id_gt. lia. }
    intros [[<- <-]|[H1 E1]] [[<- <-]|[H2 E2]] Hid; cbn in *; [done|..].
    + by apply Hfresh in E2.
    + by apply Hfresh in E1.
    + by eapply Hi.
  - intros k Hk. apply lookup_insert_is_Some'. right. by apply Ho.
  - done.
Qed.

Lemma create_account_ok bd : moves (keeps accounts_ok) (create_account cfg bd).
Proof.
  unfold create_account, api_err. case_match; [apply moves_ret|].
  destruct (validate_sip_username _) eqn:Hv; cbn [negb]; [|apply moves_ret].
  apply moves_api_bind; [apply moves_hash_password|]. intros h. cbv zeta.
  apply moves_bind; [apply moves_fault|]. intros []; [apply moves_ret|]. intros w Hok.
  rewrite bind_gets. case_bool_decide as Hfree; [done|]. rewrite bind_gets, bind_modify.
  apply insert_account_ok; [done..| |done]. by apply eq_None_not_Some.
Qed.

(** A row that moves to a free key and keeps its id. *)
Lemma update_account_ok u d d' a a' w :
  accounts_ok w -> w_accounts w !! (u, d) = Some a -> ac_id a' = ac_id a ->
  (d' = d \/ w_accounts w !! (u, d') = None) ->
  accounts_ok (move_boxes (u, d) d'
    (set_accounts (<[(u, d') := a']> (delete (u, d) (w_accounts w))) w)).
Proof.
  intros [Hn Hi Ho Hb] Ha Hid Hd. unfold accounts_ok. rewrite move_boxes_keys. cbn.
  change (box_keys (set_accounts _ w)) with (box_keys w). split.
  - intros k b. rewrite lookup_insert_Some, lookup_delete_Some. intros [[<- <-]|(_ & _ & Hk)].
    + by apply (Hn _ _ Ha).
    + by apply (Hn _ _ Hk).
  - intros k1 k2 a1 a2. rewrite !lookup_insert_Some, !lookup_delete_Some.
    intros [[<- <-]|(_ & H1 & E1)] [[<- <-]|(_ & H2 & E2)] Hids; [done|..].
    + rewrite Hid in Hids. by apply (Hi _ _ _ _ Ha) in E2.
    + rewrite Hid in Hids. by apply (Hi _ _ _ _ E1) in Ha.
    + by eapply Hi.
  - intros k' (k & -> & Hk)%elem_of_map. apply lookup_insert_is_Some'. case_decide as Hkd.
    + left. by rewrite Hkd.
    + right. rewrite lookup_delete_ne by done. by apply Ho.
  - apply NoDup_rename; [done|]. cbn. destruct Hd as [->|Hd]; [by left|]. right.
    intros Hk%Ho. rewrite Hd in Hk. by destruct Hk.
Qed.

Lemma update_account_row_ok id bd hashes :
  moves (keeps accounts_ok) (update_account_row id bd hashes).
Proof.
  intros w Hok. unfold update_account_row. rewrite bind_gets.
  destruct (account_by_id id w) as [[[u d] a]|] eqn:E; [|done]. cbv zeta. rewrite bind_gets.
  apply account_by_id_Some in E as [Ha _]. case_bool_decide as Hc; [done|].
  apply (update_account_ok u d _ a); [done|done|done|].
  destruct (decide (coalesce (up_domain bd) d = d)) as [->|Hne]; [by left|]. right.
  apply eq_None_not_Some. naive_solver.
Qed.

Lemma update_account_keeps id bd : moves (keeps accounts_ok) (update_account cfg id bd).
Proof.
  unfold update_account, new_hashes, api_err. solve_api.
  apply moves_transaction; [apply moves_query, update_account_row_ok|]. by intros w w' Hok.
Qed.

Lemma drop_boxes_keys key w : box_keys (drop_boxes key w) = filter (fun k => k <> key) (box_keys w).
Proof.
  unfold box_keys, drop_boxes. cbn. induction (w_voicemail_boxes w) as [|b l IH]; [done|].
  rewrite filter_cons. cbn [map]. rewrite filter_cons. unfold is_box_of at 1 2.
  repeat case_decide; cbn [map]; rewrite ?IH; try done; by case_bool_decide.
Qed.

Lemma delete_account_keeps id : moves (keeps accounts_ok) (delete_account id).
Proof.
  unfold delete_account, api_err. solve_api. intros w [Hn Hi Ho Hb]. unfold delete_account_row.
  destruct (account_by_id id w) as [[key a]|] eqn:E; [|by split]. unfold accounts_ok. cbn [snd].
  rewrite drop_boxes_keys. cbn. change (box_keys (set_accounts _ w)) with (box_keys w). split.
  - intros k b [_ Hk]%lookup_delete_Some. by eapply Hn.
  - intros k1 k2 a1 a2 [_ H1]%lookup_delete_Some [_ H2]%lookup_delete_Some. by eapply Hi.
  - intros k [Hne Hk]%list_elem_of_filter. rewrite lookup_delete_ne by done. by apply Ho.
  - by apply NoDup_filter.
Qed.
End facts.

(** A dialled number is an account or a conference, never both. *)
Lemma account_not_conference username :
  validate_sip_username username = true -> validate_conference_extension username = false.
Proof.
  unfold validate_sip_username, validate_conference_extension, Str.len. intros Hv. bool_simpl.
  apply andb_false_iff. left. apply Nat.eqb_neq. lia.
Qed.

(** ** Theorems *)

Section provisioning.
Context (cfg : Config) (secret : str) `{!Digests, !DigestLaws} `{!BcryptHash}.

(** The digest a phone computes from its user's password and the realm of the challenge. *)
Definition phone_response (params : gmap str str) (username password : str) : str :=
  expected_response params (md5_hex (username ++ ":" ++ sip_domain cfg ++ ":" ++ password)) "REGISTER".

(** A REGISTER of [username] with [password] under a nonce the server accepts. *)
Definition registers_with (w : World) (msg : SipMessage) (username password : str) : Prop :=
  register_username msg = username /\
  exists auth params, authorization msg = Some auth /\ parse_auth_params auth = Done params /\
    validate_nonce (w_now w / 1000000000) (param params "nonce") secret
      (nonce_max_age_secs cfg) = true /\
    param params "response" = phone_response params username password.

Lemma known_account_authenticated w msg src username password a :
  registers_with w msg username password -> auth_realm cfg = sip_domain cfg ->
  w_accounts w !! (username, sip_domain cfg) = Some a -> ac_enabled a = 1 ->
  ac_ha1_hash a = Some (compute_ha1 cfg username password) ->
  authenticated cfg secret w msg src.
Proof.
  intros (Hu & auth & params & Ha & Hp & Hv & Hr) Hrealm Hacc Hen Hha.
  exists auth, params, (compute_ha1 cfg username password), 1. split_and!; try done.
  - unfold account_row. rewrite Hu, Hacc. cbn. by rewrite Hha, Hen.
  - intros Hnil. pose proof (md5_hex_length (username ++ ":" ++ auth_realm cfg ++ ":" ++ password)) as Hl.
    unfold compute_ha1 in Hnil. by rewrite Hnil in Hl.
  - rewrite Hr. unfold phone_response, compute_ha1. by rewrite Hrealm.
Qed.

(** C9: an account that was created can register.  When the realm of the configuration is the
    SIP domain (the registrar challenges with the domain, the account stores the digest of the
    realm), creating an account in that domain makes the very next REGISTER of a phone that
    knows the password succeed: it is answered [200 OK] and its contact is stored. *)
Theorem created_account_registers bd w id w1 msg src :
  create_account cfg bd w = (Val (inl id), w1) ->
  default (auth_realm cfg) (nc_domain bd) = sip_domain cfg -> auth_realm cfg = sip_domain cfg ->
  registers_with w1 msg (nc_username bd) (nc_password bd) ->
  w_faults w1 = [] -> blocked_now w1 (show_ip (ip src)) = false ->
  let out := handle_register cfg secret msg src w1 in
  out.1 = Val (register_reply cfg msg src) /\ w_registrations out.2 = registered_table cfg w1 msg src.
Proof.
  intros Hc Hdom Hrealm Hreg Hf Hb.
  apply create_account_inv in Hc as (Hv & h & v & r & Hfree & _ & Hw1). rewrite Hdom in Hw1.
  apply authenticated_register_run; [done| |done|].
  - destruct Hreg as [-> _]. intros Hnil. by rewrite Hnil in Hv.
  - apply (known_account_authenticated _ _ _ _ _ (new_account cfg id bd h) Hreg); [done| |done..].
    rewrite Hw1. cbn. by rewrite lookup_insert_eq.
Qed.
End provisioning.

(** ** Examples *)

Definition new_1001 : CreateAccount :=
  {| nc_username := "1001"; nc_password := "pw"; nc_display_name := None; nc_domain := None |}.

Definition params_1001 : gmap str str :=
  {[ "username" := "1001"; "nonce" := sample_nonce; "uri" := "sip:sip.example.com" ]}.

Definition register_1001 : SipMessage := message_of (render
  "REGISTER sip:sip.example.com SIP/2.0"
  [("Via", "SIP/2.0/UDP 198.51.100.7:5062;branch=z9hG4bK1"); ("From", "<sip:1001@sip.example.com>;tag=1");
   ("To", "<sip:1001@sip.example.com>"); ("Call-ID", "r1"); ("CSeq", "2 REGISTER");
   ("Contact", "<sip:1001@10.0.0.9:5062>"); ("Expires", "600");
   ("Authorization", "Digest username=" ++ quoted "1001" ++ ", nonce=" ++ quoted sample_nonce ++
      ", uri=" ++ quoted "sip:sip.example.com" ++ ", response=" ++
      quoted (@phone_response sample_config toy_digests params_1001 "1001" "pw"))] "").

Definition provisioned : World :=
  (@create_account sample_config toy_digests toy_bcrypt_hash new_1001 sample_world).2.

Lemma created_account_registers_witness :
  is_Some (w_registrations (@handle_register toy_digests sample_config "s3cret" register_1001
    sample_src provisioned).2 !! ("1001", "sip.example.com")).
Proof.
  destruct (@created_account_registers sample_config "s3cret" toy_digests toy_digests_laws
    toy_bcrypt_hash new_1001 sample_world 3 provisioned register_1001 sample_src) as [_ Hr];
    [vm_compute; reflexivity|done|done| |vm_compute; reflexivity|vm_compute; reflexivity|].
  - split; [by_decide|]. exists (default [] (authorization register_1001)),
      (done_or ∅ (parse_auth_params (default [] (authorization register_1001)))).
    split_and!; [by_decide|apply is_done_eq; by_decide|by_decide..].
  - rewrite Hr. vm_compute. eauto.
Defined.
