(* ===== verification/Frames.v ===== *)
(** * What the components leave alone

    The voicemail, the conferences, the presence server and the MWI notifier never touch the
    state of proxied calls; each frame below is one line, by unfolding the handler down to its
    reads and writes. *)

From S2P Require Import Prelude RustStr Net Message Response Forward SecurityGuard Acl Storage.
From S2P Require Import Sdp Media World Gateway VoicemailSdp VoicemailMedia NoAnswer Mwi.
From S2P Require Import Voicemail Presence ConferenceMedia Conference Registrar.

Open Scope Z_scope.

(** The state of accounts, registrations and proxied calls. *)
Definition core (w : World) :=
  (w_accounts w, w_registrations w, w_calls w, w_pending_dialogs w, w_active_dialogs w,
   w_pending_invites w, w_media_relay w, w_gateway w).

(** A frame for [f] is one for everything computed from [f]. *)
Lemma same_mono {A T U} (f : World -> T) (g : World -> U) (h : T -> U) (m : M A) :
  (forall w, g w = h (f w)) -> moves (same f) m -> moves (same g) m.
Proof. intros Hg Hm w. unfold same. rewrite !Hg. f_equal. apply Hm. Qed.

(** A write in the form [fun w => ..]: compute. *)
Ltac frame_write :=
  let w := fresh "w" in
  intros w; unfold same; cbv beta zeta; repeat case_match; simplify_eq/=; reflexivity.

Ltac head_of t := lazymatch t with ?f _ => head_of f | _ => t end.

(** Follow the handler; unfold what is neither a combinator nor a known frame. *)
Ltac solve_frame :=
  repeat first
    [ match goal with |- forall _, _ => intro end
    | moves_leaf
    | simple apply moves_bind | simple apply moves_query | simple apply moves_ignore
    | simple apply moves_attempt | simple apply moves_when | simple apply moves_for_each
    | progress cbv beta iota zeta
    | match goal with |- moves _ (match ?x with _ => _ end) => destruct x end
    | match goal with |- moves _ ?m => let h := head_of m in progress unfold h end
    | frame_write ].

(** ** Handlers with one answer *)

Definition returns {A} (m : M A) (a : A) : Prop := forall w, (m w).1 = Val a.

Lemma returns_ret {A} (a : A) : returns (mret a) a.
Proof. by intros w. Qed.

Lemma returns_bind {A B} (m : M A) (f : A -> M B) b :
  total m -> (forall a, returns (f a) b) -> returns (m ≫= f) b.
Proof.
  intros Hm Hf w. destruct (Hm w) as (a & w' & E). rewrite (bind_val _ _ _ _ _ E). apply Hf.
Qed.

(** Totality follows the shape of the handler; so does the single answer. *)
Lemma total_write (f : World -> World) : total (ignore (query (modify f))).
Proof. auto with total. Qed.

Ltac total_step :=
  first
    [ match goal with |- forall _, _ => intro end
    | simple apply total_ret | simple apply total_gets | simple apply total_modify
    | simple apply total_bind | simple apply total_when | simple apply total_for_each
    | simple apply total_attempt | simple apply total_ignore | simple apply total_random_hex
    | simple apply total_random_uint
    | simple apply safe_query | simple apply safe_fail | simple apply safe_fault
    | simple apply safe_udp_send | simple apply safe_for_each
    | progress cbv beta iota zeta
    | match goal with
      | |- total (match ?x with _ => _ end) => destruct x
      | |- safe (match ?x with _ => _ end) => destruct x
      | |- total ?m => let h := head_of m in progress unfold h
      | |- safe ?m => first [simple apply total_safe; solve [repeat total_step]
                            | simple apply safe_bind
                            | let h := head_of m in progress unfold h]
      end
    | let w := fresh "w" in intros w; cbv beta zeta; repeat case_match; simplify_eq/=; by eauto ].

Ltac solve_total := repeat total_step.

Ltac solve_returns :=
  repeat first
    [ match goal with |- forall _, _ => intro end
    | simple apply returns_ret
    | simple apply returns_bind; [solve [solve_total]|]
    | progress cbv beta iota zeta ].

Lemma lookup_enabled_box_ok u d w :
  w_faults w = [] -> lookup_enabled_box u d w = (Val (enabled_box u d w), w).
Proof.
  intros Hf. unfold lookup_enabled_box, attempt, mbind, M_bind. rewrite query_ok by done. cbn.
  by destruct (enabled_box u d w).
Qed.

Section frames.
Context (cfg : Config) `{!Digests, !HeaderOrder, !Bcrypt}.

Lemma lookup_enabled_box_core u d : moves (same core) (lookup_enabled_box u d).
Proof. solve_frame. Qed.

Lemma access_invite_core msg src : moves (same core) (handle_access_invite cfg msg src).
Proof. solve_frame. Qed.

Lemma delivery_invite_core msg callee : moves (same core) (handle_delivery_invite cfg msg callee).
Proof. solve_frame. Qed.

Lemma vm_ack_core msg : moves (same core) (vm_handle_ack msg).
Proof. solve_frame. Qed.
Lemma vm_bye_core msg : moves (same core) (vm_handle_bye msg).
Proof. solve_frame. Qed.
Lemma vm_cancel_core msg : moves (same core) (vm_handle_cancel msg).
Proof. solve_frame. Qed.
Lemma vm_info_core msg : moves (same core) (vm_handle_info cfg msg).
Proof. solve_frame. Qed.

Lemma mwi_subscribe_core msg src : moves (same core) (mwi_handle_subscribe cfg msg src).
Proof. solve_frame. Qed.

Lemma subscribe_core msg src : moves (same core) (handle_subscribe cfg msg src).
Proof. solve_frame. Qed.

Lemma conf_lookup_core e d : moves (same core) (lookup_room e d).
Proof. solve_frame. Qed.
Lemma conf_invite_core msg src room max : moves (same core) (conf_handle_invite cfg msg src room max).
Proof. solve_frame. Qed.
Lemma conf_bye_core msg : moves (same core) (conf_handle_bye msg).
Proof. solve_frame. Qed.
Lemma conf_info_core msg : moves (same core) (conf_handle_info msg).
Proof. solve_frame. Qed.
End frames.
