(* ===== verification/Mailboxes.v ===== *)
(** * Administration of mailboxes: [backend/src/api/voicemail.rs]

    Mailboxes, messages and greetings, with the validators of
    [backend/src/models/voicemail.rs]. *)

From S2P Require Import Prelude RustStr Net Message Response SecurityGuard Acl Storage Sdp Media.
From S2P Require Import World Mwi Voicemail HttpApi Conference Accounts Frames.

Open Scope str_scope.
Open Scope Z_scope.
Open Scope api_scope.

(** ** Validators *)

Definition VOICEMAIL_MAX_MESSAGE_SECS : Z := 1250.

Definition validate_voicemail_status (status : str) : result unit :=
  if bool_decide (status = VOICEMAIL_STATUS_NEW) || bool_decide (status = VOICEMAIL_STATUS_SAVED)
     || bool_decide (status = VOICEMAIL_STATUS_DELETED)
  then Ok tt else Err "voicemail status must be one of: new, saved, deleted".

Definition validate_enabled_flag (enabled : option Z) : result unit :=
  match enabled with
  | None => Ok tt
  | Some e => if (e =? 0) || (e =? 1) then Ok tt else Err "enabled must be 0 or 1"
  end.

Definition in_range (lo hi n : Z) : bool := (lo <=? n) && (n <=? hi).

Definition validate_box_limits (no_answer_secs max_message_secs max_messages : Z) : result unit :=
  if negb (in_range 1 600 no_answer_secs) then Err "no_answer_secs must be between 1 and 600"
  else if negb (in_range 1 VOICEMAIL_MAX_MESSAGE_SECS max_message_secs)
  then Err "max_message_secs must be between 1 and 1250"
  else if negb (in_range 1 10000 max_messages) then Err "max_messages must be between 1 and 10000"
  else Ok tt.

(** [validate(..).map_err(|m| (StatusCode::BAD_REQUEST, m.to_string()))?] *)
Definition validated (r : result unit) : M (Api unit) :=
  mret (match r with Ok _ => inl tt | Err e => inr (400, e) end).

(** ** Mailboxes *)

Record CreateVoicemailBox := {
  nb_username : str;
  nb_domain : option str;
  nb_enabled : option Z;
  nb_no_answer_secs : option Z;
  nb_max_message_secs : option Z;
  nb_max_messages : option Z;
  nb_email : option str;
}.

Record UpdateVoicemailBox := {
  ub_enabled : option Z;
  ub_no_answer_secs : option Z;
  ub_max_message_secs : option Z;
  ub_max_messages : option Z;
  ub_greeting_storage_key : option str;
  ub_email : option str;
}.

Definition box_by_id (id : Z) (w : World) : option VoicemailBox :=
  find_first (fun b => vb_id b =? id) (w_voicemail_boxes w).

(** [SET greeting_storage_key = ? WHERE id = ?] *)
Definition set_greeting (key : option str) (b : VoicemailBox) : VoicemailBox :=
  {| vb_id := vb_id b; vb_username := vb_username b; vb_domain := vb_domain b;
     vb_enabled := vb_enabled b; vb_no_answer_secs := vb_no_answer_secs b;
     vb_max_message_secs := vb_max_message_secs b; vb_max_messages := vb_max_messages b;
     vb_greeting_storage_key := key; vb_pin_hash := vb_pin_hash b; vb_email := vb_email b |}.

Definition update_boxes (id : Z) (f : VoicemailBox -> VoicemailBox) (w : World) : World :=
  set_voicemail_boxes (map (fun b => if vb_id b =? id then f b else b) (w_voicemail_boxes w)) w.

Definition updated_box (bd : UpdateVoicemailBox) (b : VoicemailBox) : VoicemailBox :=
  {| vb_id := vb_id b; vb_username := vb_username b; vb_domain := vb_domain b;
     vb_enabled := coalesce (ub_enabled bd) (vb_enabled b);
     vb_no_answer_secs := coalesce (ub_no_answer_secs bd) (vb_no_answer_secs b);
     vb_max_message_secs := coalesce (ub_max_message_secs bd) (vb_max_message_secs b);
     vb_max_messages := coalesce (ub_max_messages bd) (vb_max_messages b);
     vb_greeting_storage_key := coalesce_opt (ub_greeting_storage_key bd) (vb_greeting_storage_key b);
     vb_pin_hash := vb_pin_hash b; vb_email := coalesce_opt (ub_email bd) (vb_email b) |}.

(** [ORDER BY username, domain] *)
Fixpoint str_le (a b : str) : bool :=
  match a, b with
  | [], _ => true
  | _, [] => false
  | x :: a, y :: b =>
      (Str.code x <? Str.code y) || ((Str.code x =? Str.code y) && str_le a b)
  end.

Definition box_le (a b : VoicemailBox) : Prop :=
  (if bool_decide (vb_username a = vb_username b) then str_le (vb_domain a) (vb_domain b)
   else str_le (vb_username a) (vb_username b)) = true.

#[export] Instance box_le_dec : RelDecision box_le.
Proof. intros a b. unfold box_le. apply _. Defined.

(** (mailbox, has_greeting, new, saved); the two counts are sums of a CASE, DECIMAL columns that
    the row type reads into an [i64]. *)
Definition list_boxes `{SqlDecimal} : M (Api (list (VoicemailBox * bool * Z * Z))) :=
  rows <-? db (gets (fun w => merge_sort box_le (w_voicemail_boxes w)));
  w ← gets id;
  match mapM (fun b =>
          new ← decimal_i64 (count_status w (vb_id b) VOICEMAIL_STATUS_NEW);
          saved ← decimal_i64 (count_status w (vb_id b) VOICEMAIL_STATUS_SAVED);
          Some (b, bool_decide (is_Some (vb_greeting_storage_key b)), new, saved)) rows with
  | Some rows => mret (inl rows)
  | None => api_err 500 "mismatched types"
  end.

Lemma mapM_unreadable {A B} (f : A -> option B) x l : (forall x, f x = None) -> mapM f (x :: l) = None.
Proof. intros Hf. cbn. by rewrite Hf. Qed.

(** With a driver that does not decode DECIMAL into [i64], as sqlx's for MySQL, the page of
    mailboxes fails as soon as there is one. *)
Lemma list_boxes_unavailable `{SqlDecimal} w :
  w_faults w = [] -> (forall z, decimal_i64 z = None) -> w_voicemail_boxes w <> [] ->
  list_boxes w = (Val (inr (500, "mismatched types")), w).
Proof.
  intros Hf Hd Hne. unfold list_boxes. erewrite api_bind_ok by by apply db_ok. rewrite bind_gets.
  destruct (merge_sort box_le (w_voicemail_boxes w)) as [|b bs] eqn:E.
  - pose proof (merge_sort_Permutation box_le (w_voicemail_boxes w)) as Hp. rewrite E in Hp.
    apply Permutation_length in Hp. by destruct (w_voicemail_boxes w).
  - rewrite mapM_unreadable; [done|]. intros x. by rewrite !Hd.
Qed.

Section boxes.
Context (cfg : Config).

Definition insert_box (bd : CreateVoicemailBox) (domain : str) (no_answer max_message max_messages : Z)
    (w : World) : World :=
  set_voicemail_boxes (w_voicemail_boxes w ++ [{| vb_id := next_id (map vb_id (w_voicemail_boxes w));
    vb_username := nb_username bd; vb_domain := domain; vb_enabled := default 1 (nb_enabled bd);
    vb_no_answer_secs := no_answer; vb_max_message_secs := max_message;
    vb_max_messages := max_messages; vb_greeting_storage_key := None; vb_pin_hash := None;
    vb_email := None |}]) w.

Definition create_box (bd : CreateVoicemailBox) : M (Api Z) :=
  if Str.is_empty (Str.trim (nb_username bd)) then api_err 400 "username is required"
  else
    let domain := default (sip_domain cfg) (nb_domain bd) in
    let no_answer := default (voicemail_no_answer_secs cfg) (nb_no_answer_secs bd) in
    let max_message := default (voicemail_max_message_secs cfg) (nb_max_message_secs bd) in
    let max_messages := default 100 (nb_max_messages bd) in
    let name := nb_username bd ++ "@" ++ domain in
    _ <-? validated (validate_enabled_flag (nb_enabled bd));
    _ <-? validated (validate_box_limits no_answer max_message max_messages);
    account <-? db (gets (fun w => w_accounts w !! (nb_username bd, domain)));
    match account with
    | None => api_err 404 ("Account " ++ name ++ " not found")
    | Some a =>
        if ac_enabled a =? 0 then api_err 400 ("Account " ++ name ++ " is disabled")
        else
          b ← fault;
          if b : bool then api_err 500 "database error"
          else
            taken ← gets (fun w => bool_decide ((nb_username bd, domain) ∈ box_keys w));
            if taken : bool
            then api_err 409 "Voicemail box already exists for this username and domain"
            else
              id ← gets (fun w => next_id (map vb_id (w_voicemail_boxes w)));
              _ ← modify (insert_box bd domain no_answer max_message max_messages);
              mret (inl id)
    end.
End boxes.

(** The limits after an update, checked against the row as it is now. *)
Definition check_new_limits (id : Z) (bd : UpdateVoicemailBox) : M (Api unit) :=
  if bool_decide (is_Some (ub_no_answer_secs bd)) || bool_decide (is_Some (ub_max_message_secs bd))
     || bool_decide (is_Some (ub_max_messages bd))
  then
    current <-? db (gets (box_by_id id));
    match current with
    | None => api_err 404 "Voicemail box not found"
    | Some b =>
        validated (validate_box_limits (default (vb_no_answer_secs b) (ub_no_answer_secs bd))
          (default (vb_max_message_secs b) (ub_max_message_secs bd))
          (default (vb_max_messages b) (ub_max_messages bd)))
    end
  else mret (inl tt).

(** The rows matched by [WHERE id = ?]. *)
Definition boxes_matched (id : Z) (w : World) : Z :=
  Z.of_nat (length (filter (fun b => vb_id b = id) (w_voicemail_boxes w))).

Definition update_box (id : Z) (bd : UpdateVoicemailBox) : M (Api unit) :=
  _ <-? validated (validate_enabled_flag (ub_enabled bd));
  _ <-? check_new_limits id bd;
  rows <-? db (fun w => (Val (boxes_matched id w), update_boxes id (updated_box bd) w));
  if rows =? 0 then api_err 404 "Voicemail box not found" else mret (inl tt).

(** ** Messages *)

Record ListMessagesQuery := {
  lm_box_id : option Z;
  lm_username : option str;
  lm_status : option str;
}.

(** The name of the mailbox of a message: [JOIN sip_voicemail_boxes b ON m.box_id = b.id]. *)
Definition message_box (w : World) (m : VoicemailMessage) : option VoicemailBox :=
  box_by_id (vm_box_id m) w.

Definition message_matches (w : World) (q : ListMessagesQuery) (m : VoicemailMessage) : bool :=
  from_option (fun b => vm_box_id m =? b) true (lm_box_id q) &&
  from_option (fun u => bool_decide (vb_username <$> message_box w m = Some u)) true (lm_username q) &&
  from_option (fun s => bool_decide (vm_status m = s)) true (lm_status q).

Definition list_voicemails (q : ListMessagesQuery) : M (Api (list VoicemailMessage)) :=
  _ <-? validated (from_option validate_voicemail_status (Ok tt) (lm_status q));
  db (gets (fun w => sort_desc (filter (fun m => message_matches w q m = true)
                                  (w_voicemail_messages w)))).

Definition message_by_id (id : Z) (w : World) : option VoicemailMessage :=
  find_first (fun m => vm_id m =? id) (w_voicemail_messages w).

(** [COALESCE(heard_at, NOW())] for what was heard, [NULL] for what is new again. *)
Definition set_voicemail_status (now : Z) (status : str) (m : VoicemailMessage) : VoicemailMessage :=
  {| vm_id := vm_id m; vm_box_id := vm_box_id m; vm_caller := vm_caller m;
     vm_callee := vm_callee m; vm_call_id := vm_call_id m; vm_duration_secs := vm_duration_secs m;
     vm_storage_key := vm_storage_key m; vm_status := status; vm_created_at := vm_created_at m;
     vm_heard_at := if bool_decide (status = VOICEMAIL_STATUS_NEW) then None
                    else Some (default now (vm_heard_at m)) |}.

Definition update_status_row (id : Z) (status : str) : M Z := fun w =>
  (Val (Z.of_nat (length (filter (fun m => vm_id m = id) (w_voicemail_messages w)))),
   update_message id (set_voicemail_status (w_now w / 1000000000) status) w).

Section messages.
Context (cfg : Config) (notifier : bool) `{Digests}.

(** [VoicemailMwi::notify_mailbox_if_available]; [notifier]: the SIP side has started. *)
Definition notify_mailbox_if_available (username domain : str) : M bool :=
  if notifier then _ ← notify_mailbox username domain; mret true else mret false.

Definition notify_message_owner (id : Z) : M unit :=
  row ← attempt (query (gets (fun w => message_by_id id w ≫= message_box w)));
  match mjoin row with
  | Some b => ignore (notify_mailbox_if_available (vb_username b) (vb_domain b))
  | None => mret tt
  end.

Definition change_status (id : Z) (status : str) : M (Api unit) :=
  rows <-? db (update_status_row id status);
  if rows =? 0 then api_err 404 "Message not found"
  else _ ← notify_message_owner id; mret (inl tt).

Definition update_voicemail (id : Z) (status : str) : M (Api unit) :=
  _ <-? validated (validate_voicemail_status status);
  change_status id status.

Definition delete_voicemail (id : Z) : M (Api unit) := change_status id VOICEMAIL_STATUS_DELETED.

(** The bytes of the file, and the name the client is offered. *)
Definition read_file (key : str) : M (option (list Z)) :=
  gets (fun w => ok_opt (read_key (voicemail_storage_dir cfg) key (w_files w))).

Definition download_voicemail (id : Z) : M (Api (list Z * str)) :=
  message <-? db (gets (message_by_id id));
  match message with
  | None => api_err 404 "Message not found"
  | Some m =>
      bytes ← gets (fun w => (path_for_key (voicemail_storage_dir cfg) (vm_storage_key m), w_files w));
      match bytes with
      | (Err e, _) => api_err 500 e
      | (Ok path, files) =>
          match files !! path with
          | None => api_err 404 "Audio file not found"
          | Some b => mret (inl (b, "voicemail-" ++ Str.show_dec id ++ ".wav"))
          end
      end
  end.
End messages.

(** ** Greetings *)

(** A field of the form: its name, its file name and its bytes, when they can be read. *)
Record MultipartField := {
  mf_name : option str;
  mf_file_name : option str;
  mf_bytes : option (list Z);
}.

(** The loop over [next_field] ([None]: the form is broken there); the last [file] counts. *)
Fixpoint read_form (fields : list (option MultipartField)) (found : option (list Z * option str))
    : Api (option (list Z * option str)) :=
  match fields with
  | [] => inl found
  | None :: _ => inr (400, "multipart")
  | Some f :: rest =>
      if bool_decide (mf_name f = Some "file") then
        match mf_bytes f with
        | Some bytes => read_form rest (Some (bytes, mf_file_name f))
        | None => inr (400, "read field")
        end
      else read_form rest found
  end.

(** The checks on the file; its length in seconds. *)
Definition check_greeting (bytes : list Z) : Api Z :=
  match read_pcm16_wav bytes with
  | Err e => inr (400, "not a valid PCM16 WAV: " ++ e)
  | Ok decoded =>
      if negb (sample_rate decoded =? 8000) then inr (400, "greeting must be 8kHz mono PCM16 WAV")
      else
        let duration := Int.wrap_u32 (Z.of_nat (length (samples decoded))) / sample_rate decoded in
        if (duration =? 0) || (60 <? duration)
        then inr (400, "greeting duration must be between 1 and 60 seconds")
        else inl duration
  end.

Section greetings.
Context (cfg : Config).

(** [storage.write_message(&username, "greeting", &bytes)] *)
Definition store_greeting (username : str) (bytes : list Z) (uuids : list str) (ft : FsFault)
    : M (Api str) := fun w =>
  let '(r, fs) := write_message (voicemail_storage_dir cfg) username "greeting" bytes uuids ft
                    (w_files w) in
  (Val (match r with Ok key => inl key | Err e => inr (500, "write: " ++ e) end), set_files fs w).

Definition upload_greeting (id : Z) (form : list (option MultipartField)) (uuids : list str)
    (ft : FsFault) : M (Api (str * Z)) :=
  row <-? db (gets (box_by_id id));
  match row with
  | None => api_err 404 "Voicemail box not found"
  | Some b =>
      file <-? mret (read_form form None);
      match file with
      | None => api_err 400 "missing 'file' field"
      | Some (bytes, filename) =>
          duration <-? mret (check_greeting bytes);
          key <-? store_greeting (vb_username b) bytes uuids ft;
          _ ← match vb_greeting_storage_key b with
              | Some prev => storage_delete cfg prev
              | None => mret tt
              end;
          _ <-? db (modify (update_boxes id (set_greeting (Some key))));
          _ <-? db (modify (fun w => set_greetings (w_greetings w ++ [{| gr_box_id := id;
                  gr_storage_key := key; gr_original_filename := default "greeting.wav" filename;
                  gr_duration_secs := duration |}]) w));
          mret (inl (key, duration))
      end
  end.

Definition download_greeting (id : Z) : M (Api (list Z)) :=
  row <-? db (gets (box_by_id id));
  match row with
  | None => api_err 404 "Voicemail box not found"
  | Some b =>
      match vb_greeting_storage_key b with
      | None => api_err 404 "No greeting uploaded"
      | Some key =>
          bytes ← read_file cfg key;
          match bytes with
          | Some bytes => mret (inl bytes)
          | None => api_err 404 "greeting missing"
          end
      end
  end.

Definition delete_greeting (id : Z) : M (Api unit) :=
  row <-? db (gets (box_by_id id));
  match row with
  | None => api_err 404 "Voicemail box not found"
  | Some b =>
      _ ← match vb_greeting_storage_key b with
          | Some key => storage_delete cfg key
          | None => mret tt
          end;
      db (modify (update_boxes id (set_greeting None)))
  end.
End greetings.

(** ** Facts: the directory *)

Definition limits_ok (b : VoicemailBox) : Prop :=
  validate_box_limits (vb_no_answer_secs b) (vb_max_message_secs b) (vb_max_messages b) = Ok tt.

(** Accounts and mailboxes together. *)
Definition directory_ok (w : World) : Prop :=
  accounts_ok w /\ Forall limits_ok (w_voicemail_boxes w) /\ NoDup (map vb_id (w_voicemail_boxes w)).

Lemma moves_validated R `{!IoFrame R} {B} r (k : unit -> M (Api B)) :
  (r = Ok tt -> moves R (k tt)) -> moves R (x <-? validated r; k x).
Proof.
  intros Hk w. unfold validated. destruct r as [[]|e]; [|by cbn].
  erewrite api_bind_ok by done. by apply Hk.
Qed.

(** An update that keeps owners, ids and limits. *)
Lemma update_boxes_ok id f w :
  directory_ok w -> (forall b, vb_id (f b) = vb_id b) ->
  (forall b, (vb_username (f b), vb_domain (f b)) = (vb_username b, vb_domain b)) ->
  (forall b, b ∈ w_voicemail_boxes w -> vb_id b = id -> limits_ok b -> limits_ok (f b)) ->
  directory_ok (update_boxes id f w).
Proof.
  intros (Ha & Hl & Hi) Hid Hkey Hlim. split_and!.
  - unfold accounts_ok. replace (box_keys (update_boxes id f w)) with (box_keys w); [done|].
    unfold box_keys, update_boxes. cbn. rewrite map_update_key; [done|]. intros b. case_match; [|done].
    by rewrite Hkey.
  - unfold update_boxes. cbn. apply Forall_map, Forall_forall. intros b Hb.
    rewrite Forall_forall in Hl. destruct (Z.eqb_spec (vb_id b) id); [|by apply Hl].
    apply Hlim; [done..|by apply Hl].
  - unfold update_boxes. cbn. rewrite map_update_key; [done|]. intros b. by case_match.
Qed.

Lemma accounts_keep_boxes A (m : M A) :
  moves (keeps accounts_ok) m ->
  moves (keeps (fun w => Forall limits_ok (w_voicemail_boxes w) /\ NoDup (map vb_id (w_voicemail_boxes w)))) m ->
  moves (keeps directory_ok) m.
Proof. intros H1 H2 w [Ha Hb]. split; [by apply H1|by apply H2]. Qed.

Section directory.
Context (cfg : Config) (notifier : bool) `{!Digests, !BcryptHash}.

Lemma create_account_directory bd : moves (keeps directory_ok) (create_account cfg bd).
Proof.
  apply accounts_keep_boxes; [apply create_account_ok|]. unfold create_account, api_err.
  solve_api. apply moves_modify. by intros w Hw.
Qed.

Lemma update_account_directory id bd : moves (keeps directory_ok) (update_account cfg id bd).
Proof.
  apply accounts_keep_boxes; [apply update_account_keeps|].
  unfold update_account, new_hashes, update_account_row, api_err.
  solve_api. apply moves_transaction; [|by intros w w' Hw]. solve_moves. apply moves_modify.
  intros w [Hl Hi]. unfold move_boxes. cbn. split.
  - apply Forall_map. eapply Forall_impl; [exact Hl|]. intros b Hb. by case_match.
  - rewrite map_update_key; [done|]. intros b. by case_match.
Qed.

Lemma delete_account_directory id : moves (keeps directory_ok) (delete_account id).
Proof.
  apply accounts_keep_boxes; [apply delete_account_keeps|]. unfold delete_account, api_err. solve_api.
  intros w [Hl Hi]. unfold delete_account_row. destruct (account_by_id id w) as [[key a]|]; [|done].
  unfold drop_boxes. cbn. split; [by apply Forall_filter_keep|by apply NoDup_map_filter].
Qed.

Lemma insert_box_ok bd domain na mm ms w :
  directory_ok w -> validate_box_limits na mm ms = Ok tt ->
  is_Some (w_accounts w !! (nb_username bd, domain)) -> (nb_username bd, domain) ∉ box_keys w ->
  directory_ok (insert_box bd domain na mm ms w).
Proof.
  intros ([Hn Hids Ho Hb] & Hl & Hi) Hlim Hacc Hfree. unfold directory_ok, insert_box. cbn. split_and!.
  - unfold accounts_ok, box_keys. cbn. split; [done|done| |by apply NoDup_map_snoc].
    intros k. rewrite map_app. intros [Hk|Hk]%elem_of_app; [by apply Ho|].
    cbn in Hk. by apply list_elem_of_singleton in Hk as ->.
  - apply Forall_app. split; [done|]. by apply Forall_singleton.
  - apply NoDup_map_snoc; [done|]. apply next_id_fresh.
Qed.

Lemma create_box_directory bd : moves (keeps directory_ok) (create_box cfg bd).
Proof.
  unfold create_box, api_err. case_match; [apply moves_ret|]. cbv zeta.
  apply moves_validated; [apply _|]. intros _. apply moves_validated; [apply _|]. intros Hlim w Hok.
  destruct (db_gets (fun w => w_accounts w !! (nb_username bd, default (sip_domain cfg) (nb_domain bd))) w)
    as [v [E|E]]; [done|..]; [rewrite (api_bind_ok _ _ _ _ _ E)|by rewrite (api_bind_err _ _ _ _ _ E)].
  destruct (w_accounts w !! _) as [a|] eqn:Ha; [|done]. destruct (ac_enabled a =? 0); [done|].
  destruct (fault_run (set_faults v w)) as (b & v2 & E2). rewrite (bind_val _ _ _ _ _ E2).
  destruct b; [done|]. rewrite bind_gets. case_bool_decide as Hfree; [done|].
  rewrite bind_gets, bind_modify. apply insert_box_ok; [done|done| |done]. cbn. by rewrite Ha.
Qed.

Lemma set_faults_id w : set_faults (w_faults w) w = w.
Proof. by destruct w. Qed.

Lemma check_new_limits_run id bd w :
  exists r v, check_new_limits id bd w = (Val r, set_faults v w) /\
    (r = inl tt -> forall b, box_by_id id w = Some b -> limits_ok b -> limits_ok (updated_box bd b)).
Proof.
  unfold check_new_limits. destruct (_ || _) eqn:Hgiven.
  - destruct (db_gets (box_by_id id) w) as [v [E|E]]; [done|..].
    + rewrite (api_bind_ok _ _ _ _ _ E). destruct (box_by_id id w) as [b|]; [|by eexists _, v].
      eexists _, v. split; [reflexivity|]. destruct (validate_box_limits _ _ _) as [[]|] eqn:Hv; [|done].
      intros _ b' [= <-] _. exact Hv.
    + rewrite (api_bind_err _ _ _ _ _ E). by eexists _, v.
  - exists (inl tt), (w_faults w). rewrite set_faults_id. split; [done|]. intros _ b _ Hl.
    apply orb_false_iff in Hgiven as [Hgiven H3]. apply orb_false_iff in Hgiven as [H1 H2].
    unfold limits_ok in *. cbn. unfold coalesce.
    destruct (ub_no_answer_secs bd), (ub_max_message_secs bd), (ub_max_messages bd); done.
Qed.

Lemma box_by_id_unique id w b :
  NoDup (map vb_id (w_voicemail_boxes w)) -> b ∈ w_voicemail_boxes w -> vb_id b = id ->
  box_by_id id w = Some b.
Proof.
  intros Hn Hb Hid. unfold box_by_id. destruct (find_first _ _) as [c|] eqn:E.
  - apply find_first_Some in E as [Hc Hcid%Z.eqb_eq]. f_equal. by eapply NoDup_map_inj; [..|subst].
  - apply find_first_None in E. rewrite Forall_forall in E. specialize (E b Hb).
    by apply Z.eqb_neq in E.
Qed.

Lemma update_box_directory id bd : moves (keeps directory_ok) (update_box id bd).
Proof.
  unfold update_box. apply moves_validated; [apply _|]. intros _ w Hok.
  destruct (check_new_limits_run id bd w) as (r & v & E & Hlim).
  destruct r as [[]|e]; [rewrite (api_bind_ok _ _ _ _ _ E)|by rewrite (api_bind_err _ _ _ _ _ E)].
  specialize (Hlim eq_refl).
  destruct (db_cases (fun w => (Val (boxes_matched id w), update_boxes id (updated_box bd) w))
    (set_faults v w)) as [(v2 & r & E2)|(v2 & _ & E2)];
    [by rewrite (api_bind_err _ _ _ _ _ E2)|erewrite api_bind_ok by exact E2].
  assert (directory_ok (update_boxes id (updated_box bd) w)) as Hup.
  { apply update_boxes_ok; [done..|]. intros b Hb Hid Hl. apply Hlim; [|done].
    apply box_by_id_unique; [apply Hok|done|done]. }
  by case_match.
Qed.

(** The greetings only touch the key of one mailbox. *)
Lemma set_greeting_directory id key w :
  directory_ok w -> directory_ok (update_boxes id (set_greeting key) w).
Proof. intros Hok. by apply update_boxes_ok. Qed.

Lemma storage_delete_directory key : moves (keeps directory_ok) (storage_delete cfg key).
Proof. unfold storage_delete. solve_moves. apply moves_modify. by intros w Hw. Qed.

Lemma upload_greeting_directory id form uuids ft :
  moves (keeps directory_ok) (upload_greeting cfg id form uuids ft).
Proof.
  unfold upload_greeting, api_err. solve_api; try apply storage_delete_directory.
  - intros w Hw. unfold store_greeting. by case_match.
  - apply moves_modify. intros w Hw. by apply set_greeting_directory.
  - apply moves_modify. by intros w Hw.
Qed.

Lemma delete_greeting_directory id : moves (keeps directory_ok) (delete_greeting cfg id).
Proof.
  unfold delete_greeting, api_err. solve_api; [apply storage_delete_directory|].
  apply moves_modify. intros w Hw. by apply set_greeting_directory.
Qed.

Lemma change_status_directory id status :
  moves (keeps directory_ok) (change_status notifier id status).
Proof.
  apply (keeps_same (fun w => (w_accounts w, w_voicemail_boxes w))).
  { intros w w' Hw. unfold directory_ok, accounts_ok, box_keys. by inversion Hw as [[Ha Hb]]. }
  unfold change_status, api_err. solve_frame.
Qed.

(** The requests that write accounts, mailboxes, messages and greetings, and what the
    environment does between them. *)
Inductive directory_step : World -> World -> Prop :=
  | directory_create_account bd w : directory_step w (create_account cfg bd w).2
  | directory_update_account id bd w : directory_step w (update_account cfg id bd w).2
  | directory_delete_account id w : directory_step w (delete_account id w).2
  | directory_create_box bd w : directory_step w (create_box cfg bd w).2
  | directory_update_box id bd w : directory_step w (update_box id bd w).2
  | directory_status id status w : directory_step w (update_voicemail notifier id status w).2
  | directory_delete_message id w : directory_step w (delete_voicemail notifier id w).2
  | directory_upload id form uuids ft w : directory_step w (upload_greeting cfg id form uuids ft w).2
  | directory_clear id w : directory_step w (delete_greeting cfg id w).2
  | directory_environment now faults rnd w :
      directory_step w (set_now now (set_faults faults (set_random rnd w))).

Lemma directory_step_ok w w' : directory_step w w' -> keeps directory_ok w w'.
Proof.
  destruct 1; [apply create_account_directory|apply update_account_directory
    |apply delete_account_directory|apply create_box_directory|apply update_box_directory
    | |apply change_status_directory|apply upload_greeting_directory|apply delete_greeting_directory
    |by intros ?].
  apply (moves_validated (keeps directory_ok)). intros _. apply change_status_directory.
Qed.

(** C22: the directory stays a directory.  Whatever is created, changed and deleted through the
    API and whatever fails on the way, every account is an extension of three to six digits
    and so never the number of a conference, no two accounts share an id, every mailbox
    belongs to an account that exists and has no other mailbox, and its limits are in range:
    no recording is longer than 1250 seconds. *)
Theorem directory_invariant w w' :
  rtc directory_step w w' -> directory_ok w ->
  directory_ok w' /\
  (forall k a, w_accounts w' !! k = Some a -> validate_conference_extension k.1 = false) /\
  (forall b, b ∈ w_voicemail_boxes w' -> 1 <= vb_max_message_secs b <= 1250).
Proof.
  intros Hr Hok. assert (directory_ok w') as Hok'.
  { induction Hr as [|x y z Hxy _ IH]; [done|]. by eapply IH, directory_step_ok. }
  destruct Hok' as (Ha & Hl & Hi). split_and!; [done|..].
  - intros k a Hk. eapply account_not_conference, di_names; [exact Ha|done].
  - intros b Hb. rewrite Forall_forall in Hl. specialize (Hl b Hb).
    unfold limits_ok, validate_box_limits, in_range, VOICEMAIL_MAX_MESSAGE_SECS in Hl.
    repeat (case_match; try done). bool_simpl. lia.
Qed.
End directory.

(** ** Greetings *)

Lemma path_for_key_inj root k1 k2 p :
  path_for_key root k1 = Ok p -> path_for_key root k2 = Ok p -> k1 = k2.
Proof.
  unfold path_for_key, path_join. intros H1 H2. repeat (case_match; try done); by simplify_eq.
Qed.

Lemma store_greeting_inv cfg u bytes uuids ft w key w' :
  store_greeting cfg u bytes uuids ft w = (Val (inl key), w') ->
  exists path, path_for_key (voicemail_storage_dir cfg) key = Ok path /\
    w_files w !! path = None /\ w' = set_files (<[path := bytes]> (w_files w)) w.
Proof.
  unfold store_greeting, write_message. destruct (path_for_key _ (sanitize_key_part u)); [|done].
  destruct (mkdir_fails ft); [done|]. destruct (write_tries _ _ _ _ _ _ _ _) as [[k|e] fs] eqn:E; [|done].
  intros [= <- <-]. apply write_tries_ok in E as (path & Hp & Hn & ->). eauto.
Qed.

(** Deleting a key removes at most its own file. *)
Lemma storage_delete_run cfg key w :
  exists v fs, storage_delete cfg key w = (Val tt, set_files fs (set_faults v w)) /\
    forall path, path_for_key (voicemail_storage_dir cfg) key <> Ok path -> fs !! path = w_files w !! path.
Proof.
  unfold storage_delete. destruct (fault_run w) as (b & v & E). rewrite (bind_val _ _ _ _ _ E).
  eexists v, _. split; [reflexivity|]. intros path Hne. cbn. unfold delete_key.
  destruct (path_for_key _ _) as [p|]; [|done]. destruct (w_files w !! p); [|done].
  destruct b; [done|]. cbn. apply lookup_delete_ne. congruence.
Qed.

Lemma delete_previous_run cfg prev w :
  exists v fs, (match prev with Some p => storage_delete cfg p | None => mret tt end) w =
      (Val tt, set_files fs (set_faults v w)) /\
    forall path, (forall p, prev = Some p -> path_for_key (voicemail_storage_dir cfg) p <> Ok path) ->
      fs !! path = w_files w !! path.
Proof.
  destruct prev as [p|].
  - destruct (storage_delete_run cfg p w) as (v & fs & E & Hfs). exists v, fs. split; [done|].
    intros path Hp. by apply Hfs, Hp.
  - exists (w_faults w), (w_files w). split; [by destruct w|done].
Qed.

Lemma greeting_row id key w b :
  box_by_id id w = Some b ->
  box_by_id id (update_boxes id (set_greeting key) w) = Some (set_greeting key b).
Proof.
  unfold box_by_id, update_boxes. cbn. induction (w_voicemail_boxes w) as [|x l IH]; [done|]. cbn.
  destruct (vb_id x =? id) eqn:E; cbn; rewrite E; [by intros [= ->]|done].
Qed.

Lemma check_greeting_ok bytes d :
  check_greeting bytes = inl d ->
  1 <= d <= 60 /\ exists decoded, read_pcm16_wav bytes = Ok decoded /\ sample_rate decoded = 8000.
Proof.
  unfold check_greeting. destruct (read_pcm16_wav bytes) as [decoded|]; [|done].
  destruct (Z.eqb_spec (sample_rate decoded) 8000) as [Hr|]; cbn [negb]; [|done]. rewrite Hr.
  destruct (_ || _) eqn:Hd; [done|]. apply orb_false_iff in Hd as [H1%Z.eqb_neq H2%Z.ltb_ge].
  intros [= <-]. split; [|eauto]. split; [|done].
  assert (0 <= Int.wrap_u32 (Z.of_nat (length (samples decoded))) / 8000); [|lia].
  apply Z.div_pos; [|done]. unfold Int.wrap_u32. by apply Z.mod_pos_bound.
Qed.

(** C23: an uploaded greeting is the greeting.  When an upload succeeds, the file was a WAV of 8
    kHz that lasts one to sixty seconds, a download returns exactly its bytes, and of all
    other files only the previous greeting of this mailbox can have changed. *)
Theorem greeting_roundtrip cfg id form uuids ft w key duration w' b bytes name :
  box_by_id id w = Some b -> read_form form None = inl (Some (bytes, name)) ->
  upload_greeting cfg id form uuids ft w = (Val (inl (key, duration)), w') ->
  vb_greeting_storage_key b <> Some key ->
  (1 <= duration <= 60 /\
   exists decoded, read_pcm16_wav bytes = Ok decoded /\ sample_rate decoded = 8000) /\
  download_greeting cfg id (set_faults [] w') = (Val (inl bytes), set_faults [] w') /\
  forall path v, w_files w !! path = Some v ->
    (forall prev, vb_greeting_storage_key b = Some prev ->
       path_for_key (voicemail_storage_dir cfg) prev <> Ok path) ->
    w_files w' !! path = Some v.
Proof.
  intros Hb Hform Hup Hprev. unfold upload_greeting in Hup.
  apply api_bind_inv in Hup as (row & w1 & Hrow & Hup). apply db_inv in Hrow as [v1 Hrow].
  inversion Hrow; subst row w1. clear Hrow. change (box_by_id id (set_faults v1 w)) with (box_by_id id w) in Hup.
  rewrite Hb, Hform in Hup. apply api_bind_inv in Hup as (f & w2 & Hf & Hup). inversion Hf; subst f w2.
  apply api_bind_inv in Hup as (d & w2 & Hd & Hup). inversion Hd as [[Hcheck Hw2]]. subst w2. clear Hd Hf.
  apply api_bind_inv in Hup as (key' & w3 & Hst & Hup).
  apply store_greeting_inv in Hst as (path & Hpath & Hfree & ->).
  set (w4 := set_files _ _) in Hup.
  destruct (delete_previous_run cfg (vb_greeting_storage_key b) w4) as (v4 & fs & E4 & Hfs).
  rewrite (bind_val _ _ _ _ _ E4) in Hup.
  apply api_bind_inv in Hup as ([] & w5 & H5 & Hup). apply db_inv in H5 as [v5 H5].
  apply api_bind_inv in Hup as ([] & w6 & H6 & Hup). apply db_inv in H6 as [v6 H6].
  injection Hup as -> -> ->. injection H6 as Hw'. injection H5 as Hw5.
  split; [by apply check_greeting_ok|]. split.
  - unfold download_greeting.
    assert (box_by_id id (set_faults [] w') = Some (set_greeting (Some key) b)) as Hrow.
    { rewrite <-Hw', <-Hw5. by apply (greeting_row id (Some key) (set_faults v5 (set_files fs (set_faults v4 w4)))). }
    assert (db (gets (box_by_id id)) (set_faults [] w') =
            (Val (inl (Some (set_greeting (Some key) b))), set_faults [] w')) as E.
    { apply db_ok; [done|]. unfold gets. by rewrite Hrow. }
    rewrite (api_bind_ok _ _ _ _ _ E).
    cbn [vb_greeting_storage_key set_greeting]. unfold read_file. rewrite bind_gets. unfold read_key.
    rewrite Hpath. cbn [mbind result_bind].
    assert (w_files (set_faults [] w') !! path = Some bytes) as ->; [|done].
    rewrite <-Hw', <-Hw5. cbn. rewrite Hfs; [unfold w4; cbn; by rewrite lookup_insert_eq|].
    intros p Hp Hpp. apply Hprev. rewrite Hp. f_equal. by eapply path_for_key_inj.
  - intros path' v Hv Hother. rewrite <-Hw', <-Hw5. cbn. rewrite Hfs by done. unfold w4. cbn.
    rewrite lookup_insert_ne; [done|]. intros <-. cbn in Hfree. congruence.
Qed.

(** The old file goes first and the row is changed afterwards: when that statement fails the
    answer is 500 and the mailbox is left with a greeting whose file no longer exists. *)
Lemma greeting_lost_on_db_error cfg id form uuids ft w b bytes name d key path prev prev_path :
  box_by_id id w = Some b -> read_form form None = inl (Some (bytes, name)) ->
  check_greeting bytes = inl d -> w_faults w = [false; false; true] ->
  write_message (voicemail_storage_dir cfg) (vb_username b) "greeting" bytes uuids ft (w_files w) =
    (Ok key, <[path := bytes]> (w_files w)) ->
  vb_greeting_storage_key b = Some prev -> path_for_key (voicemail_storage_dir cfg) prev = Ok prev_path ->
  exists w', upload_greeting cfg id form uuids ft w = (Val (inr (500, "database error")), w') /\
    box_by_id id w' = Some b /\ w_files w' !! prev_path = None.
Proof.
  intros Hb Hform Hcheck Hf Hw Hp Hpath. unfold upload_greeting.
  assert (db (gets (box_by_id id)) w = (Val (inl (Some b)), set_faults [false; true] w)) as E.
  { unfold db, query, attempt, fault, mbind, M_bind. rewrite Hf. cbn.
    unfold box_by_id in *. cbn. by rewrite Hb. }
  rewrite (api_bind_ok _ _ _ _ _ E), Hform. erewrite api_bind_ok by done. cbn match.
  rewrite Hcheck. erewrite api_bind_ok by done.
  erewrite api_bind_ok; [|unfold store_greeting; cbn; by rewrite Hw]. rewrite Hp.
  unfold storage_delete, fault, delete_key. rewrite Hpath.
  eexists. split; [reflexivity|]. split; [exact Hb|]. cbn.
  destruct (<[path := bytes]> (w_files w) !! prev_path) eqn:El; cbn; [apply lookup_delete_eq|done].
Qed.

(** ** Examples *)

Definition empty_directory : World := set_accounts ∅ sample_world.

Definition box_1001 : CreateVoicemailBox :=
  {| nb_username := "1001"; nb_domain := None; nb_enabled := None; nb_no_answer_secs := None;
     nb_max_message_secs := None; nb_max_messages := None; nb_email := None |}.

Definition with_account : World :=
  (@create_account sample_config toy_digests toy_bcrypt_hash new_1001 empty_directory).2.
Definition with_box : World := (create_box sample_config box_1001 with_account).2.

Lemma directory_invariant_witness :
  map vb_username (w_voicemail_boxes with_box) = ["1001"] /\
  forall b, b ∈ w_voicemail_boxes with_box -> 1 <= vb_max_message_secs b <= 1250.
Proof.
  split; [vm_compute; reflexivity|].
  apply (@directory_invariant sample_config false toy_digests toy_bcrypt_hash empty_directory with_box).
  - eapply rtc_l; [apply (@directory_create_account sample_config false toy_digests toy_bcrypt_hash new_1001)|].
    apply rtc_once,
      (@directory_create_box sample_config false toy_digests toy_bcrypt_hash box_1001).
  - split_and!; [|constructor|constructor]. split; [done|done| |constructor].
    intros k Hk. by apply not_elem_of_nil in Hk.
Defined.

(** A second of silence. *)
Definition silence_wav : list Z := done_or [] (pcm16_wav_bytes (repeat 0 (Z.to_nat 8000)) 8000).

Definition silence_form : list (option MultipartField) :=
  [Some {| mf_name := Some "file"; mf_file_name := Some "hello.wav"; mf_bytes := Some silence_wav |}].

Definition greeted : World :=
  (upload_greeting sample_config 1 silence_form ["u1"] no_fault with_box).2.

Lemma greeting_roundtrip_witness :
  download_greeting sample_config 1 (set_faults [] greeted) =
    (Val (inl silence_wav), set_faults [] greeted) /\ length silence_wav = Z.to_nat 16044.
Proof.
  split; [|vm_compute; reflexivity].
  eapply (greeting_roundtrip sample_config 1 silence_form ["u1"] no_fault with_box).
  - vm_compute. reflexivity.
  - reflexivity.
  - vm_compute. reflexivity.
  - done.
Defined.
