(* ===== verification/Proxy.v ===== *)
(** * The call proxy: [backend/src/sip/proxy.rs]

    Admission of calls, media set-up, forwarding to the registered target, and the routing
    of the requests inside a call.  The builders of the forwarded requests are in [Forward]. *)

From S2P Require Import Prelude RustStr Net Message Response Forward SecurityGuard Acl Storage.
From S2P Require Import Sdp Media World Gateway VoicemailSdp VoicemailMedia NoAnswer Mwi.
From S2P Require Import Voicemail Presence Registrar Frames.

Open Scope str_scope.
Open Scope Z_scope.

Definition is_websocket_contact_uri (contact_uri : str) : bool :=
  Str.contains "transport=ws" (Str.to_lower contact_uri).

Definition should_preserve_webrtc_sdp_for_target (contact_uri bd : str) : bool :=
  is_websocket_contact_uri contact_uri && is_webrtc_sdp bd.

Definition should_bridge_plain_sip_to_websocket_target (contact_uri bd : str) : bool :=
  is_websocket_contact_uri contact_uri && negb (Str.is_empty bd) && negb (is_webrtc_sdp bd).

Definition registered_target_uri (username contact_uri : str) (target_addr : SocketAddr) : str :=
  if is_websocket_contact_uri contact_uri then contact_uri
  else routable_contact_uri contact_uri username target_addr.

Definition should_refresh_registration_source (registered_ip : str) (registered_port : Z)
    (src : SocketAddr) : bool :=
  match parse_ip registered_ip with
  | Some i => bool_decide (i = ip src)
  | None => false
  end && negb (registered_port =? port src).

(** ** Tables *)

(** [UPDATE sip_registrations SET source_port = ?
     WHERE username = ? AND domain = ? AND source_ip = ? AND expires_at > NOW()] *)
Definition update_source_port (username domain registered_ip : str) (p : Z) : M unit :=
  modify (fun w =>
    match live_registration w username domain with
    | Some r =>
        if bool_decide (reg_source_ip r = registered_ip) then
          set_registrations (<[(username, domain) := {| contact_uri := contact_uri r;
            reg_user_agent := reg_user_agent r; reg_expires_at := reg_expires_at r;
            reg_source_ip := reg_source_ip r; reg_source_port := p |}]> (w_registrations w)) w
        else w
    | None => w
    end).

Definition refresh_sender_registration_source (username domain : str) (src : SocketAddr) : M unit :=
  row ← db_registration username domain;
  match row with
  | Some r =>
      if should_refresh_registration_source (reg_source_ip r) (reg_source_port r) src
      then query (update_source_port username domain (reg_source_ip r) (port src))
      else mret tt
  | None => mret tt
  end.

(** [INSERT INTO sip_calls ... ON DUPLICATE KEY UPDATE status = 'trying', started_at = ?] *)
Definition insert_call (cid caller callee : str) : M unit :=
  modify (fun w =>
    let now := w_now w / 1000000000 in
    let row := match w_calls w !! cid with
      | Some c => {| call_caller := call_caller c; call_callee := call_callee c;
          call_status := "trying"; call_started_at := now;
          call_answered_at := call_answered_at c; call_ended_at := call_ended_at c |}
      | None => {| call_caller := caller; call_callee := callee; call_status := "trying";
          call_started_at := now; call_answered_at := None; call_ended_at := None |}
      end in
    set_calls (<[cid := row]> (w_calls w)) w).

(** [UPDATE sip_calls SET status = 'answered', answered_at = NOW() WHERE call_id = ?] *)
Definition mark_call_answered (cid : str) : M unit :=
  modify (fun w => set_calls (alter (fun c =>
    {| call_caller := call_caller c; call_callee := call_callee c; call_status := "answered";
       call_started_at := call_started_at c;
       call_answered_at := Some (w_now w / 1000000000); call_ended_at := call_ended_at c |})
    cid (w_calls w)) w).

(** [UPDATE sip_calls SET status = ?, ended_at = NOW() WHERE call_id = ?] *)
Definition mark_call_over (status cid : str) : M unit :=
  modify (fun w => set_calls (alter (fun c =>
    {| call_caller := call_caller c; call_callee := call_callee c; call_status := status;
       call_started_at := call_started_at c; call_answered_at := call_answered_at c;
       call_ended_at := Some (w_now w / 1000000000) |})
    cid (w_calls w)) w).

(** [SELECT contact_uri FROM sip_registrations WHERE source_ip = ? AND source_port = ?
     AND expires_at > NOW() LIMIT 1]: one of the matching rows. *)
Definition contact_at (w : World) (target : SocketAddr) : option str :=
  head (omap (fun '(_, r) =>
    if bool_decide (reg_source_ip r = show_ip (ip target)) && (reg_source_port r =? port target)
       && (w_now w / 1000000000 <? reg_expires_at r)
    then Some (contact_uri r) else None) (map_to_list (w_registrations w))).

Definition persist_message (msg : SipMessage) (sender receiver status source_ip : str) : M unit :=
  ignore (query (modify (fun w => set_messages (w_messages w ++ [{|
    mr_message_id := header msg "message-id"; mr_call_id := call_id msg;
    mr_sender := sender; mr_receiver := receiver;
    mr_content_type := default "text/plain" (header msg "content-type");
    mr_body := body msg; mr_status := status; mr_source_ip := source_ip;
    mr_created_at := w_now w / 1000000000;
    mr_delivered_at := if bool_decide (status = "delivered") then Some (w_now w / 1000000000)
                       else None |}]) w))).

(** ** Shared maps *)

Definition drop_pending (cid : str) : M unit :=
  modify (fun w => set_pending_dialogs (delete cid (w_pending_dialogs w)) w).

Definition drop_active (cid : str) : M unit :=
  modify (fun w => set_active_dialogs (delete cid (w_active_dialogs w)) w).

(** The writes of an INVITE, each under the lock of its own map. *)
Definition note_pending (cid : str) (src : SocketAddr) : M unit :=
  modify (fun w => set_pending_dialogs (<[cid := src]> (w_pending_dialogs w)) w).

Definition note_invite (cid : str) (msg : SipMessage) : M unit :=
  modify (fun w => set_pending_invites (<[cid := msg]> (w_pending_invites w)) w).

Definition note_active (cid : str) (d : DialogInfo) : M unit :=
  modify (fun w => set_active_dialogs (<[cid := d]> (w_active_dialogs w)) w).

(** The other end of a dialog: the callee for the caller, the caller for everyone else. *)
Definition other_party (src : SocketAddr) (d : DialogInfo) : SocketAddr :=
  if bool_decide (src = caller_addr d) then callee_addr d else caller_addr d.

Definition dialog_target (cid : str) (src : SocketAddr) : M (option SocketAddr) :=
  gets (fun w => other_party src <$> w_active_dialogs w !! cid).

Section proxy.
Context (cfg : Config) `{Digests} `{HeaderOrder} `{WebRtc}.

Definition lookup_registered_target (username domain : str) : M (option SocketAddr) :=
  row ← attempt (db_registration username domain);
  mret (match row with
        | Some (Some r) => parse_addr (addr_text (reg_source_ip r) (reg_source_port r))
        | _ => None
        end).

Definition reject_invalid_invite (msg : SipMessage) (src : SocketAddr) (caller : option str)
    (detail : str) : M str :=
  let source_ip := show_ip (ip src) in
  blocked ← invite_guard_record_failure SipInvite source_ip caller;
  _ ← ignore (db_persist_event SipInvite InviteRejected source_ip caller detail);
  _ ← when (blocked && persist_acl_bans cfg)
        (_ ← ignore (db_persist_acl_ban (ip src) (acl_ban_priority cfg)
                       INVITE_AUTO_BAN_DESCRIPTION);
         ignore (db_persist_event SipInvite IpBlocked source_ip caller
                   "invite source blocked by threshold"));
  mret (build (base_response msg 403 "Forbidden")).

(** ** Media set-up *)

Definition wants_video (bd : str) : bool :=
  existsb (fun m => bool_decide (md_kind m = Video) && md_active m) (parse_sdp_media_sections bd).

(** The addresses of a SIP phone, from its description. *)
Definition learn_sip_video_peer (cid bd : str) : M unit :=
  match sdp_connection_ip bd, sdp_video_port bd with
  | Some i, Some p =>
      match parse_addr (addr_text i p) with
      | Some a => set_sip_video_peer cid a
      | None => mret tt
      end
  | _, _ => mret tt
  end.

(** A phone calls a browser: an offer of the gateway for the browser. *)
Definition bridge_to_browser (cid bd : str) : M (option str) :=
  r ← attempt (create_session_for_sip_caller cfg cid (wants_video bd));
  match r with
  | Some (webrtc_offer_sdp, _, _) =>
      _ ← match sdp_rtp_addr bd with Some a => set_sip_peer cid a | None => mret tt end;
      _ ← learn_sip_video_peer cid bd;
      mret (Some webrtc_offer_sdp)
  | None => mret None
  end.

(** A browser calls a phone: a plain RTP offer of the gateway for the phone. *)
Definition bridge_from_browser (cid bd : str) : M (option str) :=
  r ← attempt (create_session cfg cid bd (wants_video bd));
  match r with
  | Some (_, audio_port, video_port) =>
      ts ← unix_secs;
      mret (Some (make_plain_rtp_sdp ts (public_ip cfg) audio_port video_port))
  | None => mret None
  end.

(** A plain call: one relay stream per active section. *)
Definition relay_media (cid bd : str) : M (option str) :=
  if Str.is_empty bd then mret None
  else
    let media := parse_sdp_media_sections bd in
    if negb (existsb md_active media) then mret None
    else
      r ← relay_allocate cid media;
      match r with
      | Ok ports =>
          relay_ip ← gets (fun w => mr_public_ip (w_media_relay w));
          mret (Some (rewrite_sdp_media bd relay_ip
                        (map (fun p => (mp_media_index p, mp_relay_port_a p)) ports)))
      | Err _ => mret None
      end.

Definition invite_media (cid contact_uri bd : str) (callee_is_stream : bool) : M (option str) :=
  if should_preserve_webrtc_sdp_for_target contact_uri bd then mret None
  else if callee_is_stream && should_bridge_plain_sip_to_websocket_target contact_uri bd
  then bridge_to_browser cid bd
  else if negb (Str.is_empty bd) && is_webrtc_sdp bd then bridge_from_browser cid bd
  else relay_media cid bd.

(** ** INVITE *)

Definition invite_caller (msg : SipMessage) : str := default "unknown" (header_user (from_header msg)).

Definition invite_callee (msg : SipMessage) : str :=
  default "" (uri_username (default "" (request_uri msg))).

(** The callee is registered as [r]: record the call, set up its media, forward the INVITE
    and start the no-answer timer of the mailbox. *)
Definition forward_invite (msg : SipMessage) (src : SocketAddr) (caller callee : str)
    (r : Registration) : M str :=
  let domain := sip_domain cfg in
  let cid := default "" (call_id msg) in
  mailbox ← lookup_enabled_box callee domain;
  match parse_addr (addr_text (reg_source_ip r) (reg_source_port r)) with
  | None => fail "invalid socket address syntax"
  | Some target_addr =>
      caller_stream ← registry_contains src;
      callee_stream ← registry_contains target_addr;
      _ ← ignore (query (insert_call cid (caller ++ "@" ++ domain) (callee ++ "@" ++ domain)));
      _ ← note_pending cid src;
      _ ← note_invite cid msg;
      _ ← note_active cid {| caller_addr := src; callee_addr := target_addr;
            caller_is_stream := caller_stream; callee_is_stream := callee_stream |};
      rewritten_body ← invite_media cid (contact_uri r) (body msg) callee_stream;
      let target_uri := registered_target_uri callee (contact_uri r) target_addr in
      _ ← send_sip (build_forwarded_invite_for_target msg target_uri (max_forwards msg - 1)
                      domain rewritten_body) target_addr;
      _ ← match mailbox with
          | Some box => start_no_answer_timer {| na_msg := msg; na_src := src;
              na_target_addr := target_addr; na_target_uri := target_uri; na_callee := callee;
              na_delay_secs := vb_no_answer_secs box |}
          | None => mret tt
          end;
      mret (build (base_response msg 100 "Trying"))
  end.

Definition handle_invite (msg : SipMessage) (src : SocketAddr) : M str :=
  let callee := invite_callee msg in
  let caller := invite_caller msg in
  let domain := sip_domain cfg in
  if Str.is_empty callee then mret (build (base_response msg 400 "Bad Request"))
  else if max_forwards msg =? 0 then mret (build (base_response msg 483 "Too Many Hops"))
  else
    blocked ← invite_guard_is_blocked (show_ip (ip src));
    if blocked : bool then mret (build (base_response msg 403 "Forbidden"))
    else if bool_decide (caller = "unknown") then
      reject_invalid_invite msg src None "invite rejected: missing caller identity"
    else
      caller_ok ← db_account_exists caller domain;
      if negb caller_ok then
        reject_invalid_invite msg src (Some caller)
          ("invite rejected: unrecognised caller " ++ caller ++ "@" ++ domain)
      else
        _ ← refresh_sender_registration_source caller domain src;
        row ← db_registration callee domain;
        match row with
        | Some r => forward_invite msg src caller callee r
        | None =>
            mailbox ← lookup_enabled_box callee domain;
            match mailbox with
            | Some _ => handle_delivery_invite cfg msg callee
            | None => mret (build (base_response msg 404 "Not Found"))
            end
        end.

(** ** Requests inside a call *)

(** Without a dialog, ACK and BYE go to the registration of the user in the request URI. *)
Definition forward_by_uri (msg : SipMessage) : M unit :=
  let callee := invite_callee msg in
  if Str.is_empty callee then mret tt
  else
    target ← lookup_registered_target callee (sip_domain cfg);
    match target with
    | Some target => ignore (send_sip (raw msg) target)
    | None => mret tt
    end.

Definition handle_ack (msg : SipMessage) : M unit :=
  let cid := default "" (call_id msg) in
  _ ← cancel_no_answer_timer cid;
  _ ← ignore (query (mark_call_answered cid));
  target ← gets (fun w => callee_addr <$> w_active_dialogs w !! cid);
  match target with
  | Some target => ignore (send_sip (raw msg) target)
  | None => forward_by_uri msg
  end.

Definition handle_bye (msg : SipMessage) (src : SocketAddr) : M str :=
  let cid := default "" (call_id msg) in
  _ ← cancel_no_answer_timer cid;
  _ ← ignore (query (mark_call_over "ended" cid));
  target ← dialog_target cid src;
  _ ← drop_active cid;
  _ ← drop_pending cid;
  _ ← relay_remove cid;
  _ ← gateway_remove cid;
  _ ← match target with
      | Some target => ignore (send_sip (raw msg) target)
      | None => forward_by_uri msg
      end;
  mret (build (base_response msg 200 "OK")).

Definition cancel_target_uri (msg : SipMessage) (contact : option str) : str :=
  match contact, request_uri msg with
  | Some uri, _ => uri
  | None, Some uri => uri
  | None, None => "sip:" ++ invite_callee msg ++ "@" ++ sip_domain cfg
  end.

Definition handle_cancel (msg : SipMessage) : M str :=
  let cid := default "" (call_id msg) in
  _ ← cancel_no_answer_timer_for_caller_cancel cid;
  _ ← ignore (query (mark_call_over "cancelled" cid));
  target ← gets (fun w => callee_addr <$> w_active_dialogs w !! cid);
  _ ← match target with
      | Some target =>
          contact ← attempt (query (gets (fun w => contact_at w target)));
          let forwarded := build_forwarded_cancel_for_target msg
            (cancel_target_uri msg (mjoin contact)) (Int.sat_sub (max_forwards msg) 1)
            (sip_domain cfg) in
          ignore (send_sip forwarded target)
      | None => mret tt
      end;
  _ ← drop_pending cid;
  _ ← drop_active cid;
  _ ← relay_remove cid;
  _ ← gateway_remove cid;
  mret (build (base_response msg 200 "OK")).

Definition handle_refer (msg : SipMessage) (src : SocketAddr) : M str :=
  target ← dialog_target (default "" (call_id msg)) src;
  match target with
  | Some target =>
      _ ← ignore (send_sip (raw msg) target);
      mret (build (base_response msg 202 "Accepted"))
  | None => mret (build (base_response msg 481 "Call/Transaction Does Not Exist"))
  end.

(** NOTIFY and INFO: forwarded when there is a dialog, accepted either way. *)
Definition forward_in_dialog (msg : SipMessage) (src : SocketAddr) : M str :=
  target ← dialog_target (default "" (call_id msg)) src;
  _ ← match target with
      | Some target => ignore (send_sip (raw msg) target)
      | None => mret tt
      end;
  mret (build (base_response msg 200 "OK")).

Definition handle_notify (msg : SipMessage) (src : SocketAddr) : M str := forward_in_dialog msg src.

Definition handle_info (msg : SipMessage) (src : SocketAddr) : M str := forward_in_dialog msg src.

(** ** MESSAGE *)

Definition message_callee (msg : SipMessage) : str :=
  let fallback_callee := default "" (header_user (to_header msg)) in
  match request_uri msg ≫= uri_username with
  | Some u => if Str.is_empty u then fallback_callee else u
  | None => fallback_callee
  end.

Definition message_target (cid callee domain : str) (src : SocketAddr) : M (option SocketAddr) :=
  in_dialog ← (if Str.is_empty cid then mret None else dialog_target cid src);
  match in_dialog with
  | Some addr => mret (Some addr)
  | None => lookup_registered_target callee domain
  end.

Definition handle_message (msg : SipMessage) (src : SocketAddr) : M str :=
  let domain := sip_domain cfg in
  let sender := default "" (header_user (from_header msg)) in
  if Str.is_empty sender then mret (build (base_response msg 400 "Bad Request"))
  else
    sender_ok ← db_account_exists sender domain;
    if negb sender_ok then mret (build (base_response msg 403 "Forbidden"))
    else
      _ ← refresh_sender_registration_source sender domain src;
      let callee := message_callee msg in
      if Str.is_empty callee then mret (build (base_response msg 400 "Bad Request"))
      else
        let persist status := persist_message msg (sender ++ "@" ++ domain)
                                (callee ++ "@" ++ domain) status (show_ip (ip src)) in
        target ← message_target (default "" (call_id msg)) callee domain src;
        match target with
        | Some target_addr =>
            sent ← attempt (send_sip (raw msg) target_addr);
            match sent with
            | None => _ ← persist "failed";
                      mret (build (base_response msg 500 "Internal Server Error"))
            | Some _ => _ ← persist "delivered"; mret (build (base_response msg 200 "OK"))
            end
        | None => _ ← persist "failed"; mret (build (base_response msg 404 "Not Found"))
        end.
End proxy.

(** ** Admission *)

(** What a call leaves behind: the core state, messages, timers and recordings. *)
Definition call_state (w : World) :=
  (core w, w_outbox w, w_no_answer w, w_tasks w, w_voicemail_calls w).

Section admission.
Context (cfg : Config) `{!Digests, !HeaderOrder, !Bcrypt, !WebRtc}.

Definition invite_blocked (w : World) (src : SocketAddr) : bool :=
  (is_blocked (w_now w) (show_ip (ip src)) (w_invite_guard w)).1.

(** The INVITE is well formed and comes from an enabled account's name. *)
Definition known_caller (w : World) (msg : SipMessage) : bool :=
  negb (bool_decide (invite_caller msg = "unknown")) &&
  account_enabled w (invite_caller msg) (sip_domain cfg).

Definition well_addressed (msg : SipMessage) : bool :=
  negb (Str.is_empty (invite_callee msg)) && negb (max_forwards msg =? 0).

Lemma invite_guard_run i w :
  invite_guard_is_blocked i w =
  (Val (is_blocked (w_now w) i (w_invite_guard w)).1,
   set_invite_guard (is_blocked (w_now w) i (w_invite_guard w)).2 w).
Proof. unfold invite_guard_is_blocked. by destruct (is_blocked _ _ _). Qed.

Lemma reject_keeps_calls msg src caller detail :
  moves (same call_state) (reject_invalid_invite cfg msg src caller detail).
Proof. solve_frame. Qed.

(** A rejection is final, and counts against the source. *)
Lemma reject_run msg src caller detail w :
  let i := show_ip (ip src) in
  let '(r, w') := reject_invalid_invite cfg msg src caller detail w in
  r = Val (build (base_response msg 403 "Forbidden")) /\
  w_invite_guard w' = (record_failure (w_now w) SipInvite i caller (w_invite_guard w)).2.
Proof.
  cbv zeta. destruct (reject_invalid_invite _ _ _ _ _ w) as [r w'] eqn:E. split.
  - apply (f_equal fst) in E. cbn in E. rewrite <-E. revert w E. clear.
    assert (returns (reject_invalid_invite cfg msg src caller detail)
              (build (base_response msg 403 "Forbidden"))) as H.
    { unfold reject_invalid_invite. solve_returns. }
    intros w _. apply H.
  - unfold reject_invalid_invite in E. cbv zeta in E.
    unfold invite_guard_record_failure in E. unfold mbind at 1, M_bind at 1 in E.
    destruct (record_failure _ _ _ _ _) as [b g]. cbn [fst snd].
    match type of E with ?k ?w1 = _ => assert (moves (same w_invite_guard) k) as Hk end.
    { solve_frame. }
    specialize (Hk (set_invite_guard g w)). rewrite E in Hk. exact Hk.
Qed.

Definition admitted (w : World) (msg : SipMessage) (src : SocketAddr) : bool :=
  well_addressed msg && negb (invite_blocked w src) && known_caller w msg.

(** The account a rejected INVITE is held against. *)
Definition rejected_user (msg : SipMessage) : option str :=
  if bool_decide (invite_caller msg = "unknown") then None else Some (invite_caller msg).

(** C4: who may call.  An INVITE that names no callee, has no hop left, comes from a blocked
    address or from a name that is not an enabled account's starts nothing: no message leaves,
    no dialog, call record, media session, timer or recording appears, and the sender is told
    400, 483 or 403 (or the database failed).  And if it has a callee, a hop left and an address
    that is not blocked, so that it is refused for its caller, and the database works, it counts
    as a failure of its address; the other refusals do not count: a badly addressed INVITE does
    not touch the guard, one of a blocked address only drops what has expired. *)
Theorem invite_admission msg src w r w' :
  handle_invite cfg msg src w = (r, w') -> admitted w msg src = false ->
  call_state w' = call_state w /\
  ((exists e, r = Fail e) \/
   exists code reason, r = Val (build (base_response msg code reason)) /\ code ∈ [400; 403; 483]) /\
  (w_faults w = [] -> well_addressed msg = true -> invite_blocked w src = false ->
   w_invite_guard w' =
     (record_failure (w_now w) SipInvite (show_ip (ip src)) (rejected_user msg)
        (is_blocked (w_now w) (show_ip (ip src)) (w_invite_guard w)).2).2) /\
  (well_addressed msg = false -> w_invite_guard w' = w_invite_guard w) /\
  (well_addressed msg = true -> invite_blocked w src = true ->
   w_invite_guard w' = (is_blocked (w_now w) (show_ip (ip src)) (w_invite_guard w)).2).
Proof.
  unfold admitted, well_addressed, known_caller, rejected_user, handle_invite.
  intros E Hadm. revert E.
  destruct (Str.is_empty (invite_callee msg)) eqn:Hcallee; cbn [negb andb] in *.
  { intros [= <- <-]. split_and!; [done|right; eauto 8 using list_elem_of_here|done..]. }
  destruct (max_forwards msg =? 0) eqn:Hmf; cbn [negb andb] in *.
  { intros [= <- <-]. split_and!; [done|right|done..].
    do 2 eexists; split; [done|by_decide]. }
  rewrite (bind_val _ _ _ _ _ (invite_guard_run _ w)). fold (invite_blocked w src).
  destruct (invite_blocked w src) eqn:Hb; cbn [negb andb] in *.
  { intros [= <- <-]. split_and!; [done|right|done..].
    do 2 eexists; split; [done|by_decide]. }
  set (g := (is_blocked _ _ _).2). set (w1 := set_invite_guard g w).
  assert (forall caller detail (w2 : World), call_state w2 = call_state w -> w_now w2 = w_now w ->
    w_invite_guard w2 = g -> reject_invalid_invite cfg msg src caller detail w2 = (r, w') ->
    call_state w' = call_state w /\ r = Val (build (base_response msg 403 "Forbidden")) /\
    w_invite_guard w' = (record_failure (w_now w) SipInvite (show_ip (ip src)) caller g).2) as Hrej.
  { intros caller detail w2 Hc Hn Hg E. pose proof (reject_run msg src caller detail w2) as Hr.
    pose proof (reject_keeps_calls msg src caller detail w2) as Hk.
    rewrite E in Hr, Hk. destruct Hr as [-> Hr]. unfold same in Hk. cbn [snd] in Hk.
    rewrite Hk, Hr, Hn, Hg. done. }
  destruct (bool_decide (invite_caller msg = "unknown")) eqn:Hu; cbn [negb andb] in *.
  { intros E. apply Hrej in E as (Hc & -> & Hg); [|done..].
    split_and!; [done|right; do 2 eexists; split; [done|by_decide]|done..]. }
  unfold db_account_exists.
  destruct (query_gets_cases (fun w => account_enabled w (invite_caller msg) (sip_domain cfg)) w1)
    as [v [Hq|[e Hq]]].
  - rewrite (bind_val _ _ _ _ _ Hq).
    assert (account_enabled (set_faults v w1) (invite_caller msg) (sip_domain cfg) = false) as ->
      by exact Hadm.
    cbn [negb]. intros E. apply Hrej in E as (Hc & -> & Hg); [|done..].
    split_and!; [done|right; do 2 eexists; split; [done|by_decide]|done..].
  - rewrite (bind_fail _ _ _ _ _ Hq). intros [= <- <-]. split_and!; [done|by eauto| |done..].
    intros Hf. by rewrite query_ok in Hq.
Qed.
End admission.

(** ** Forwarding *)

(** The state after a successful [refresh_sender_registration_source]. *)
Definition refreshed (w : World) (username domain : str) (src : SocketAddr) : World :=
  match live_registration w username domain with
  | Some r =>
      if should_refresh_registration_source (reg_source_ip r) (reg_source_port r) src
      then set_registrations (<[(username, domain) := {| contact_uri := contact_uri r;
             reg_user_agent := reg_user_agent r; reg_expires_at := reg_expires_at r;
             reg_source_ip := reg_source_ip r; reg_source_port := port src |}]>
             (w_registrations w)) w
      else w
  | None => w
  end.

Lemma refresh_run username domain src w :
  w_faults w = [] ->
  refresh_sender_registration_source username domain src w =
  (Val tt, refreshed w username domain src).
Proof.
  intros Hf. unfold refresh_sender_registration_source, db_registration, refreshed.
  erewrite bind_val by by rewrite query_ok. cbv beta.
  destruct (live_registration w username domain) as [r|] eqn:Hr; [|done].
  destruct (should_refresh_registration_source _ _ _); [|done].
  rewrite query_ok by done. unfold update_source_port, modify. rewrite Hr.
  by rewrite bool_decide_eq_true_2.
Qed.

(** Media of a plain call, without the monad: the offer for the callee and the relay after. *)
Definition relay_offer (w : World) (cid bd : str) : option str * MediaRelay :=
  let media := parse_sdp_media_sections bd in
  if Str.is_empty bd || negb (existsb md_active media) then (None, w_media_relay w)
  else match allocate_session_for_media (w_now w) (ports_outside_relay w) cid media
               (w_media_relay w) with
    | (Ok ports, m) => (Some (rewrite_sdp_media bd (mr_public_ip m)
                         (map (fun p => (mp_media_index p, mp_relay_port_a p)) ports)), m)
    | (Err _, m) => (None, m)
    end.

Lemma relay_media_run cid bd w :
  relay_media cid bd w = (Val (relay_offer w cid bd).1, set_media_relay (relay_offer w cid bd).2 w).
Proof.
  unfold relay_media, relay_offer. destruct (Str.is_empty bd); cbn [orb].
  { by destruct w. }
  destruct (existsb md_active _); cbn [negb]; [|by destruct w].
  unfold relay_allocate, mbind, M_bind.
  destruct (allocate_session_for_media _ _ _ _ _) as [[ports|e] m]; reflexivity.
Qed.

Definition send_effect (text : str) (target : SocketAddr) (w : World) : World :=
  set_outbox (w_outbox w ++ [{| out_dst := target;
    out_stream := default false (w_registry w !! target); out_text := text |}]) w.

Lemma send_sip_run text target w :
  w_faults w = [] -> send_sip text target w = (Val tt, send_effect text target w).
Proof.
  intros Hf. unfold send_sip, registry_send, udp_send, send_effect, emit, fault, mbind, M_bind, gets,
    modify. destruct (w_registry w !! target) as [[]|]; cbn; rewrite ?Hf; reflexivity.
Qed.

(** The call needs no WebRTC bridge. *)
Definition plain_call (w : World) (r : Registration) (target : SocketAddr) (bd : str) : bool :=
  negb (is_webrtc_sdp bd) &&
  negb (bool_decide (is_Some (w_registry w !! target)) &&
        should_bridge_plain_sip_to_websocket_target (contact_uri r) bd).

Section forwarding.
Context (cfg : Config) `{!Digests, !HeaderOrder, !Bcrypt, !WebRtc}.

Lemma plain_call_media w r target cid bd w1 :
  plain_call w r target bd = true ->
  invite_media cfg cid (contact_uri r) bd (bool_decide (is_Some (w_registry w !! target))) w1 =
  relay_media cid bd w1.
Proof.
  unfold plain_call, invite_media, should_preserve_webrtc_sdp_for_target. intros Hp.
  apply andb_true_iff in Hp as [Hw Hb]. apply negb_true_iff in Hw, Hb.
  by rewrite Hb, Hw, !andb_false_r.
Qed.

(** The state from which the INVITE is forwarded. *)
Definition invite_start (w : World) (msg : SipMessage) (src : SocketAddr) : World :=
  refreshed (set_invite_guard (is_blocked (w_now w) (show_ip (ip src)) (w_invite_guard w)).2 w)
    (invite_caller msg) (sip_domain cfg) src.

Lemma refreshed_keeps {T} (f : World -> T) w u d src :
  (forall v w, f (set_registrations v w) = f w) -> f (refreshed w u d src) = f w.
Proof. intros Hf. unfold refreshed. repeat case_match; rewrite ?Hf; done. Qed.

Lemma handle_invite_admitted msg src w r :
  w_faults w = [] -> admitted cfg w msg src = true ->
  live_registration (invite_start w msg src) (invite_callee msg) (sip_domain cfg) = Some r ->
  handle_invite cfg msg src w =
  forward_invite cfg msg src (invite_caller msg) (invite_callee msg) r (invite_start w msg src).
Proof.
  unfold admitted, well_addressed, known_caller, handle_invite. intros Hf Ha Hr.
  rewrite !andb_true_iff, !negb_true_iff in Ha. destruct Ha as [[[-> ->] Hb] [-> Hacc]].
  rewrite (bind_val _ _ _ _ _ (invite_guard_run _ w)). fold (invite_blocked w src). rewrite Hb.
  unfold db_account_exists. erewrite bind_val by by rewrite query_ok. cbv beta.
  match goal with |- context [account_enabled ?w1 _ _] =>
    assert (account_enabled w1 (invite_caller msg) (sip_domain cfg) = true) as -> by exact Hacc end.
  cbn [negb]. rewrite (bind_val _ _ _ _ _ (refresh_run _ _ _ (set_invite_guard _ w) Hf)).
  unfold db_registration. fold (invite_start w msg src).
  assert (w_faults (invite_start w msg src) = []) as Hf'
    by (unfold invite_start; by rewrite refreshed_keeps).
  erewrite bind_val by by rewrite query_ok. cbv beta. by rewrite Hr.
Qed.

Definition forwarded_text (msg : SipMessage) (r : Registration) (target : SocketAddr)
    (offer : option str) : str :=
  build_forwarded_invite_for_target msg
    (registered_target_uri (invite_callee msg) (contact_uri r) target) (max_forwards msg - 1)
    (sip_domain cfg) offer.

Lemma forward_invite_run msg src r target w :
  let cid := default "" (call_id msg) in
  let '(offer, relay) := relay_offer w cid (body msg) in
  w_faults w = [] ->
  parse_addr (addr_text (reg_source_ip r) (reg_source_port r)) = Some target ->
  plain_call w r target (body msg) = true -> cid <> [] -> invite_callee msg <> [] ->
  exists w', forward_invite cfg msg src (invite_caller msg) (invite_callee msg) r w =
      (Val (build (base_response msg 100 "Trying")), w') /\
    w_outbox w' = w_outbox w ++ [{| out_dst := target;
      out_stream := default false (w_registry w !! target);
      out_text := forwarded_text msg r target offer |}] /\
    w_media_relay w' = relay /\
    w_pending_dialogs w' = <[cid := src]> (w_pending_dialogs w) /\
    w_active_dialogs w' = <[cid := {| caller_addr := src; callee_addr := target;
      caller_is_stream := bool_decide (is_Some (w_registry w !! src));
      callee_is_stream := bool_decide (is_Some (w_registry w !! target)) |}]> (w_active_dialogs w) /\
    (call_status <$> w_calls w' !! cid) = Some "trying" /\
    (match enabled_box (invite_callee msg) (sip_domain cfg) w with
     | Some _ => exists id, w_no_answer w' !! cid = Some (Ringing id)
     | None => w_no_answer w' = w_no_answer w
     end).
Proof.
  cbv zeta. destruct (relay_offer w _ (body msg)) as [offer relay] eqn:Eo.
  intros Hf Ht Hp Hcid Hcallee. unfold forward_invite. cbv zeta.
  unfold lookup_enabled_box. rewrite bind_assoc.
  erewrite bind_val by (unfold attempt; by rewrite query_ok). cbv beta.
  rewrite bind_ret. cbn [mjoin option_join id]. rewrite Ht.
  unfold registry_contains. rewrite !bind_gets.
  erewrite bind_val by (eapply ignore_ok; by rewrite query_ok). unfold note_pending, note_invite, note_active. rewrite !bind_modify.
  set (w2 := set_active_dialogs _ _).
  erewrite bind_val by (rewrite (plain_call_media w) by done; apply relay_media_run).
  assert (relay_offer w2 (default "" (call_id msg)) (body msg) = (offer, relay)) as -> by exact Eo.
  cbn [fst snd]. fold (forwarded_text msg r target offer).
  rewrite (bind_val _ _ _ _ _ (send_sip_run _ _ (set_media_relay relay w2) Hf)).
  destruct (enabled_box _ _ w) as [box|] eqn:Ebox.
  - unfold start_no_answer_timer. cbn [na_msg na_callee].
    destruct (default "" (call_id msg)) as [|c cid] eqn:Ecid; [done|].
    destruct (invite_callee msg) as [|d callee]; [done|]. cbn [Str.is_empty orb].
    rewrite bind_modify. eexists. split; [reflexivity|]. cbn -[forwarded_text].
    rewrite !lookup_insert_eq. split_and!; try done; [|by eauto].
    by destruct (w_calls w !! _).
  - eexists. split; [reflexivity|]. cbn -[forwarded_text].
    rewrite !lookup_insert_eq. split_and!; try done. by destruct (w_calls w !! _).
Qed.

End forwarding.

(** ** Ending a call *)

(** Nothing of the call [cid] is left among the dialogs, the pending responses and the media
    sessions, and no other call is touched. *)
Definition call_gone (cid : str) (w w' : World) : Prop :=
  w_active_dialogs w' = delete cid (w_active_dialogs w) /\
  w_pending_dialogs w' = delete cid (w_pending_dialogs w) /\
  w_gateway w' = delete cid (w_gateway w) /\
  w_media_relay w' = remove_session cid (w_media_relay w).

Section ending.
Context (cfg : Config) `{!Digests, !HeaderOrder}.

Definition call_stores (w : World) :=
  (w_active_dialogs w, w_pending_dialogs w, w_gateway w, w_media_relay w).

Lemma send_keeps_stores text a : moves (same call_stores) (ignore (send_sip text a)).
Proof. solve_frame. Qed.

Lemma forward_by_uri_keeps msg : moves (same call_stores) (forward_by_uri cfg msg).
Proof. solve_frame. Qed.

Lemma cancel_timer_run cid w :
  exists c ts ta, cancel_no_answer_timer cid w = (Val c, set_tasks ta (set_no_answer ts w)).
Proof. unfold cancel_no_answer_timer. destruct (cancel_timer _ _) as [[h r] ts]. eauto. Qed.

Lemma caller_cancel_run cid w :
  exists c ts ta,
    cancel_no_answer_timer_for_caller_cancel cid w = (Val c, set_tasks ta (set_no_answer ts w)).
Proof.
  unfold cancel_no_answer_timer_for_caller_cancel.
  destruct (cancel_timer_for_caller_cancel _ _) as [[h r] ts]. eauto.
Qed.

(** A write of the call table, unless the database fails. *)
Lemma calls_write_run (f : World -> gmap str CallRow) w :
  exists v cs, ignore (query (modify (fun w => set_calls (f w) w))) w =
      (Val tt, set_faults v (set_calls cs w)) /\
    (w_faults w = [] -> v = [] /\ cs = f w).
Proof.
  unfold ignore, attempt, query, fault, modify, mbind, M_bind.
  destruct (w_faults w) as [|[] v] eqn:E; simpl.
  - exists [], (f w). split; [|done]. f_equal. destruct w; simpl in *. by subst.
  - exists v, (w_calls w). split; [|done]. by destruct w.
  - exists v, (f (set_faults v w)). split; [|done]. by destruct w.
Qed.

Lemma bye_keeps_invites msg src : moves (same w_pending_invites) (handle_bye cfg msg src).
Proof.
  unfold handle_bye. cbv zeta. apply moves_bind; [|intros; solve_frame].
  intros w. destruct (cancel_timer_run (default "" (call_id msg)) w) as (c & ts & ta & ->). done.
Qed.

(** C7: a BYE ends the call whoever sends it and whatever fails: it is answered 200, the dialog,
    the pending response route, the relay session and the WebRTC session of its Call-ID are
    gone, those of every other call stay; the copy of its INVITE kept for busy callees is not
    removed; and when the call was known and the network works,
    the BYE goes to the other party, and only there. *)
Theorem bye_ends_call msg src w :
  let cid := default "" (call_id msg) in
  exists w', handle_bye cfg msg src w = (Val (build (base_response msg 200 "OK")), w') /\
    call_gone cid w w' /\ w_pending_invites w' = w_pending_invites w /\
    (w_faults w = [] -> forall d, w_active_dialogs w !! cid = Some d ->
       w_outbox w' = w_outbox w ++ [{| out_dst := other_party src d;
         out_stream := default false (w_registry w !! other_party src d); out_text := raw msg |}] /\
       w_calls w' = w_calls (mark_call_over "ended" cid w).2).
Proof.
  cbv zeta. set (cid := default "" (call_id msg)).
  assert (returns (handle_bye cfg msg src) (build (base_response msg 200 "OK"))) as Hret.
  { unfold handle_bye. solve_returns. }
  specialize (Hret w). destruct (handle_bye cfg msg src w) as [res w'] eqn:E. cbn in Hret. subst res.
  assert (w_pending_invites w' = w_pending_invites w) as Hinv.
  { pose proof (bye_keeps_invites msg src w) as Hi. by rewrite E in Hi. }
  exists w'. split; [done|]. cut (call_gone cid w w' /\ (w_faults w = [] -> forall d, w_active_dialogs w !! cid = Some d ->
     w_outbox w' = w_outbox w ++ [{| out_dst := other_party src d;
       out_stream := default false (w_registry w !! other_party src d); out_text := raw msg |}] /\
     w_calls w' = w_calls (mark_call_over "ended" cid w).2)); [by intros []|]. clear Hinv. revert E. unfold handle_bye. cbv zeta. fold cid.
  destruct (cancel_timer_run cid w) as (c & ts & ta & Hc). rewrite (bind_val _ _ _ _ _ Hc).
  unfold mark_call_over at 1.
  match goal with |- context [ignore (query (modify (fun w => set_calls (@?f w) w)))] =>
    destruct (calls_write_run f (set_tasks ta (set_no_answer ts w))) as (v & cs & Hw & Hok) end.
  rewrite (bind_val _ _ _ _ _ Hw). unfold dialog_target, drop_active, drop_pending, relay_remove,
    gateway_remove. rewrite bind_gets, !bind_modify.
  set (w2 := set_gateway _ _).
  assert (call_stores w2 = (delete cid (w_active_dialogs w), delete cid (w_pending_dialogs w),
    delete cid (w_gateway w), remove_session cid (w_media_relay w))) as Hs by done.
  match goal with |- (?m w2 = _ -> _) => assert (moves (same call_stores) m) as Hm end.
  { apply moves_bind; [|intros; apply moves_ret].
    destruct (_ <$> _); [apply send_keeps_stores|apply forward_by_uri_keeps]. }
  specialize (Hm w2). unfold same in Hm. rewrite Hs in Hm. intros E. split.
  - rewrite E in Hm. unfold call_stores in Hm. cbn [snd] in Hm. by simplify_eq.
  - intros Hf d Hd. destruct (Hok Hf) as [-> ->]. revert E. cbn [w_active_dialogs set_faults set_calls
      set_tasks set_no_answer]. rewrite Hd. cbn [fmap option_fmap option_map].
    erewrite bind_val by (eapply ignore_ok, send_sip_run; done).
    intros [= <-]. cbn. done.
Qed.

Definition forwarded_cancel (w : World) (msg : SipMessage) (target : SocketAddr) : str :=
  build_forwarded_cancel_for_target msg (cancel_target_uri cfg msg (contact_at w target))
    (Int.sat_sub (max_forwards msg) 1) (sip_domain cfg).

(** CANCEL likewise: 200, nothing of the call left; to the callee of a known call goes a CANCEL
    for the contact registered at its address. *)
Lemma cancel_ends_call msg w :
  let cid := default "" (call_id msg) in
  exists w', handle_cancel cfg msg w = (Val (build (base_response msg 200 "OK")), w') /\
    call_gone cid w w' /\
    (w_faults w = [] -> forall d, w_active_dialogs w !! cid = Some d ->
       w_outbox w' = w_outbox w ++ [{| out_dst := callee_addr d;
         out_stream := default false (w_registry w !! callee_addr d);
         out_text := forwarded_cancel w msg (callee_addr d) |}] /\
       w_calls w' = w_calls (mark_call_over "cancelled" cid w).2).
Proof.
  cbv zeta. set (cid := default "" (call_id msg)).
  assert (returns (handle_cancel cfg msg) (build (base_response msg 200 "OK"))) as Hret.
  { unfold handle_cancel. solve_returns. }
  specialize (Hret w). destruct (handle_cancel cfg msg w) as [res w'] eqn:E. cbn in Hret. subst res.
  exists w'. split; [done|]. revert E. unfold handle_cancel. cbv zeta. fold cid.
  destruct (caller_cancel_run cid w) as (c & ts & ta & Hc). rewrite (bind_val _ _ _ _ _ Hc).
  unfold mark_call_over at 1.
  match goal with |- context [ignore (query (modify (fun w => set_calls (@?f w) w)))] =>
    destruct (calls_write_run f (set_tasks ta (set_no_answer ts w))) as (v & cs & Hw & Hok) end.
  rewrite (bind_val _ _ _ _ _ Hw). rewrite bind_gets.
  set (w1 := set_faults v _).
  match goal with |- ((?m ≫= ?k) w1 = _ -> _) =>
    assert (moves (same call_stores) m /\ total m) as [Hm Ht] end.
  { split; [|solve_total]. destruct (_ <$> _); [|apply moves_ret].
    apply moves_bind; [solve_frame|intros; apply send_keeps_stores]. }
  specialize (Hm w1). destruct (Ht w1) as ([] & w2 & E2). rewrite E2 in Hm.
  rewrite (bind_val _ _ _ _ _ E2). unfold drop_active, drop_pending, relay_remove, gateway_remove.
  rewrite !bind_modify. intros [= <-]. split.
  - unfold same, call_stores in Hm. cbn in Hm. injection Hm as H1 H2 H3 H4.
    unfold call_gone. cbn. rewrite H1, H2, H3, H4. done.
  - intros Hf d Hd. destruct (Hok Hf) as [-> ->]. revert E2. subst w1.
    cbn [w_active_dialogs set_faults set_calls set_tasks set_no_answer]. rewrite Hd.
    cbn [fmap option_fmap option_map].
    erewrite bind_val by (unfold attempt; by rewrite query_ok). cbn [mjoin option_join id].
    intros E2. erewrite ignore_ok in E2 by by apply send_sip_run. injection E2 as <-. done.
Qed.
End ending.

(** ** ACK *)

(** An ACK records its call as answered whatever became of it: also a call that was refused or
    cancelled, whose caller acknowledges the final response, and one that is over. *)
Theorem ack_marks_answered cfg msg w :
  w_faults w = [] ->
  let cid := default "" (call_id msg) in
  call_status <$> w_calls (handle_ack cfg msg w).2 !! cid = (fun _ => "answered") <$> w_calls w !! cid.
Proof.
  intros Hf. cbv zeta. unfold handle_ack. cbv zeta. set (cid := default "" (call_id msg)).
  destruct (cancel_timer_run cid w) as (c & ts & ta & Hc). rewrite (bind_val _ _ _ _ _ Hc).
  erewrite bind_val by (eapply ignore_ok; by rewrite query_ok). cbv beta. rewrite bind_gets.
  match goal with |- _ <$> w_calls (?m ?w1).2 !! _ = _ =>
    assert (moves (same w_calls) m) as Hm by (destruct (_ <$> _); solve_frame); rewrite (Hm w1) end.
  cbn. rewrite lookup_alter_eq. by destruct (w_calls w !! cid).
Qed.

(** ** Registrations *)

Definition with_port (r : Registration) (p : Z) : Registration :=
  {| contact_uri := contact_uri r; reg_user_agent := reg_user_agent r;
     reg_expires_at := reg_expires_at r; reg_source_ip := reg_source_ip r; reg_source_port := p |}.

(** At most the port of the binding [key] changed, to that of [src], and the binding came from
    the same address. *)
Definition port_refreshed (key : str * str) (src : SocketAddr) : relation World := fun w w' =>
  forall k, w_registrations w' !! k = w_registrations w !! k \/
    k = key /\ exists r, w_registrations w !! k = Some r /\
      parse_ip (reg_source_ip r) = Some (ip src) /\
      w_registrations w' !! k = Some (with_port r (port src)).

#[export] Instance port_refreshed_io key src : IoFrame (port_refreshed key src).
Proof.
  split; [split|..].
  - intros w k. by left.
  - intros w1 w2 w3 H12 H23 k. destruct (H23 k) as [->|(-> & r & Hr & Hi & Hr3)]; [apply H12|].
    destruct (H12 key) as [E|(_ & r0 & Hr0 & Hi0 & Hr2)].
    + rewrite E in Hr. right. by eauto.
    + right. split; [done|]. exists r0. split_and!; [done..|]. rewrite Hr2 in Hr. by simplify_eq.
  - intros v w k. by left.
  - intros v w k. by left.
Qed.

Lemma port_refreshed_same {A} key src (m : M A) :
  moves (same w_registrations) m -> moves (port_refreshed key src) m.
Proof. intros Hm w k. left. by rewrite (Hm w). Qed.

Lemma refresh_refreshes u d src :
  moves (port_refreshed (u, d) src) (refresh_sender_registration_source u d src).
Proof.
  intros w. unfold refresh_sender_registration_source, db_registration.
  destruct (query_gets_cases (fun w => live_registration w u d) w) as [v [Hq|[e Hq]]];
    [rewrite (bind_val _ _ _ _ _ Hq)|rewrite (bind_fail _ _ _ _ _ Hq); apply io_faults].
  destruct (live_registration (set_faults v w) u d) as [r|] eqn:Hr; [|apply io_faults].
  destruct (should_refresh_registration_source _ _ _) eqn:Hs; [|apply io_faults].
  unfold query, fault, update_source_port, modify, mbind, M_bind. cbn.
  destruct v as [|[] v']; cbn; [|intros k; by left|].
  all: unfold live_registration in *; cbn in *; destruct (w_registrations w !! (u, d)) as [r0|] eqn:E;
    [|done]; case_match; simplify_eq; rewrite bool_decide_eq_true_2 by done; intros k; cbn;
    destruct (decide (k = (u, d))) as [->|Hk]; [right|left; by rewrite lookup_insert_ne];
    split; [done|]; exists r; rewrite lookup_insert_eq; split_and!; [done| |done];
    unfold should_refresh_registration_source in Hs; destruct (parse_ip _); bool_simpl; by subst.
Qed.

Section registrations.
Context (cfg : Config) `{!Digests, !HeaderOrder, !Bcrypt, !WebRtc}.

Lemma invite_media_core cid c bd s : moves (same w_registrations) (invite_media cfg cid c bd s).
Proof. solve_frame. Qed.

Lemma forward_invite_regs msg src caller callee r :
  moves (same w_registrations) (forward_invite cfg msg src caller callee r).
Proof. unfold forward_invite. solve_frame. Qed.

Lemma invite_regs msg src :
  moves (port_refreshed (invite_caller msg, sip_domain cfg) src) (handle_invite cfg msg src).
Proof.
  unfold handle_invite. cbv zeta. destruct (Str.is_empty _); [apply moves_ret|].
  destruct (max_forwards msg =? 0); [apply moves_ret|].
  apply moves_bind; [apply port_refreshed_same; solve_frame|]. intros []; [apply moves_ret|].
  destruct (bool_decide _); [apply port_refreshed_same; solve_frame|].
  apply moves_bind; [apply port_refreshed_same; solve_frame|]. intros [].
  2: { cbn [negb]. apply port_refreshed_same; solve_frame. }
  cbn [negb]. apply moves_bind; [apply refresh_refreshes|]. intros _.
  apply port_refreshed_same. apply moves_bind; [solve_frame|]. intros [r|];
    [apply forward_invite_regs|]. apply moves_bind; [solve_frame|]. intros [b|]; [|apply moves_ret].
  intros w. pose proof (delivery_invite_core cfg msg (invite_callee msg) w) as Hd.
  unfold same, core in Hd. by injection Hd.
Qed.

Lemma message_regs msg src :
  moves (port_refreshed (default "" (header_user (from_header msg)), sip_domain cfg) src)
    (handle_message cfg msg src).
Proof.
  unfold handle_message. cbv zeta. destruct (Str.is_empty _); [apply moves_ret|].
  apply moves_bind; [apply port_refreshed_same; solve_frame|]. intros [];
    [|apply moves_ret].
  cbn [negb]. apply moves_bind; [apply refresh_refreshes|]. intros _.
  apply port_refreshed_same. solve_frame.
Qed.

Lemma ack_regs msg : moves (same w_registrations) (handle_ack cfg msg).
Proof. solve_frame. Qed.
Lemma bye_regs msg src : moves (same w_registrations) (handle_bye cfg msg src).
Proof. solve_frame. Qed.
Lemma cancel_regs msg : moves (same w_registrations) (handle_cancel cfg msg).
Proof. solve_frame. Qed.
Lemma refer_regs msg src : moves (same w_registrations) (handle_refer msg src).
Proof. solve_frame. Qed.
Lemma in_dialog_regs msg src : moves (same w_registrations) (forward_in_dialog msg src).
Proof. solve_frame. Qed.
End registrations.

(** ** Examples *)

#[local] Existing Instances toy_digests list_order toy_bcrypt toy_webrtc.

Definition bob_addr : SocketAddr := {| ip := V4 203 0 113 77; port := 5070 |}.

(** Bob is registered. *)
Definition bob_world : World :=
  set_registrations {[ ("bob", "sip.example.com") := {| contact_uri := "sip:bob@10.0.0.7:5070";
    reg_user_agent := ""; reg_expires_at := 1700003600; reg_source_ip := "203.0.113.77";
    reg_source_port := 5070 |} ]} sample_world.

Definition call_text (first caller : str) : str := render first
  [("Via", "SIP/2.0/UDP 198.51.100.7:5062;branch=z9hG4bK1");
   ("From", "<sip:" ++ caller ++ "@sip.example.com>;tag=1"); ("To", "<sip:bob@sip.example.com>");
   ("Call-ID", "c1"); ("CSeq", "1 INVITE")] [].

Definition call_invite (caller : str) : SipMessage :=
  message_of (call_text "INVITE sip:bob@sip.example.com SIP/2.0" caller).

Definition call_bye : SipMessage := message_of (call_text "BYE sip:bob@sip.example.com SIP/2.0" "alice").

Lemma invite_admission_witness :
  exists r w', handle_invite sample_config
    (call_invite "mallory") sample_src bob_world = (r, w') /\ w_outbox w' = [] /\
    w_active_dialogs w' = ∅.
Proof.
  destruct (handle_invite sample_config
    (call_invite "mallory") sample_src bob_world) as [r w'] eqn:E.
  destruct (invite_admission sample_config _ _ _ _ _ E)
    as (Hc & _); [by_decide|].
  exists r, w'. split; [done|]. injection Hc as. done.
Defined.


Definition dialog_world : World :=
  set_active_dialogs {[ "c1" := {| caller_addr := sample_src; callee_addr := bob_addr;
    caller_is_stream := false; callee_is_stream := false |} ]} bob_world.

(** Alice hangs up: Bob is told. *)
Lemma bye_ends_call_example :
  map out_dst (w_outbox (handle_bye sample_config call_bye sample_src dialog_world).2) = [bob_addr].
Proof. vm_compute. reflexivity. Qed.
