(* ===== verification/Portal.v ===== *)
(** * The users' portal: [backend/src/api/messages.rs], [backend/src/api/turn.rs]

    The endpoints a phone or a browser calls with the password of its account: the history of
    its messages and temporary credentials for the TURN server. *)

From S2P Require Import Prelude RustStr Net Message Response Forward SecurityGuard Acl Storage.
From S2P Require Import Sdp Media World Gateway Voicemail HttpApi Accounts Frames Proxy.

Open Scope str_scope.
Open Scope Z_scope.
Open Scope api_scope.

(** ** Credentials *)

(** [SELECT ha1_hash FROM sip_accounts WHERE username = ? AND domain = ? AND enabled = 1] into
    a [String]: a NULL does not decode. *)
Definition stored_ha1 (username domain : str) : M (option str) := fun w =>
  match w_accounts w !! (username, domain) with
  | Some a =>
      if ac_enabled a =? 1 then
        match ac_ha1_hash a with
        | Some h => (Val (Some h), w)
        | None => (Fail "unexpected null", w)
        end
      else (Val None, w)
  | None => (Val None, w)
  end.

(** The digest of what the client sent against the stored one. *)
Definition check_ha1 (username domain computed : str) : M (Api unit) :=
  stored <-? db (stored_ha1 username domain);
  match stored with
  | Some h => if bool_decide (h = computed) then mret (inl tt) else api_err 401 "Invalid credentials"
  | None => api_err 401 "Invalid credentials"
  end.

(** ** Messages *)

Record MessageHistoryRequest := {
  mh_username : str;
  mh_password : str;
  mh_domain : option str;
  mh_peer : option str;
  mh_limit : option Z;
  mh_offset : option Z;
}.

Record MessagesQuery := {
  mq_sender : option str;
  mq_receiver : option str;
  mq_status : option str;
  mq_since : option Z;
  mq_limit : option Z;
  mq_offset : option Z;
}.

(** [ORDER BY created_at DESC]; among equal times the later row first. *)
Definition newer_message (a b : MessageRow) : Prop := mr_created_at b <= mr_created_at a.

#[export] Instance newer_message_dec : RelDecision newer_message.
Proof. intros a b. unfold newer_message. apply _. Defined.

(** [SELECT .. WHERE p ORDER BY created_at DESC] *)
Definition select_messages (p : MessageRow -> bool) (w : World) : list MessageRow :=
  merge_sort newer_message (reverse (filter (fun m => p m = true) (w_messages w))).

(** [LIMIT ? OFFSET ?] *)
Definition page {A} (limit offset : Z) (rows : list A) : list A :=
  take (Z.to_nat limit) (drop (Z.to_nat offset) rows).

Definition concerns (aor : str) (m : MessageRow) : bool :=
  bool_decide (mr_sender m = aor) || bool_decide (mr_receiver m = aor).

Definition between (a b : str) (m : MessageRow) : bool :=
  (bool_decide (mr_sender m = a) && bool_decide (mr_receiver m = b)) ||
  (bool_decide (mr_sender m = b) && bool_decide (mr_receiver m = a)).

Section messages.
Context (cfg : Config) `{Digests}.

Definition verify_sip_credentials (username password domain : str) : M (Api unit) :=
  check_ha1 username domain (compute_ha1 cfg username password).

(** The conversation that is asked for. *)
Definition history_filter (self_aor : str) (peer : option str) : Api (MessageRow -> bool) :=
  match Str.trim <$> peer with
  | Some peer =>
      if Str.is_empty peer then inr (400, "peer cannot be empty")
      else inl (between self_aor (peer ++ "@" ++ sip_domain cfg))
  | None => inl (concerns self_aor)
  end.

(** (rows, limit, offset) *)
Definition history (bd : MessageHistoryRequest) : M (Api (list MessageRow * Z * Z)) :=
  if Str.is_empty (mh_username bd) || Str.is_empty (mh_password bd)
  then api_err 400 "username and password are required"
  else
    let limit := Z.min (default 50 (mh_limit bd)) 200 in
    let offset := default 0 (mh_offset bd) in
    let account_domain := default (sip_domain cfg) (mh_domain bd) in
    _ <-? verify_sip_credentials (mh_username bd) (mh_password bd) account_domain;
    let self_aor := mh_username bd ++ "@" ++ sip_domain cfg in
    p <-? mret (history_filter self_aor (mh_peer bd));
    rows <-? db (gets (fun w => page limit offset (select_messages p w)));
    mret (inl (rows, limit, offset)).
End messages.

Definition message_listed (q : MessagesQuery) (m : MessageRow) : bool :=
  from_option (fun s => like_anywhere s (mr_sender m)) true (mq_sender q) &&
  from_option (fun s => like_anywhere s (mr_receiver m)) true (mq_receiver q) &&
  from_option (fun s => bool_decide (mr_status m = s)) true (mq_status q) &&
  from_option (fun t => t <=? mr_created_at m) true (mq_since q).

Definition list_messages (q : MessagesQuery) : M (Api (list MessageRow * Z * Z)) :=
  let limit := Z.min (default 100 (mq_limit q)) 500 in
  let offset := default 0 (mq_offset q) in
  rows <-? db (gets (fun w => page limit offset (select_messages (message_listed q) w)));
  mret (inl (rows, limit, offset)).

(** ** TURN *)

(** The HMAC of the sha1 crate in base64, and a TCP connection within two seconds. *)
Class TurnIo := {
  hmac_sha1_base64 : str -> str -> str;
  check_tcp_reachable : SocketAddr -> bool;
}.

Record TurnCredentials := {
  tc_username : str;
  tc_password : str;
  tc_ttl : Z;
  tc_uris : list str;
}.

Section turn.
Context (cfg : Config) `{Digests} `{TurnIo}.

Definition turn_auth_realm : str :=
  if Str.is_empty (turn_realm cfg) then auth_realm cfg else turn_realm cfg.

Definition turn_uris : list str :=
  if Str.is_empty (turn_server cfg) then
    ["stun:" ++ public_ip cfg ++ ":3478"; "turn:" ++ public_ip cfg ++ ":3478?transport=udp";
     "turn:" ++ public_ip cfg ++ ":3478?transport=tcp"]
  else map Str.trim (Str.split_char "," (turn_server cfg)).

Definition credentials (username password : str) : M (Api TurnCredentials) :=
  if Str.is_empty (turn_secret cfg) then api_err 503 "TURN service not configured"
  else if Str.is_empty username || Str.is_empty password
  then api_err 400 "username and password are required"
  else
    _ <-? check_ha1 username turn_auth_realm
            (md5_hex (username ++ ":" ++ turn_auth_realm ++ ":" ++ password));
    now ← unix_secs;
    let expires := (now + turn_ttl_secs cfg) mod 2 ^ 64 in
    let turn_username := Str.show_dec expires ++ ":" ++ username in
    mret (inl {| tc_username := turn_username;
                 tc_password := hmac_sha1_base64 (turn_secret cfg) turn_username;
                 tc_ttl := turn_ttl_secs cfg; tc_uris := turn_uris |}).

Definition strip_turn_scheme (uri : str) : str :=
  Str.trim_start_matches "turns:" (Str.trim_start_matches "stun:"
    (Str.trim_start_matches "turn:" uri)).

(** [uri.rfind(':')] *)
Definition split_port (uri : str) : str * str :=
  match Str.split_once ":" (reverse uri) with
  | Some (port, host) => (reverse host, reverse port)
  | None => (uri, "3478")
  end.

Definition parse_turn_uri (uri : str) : option SocketAddr :=
  let '(host, port) := split_port (strip_turn_scheme uri) in
  port ← Str.parse_u16 port;
  parse_addr (host ++ ":" ++ Str.show_dec port).

Definition turn_servers : list str :=
  if Str.is_empty (turn_server cfg) then [public_ip cfg ++ ":3478"; public_ip cfg ++ ":5349"]
  else map Str.trim (Str.split_char "," (turn_server cfg)).

(** (enabled, servers, reachable) *)
Definition turn_health : bool * list str * bool :=
  let enabled := negb (Str.is_empty (turn_secret cfg)) in
  (enabled, turn_servers,
   enabled && existsb (fun s => from_option check_tcp_reachable false (parse_turn_uri s)) turn_servers).
End turn.

(** ** Facts: credentials *)

(** The account is enabled and its stored digest is this one. *)
Definition ha1_matches (w : World) (username domain computed : str) : bool :=
  match w_accounts w !! (username, domain) with
  | Some a => (ac_enabled a =? 1) && bool_decide (ac_ha1_hash a = Some computed)
  | None => false
  end.

Lemma check_ha1_ok w u d c : w_faults w = [] -> ha1_matches w u d c = true -> check_ha1 u d c w = (Val (inl tt), w).
Proof.
  intros Hf Hm. unfold ha1_matches in Hm. destruct (w_accounts w !! (u, d)) as [a|] eqn:Ha; [|done].
  apply andb_true_iff in Hm as [He Hh%bool_decide_eq_true]. unfold check_ha1.
  erewrite api_bind_ok; [|apply db_ok; [done|]; unfold stored_ha1; by rewrite Ha, He, Hh].
  cbv beta iota. by rewrite bool_decide_eq_true_2.
Qed.

Lemma check_ha1_inv w u d c w' :
  check_ha1 u d c w = (Val (inl tt), w') ->
  exists v, w' = set_faults v w /\ ha1_matches w u d c = true.
Proof.
  unfold check_ha1. intros (h & w1 & Hdb & Hk)%api_bind_inv. apply db_inv in Hdb as [v Hst].
  unfold stored_ha1 in Hst. cbn in Hst. unfold ha1_matches.
  destruct (w_accounts w !! (u, d)) as [a|]; [|by injection Hst as <- <-].
  destruct (ac_enabled a =? 1); [|by injection Hst as <- <-].
  destruct (ac_ha1_hash a) as [h'|]; [|done]. injection Hst as <- <-.
  case_bool_decide as Hc; [|done]. injection Hk as <-. exists v. split; [done|].
  by rewrite Hc, bool_decide_eq_true_2.
Qed.

(** ** Facts: the history *)

#[export] Instance newer_message_trans : Transitive newer_message.
Proof. intros a b c. unfold newer_message. lia. Qed.
#[export] Instance newer_message_total : Total newer_message.
Proof. intros a b. unfold newer_message. lia. Qed.

Lemma select_messages_sorted p w : StronglySorted newer_message (select_messages p w).
Proof. apply StronglySorted_merge_sort; apply _. Qed.

Lemma select_messages_perm p w :
  select_messages p w ≡ₚ filter (fun m => p m = true) (w_messages w).
Proof. unfold select_messages. by rewrite (merge_sort_Permutation newer_message), reverse_Permutation. Qed.

(** The pages of a list, one after the other. *)
Lemma pages_concat {A} (l : list A) k n :
  0 <= k ->
  concat (map (fun i => page k (Z.of_nat i * k) l) (seq 0 n)) = take (n * Z.to_nat k) l.
Proof.
  intros Hk. induction n as [|n IH]; [done|].
  rewrite seq_S, map_app, concat_app, IH. cbn [map concat]. rewrite app_nil_r. cbn [Nat.add]. unfold page.
  replace (Z.to_nat (Z.of_nat n * k)) with (n * Z.to_nat k)%nat by lia.
  replace (S n * Z.to_nat k)%nat with (n * Z.to_nat k + Z.to_nat k)%nat by lia.
  by rewrite take_take_drop.
Qed.

Section portal.
Context (cfg : Config) `{!Digests}.

Definition history_credentials (w : World) (bd : MessageHistoryRequest) : bool :=
  negb (Str.is_empty (mh_username bd)) && negb (Str.is_empty (mh_password bd)) &&
  ha1_matches w (mh_username bd) (default (sip_domain cfg) (mh_domain bd))
    (compute_ha1 cfg (mh_username bd) (mh_password bd)).

Lemma history_run bd w p :
  w_faults w = [] -> history_credentials w bd = true ->
  history_filter cfg (mh_username bd ++ "@" ++ sip_domain cfg) (mh_peer bd) = inl p ->
  history cfg bd w =
    (Val (inl (page (Z.min (default 50 (mh_limit bd)) 200) (default 0 (mh_offset bd))
                 (select_messages p w),
               Z.min (default 50 (mh_limit bd)) 200, default 0 (mh_offset bd))), w).
Proof.
  intros Hf Hc Hp. unfold history_credentials in Hc.
  apply andb_true_iff in Hc as [[Hu%negb_true_iff Hpw%negb_true_iff]%andb_true_iff Hm].
  unfold history. rewrite Hu, Hpw. cbn [orb]. cbv zeta. unfold verify_sip_credentials. erewrite api_bind_ok by by apply check_ha1_ok.
  rewrite Hp. erewrite api_bind_ok by done. erewrite api_bind_ok by by apply db_ok. done.
Qed.
(** The same request for another page. *)
Definition at_offset (offset : Z) (bd : MessageHistoryRequest) : MessageHistoryRequest :=
  {| mh_username := mh_username bd; mh_password := mh_password bd; mh_domain := mh_domain bd;
     mh_peer := mh_peer bd; mh_limit := mh_limit bd; mh_offset := Some offset |}.

(** The rows of an answer. *)
Definition history_rows (r : res (Api (list MessageRow * Z * Z))) : list MessageRow :=
  match r with Val (inl (rows, _, _)) => rows | _ => [] end.

(** The history is complete and in order.  With accepted credentials and while no message
    arrives, the first [n] pages together are the first [n * limit] messages of one list: all
    messages of the user in the SIP domain (with the peer, when one is named) and no others,
    newest first.  (Rows of equal time are in one order here; SQL leaves it open.) *)
Theorem history_complete bd w p n :
  w_faults w = [] -> history_credentials w bd = true -> 0 <= default 50 (mh_limit bd) ->
  history_filter cfg (mh_username bd ++ "@" ++ sip_domain cfg) (mh_peer bd) = inl p ->
  let limit := Z.min (default 50 (mh_limit bd)) 200 in
  exists conversation,
    StronglySorted newer_message conversation /\
    conversation ≡ₚ filter (fun m => p m = true) (w_messages w) /\
    concat (map (fun i => history_rows (history cfg (at_offset (Z.of_nat i * limit) bd) w).1) (seq 0 n)) =
      take (n * Z.to_nat limit) conversation.
Proof.
  intros Hf Hc Hl Hp limit. exists (select_messages p w).
  split_and!; [apply select_messages_sorted|apply select_messages_perm|].
  rewrite <-pages_concat by lia. f_equal. apply map_ext. intros i.
  by rewrite (history_run (at_offset (Z.of_nat i * limit) bd) w p).
Qed.

(** The domain of the account does not reach the query.  Whoever has an account of the same
    name in another domain reads, with his own password, exactly what the user of the
    server's own domain reads. *)
Theorem history_namesake bd w p domain password :
  w_faults w = [] ->
  history_credentials w bd = true -> mh_domain bd = None ->
  history_filter cfg (mh_username bd ++ "@" ++ sip_domain cfg) (mh_peer bd) = inl p ->
  let namesake := {| mh_username := mh_username bd; mh_password := password;
                     mh_domain := Some domain; mh_peer := mh_peer bd; mh_limit := mh_limit bd;
                     mh_offset := mh_offset bd |} in
  history_credentials w namesake = true -> domain <> sip_domain cfg ->
  history cfg namesake w = history cfg bd w.
Proof.
  intros Hf Hc _ Hp namesake Hn _.
  by rewrite (history_run bd w p), (history_run namesake w p).
Qed.

(** *** From a MESSAGE to the history *)

Definition message_sender (msg : SipMessage) : str := default "" (header_user (from_header msg)).

(** The row of a MESSAGE. *)
Definition message_row (msg : SipMessage) (src : SocketAddr) (status : str) (now : Z) : MessageRow :=
  {| mr_message_id := header msg "message-id"; mr_call_id := call_id msg;
     mr_sender := message_sender msg ++ "@" ++ sip_domain cfg;
     mr_receiver := message_callee msg ++ "@" ++ sip_domain cfg;
     mr_content_type := default "text/plain" (header msg "content-type"); mr_body := body msg;
     mr_status := status; mr_source_ip := show_ip (ip src); mr_created_at := now;
     mr_delivered_at := if bool_decide (status = "delivered") then Some now else None |}.

Lemma persist_message_run msg src status w :
  w_faults w = [] ->
  persist_message msg (message_sender msg ++ "@" ++ sip_domain cfg)
    (message_callee msg ++ "@" ++ sip_domain cfg) status (show_ip (ip src)) w =
  (Val tt, set_messages (w_messages w ++ [message_row msg src status (w_now w / 1000000000)]) w).
Proof. intros Hf. unfold persist_message, ignore, attempt, mbind, M_bind. by rewrite query_ok. Qed.

Lemma message_target_run cid callee domain src w :
  w_faults w = [] -> exists t, message_target cid callee domain src w = (Val t, w).
Proof.
  intros Hf. unfold message_target.
  assert (exists t, (if Str.is_empty cid then mret None else dialog_target cid src) w = (Val t, w))
    as [t E] by (case_match; unfold dialog_target, gets; eauto).
  rewrite (bind_val _ _ _ _ _ E). destruct t as [a|]; [by eexists|].
  unfold lookup_registered_target, db_registration, attempt, mbind, M_bind.
  rewrite query_ok by done. cbn. eauto.
Qed.

(** Was the text handed to the receiver, and what was the sender told? *)
Definition message_outcome (msg : SipMessage) (target : option SocketAddr) : str * str :=
  match target with
  | Some _ => ("delivered", build (base_response msg 200 "OK"))
  | None => ("failed", build (base_response msg 404 "Not Found"))
  end.

Lemma handle_message_run msg src w :
  w_faults w = [] -> Str.is_empty (message_sender msg) = false ->
  account_enabled w (message_sender msg) (sip_domain cfg) = true ->
  Str.is_empty (message_callee msg) = false ->
  exists target w',
    handle_message cfg msg src w = (Val (message_outcome msg target).2, w') /\
    w_messages w' =
      w_messages w ++ [message_row msg src (message_outcome msg target).1 (w_now w / 1000000000)] /\
    map (fun m => (out_dst m, out_text m)) (w_outbox w') =
      map (fun m => (out_dst m, out_text m)) (w_outbox w) ++
      from_option (fun t => [(t, raw msg)]) [] target /\
    (w_faults w', w_accounts w') = ([], w_accounts w).
Proof.
  intros Hf Hs Hacc Hc. unfold handle_message. cbv zeta. fold (message_sender msg). rewrite Hs.
  assert (db_account_exists (message_sender msg) (sip_domain cfg) w = (Val true, w)) as E
    by (unfold db_account_exists; rewrite query_ok by done; unfold gets; by rewrite Hacc).
  rewrite (bind_val _ _ _ _ _ E). cbn [negb]. clear E.
  erewrite bind_val by by apply refresh_run. rewrite Hc.
  set (w1 := refreshed _ _ _ _).
  assert (forall T (f : World -> T), (forall v w, f (set_registrations v w) = f w) -> f w1 = f w) as Hk
    by (intros; by apply refreshed_keeps).
  assert (w_faults w1 = []) as Hf1 by (by rewrite (Hk _ w_faults)).
  destruct (message_target_run (default "" (call_id msg)) (message_callee msg) (sip_domain cfg) src w1
    Hf1) as [t Et].
  rewrite (bind_val _ _ _ _ _ Et). destruct t as [t|].
  - assert (attempt (send_sip (raw msg) t) w1 = (Val (Some tt), send_effect (raw msg) t w1)) as E
      by (unfold attempt; by rewrite send_sip_run).
    rewrite (bind_val _ _ _ _ _ E). erewrite bind_val by by apply persist_message_run.
    exists (Some t). eexists. split; [reflexivity|]. cbn -[message_row].
    rewrite map_app, Hf1, (Hk _ w_messages), (Hk _ w_outbox), (Hk _ w_accounts), (Hk _ w_now); done.
  - erewrite bind_val by by apply persist_message_run. exists None. eexists. split; [reflexivity|].
    cbn -[message_row].
    rewrite Hf1, app_nil_r, (Hk _ w_messages), (Hk _ w_outbox), (Hk _ w_accounts), (Hk _ w_now); done.
Qed.
(** A message newer than all others is the first of the list. *)
Lemma select_newest p w rows m :
  w_messages w = rows ++ [m] -> p m = true ->
  Forall (fun r => mr_created_at r < mr_created_at m) rows ->
  exists l, select_messages p w = m :: l.
Proof.
  intros Hw Hm Hold. pose proof (select_messages_sorted p w) as Hs.
  pose proof (select_messages_perm p w) as Hp. rewrite Hw in Hp.
  assert (m ∈ select_messages p w) as Hin.
  { rewrite Hp, list_elem_of_filter, elem_of_app. split; [done|right]. by apply list_elem_of_singleton. }
  destruct (select_messages p w) as [|y l]; [by apply not_elem_of_nil in Hin|].
  exists l. f_equal.
  assert (y ∈ filter (fun m => p m = true) (rows ++ [m])) as Hy by (rewrite <-Hp; by left).
  apply list_elem_of_filter in Hy as [_ [Hy|Hy%list_elem_of_singleton]%elem_of_app]; [|done].
  apply elem_of_cons in Hin as [->|Hin]; [done|]. exfalso.
  apply StronglySorted_inv in Hs as [_ Hs]. rewrite Forall_forall in Hs, Hold.
  specialize (Hs m Hin). specialize (Hold y Hy). unfold newer_message in Hs. lia.
Qed.

(** C25: what was sent is what is read.  A MESSAGE from an enabled account is answered, stored
    with its sender, receiver and body, handed on exactly when the answer is 200, and the
    receiver who asks for his history with his password finds it first. *)
Theorem message_in_history msg src w bd :
  w_faults w = [] -> Str.is_empty (message_sender msg) = false ->
  account_enabled w (message_sender msg) (sip_domain cfg) = true ->
  Forall (fun r => mr_created_at r < w_now w / 1000000000) (w_messages w) ->
  mh_username bd = message_callee msg -> mh_peer bd = None -> mh_offset bd = None ->
  1 <= default 50 (mh_limit bd) -> history_credentials w bd = true ->
  exists target w' row rows limit,
    handle_message cfg msg src w = (Val (message_outcome msg target).2, w') /\
    map (fun m => (out_dst m, out_text m)) (w_outbox w') =
      map (fun m => (out_dst m, out_text m)) (w_outbox w) ++
      from_option (fun t => [(t, raw msg)]) [] target /\
    history cfg bd w' = (Val (inl (row :: rows, limit, 0)), w') /\
    mr_body row = body msg /\ mr_sender row = message_sender msg ++ "@" ++ sip_domain cfg /\
    mr_status row = (message_outcome msg target).1.
Proof.
  intros Hf Hs Ha Hold Hu Hpeer Hoff Hl Hc.
  assert (Str.is_empty (message_callee msg) = false) as Hce.
  { unfold history_credentials in Hc. rewrite <-Hu.
    by apply andb_true_iff in Hc as [[?%negb_true_iff _]%andb_true_iff _]. }
  destruct (handle_message_run msg src w Hf Hs Ha Hce) as (target & w' & E & Hm & Hout & [= Hf' Hacc]).
  set (p := concerns (mh_username bd ++ "@" ++ sip_domain cfg)).
  destruct (select_newest p w' (w_messages w) (message_row msg src (message_outcome msg target).1
    (w_now w / 1000000000))) as [l Hsel]; [done| |done|].
  { unfold p, concerns. apply orb_true_iff. right. apply bool_decide_eq_true_2. cbn. by rewrite Hu. }
  destruct (Z.to_nat (Z.min (default 50 (mh_limit bd)) 200)) as [|n] eqn:El; [lia|].
  exists target, w', (message_row msg src (message_outcome msg target).1 (w_now w / 1000000000)), (take n l).
   eexists. split_and!; [done|done| |done..]. rewrite (history_run bd w' p); [|done| |by rewrite Hpeer].
  - rewrite Hsel, Hoff. cbn [default]. unfold page. by rewrite drop_0, El.
  - unfold history_credentials, ha1_matches in *. by rewrite Hacc.
Qed.
End portal.

(** ** Facts: TURN *)

Section turn_facts.
Context (cfg : Config) `{!Digests, !BcryptHash, !TurnIo}.

(** What the server wants to see before it gives out credentials. *)
Definition turn_entitled (w : World) (u p : str) : bool :=
  negb (Str.is_empty (turn_secret cfg)) && negb (Str.is_empty u) && negb (Str.is_empty p) &&
  ha1_matches w u (turn_auth_realm cfg) (md5_hex (u ++ ":" ++ turn_auth_realm cfg ++ ":" ++ p)).

Definition turn_granted (w : World) (u p : str) : Prop :=
  exists c w', credentials cfg u p w = (Val (inl c), w').

Lemma turn_granted_iff u p w :
  w_faults w = [] -> turn_granted w u p <-> turn_entitled w u p = true.
Proof.
  intros Hf. unfold turn_granted, credentials, turn_entitled.
  destruct (Str.is_empty (turn_secret cfg)); [by split; [intros (? & ? & ?)|]|].
  destruct (Str.is_empty u); [by split; [intros (? & ? & ?)|]|].
  destruct (Str.is_empty p); [by split; [intros (? & ? & ?)|]|]. cbn [orb negb andb]. split.
  - intros (c & w' & ([] & w1 & Hck & _)%api_bind_inv). by apply check_ha1_inv in Hck as (v & _ & Hm).
  - intros Hm. erewrite api_bind_ok by by apply check_ha1_ok. unfold unix_secs. rewrite bind_gets.
    by do 2 eexists.
Qed.

(** An account just made for the TURN realm is entitled by the password whose digest over
    [auth.realm] was stored. *)
Lemma created_entitled bd w id w1 p :
  create_account cfg bd w = (Val (inl id), w1) ->
  default (auth_realm cfg) (nc_domain bd) = turn_auth_realm cfg ->
  Str.is_empty (turn_secret cfg) = false -> Str.is_empty p = false ->
  turn_entitled w1 (nc_username bd) p = true <->
  md5_hex (nc_username bd ++ ":" ++ auth_realm cfg ++ ":" ++ nc_password bd) =
  md5_hex (nc_username bd ++ ":" ++ turn_auth_realm cfg ++ ":" ++ p).
Proof.
  intros Hc Hd Hs Hp. unfold turn_entitled. rewrite Hs, Hp.
  assert (Str.is_empty (nc_username bd) = false) as ->.
  { unfold create_account in Hc. by destruct (Str.is_empty (nc_username bd)). }
  cbn [negb andb]. apply create_account_inv in Hc as (_ & h & v & r & _ & _ & ->). rewrite Hd.
  unfold ha1_matches. cbn. rewrite lookup_insert_eq. cbn. rewrite bool_decide_eq_true. unfold compute_ha1.
  split; [by intros [= H']|intros E; f_equal; exact E].
Qed.

(** C26: who gets TURN credentials, and what they are.  They are given out exactly when a TURN
    secret is configured, user and password are not empty, and the digest of the user, the TURN
    realm and the password is the one stored for the enabled account of that user in the TURN
    realm.  In particular, when the TURN realm is [auth.realm], the account just created there
    gets them with its password.  They name the moment they expire and the user, both can be
    read back from the text, and the password is the keyed digest of exactly that text. *)
Theorem turn_credentials_spec u p w :
  w_faults w = [] -> 0 <= w_now w / 1000000000 + turn_ttl_secs cfg < 2 ^ 64 ->
  (turn_granted w u p <-> turn_entitled w u p = true) /\
  (forall bd w0 id, create_account cfg bd w0 = (Val (inl id), w) ->
     nc_username bd = u -> nc_password bd = p ->
     default (auth_realm cfg) (nc_domain bd) = auth_realm cfg -> turn_auth_realm cfg = auth_realm cfg ->
     Str.is_empty (turn_secret cfg) = false -> turn_granted w u p) /\
  forall c w', credentials cfg u p w = (Val (inl c), w') ->
    (exists e, Str.split_once ":" (tc_username c) = Some (e, u) /\
       Str.parse_u64 e = Some (w_now w / 1000000000 + turn_ttl_secs cfg)) /\
    tc_password c = hmac_sha1_base64 (turn_secret cfg) (tc_username c).
Proof.
  intros Hf Hr. split_and!; [by apply turn_granted_iff|..].
  { intros bd w0 id Hc <- <- Hd Ht Hs. apply turn_granted_iff; [done|].
    assert (Str.is_empty (nc_password bd) = false) as Hp.
    { unfold create_account in Hc. destruct (Str.is_empty (nc_password bd)); [|done].
      by rewrite orb_true_r in Hc. }
    eapply created_entitled; [done|by rewrite Hd|done..|by rewrite Ht]. }
  intros c w'. unfold credentials.
  do 2 (case_match; [done|]). intros ([] & w1 & Hck & Hk)%api_bind_inv.
  apply check_ha1_inv in Hck as (v & -> & _). unfold unix_secs in Hk. rewrite bind_gets in Hk.
  injection Hk as <- <-. cbn [tc_username tc_password w_now set_faults]. split; [|done].
  rewrite Z.mod_small by done. eexists. split.
  - apply Str.split_once_app, Str.show_dec_not_elem. reflexivity.
  - apply Str.parse_show_dec. unfold Int.u64_max. lia.
Qed.

(** A TURN realm of its own locks the accounts out.  The API stores the digest over
    [auth.realm]; [turn.realm] changes the digest that is compared with it.  An account made
    for the TURN realm is given credentials for the password it was created with only when the
    two digests collide. *)
Theorem turn_realm_needs_collision bd w id w1 :
  create_account cfg bd w = (Val (inl id), w1) -> w_faults w1 = [] ->
  nc_domain bd = Some (turn_auth_realm cfg) ->
  Str.is_empty (turn_secret cfg) = false ->
  turn_granted w1 (nc_username bd) (nc_password bd) <->
  md5_hex (nc_username bd ++ ":" ++ auth_realm cfg ++ ":" ++ nc_password bd) =
  md5_hex (nc_username bd ++ ":" ++ turn_auth_realm cfg ++ ":" ++ nc_password bd).
Proof.
  intros Hc Hf Hd Hs. rewrite turn_granted_iff by done.
  eapply created_entitled; [done|by rewrite Hd|done|].
  unfold create_account in Hc. destruct (Str.is_empty (nc_password bd)); [|done].
  by rewrite orb_true_r in Hc.
Qed.
End turn_facts.

(** ** Examples *)

#[local] Existing Instances toy_digests toy_bcrypt_hash.

(** The URIs the server itself hands out, and those of the documentation, cannot be checked:
    neither a host name nor [?transport=..] is understood. *)
Lemma advertised_uris_never_reachable :
  parse_turn_uri "turn:203.0.113.5:3478" = Some {| ip := V4 203 0 113 5; port := 3478 |} /\
  parse_turn_uri "turn:203.0.113.5:3478?transport=udp" = None /\
  parse_turn_uri "turn:sip.example.com:3478" = None /\
  parse_turn_uri "turns:sip.example.com:5349" = None.
Proof. split_and!; vm_compute; reflexivity. Qed.

(** Two users named 1001, one of another domain, and a correspondent. *)
Definition portal_world : World := set_accounts {[
  ("1001", "sip.example.com") := sample_account 1 (compute_ha1 sample_config "1001" "pw");
  ("1001", "other.example") := sample_account 2 (compute_ha1 sample_config "1001" "secret");
  ("1002", "sip.example.com") := sample_account 3 (compute_ha1 sample_config "1002" "pw") ]} sample_world.

Definition text_to_1001 : SipMessage := message_of (render "MESSAGE sip:1001@sip.example.com SIP/2.0"
  [("Via", "SIP/2.0/UDP 198.51.100.7:5062;branch=z9hG4bK2"); ("From", "<sip:1002@sip.example.com>;tag=2");
   ("To", "<sip:1001@sip.example.com>"); ("Call-ID", "m1"); ("CSeq", "1 MESSAGE")] "hello").

Definition after_text : World := (handle_message sample_config text_to_1001 sample_src portal_world).2.

Definition history_of_1001 : MessageHistoryRequest :=
  {| mh_username := "1001"; mh_password := "pw"; mh_domain := None; mh_peer := None;
     mh_limit := Some 1; mh_offset := None |}.

Lemma history_complete_witness :
  map mr_body (concat (map (fun i => history_rows
    (history sample_config (at_offset (Z.of_nat i * 1) history_of_1001) after_text).1) (seq 0 2))) = ["hello"].
Proof.
  destruct (history_complete sample_config history_of_1001 after_text
    (concerns "1001@sip.example.com") 2) as (c & _ & Hp & E); [by_decide..|reflexivity|].
  change (Z.min (default 50 (mh_limit history_of_1001)) 200) with 1 in E. rewrite E.
  assert (filter (fun m => concerns "1001@sip.example.com" m = true) (w_messages after_text) =
    [message_row sample_config text_to_1001 sample_src "failed" 1700000000]) as Hf
    by (vm_compute; reflexivity).
  rewrite Hf in Hp. apply Permutation_singleton_r in Hp as ->. vm_compute. reflexivity.
Defined.

Definition history_of_stranger : MessageHistoryRequest :=
  {| mh_username := "1001"; mh_password := "secret"; mh_domain := Some "other.example";
     mh_peer := None; mh_limit := Some 1; mh_offset := None |}.

Lemma history_namesake_witness :
  history sample_config history_of_stranger after_text =
    history sample_config history_of_1001 after_text /\
  map mr_body (history_rows (history sample_config history_of_stranger after_text).1) = ["hello"].
Proof.
  split; [|vm_compute; reflexivity].
  apply (history_namesake sample_config history_of_1001 after_text (concerns "1001@sip.example.com")
    "other.example" "secret"); [by_decide|by_decide|done|reflexivity|by_decide|done].
Defined.

Lemma message_in_history_witness :
  exists row rows limit, history sample_config history_of_1001 after_text =
    (Val (inl (row :: rows, limit, 0)), after_text) /\ mr_body row = "hello".
Proof.
  destruct (message_in_history sample_config text_to_1001 sample_src portal_world history_of_1001)
    as (t & w' & row & rows & limit & E & _ & Hh & Hb & _);
    [by_decide|by_decide|by_decide|apply Forall_nil_2|by_decide|done|done|done|by_decide|].
  assert (w' = after_text) as -> by (unfold after_text; by rewrite E).
  exists row, rows, limit. split; [done|]. rewrite Hb. vm_compute. reflexivity.
Defined.

Definition toy_turn : TurnIo :=
  {| hmac_sha1_base64 k m := k ++ "/" ++ m; check_tcp_reachable _ := true |}.
#[local] Existing Instance toy_turn.

Lemma turn_credentials_spec_witness :
  turn_granted sample_config portal_world "1001" "pw" /\
  ~ turn_granted sample_config portal_world "1001" "guess".
Proof.
  split.
  - apply (turn_credentials_spec sample_config "1001" "pw" portal_world); [by_decide..|].
    vm_compute. reflexivity.
  - intros Hg. apply (turn_credentials_spec sample_config "1001" "guess" portal_world) in Hg;
      [by vm_compute in Hg|by_decide..].
Defined.

Definition with_turn_realm (realm : str) (c : Config) : Config :=
  {| sip_domain := sip_domain c; public_ip := public_ip c; sip_port := sip_port c;
     rtp_port_min := rtp_port_min c; rtp_port_max := rtp_port_max c; conference_rtp_port_min
     := conference_rtp_port_min c; conference_rtp_port_max := conference_rtp_port_max c;
     registration_expires := registration_expires c; nonce_max_age_secs :=
     nonce_max_age_secs c; nonce_secret := nonce_secret c; persist_acl_bans :=
     persist_acl_bans c; acl_ban_priority := acl_ban_priority c; voicemail_access_extension
     := voicemail_access_extension c; voicemail_idle_timeout_secs :=
     voicemail_idle_timeout_secs c; voicemail_storage_dir := voicemail_storage_dir c;
     voicemail_rtp_port_min := voicemail_rtp_port_min c; voicemail_rtp_port_max :=
     voicemail_rtp_port_max c; voicemail_no_answer_secs := voicemail_no_answer_secs c;
     voicemail_max_message_secs := voicemail_max_message_secs c; api_port := api_port c;
     tls_port := tls_port c; ws_port := ws_port c; wss_port := wss_port c; tls_cert :=
     tls_cert c; tls_key := tls_key c; auth_realm := auth_realm c; auth_api_key :=
     auth_api_key c; jwt_expiry_secs := jwt_expiry_secs c; turn_realm := realm; turn_secret
     := turn_secret c; turn_ttl_secs := turn_ttl_secs c; turn_server := turn_server c;
     smtp_host := smtp_host c; smtp_from_address := smtp_from_address c |}.

Definition turn_config : Config := with_turn_realm "turn.example.com" sample_config.

Definition phone_account : CreateAccount :=
  {| nc_username := "1001"; nc_password := "pw"; nc_display_name := None;
     nc_domain := Some "turn.example.com" |}.

Lemma turn_realm_needs_collision_witness :
  ~ turn_granted turn_config (create_account turn_config phone_account sample_world).2 "1001" "pw".
Proof.
  intros Hg. apply (turn_realm_needs_collision turn_config phone_account sample_world 3
    (create_account turn_config phone_account sample_world).2) in Hg;
    [by vm_compute in Hg|vm_compute; reflexivity|by_decide|done|done].
Defined.
