(* ===== verification/Handler.v ===== *)
(** * The dispatcher: [backend/src/sip/handler.rs]

    Where a message goes: responses back to the caller of the call, requests to the voicemail,
    the conferences, the registrar, the presence server or the proxy. *)

From S2P Require Import Prelude RustStr Net Message Response Forward SecurityGuard Acl Storage.
From S2P Require Import Sdp Media World Gateway VoicemailSdp VoicemailMedia NoAnswer Mwi.
From S2P Require Import Voicemail Presence ConferenceMedia Conference Registrar Frames Proxy.

Open Scope str_scope.
Open Scope Z_scope.

(** [m.await] kept as a [Result], and a [Result] returned. *)
Definition as_result {A} (m : M A) : M (result A) := fun w =>
  match m w with
  | (Val a, w') => (Val (Ok a), w')
  | (Fail e, w') => (Val (Err e), w')
  | (Panicked, w') => (Panicked, w')
  end.

Definition of_result {A} (r : result A) : M A :=
  match r with Ok a => mret a | Err e => fail e end.

(** [return finalize_response(&msg, resp, &method)] *)
Definition finalize (msg : SipMessage) (mth : str) (m : M str) : M (option str) :=
  r ← as_result m; of_result (finalize_response msg r mth).

Definition is_final (msg : SipMessage) : bool :=
  match status_code msg with Some c => 200 <=? c | None => false end.

Definition is_refusal (msg : SipMessage) : bool :=
  match status_code msg with Some c => 300 <=? c | None => false end.

(** The stores of a call that is over. *)
Definition drop_call (cid : str) : M unit :=
  _ ← drop_pending cid;
  _ ← drop_active cid;
  _ ← relay_remove cid;
  gateway_remove cid.

Section handler.
Context (cfg : Config) (secret : str) `{Digests} `{HeaderOrder} `{Bcrypt} `{WebRtc}.

(** ** Responses *)

Definition rewrite_200ok_sdp (cid sdp : str) : M (option str) :=
  gets (fun w =>
    session ← mr_sessions (w_media_relay w) !! cid;
    Some (rewrite_sdp_media sdp (mr_public_ip (w_media_relay w)) (caller_sdp_ports session))).

(** What a WebRTC session learns from the callee's answer. *)
Definition gateway_learns (cid bd : str) : M unit :=
  sip_caller ← is_sip_caller_session cid;
  if sip_caller : bool then ignore (apply_callee_answer cid bd)
  else match sdp_rtp_addr bd with
    | Some sip_rtp_addr => _ ← set_sip_peer cid sip_rtp_addr; learn_sip_video_peer cid bd
    | None => mret tt
    end.

(** The text to relay: without our Via, and with the description of our side of the media. *)
Definition relayed_response (msg : SipMessage) (cid : str) : M str :=
  let relayed := strip_proxy_via (raw msg) (sip_domain cfg) in
  if is_invite_200_ok_with_sdp msg then
    answer ← get_answer_sdp cid;
    match answer with
    | Some answer_sdp =>
        _ ← gateway_learns cid (body msg);
        mret (rewrite_content_length relayed answer_sdp)
    | None =>
        new_sdp ← rewrite_200ok_sdp cid (body msg);
        mret (match new_sdp with
              | Some new_sdp => rewrite_content_length relayed new_sdp
              | None => relayed
              end)
    end
  else mret relayed.

(** Relay to the caller at [addr]. *)
Definition relay_to (msg : SipMessage) (cid : str) (addr : SocketAddr) : M unit :=
  relayed ← relayed_response msg cid;
  _ ← ignore (send_sip relayed addr);
  _ ← when (is_final msg) (drop_pending cid);
  when (is_refusal msg) (_ ← relay_remove cid; gateway_remove cid).

Definition relay_response (msg : SipMessage) : M unit :=
  match call_id msg with
  | None => mret tt
  | Some cid =>
      fired ← (if is_final msg
               then c ← cancel_no_answer_timer cid; mret (bool_decide (c = TimerAlreadyFired))
               else mret false);
      if fired : bool then drop_call cid
      else
        caller_addr ← gets (fun w => w_pending_dialogs w !! cid);
        match caller_addr with
        | Some addr => relay_to msg cid addr
        | None => mret tt
        end
  end.

Definition take_pending_invite (cid : str) : M (option SipMessage) := fun w =>
  (Val (w_pending_invites w !! cid), set_pending_invites (delete cid (w_pending_invites w)) w).

Definition handle_busy_to_voicemail (msg : SipMessage) : M (option str) :=
  match call_id msg with
  | None => mret None
  | Some cid =>
      match header_user (to_header msg) with
      | None => mret None
      | Some callee =>
          mailbox ← lookup_enabled_box callee (sip_domain cfg);
          match mailbox with
          | None => mret None
          | Some _ =>
              invite ← take_pending_invite cid;
              match invite with
              | None => mret None
              | Some original_invite =>
                  _ ← cancel_no_answer_timer cid;
                  _ ← drop_call cid;
                  caller_addr ← gets (fun w => w_pending_dialogs w !! cid);
                  match caller_addr with
                  | None => mret None
                  | Some _ => attempt (handle_delivery_invite cfg original_invite callee)
                  end
              end
          end
      end
  end.

Definition is_busy (status : Z) : bool := (status =? 486) || (status =? 600) || (status =? 603).

Definition process_response (msg : SipMessage) : M (option str) :=
  response ← (if is_busy (default 0 (status_code msg)) then handle_busy_to_voicemail msg
              else mret None);
  match response with
  | Some response => mret (Some response)
  | None => _ ← relay_response msg; mret None
  end.

(** ** Requests *)

Definition handle_options (msg : SipMessage) : M str :=
  mret (build (builder_header (builder_header (base_response msg 200 "OK")
    "Allow" SIP_ALLOW_METHODS) "Accept" "application/sdp, text/plain")).

Definition not_allowed (msg : SipMessage) : M str :=
  mret (build (builder_header (base_response msg 405 "Method Not Allowed")
    "Allow" SIP_ALLOW_METHODS)).

(** The final [match method.as_str()]; [None]: the request is an ACK. *)
Definition generic_handler (msg : SipMessage) (mth : str) (src : SocketAddr) : option (M str) :=
  if bool_decide (mth = "REGISTER") then Some (handle_register cfg secret msg src)
  else if bool_decide (mth = "INVITE") then Some (Proxy.handle_invite cfg msg src)
  else if bool_decide (mth = "OPTIONS") then Some (handle_options msg)
  else if bool_decide (mth = "INFO") then Some (Proxy.handle_info msg src)
  else if bool_decide (mth = "MESSAGE") then Some (handle_message cfg msg src)
  else if bool_decide (mth = "REFER") then Some (handle_refer msg src)
  else if bool_decide (mth = "NOTIFY") then Some (handle_notify msg src)
  else if bool_decide (mth = "SUBSCRIBE") then Some (handle_subscribe cfg msg src)
  else if bool_decide (mth = "ACK") then None
  else if bool_decide (mth = "BYE") then Some (Proxy.handle_bye cfg msg src)
  else if bool_decide (mth = "CANCEL") then Some (Proxy.handle_cancel cfg msg)
  else Some (not_allowed msg).

Definition process_generic (msg : SipMessage) (mth : str) (src : SocketAddr) : M (option str) :=
  match generic_handler msg mth src with
  | None => _ ← Proxy.handle_ack cfg msg; mret None
  | Some m =>
      response ← as_result m;
      match response with
      | Ok resp => mret (Some resp)
      | Err _ => mret (Some (build (base_response msg 500 "Internal Server Error")))
      end
  end.

(** The [match] on the requests inside a call of the voicemail or of a conference; [None]:
    none of the four methods. *)
Definition in_call (msg : SipMessage) (mth : str) (ack : M unit) (bye cancel info : M str)
    : option (M (option str)) :=
  if bool_decide (mth = "ACK") then Some (_ ← ack; mret None)
  else if bool_decide (mth = "BYE") then Some (finalize msg mth bye)
  else if bool_decide (mth = "CANCEL") then Some (finalize msg mth cancel)
  else if bool_decide (mth = "INFO") then Some (finalize msg mth info)
  else None.

Definition voicemail_in_call (msg : SipMessage) (mth : str) : option (M (option str)) :=
  in_call msg mth (vm_handle_ack msg) (vm_handle_bye msg) (vm_handle_cancel msg)
    (vm_handle_info cfg msg).

Definition conference_in_call (msg : SipMessage) (mth : str) : option (M (option str)) :=
  in_call msg mth (conf_handle_ack msg) (conf_handle_bye msg) (conf_handle_cancel msg)
    (conf_handle_info msg).

(** The conferences, then the rest. *)
Definition route_conference (msg : SipMessage) (mth cid : str) (src : SocketAddr)
    : M (option str) :=
  is_conf ← (if Str.is_empty cid then mret false else is_conference_call cid);
  if bool_decide (mth = "INVITE") then
    let target := default "" (uri_username (default "" (request_uri msg))) in
    room ← lookup_room target (sip_domain cfg);
    match room with
    | Some (room_id, max_p) => finalize msg mth (conf_handle_invite cfg msg src room_id max_p)
    | None => process_generic msg mth src
    end
  else match (if is_conf : bool then conference_in_call msg mth else None) with
    | Some m => m
    | None => process_generic msg mth src
    end.

Definition process_request (msg : SipMessage) (mth : str) (src : SocketAddr) : M (option str) :=
  let cid := default "" (call_id msg) in
  is_vm ← (if Str.is_empty cid then mret false else is_voicemail_call cid);
  if bool_decide (mth = "SUBSCRIBE") && is_message_summary_event (header msg "event")
  then finalize msg mth (mwi_handle_subscribe cfg msg src)
  else if bool_decide (mth = "INVITE") && is_access_invite cfg msg
  then finalize msg mth (handle_access_invite cfg msg src)
  else match (if is_vm : bool then voicemail_in_call msg mth else None) with
    | Some m => m
    | None => route_conference msg mth cid src
    end.

Definition process_sip_msg (text : str) (src : SocketAddr) : M (option str) :=
  match parse text with
  | Err _ => mret None
  | Ok msg =>
      match method msg with
      | None => process_response msg
      | Some mth => process_request msg mth src
      end
  end.

(** ** Transports *)

Definition handle_datagram (data : str) (src : SocketAddr) : M unit :=
  resp ← process_sip_msg (Str.from_utf8_lossy data) src;
  match resp with
  | Some resp => udp_send resp src
  | None => mret tt
  end.

Definition handle_tcp_msg (text : str) (src : SocketAddr) : M (option str) :=
  process_sip_msg text src.

Definition register_stream (src : SocketAddr) : M unit := registry_register src.

Definition unregister_stream (src : SocketAddr) : M unit := registry_unregister src.
End handler.

(** ** Every request is answered *)

Section answers.
Context (cfg : Config) (secret : str) `{!Digests, !HeaderOrder, !Bcrypt, !WebRtc}.

Lemma relay_response_total msg : total (relay_response cfg msg).
Proof. solve_total. Qed.

(** The pending dialog is removed just before it is looked up. *)
Lemma busy_returns_nothing msg : returns (handle_busy_to_voicemail cfg msg) None.
Proof.
  unfold handle_busy_to_voicemail. destruct (call_id msg) as [cid|]; [|apply returns_ret].
  destruct (header_user _) as [callee|]; [|apply returns_ret].
  apply returns_bind; [solve_total|]. intros [box|]; [|apply returns_ret].
  apply returns_bind; [solve_total|]. intros [inv|]; [|apply returns_ret].
  apply returns_bind; [solve_total|]. intros c w.
  unfold drop_call, drop_pending, drop_active, relay_remove, gateway_remove.
  rewrite bind_assoc, bind_modify, bind_assoc, bind_modify, bind_assoc, bind_modify, bind_modify, bind_gets.
  cbn. by rewrite lookup_delete_eq.
Qed.

Lemma process_response_none msg : returns (process_response cfg msg) None.
Proof.
  intros w. unfold process_response.
  assert (exists w1, (if is_busy (default 0 (status_code msg)) then handle_busy_to_voicemail cfg msg
                      else mret None) w = (Val None, w1)) as [w1 E].
  { destruct (is_busy _); [|by exists w]. pose proof (busy_returns_nothing msg w) as Hb.
    destruct (handle_busy_to_voicemail cfg msg w) as [r w1]. cbn in Hb. subst. by exists w1. }
  rewrite (bind_val _ _ _ _ _ E).
  destruct (relay_response_total msg w1) as ([] & w2 & E2). by rewrite (bind_val _ _ _ _ _ E2).
Qed.

(** Handlers that cannot panic. *)
Lemma safe_vm_bye msg : safe (vm_handle_bye msg).
Proof. solve_total. Qed.
Lemma safe_vm_cancel msg : safe (vm_handle_cancel msg).
Proof. solve_total. Qed.
(** [Vec::remove] is in range: a delete handled in one go does not panic. *)
Lemma delete_message_safe cid i : safe (delete_message_at_index cfg cid i).
Proof.
  intros w. destruct (delete_message_run cfg cid i w) as [(w1 & _ & ->)|(mb & ms & j & r & w1 & _ & _ & _ & _ & ->)];
    [done|].
  revert w1. change (safe (_ ← modify_playback cid (fun _ _ => r); ignore (notify_mailbox mb (sip_domain cfg)))).
  unfold modify_playback. solve_total.
Qed.

Lemma safe_vm_info msg : safe (vm_handle_info cfg msg).
Proof. repeat first [simple apply delete_message_safe | total_step]. Qed.
Lemma safe_access msg src : safe (handle_access_invite cfg msg src).
Proof. solve_total. Qed.
Lemma safe_mwi msg src : safe (mwi_handle_subscribe cfg msg src).
Proof. solve_total. Qed.
Lemma safe_conf_invite msg src room max : safe (conf_handle_invite cfg msg src room max).
Proof. solve_total. Qed.
Lemma safe_conf_bye msg : safe (conf_handle_bye msg).
Proof. solve_total. Qed.
Lemma safe_conf_info msg : safe (conf_handle_info msg).
Proof. solve_total. Qed.
Lemma safe_presence msg src : safe (handle_subscribe cfg msg src).
Proof. solve_total. Qed.
Lemma safe_bye msg src : safe (Proxy.handle_bye cfg msg src).
Proof. solve_total. Qed.
Lemma safe_cancel msg : safe (Proxy.handle_cancel cfg msg).
Proof. solve_total. Qed.
Lemma safe_message msg src : safe (handle_message cfg msg src).
Proof. solve_total. Qed.
Lemma safe_refer msg src : safe (handle_refer msg src).
Proof. solve_total. Qed.
Lemma safe_in_dialog msg src : safe (forward_in_dialog msg src).
Proof. solve_total. Qed.
Lemma total_ack msg : total (Proxy.handle_ack cfg msg).
Proof. solve_total. Qed.

(** [may_panic] or an answer. *)
Definition answers (may_panic : bool) (m : M (option str)) : Prop := forall w,
  match (m w).1 with
  | Val r => is_Some r
  | Fail _ => False
  | Panicked => may_panic = true
  end.

Lemma answers_bind {A} p (m : M A) (f : A -> M (option str)) :
  total m -> (forall a, answers p (f a)) -> answers p (m ≫= f).
Proof.
  intros Hm Hf w. destruct (Hm w) as (a & w' & E). rewrite (bind_val _ _ _ _ _ E). apply Hf.
Qed.

Lemma finalize_answers p msg mth m : p = true \/ safe m -> answers p (finalize msg mth m).
Proof.
  intros Hp w. unfold finalize, as_result, mbind, M_bind.
  destruct (m w) as [[a|e|] w'] eqn:E; cbn; [by eauto..|].
  destruct Hp as [->|Hs]; [done|]. specialize (Hs w). by rewrite E in Hs.
Qed.

Lemma in_call_answers p msg mth ack bye cancel info m :
  in_call msg mth ack bye cancel info = Some m -> mth <> "ACK" ->
  safe bye -> safe cancel -> safe info -> answers p m.
Proof.
  unfold in_call. intros Hm Hack Hb Hc Hi.
  rewrite bool_decide_eq_false_2 in Hm by done.
  repeat case_bool_decide; simplify_eq; apply finalize_answers; auto.
Qed.

Definition may_panic (mth : str) : bool :=
  bool_decide (mth = "REGISTER") || bool_decide (mth = "INVITE").

Lemma generic_answers msg mth src :
  mth <> "ACK" -> answers (may_panic mth) (process_generic cfg secret msg mth src).
Proof.
  intros Hack w. unfold process_generic.
  assert (exists m, generic_handler cfg secret msg mth src = Some m /\
    (may_panic mth = true \/ safe m)) as (m & -> & Hm).
  { unfold generic_handler. rewrite (bool_decide_eq_false_2 (mth = "ACK")) by done.
    unfold may_panic. repeat case_bool_decide; subst; eexists; (split; [reflexivity|]); auto; right.
    - done.
    - apply safe_in_dialog.
    - apply safe_message.
    - apply safe_refer.
    - apply safe_in_dialog.
    - apply safe_presence.
    - apply safe_bye.
    - apply safe_cancel.
    - done. }
  unfold as_result, mbind, M_bind. destruct (m w) as [[a|e|] w'] eqn:E; cbn; [by eauto..|].
  destruct Hm as [->|Hs]; [done|]. specialize (Hs w). by rewrite E in Hs.
Qed.

Lemma request_answers msg mth src :
  mth <> "ACK" -> answers (may_panic mth) (process_request cfg secret msg mth src).
Proof.
  intros Hack. unfold process_request, route_conference. cbv zeta.
  apply answers_bind; [solve_total|]. intros is_vm.
  destruct (bool_decide (mth = "SUBSCRIBE") && _).
  { apply finalize_answers. right. apply safe_mwi. }
  destruct (bool_decide (mth = "INVITE") && _).
  { apply finalize_answers. right. apply safe_access. }
  destruct (if is_vm then _ else _) as [m|] eqn:Em.
  { destruct is_vm; [|done]. eapply in_call_answers; [exact Em|done|..];
      auto using safe_vm_bye, safe_vm_cancel, safe_vm_info. }
  apply answers_bind; [solve_total|]. intros is_conf.
  destruct (bool_decide (mth = "INVITE")).
  - apply answers_bind; [solve_total|]. intros [[room max]|].
    + apply finalize_answers. right. apply safe_conf_invite.
    + by apply generic_answers.
  - destruct (if is_conf then _ else _) as [m|] eqn:Ec; [|by apply generic_answers].
    destruct is_conf; [|done]. eapply in_call_answers; [exact Ec|done|..];
      auto using safe_conf_bye, safe_conf_info.
Qed.

Lemma ack_unanswered msg src : returns (process_request cfg secret msg "ACK" src) None.
Proof.
  unfold process_request, route_conference. cbv zeta. apply returns_bind; [solve_total|].
  intros []; cbn.
  - apply returns_bind; [solve_total|intros; apply returns_ret].
  - apply returns_bind; [solve_total|]. intros []; cbn.
    + apply returns_bind; [solve_total|intros; apply returns_ret].
    + unfold process_generic. cbn. apply returns_bind; [apply total_ack|intros; apply returns_ret].
Qed.

(** C3: the dispatcher never fails when messages are handled one at a time.  Whatever the
    message, the sender, the state and the database do, it either answers or stays silent as it
    should: a request other than ACK is answered (with 500 when its handler fails), an ACK, a
    response and a text that is no SIP message are not; and only the handlers of REGISTER and
    INVITE can panic.  (Two INFO requests that delete one message at the same time can:
    [concurrent_deletes_panic].) *)
Theorem process_sip_msg_answers text src w :
  let r := (process_sip_msg cfg secret text src w).1 in
  match parse text with
  | Err _ => r = Val None
  | Ok msg =>
      match method msg with
      | None => r = Val None
      | Some mth =>
          if decide (mth = "ACK") then r = Val None
          else (exists resp, r = Val (Some resp)) \/
               r = Panicked /\ (mth = "REGISTER" \/ mth = "INVITE")
      end
  end.
Proof.
  cbv zeta. unfold process_sip_msg. destruct (parse text) as [msg|]; [|done].
  destruct (method msg) as [mth|]; [|apply process_response_none].
  case_decide as Hack; [subst; apply ack_unanswered|].
  pose proof (request_answers msg mth src Hack w) as Ha.
  destruct (process_request _ _ _ _ _ w) as [[r|e|] w']; cbn in *; [left|done|right].
  - destruct Ha as [resp ->]. by exists resp.
  - split; [done|]. unfold may_panic in Ha. apply orb_true_iff in Ha as [Ha|Ha];
      apply bool_decide_eq_true in Ha; auto.
Qed.
End answers.

(** ** Responses of calls without a caller *)

Section silence.
Context (cfg : Config) (secret : str) `{!Digests, !HeaderOrder, !Bcrypt, !WebRtc}.

(** What the caller of [cid] could notice. *)
Definition silent (cid : str) : relation World := fun w w' =>
  w_pending_dialogs w !! cid = None ->
  w_pending_dialogs w' !! cid = None /\ w_outbox w' = w_outbox w /\
  w_voicemail_calls w' = w_voicemail_calls w.

#[local] Instance silent_io cid : IoFrame (silent cid).
Proof.
  split; [split|..].
  - intros w Hw. done.
  - intros w1 w2 w3 H12 H23 Hp. destruct (H12 Hp) as (Hp2 & Ho & Hv).
    destruct (H23 Hp2) as (Hp3 & Ho' & Hv'). by rewrite Ho', Hv'.
  - intros v w Hp. done.
  - intros v w Hp. done.
Qed.

(** Operations that leave the three stores alone are silent. *)
Lemma silent_same {A} cid (m : M A) :
  moves (same (fun w => (w_pending_dialogs w, w_outbox w, w_voicemail_calls w))) m ->
  moves (silent cid) m.
Proof. intros Hm w Hp. specialize (Hm w). unfold same in Hm. injection Hm as -> -> ->. done. Qed.

Lemma silent_drop_call cid : moves (silent cid) (drop_call cid).
Proof.
  unfold drop_call, drop_pending. apply moves_bind; [|intros; apply silent_same; solve_frame].
  intros w Hp. cbn. by rewrite lookup_delete_eq.
Qed.

(** A read of the pending dialog of [cid] finds none. *)
Lemma silent_lookup {A} cid (k : option SocketAddr -> M A) :
  moves (silent cid) (k None) ->
  moves (silent cid) (gets (fun w => w_pending_dialogs w !! cid) ≫= k).
Proof. intros Hk w Hp. rewrite bind_gets, Hp. by apply Hk. Qed.

Lemma silent_relay cid msg : call_id msg = Some cid -> moves (silent cid) (relay_response cfg msg).
Proof.
  intros Hc. unfold relay_response. rewrite Hc. apply moves_bind.
  { apply silent_same. solve_frame. }
  intros []; [apply silent_drop_call|]. apply silent_lookup. apply moves_ret.
Qed.

Lemma silent_busy cid msg :
  call_id msg = Some cid -> moves (silent cid) (handle_busy_to_voicemail cfg msg).
Proof.
  intros Hc. unfold handle_busy_to_voicemail. rewrite Hc.
  destruct (header_user _); [|apply moves_ret].
  apply moves_bind; [apply silent_same; solve_frame|]. intros [box|]; [|apply moves_ret].
  apply moves_bind; [apply silent_same; solve_frame|]. intros [inv|]; [|apply moves_ret].
  apply moves_bind; [apply silent_same; solve_frame|]. intros _.
  apply moves_bind; [apply silent_drop_call|]. intros _. apply silent_lookup. apply moves_ret.
Qed.

Lemma silent_response cid msg :
  call_id msg = Some cid -> moves (silent cid) (process_response cfg msg).
Proof.
  intros Hc. unfold process_response. apply moves_bind.
  - destruct (is_busy _); [by apply silent_busy|apply moves_ret].
  - intros [resp|]; [apply moves_ret|]. apply moves_bind; [by apply silent_relay|].
    intros; apply moves_ret.
Qed.

Definition run_texts (texts : list (str * SocketAddr)) (w : World) : World :=
  foldl (fun w '(t, src) => (process_sip_msg cfg secret t src w).2) w texts.

(** The text is a response of the call [cid]. *)
Definition response_of (cid : str) (text : str) : Prop :=
  exists msg, parse text = Ok msg /\ method msg = None /\ call_id msg = Some cid.

(** C40: after the caller's CANCEL the callee's responses are lost.  Once the CANCEL of a call
    was handled, no response to it, in particular not the callee's final 487, is ever sent to
    anybody, however many arrive and whatever their status: the INVITE of the caller never gets
    a final response. *)
Theorem cancelled_call_gets_no_final_response msg texts w :
  Forall (fun '(t, _) => response_of (default "" (call_id msg)) t) texts ->
  let w' := (Proxy.handle_cancel cfg msg w).2 in
  w_outbox (run_texts texts w') = w_outbox w'.
Proof.
  cbv zeta. destruct (cancel_ends_call cfg msg w) as (w' & -> & (_ & Hp & _) & _). cbn [snd].
  assert (w_pending_dialogs w' !! default "" (call_id msg) = None) as Hnone
    by (by rewrite Hp, lookup_delete_eq).
  clear Hp. revert w' Hnone. induction texts as [|[t src] texts IH]; intros w' Hnone Hall; [done|].
  apply Forall_cons in Hall as [(m & Em & Hm & Hc) Hall].
  cbn [run_texts foldl]. unfold process_sip_msg. rewrite Em, Hm.
  destruct (silent_response _ m Hc w' Hnone) as (Hn & Ho & _).
  etrans; [by apply (IH _ Hn)|done].
Qed.

Lemma busy_run msg cid callee box inv w :
  call_id msg = Some cid -> header_user (to_header msg) = Some callee -> w_faults w = [] ->
  enabled_box callee (sip_domain cfg) w = Some box -> w_pending_invites w !! cid = Some inv ->
  exists w', handle_busy_to_voicemail cfg msg w = (Val None, w') /\ w_outbox w' = w_outbox w /\
    w_voicemail_calls w' = w_voicemail_calls w /\ w_pending_dialogs w' !! cid = None.
Proof.
  intros Hc Hu Hf Hbox Hinv. unfold handle_busy_to_voicemail. rewrite Hc, Hu.
  rewrite (bind_val _ _ _ _ _ (lookup_enabled_box_ok _ _ _ Hf)), Hbox.
  erewrite bind_val by (unfold take_pending_invite; by rewrite Hinv). cbv beta iota.
  set (w1 := set_pending_invites _ _).
  destruct (cancel_timer_run cid w1) as (c & ts & ta & Ec). rewrite (bind_val _ _ _ _ _ Ec).
  rewrite (bind_val _ _ _ _ _ (eq_refl (drop_call cid _))). rewrite bind_gets. cbn [w_pending_dialogs].
  eexists. cbn. rewrite lookup_delete_eq. split; [reflexivity|]. cbn. by rewrite lookup_delete_eq.
Qed.

(** A busy callee's mailbox swallows the call.  When the callee of a pending call answers
    486, 600 or 603 and has a mailbox, the caller is sent nothing, neither the refusal nor an
    answer of the voicemail, no voicemail call starts, and the route back to the caller is
    gone: the caller is left ringing. *)
Theorem busy_to_voicemail_swallows_call text msg src cid callee box inv w :
  parse text = Ok msg -> method msg = None -> is_busy (default 0 (status_code msg)) = true ->
  call_id msg = Some cid -> header_user (to_header msg) = Some callee -> w_faults w = [] ->
  enabled_box callee (sip_domain cfg) w = Some box -> w_pending_invites w !! cid = Some inv ->
  let '(r, w') := process_sip_msg cfg secret text src w in
  r = Val None /\ w_outbox w' = w_outbox w /\ w_voicemail_calls w' = w_voicemail_calls w /\
  w_pending_dialogs w' !! cid = None.
Proof.
  intros Ht Hm Hb Hc Hu Hf Hbox Hinv. unfold process_sip_msg. rewrite Ht, Hm.
  pose proof (process_response_none cfg msg w) as Hr. revert Hr. unfold process_response. rewrite Hb.
  destruct (busy_run msg cid callee box inv w) as (w1 & E & Ho & Hv & Hp); [done..|].
  rewrite (bind_val _ _ _ _ _ E).
  match goal with |- context [?m w1] => assert (moves (silent cid) m) as Hs end.
  { apply moves_bind; [by apply silent_relay|intros; apply moves_ret]. }
  destruct (Hs w1 Hp) as (Hp' & Ho' & Hv').
  match goal with |- context [?m w1] => destruct (m w1) as [r w'] end.
  cbn in *. intros ->. by rewrite Ho', Hv'.
Qed.
End silence.

(** ** Relaying *)

Section relaying.
Context (cfg : Config) (secret : str) `{!Digests, !HeaderOrder, !Bcrypt, !WebRtc}.

(** What the caller of a call without WebRTC is sent: the callee's response without our Via; a
    200 OK of the INVITE points the caller's media at the relay. *)
Definition relayed_text (w : World) (msg : SipMessage) (cid : str) : str :=
  let stripped := strip_proxy_via (raw msg) (sip_domain cfg) in
  match mr_sessions (w_media_relay w) !! cid with
  | Some s =>
      if is_invite_200_ok_with_sdp msg then
        rewrite_content_length stripped
          (rewrite_sdp_media (body msg) (mr_public_ip (w_media_relay w)) (caller_sdp_ports s))
      else stripped
  | None => stripped
  end.

Lemma relayed_response_run msg cid w :
  w_gateway w !! cid = None ->
  relayed_response cfg msg cid w = (Val (relayed_text w msg cid), w).
Proof.
  intros Hg. unfold relayed_response, relayed_text, get_answer_sdp, rewrite_200ok_sdp. cbv zeta.
  destruct (is_invite_200_ok_with_sdp msg); [|by destruct (mr_sessions _ !! cid)].
  rewrite bind_gets, Hg. cbn [fmap option_fmap option_map]. rewrite bind_gets.
  by destruct (mr_sessions _ !! cid).
Qed.

Lemma relay_to_run msg cid addr w :
  w_faults w = [] -> w_gateway w !! cid = None ->
  exists w', relay_to cfg msg cid addr w = (Val tt, w') /\
    w_outbox w' = w_outbox w ++ [{| out_dst := addr;
      out_stream := default false (w_registry w !! addr); out_text := relayed_text w msg cid |}] /\
    w_pending_dialogs w' = (if is_final msg then delete cid else id) (w_pending_dialogs w) /\
    w_active_dialogs w' = w_active_dialogs w /\
    w_media_relay w' = (if is_refusal msg then remove_session cid else id) (w_media_relay w).
Proof.
  intros Hf Hg. unfold relay_to. rewrite (bind_val _ _ _ _ _ (relayed_response_run _ _ _ Hg)).
  erewrite bind_val by (eapply ignore_ok, send_sip_run; done). cbv beta.
  destruct (is_final msg), (is_refusal msg); (eexists; split; [reflexivity|]); cbn -[relayed_text]; done.
Qed.

Lemma relay_response_run msg cid addr w :
  call_id msg = Some cid -> w_faults w = [] -> w_pending_dialogs w !! cid = Some addr ->
  (is_final msg = true -> w_no_answer w !! cid <> Some Firing) ->
  exists ts ta, relay_response cfg msg w = relay_to cfg msg cid addr (set_tasks ta (set_no_answer ts w)).
Proof.
  intros Hc Hf Hp Hfire. unfold relay_response. rewrite Hc. destruct (is_final msg).
  - unfold cancel_no_answer_timer. rewrite bind_assoc.
    destruct (cancel_timer (w_no_answer w) cid) as [[h r] ts] eqn:Et.
    erewrite bind_val by by rewrite Et. rewrite bind_ret.
    rewrite bool_decide_eq_false_2.
    + rewrite bind_gets. exists ts, (abort_task h (w_tasks w)).
      change (w_pending_dialogs (set_tasks _ (set_no_answer ts w))) with (w_pending_dialogs w).
      by rewrite Hp.
    + unfold cancel_timer in Et. intros ->. specialize (Hfire eq_refl).
      destruct (w_no_answer w !! cid) as [[]|]; simplify_eq.
  - rewrite bind_ret, bind_gets, Hp. exists (w_no_answer w), (w_tasks w). by destruct w.
Qed.

(** A busy response the mailbox of the callee swallows ([busy_to_voicemail_swallows_call]). *)
Definition goes_to_mailbox (w : World) (msg : SipMessage) : bool :=
  is_busy (default 0 (status_code msg)) &&
  match call_id msg, header_user (to_header msg) with
  | Some cid, Some callee =>
      bool_decide (is_Some (enabled_box callee (sip_domain cfg) w)) &&
      bool_decide (is_Some (w_pending_invites w !! cid))
  | _, _ => false
  end.

Lemma not_to_mailbox_run msg w :
  w_faults w = [] -> goes_to_mailbox w msg = false ->
  (if is_busy (default 0 (status_code msg)) then handle_busy_to_voicemail cfg msg else mret None) w =
    (Val None, w).
Proof.
  unfold goes_to_mailbox, handle_busy_to_voicemail. intros Hf. destruct (is_busy _); [|done]. cbn [andb].
  destruct (call_id msg) as [cid|]; [|done]. destruct (header_user (to_header msg)) as [callee|]; [|done].
  rewrite (bind_val _ _ _ _ _ (lookup_enabled_box_ok _ _ _ Hf)).
  destruct (enabled_box _ _ w) as [box|]; [|done]. cbn [andb bool_decide].
  rewrite bool_decide_eq_true_2 by done. cbn [andb]. intros Hi%bool_decide_eq_false.
  rewrite <-eq_None_not_Some in Hi. unfold take_pending_invite, mbind, M_bind. rewrite Hi, delete_id by done.
  by destruct w.
Qed.

(** C6: responses reach the caller.  Suppose no fault occurs, the call has no WebRTC leg, the
    response is not a busy one (486, 600, 603) that the callee's mailbox swallows, and, if it is
    final, no no-answer timer of the call has fired.  Then a response of the callee of a pending
    call is sent to the address the INVITE came
    from and nowhere else, without our Via and, if it is the 200 OK, with the description of
    our relay.  A provisional response leaves the call pending, a final one ends the waiting,
    and only a refusal gives the media session up. *)
Theorem response_relayed text msg src cid addr w :
  parse text = Ok msg -> method msg = None -> call_id msg = Some cid ->
  goes_to_mailbox w msg = false -> w_faults w = [] ->
  w_pending_dialogs w !! cid = Some addr -> w_gateway w !! cid = None ->
  (is_final msg = true -> w_no_answer w !! cid <> Some Firing) ->
  exists w', process_sip_msg cfg secret text src w = (Val None, w') /\
    w_outbox w' = w_outbox w ++ [{| out_dst := addr;
      out_stream := default false (w_registry w !! addr); out_text := relayed_text w msg cid |}] /\
    w_pending_dialogs w' = (if is_final msg then delete cid else id) (w_pending_dialogs w) /\
    w_active_dialogs w' = w_active_dialogs w /\
    w_media_relay w' = (if is_refusal msg then remove_session cid else id) (w_media_relay w).
Proof.
  intros Ht Hm Hc Hb Hf Hp Hg Hfire. unfold process_sip_msg, process_response.
  rewrite Ht, Hm, (bind_val _ _ _ _ _ (not_to_mailbox_run _ _ Hf Hb)).
  destruct (relay_response_run msg cid addr w) as (ts & ta & E); [done..|].
  destruct (relay_to_run msg cid addr (set_tasks ta (set_no_answer ts w))) as (w' & E' & Hrest);
    [done..|].
  exists w'. rewrite <-E in E'. by rewrite (bind_val _ _ _ _ _ E').
Qed.
End relaying.

(** ** Who changes the registrations *)

Section registrations.
Context (cfg : Config) (secret : str) `{!Digests, !HeaderOrder, !Bcrypt, !WebRtc}.

(** A frame of the core state is one of the registrations. *)
Lemma core_regs {A} (m : M A) : moves (same core) m -> moves (same w_registrations) m.
Proof. apply (same_mono core w_registrations (fun c => c.1.1.1.1.1.1.2)). done. Qed.

Lemma finalize_moves (R : relation World) `{!IoFrame R} msg mth m :
  moves R m -> moves R (finalize msg mth m).
Proof.
  intros Hm w. specialize (Hm w). unfold finalize, as_result, mbind, M_bind.
  by destruct (m w) as [[a|e|] w'].
Qed.

Lemma in_call_moves (R : relation World) `{!IoFrame R} msg mth ack bye cancel info m :
  in_call msg mth ack bye cancel info = Some m -> moves R ack -> moves R bye -> moves R cancel ->
  moves R info -> moves R m.
Proof.
  unfold in_call. intros Hm Ha Hb Hc Hi. repeat case_bool_decide; simplify_eq;
    try (by apply finalize_moves). apply moves_bind; [done|intros; apply moves_ret].
Qed.

Lemma voicemail_in_call_core msg mth m :
  voicemail_in_call cfg msg mth = Some m -> moves (same core) m.
Proof.
  intros Hm. eapply in_call_moves; [typeclasses eauto|exact Hm|..];
    auto using vm_ack_core, vm_bye_core, vm_cancel_core, vm_info_core.
Qed.

Lemma conference_in_call_core msg mth m :
  conference_in_call msg mth = Some m -> moves (same core) m.
Proof.
  intros Hm. eapply in_call_moves; [typeclasses eauto|exact Hm|..];
    auto using conf_bye_core, conf_info_core. apply moves_ret.
Qed.

Lemma response_regs msg : moves (same w_registrations) (process_response cfg msg).
Proof. solve_frame. Qed.

(** A property of steps holds of a request if it holds of every handler. *)
Lemma request_moves (R : relation World) `{!IoFrame R} msg mth src :
  moves R (mwi_handle_subscribe cfg msg src) -> moves R (handle_access_invite cfg msg src) ->
  (forall m, voicemail_in_call cfg msg mth = Some m -> moves R m) ->
  (forall room max, moves R (conf_handle_invite cfg msg src room max)) ->
  (forall m, conference_in_call msg mth = Some m -> moves R m) ->
  moves R (process_generic cfg secret msg mth src) ->
  moves R (process_request cfg secret msg mth src).
Proof.
  intros Hmwi Hacc Hvm Hinv Hconf Hg. unfold process_request, route_conference. cbv zeta.
  apply moves_bind; [destruct (Str.is_empty _); [apply moves_ret|apply moves_gets]|]. intros is_vm.
  destruct (bool_decide (mth = "SUBSCRIBE") && _); [by apply finalize_moves|].
  destruct (bool_decide (mth = "INVITE") && _); [by apply finalize_moves|].
  destruct (if is_vm then _ else _) as [m|] eqn:Em.
  { destruct is_vm; [|done]. by apply Hvm. }
  apply moves_bind; [destruct (Str.is_empty _); [apply moves_ret|apply moves_gets]|]. intros is_conf.
  destruct (bool_decide (mth = "INVITE")).
  - apply moves_bind; [unfold lookup_room; solve_frame|]. intros [[room max]|]; [|done].
    by apply finalize_moves.
  - destruct (if is_conf then _ else _) as [m|] eqn:Ec; [|done].
    destruct is_conf; [|done]. by apply Hconf.
Qed.

(** One that the core state decides only has to be checked of the registrar and the proxy. *)
Lemma request_moves_core (R : relation World) `{!IoFrame R} msg mth src :
  (forall A (m : M A), moves (same core) m -> moves R m) ->
  moves R (process_generic cfg secret msg mth src) ->
  moves R (process_request cfg secret msg mth src).
Proof.
  intros HR Hg. apply request_moves; [done|..|done].
  - apply HR, mwi_subscribe_core.
  - apply HR, access_invite_core.
  - intros m Hm. by eapply HR, voicemail_in_call_core.
  - intros. apply HR, conf_invite_core.
  - intros m Hm. by eapply HR, conference_in_call_core.
Qed.

Lemma generic_moves (R : relation World) `{!IoFrame R} msg mth src :
  moves R (Proxy.handle_ack cfg msg) ->
  (forall m, generic_handler cfg secret msg mth src = Some m -> moves R m) ->
  moves R (process_generic cfg secret msg mth src).
Proof.
  intros Ha Hm. unfold process_generic. destruct (generic_handler _ _ _ _ _) as [m|].
  - intros w. specialize (Hm m eq_refl w). unfold as_result, mbind, M_bind.
    by destruct (m w) as [[a|e|] w'].
  - apply moves_bind; [done|intros; apply moves_ret].
Qed.

(** The name an INVITE or a MESSAGE claims to come from. *)
Definition sender (msg : SipMessage) (mth : str) : str :=
  if bool_decide (mth = "INVITE") then invite_caller msg
  else default "" (header_user (from_header msg)).

Lemma generic_regs msg mth src :
  mth <> "REGISTER" ->
  moves (port_refreshed (sender msg mth, sip_domain cfg) src) (process_generic cfg secret msg mth src).
Proof.
  intros Hreg. apply generic_moves; [typeclasses eauto| |].
  { apply port_refreshed_same, ack_regs. }
  intros m. unfold generic_handler, sender. rewrite (bool_decide_eq_false_2 (mth = "REGISTER")) by done.
  repeat case_bool_decide; intros [= <-]; subst.
  - apply invite_regs.
  - apply moves_ret.
  - apply port_refreshed_same, in_dialog_regs.
  - apply message_regs.
  - apply port_refreshed_same, refer_regs.
  - apply port_refreshed_same, in_dialog_regs.
  - apply port_refreshed_same, core_regs, subscribe_core.
  - apply port_refreshed_same, bye_regs.
  - apply port_refreshed_same, cancel_regs.
  - apply moves_ret.
Qed.

Lemma register_request msg src w :
  (process_request cfg secret msg "REGISTER" src w).2 = (handle_register cfg secret msg src w).2.
Proof.
  assert (process_request cfg secret msg "REGISTER" src w =
          process_generic cfg secret msg "REGISTER" src w) as ->.
  { unfold process_request, route_conference, is_voicemail_call, is_conference_call. cbv zeta.
    assert (voicemail_in_call cfg msg "REGISTER" = None /\ conference_in_call msg "REGISTER" = None)
      as [Hv Hc] by done.
    rewrite Hv, Hc. destruct (Str.is_empty _); rewrite ?bind_ret, ?bind_gets;
      do 2 rewrite bool_decide_eq_false_2 by done; cbn [andb];
      [by rewrite bind_ret|]. destruct (bool_decide _); rewrite bind_gets; by destruct (bool_decide _). }
  unfold process_generic.
  assert (generic_handler cfg secret msg "REGISTER" src = Some (handle_register cfg secret msg src))
    as -> by done.
  unfold as_result, mbind, M_bind. by destruct (handle_register cfg secret msg src w) as [[a|e|] w'].
Qed.

(** C1: nobody else's registration can be changed.  Over any message from any source in any
    state, the binding of a user stays as it was, unless the message is a REGISTER that proves
    the credentials of that very user from a source that is not blocked, or a request in that
    user's name from the address the user registered from, which updates the port only. *)
Theorem registrations_change_only text src w k :
  let w' := (process_sip_msg cfg secret text src w).2 in
  w_registrations w' !! k = w_registrations w !! k \/
  exists msg mth, parse text = Ok msg /\ method msg = Some mth /\
    (mth = "REGISTER" /\ k = (register_username msg, sip_domain cfg) /\
     blocked_now w (show_ip (ip src)) = false /\ authenticated cfg secret w msg src
     \/ mth <> "REGISTER" /\ k = (sender msg mth, sip_domain cfg) /\
     exists r, w_registrations w !! k = Some r /\ parse_ip (reg_source_ip r) = Some (ip src) /\
       w_registrations w' !! k = Some (with_port r (port src))).
Proof.
  cbv zeta. unfold process_sip_msg. destruct (parse text) as [msg|]; [|by left].
  destruct (method msg) as [mth|] eqn:Hmth; [|left; by rewrite (response_regs msg w)].
  destruct (decide (mth = "REGISTER")) as [->|Hreg].
  - rewrite register_request.
    destruct (register_requires_credentials cfg secret msg src w) as [->|(Hb & Ha & Hk)]; [by left|].
    destruct (decide (k = (register_username msg, sip_domain cfg))) as [->|Hne]; [|left; by apply Hk].
    right. exists msg, "REGISTER". split_and!; [done..|]. left. done.
  - assert (moves (port_refreshed (sender msg mth, sip_domain cfg) src)
      (process_request cfg secret msg mth src)) as Hm.
    { apply request_moves_core; [typeclasses eauto| |by apply generic_regs].
      intros A m Hm. by apply port_refreshed_same, core_regs. }
    destruct (Hm w k) as [->|(-> & r & Hr)]; [by left|]. right. exists msg, mth.
    split_and!; [done..|]. right. split_and!; [done..|]. by exists r.
Qed.
End registrations.

(** ** Examples *)

#[local] Existing Instances toy_digests list_order toy_bcrypt toy_webrtc.

(** A response of Bob's phone to the call [c1]. *)
Definition bob_response (first : str) : str := render first
  [("Via", "SIP/2.0/UDP sip.example.com:5060;branch=z9hG4bK-c1");
   ("Via", "SIP/2.0/UDP 198.51.100.7:5062;branch=z9hG4bK1");
   ("From", "<sip:alice@sip.example.com>;tag=1"); ("To", "<sip:bob@sip.example.com>;tag=2");
   ("Call-ID", "c1"); ("CSeq", "1 INVITE")] [].

(** The call [c1] rings. *)
Definition ringing_world : World :=
  set_pending_invites {[ "c1" := call_invite "alice" ]}
    (set_pending_dialogs {[ "c1" := sample_src ]} dialog_world).

Definition call_cancel : SipMessage :=
  message_of (call_text "CANCEL sip:bob@sip.example.com SIP/2.0" "alice").

(** The 487 that follows the CANCEL. *)
Lemma cancelled_call_gets_no_final_response_witness :
  let w' := (Proxy.handle_cancel sample_config call_cancel ringing_world).2 in
  map out_dst (w_outbox (run_texts sample_config "s3cret"
    [(bob_response "SIP/2.0 487 Request Terminated", bob_addr)] w')) = [bob_addr].
Proof.
  cbv zeta. rewrite (cancelled_call_gets_no_final_response sample_config "s3cret").
  - vm_compute. reflexivity.
  - constructor; [|constructor].
    exists (message_of (bob_response "SIP/2.0 487 Request Terminated")). split_and!; by vm_compute.
Defined.

Lemma busy_to_voicemail_swallows_call_witness :
  let w := set_voicemail_boxes [{| vb_id := 2; vb_username := "bob"; vb_domain := "sip.example.com";
    vb_enabled := 1; vb_no_answer_secs := 20; vb_max_message_secs := 60; vb_max_messages := 10;
    vb_greeting_storage_key := None; vb_pin_hash := None; vb_email := None |}] ringing_world in
  w_outbox (process_sip_msg sample_config "s3cret" (bob_response "SIP/2.0 486 Busy Here") bob_addr w).2
  = [].
Proof.
  intros w. pose proof (busy_to_voicemail_swallows_call sample_config "s3cret"
    (bob_response "SIP/2.0 486 Busy Here") (message_of (bob_response "SIP/2.0 486 Busy Here")) bob_addr
    "c1" "bob" (default sample_box (enabled_box "bob" "sip.example.com" w)) (call_invite "alice") w) as Hb.
  destruct (process_sip_msg _ _ _ _ w) as [r w']. destruct Hb as (_ & Ho & _);
    [by vm_compute|by vm_compute|by vm_compute|by vm_compute|by vm_compute|done|by vm_compute|by vm_compute|].
  exact Ho.
Defined.

(** Bob rings: Alice hears it. *)
Lemma response_relayed_witness :
  exists w', process_sip_msg sample_config "s3cret" (bob_response "SIP/2.0 180 Ringing") bob_addr
    ringing_world = (Val None, w') /\ map out_dst (w_outbox w') = [sample_src].
Proof.
  destruct (response_relayed sample_config "s3cret" (bob_response "SIP/2.0 180 Ringing")
    (message_of (bob_response "SIP/2.0 180 Ringing")) bob_addr "c1" sample_src ringing_world)
    as (w' & E & Ho & _); [by vm_compute..|].
  exists w'. split; [exact E|]. by rewrite Ho.
Defined.
