(* ===== verification/Rooms.v ===== *)
(** * Administration of conference rooms: [backend/src/api/conferences.rs]

    Rooms and their PINs, and what an administrator's change means for the callers. *)

From S2P Require Import Prelude RustStr Net Message Response Forward SecurityGuard Acl Storage Sdp Media.
From S2P Require Import World Gateway Voicemail HttpApi ConferenceMedia Conference Frames Proxy Handler.

Open Scope str_scope.
Open Scope Z_scope.
Open Scope api_scope.

(** ** Handlers *)

Record CreateConferenceRoom := {
  nr_extension : str;
  nr_name : str;
  nr_domain : option str;
  nr_max_participants : option Z;
  nr_enabled : option Z;
  nr_pin : option str;
}.

Record UpdateConferenceRoom := {
  ur_name : option str;
  ur_domain : option str;
  ur_max_participants : option Z;
  ur_enabled : option Z;
  ur_pin : option str;
}.

Definition CONFERENCE_EXTENSION_RULE_MESSAGE : str := "Conference extension must be exactly 9 digits".

(** The query does not select [pin_hash], which the row type requires: reading a row fails. *)
Definition list_rooms : M (Api (list ConferenceRoomRow)) :=
  rows <-? db (gets w_conf_rooms);
  match rows with
  | [] => mret (inl [])
  | _ => api_err 500 "no column found for name: pin_hash"
  end.

Definition room_key (r : ConferenceRoomRow) : str * str := (cr_extension r, cr_domain r).

Definition insert_room (bd : CreateConferenceRoom) (domain : str) (max : Z) (pin_hash : option str)
    (w : World) : World :=
  set_conf_rooms (w_conf_rooms w ++ [{| cr_id := next_id (map cr_id (w_conf_rooms w));
    cr_extension := nr_extension bd; cr_domain := domain; cr_name := Str.trim (nr_name bd);
    cr_enabled := default 1 (nr_enabled bd); cr_max_participants := max;
    cr_pin_hash := pin_hash |}]) w.

Definition updated_room (bd : UpdateConferenceRoom) (pin_hash : option str) (r : ConferenceRoomRow)
    : ConferenceRoomRow :=
  {| cr_id := cr_id r; cr_extension := cr_extension r;
     cr_domain := coalesce (ur_domain bd) (cr_domain r);
     cr_name := coalesce (Str.trim <$> ur_name bd) (cr_name r);
     cr_enabled := coalesce (ur_enabled bd) (cr_enabled r);
     cr_max_participants := coalesce (ur_max_participants bd) (cr_max_participants r);
     cr_pin_hash := pin_hash |}.

(** [UPDATE .. WHERE id = ?]: the unique key may refuse the new domain; the rows matched. *)
Definition update_room_row (id : Z) (bd : UpdateConferenceRoom) (pin_hash : option str) : M Z :=
  clash ← gets (fun w => existsb (fun r => (cr_id r =? id) && existsb (fun s =>
            negb (cr_id s =? id) &&
            bool_decide (room_key s = room_key (updated_room bd pin_hash r))) (w_conf_rooms w))
            (w_conf_rooms w));
  if clash : bool then fail "duplicate entry"
  else
    n ← gets (fun w => Z.of_nat (length (filter (fun r => cr_id r = id) (w_conf_rooms w))));
    _ ← modify (fun w => set_conf_rooms
          (map (fun r => if cr_id r =? id then updated_room bd pin_hash r else r) (w_conf_rooms w)) w);
    mret n.

(** [DELETE], and the participants of the room with it. *)
Definition delete_room_row (id : Z) : M bool := fun w =>
  (Val (existsb (fun r => cr_id r =? id) (w_conf_rooms w)),
   set_conf_participants (filter (fun kv => cp_room_id kv.2 <> id) (w_conf_participants w))
     (set_conf_rooms (filter (fun r => cr_id r <> id) (w_conf_rooms w)) w)).

Definition delete_room (id : Z) : M (Api unit) :=
  found <-? db (delete_room_row id);
  if negb found then api_err 404 "Conference room not found" else mret (inl tt).

Definition joined_before (a b : str * ConferenceParticipantRow) : Prop :=
  cp_joined_at a.2 <= cp_joined_at b.2.

#[export] Instance joined_before_dec : RelDecision joined_before.
Proof. intros a b. unfold joined_before. apply _. Defined.

Definition list_participants (id : Z) : M (Api (list (str * ConferenceParticipantRow))) :=
  db (gets (fun w => merge_sort joined_before (filter (fun kv =>
    cp_room_id kv.2 = id /\ cp_left_at kv.2 = None) (map_to_list (w_conf_participants w))))).

Section rooms.
Context (cfg : Config) `{BcryptHash}.

(** [hash(pin, DEFAULT_COST)] of a PIN of four to sixteen bytes. *)
Definition hash_pin (pin : str) : M (Api (option str)) :=
  if (Str.len pin <? 4) || (16 <? Str.len pin)
  then api_err 400 "PIN must be between 4 and 16 characters"
  else
    h ← hash_password pin;
    mret (match h with inl h => inl (Some h) | inr _ => inr (500, "Failed to hash PIN") end).

Definition create_room (bd : CreateConferenceRoom) : M (Api Z) :=
  if Str.is_empty (Str.trim (nr_name bd)) then api_err 400 "name is required"
  else if negb (validate_conference_extension (nr_extension bd))
  then api_err 400 CONFERENCE_EXTENSION_RULE_MESSAGE
  else
    let domain := default (auth_realm cfg) (nr_domain bd) in
    let max_participants := default 20 (nr_max_participants bd) in
    if (max_participants =? 0) || (200 <? max_participants)
    then api_err 400 "max_participants must be between 1 and 200"
    else
      pin_hash <-? match nr_pin bd with Some pin => hash_pin pin | None => mret (inl None) end;
      b ← fault;
      if b : bool then api_err 500 "database error"
      else
        taken ← gets (fun w => bool_decide ((nr_extension bd, domain) ∈ map room_key (w_conf_rooms w)));
        if taken : bool
        then api_err 409 "Conference room already exists for this extension and domain"
        else
          id ← gets (fun w => next_id (map cr_id (w_conf_rooms w)));
          _ ← modify (insert_room bd domain max_participants pin_hash);
          mret (inl id).

(** The new value of the column: [None] is NULL. *)
Definition new_pin_hash (pin : option str) : M (Api (option str)) :=
  match pin with
  | None => mret (inl None)
  | Some pin => if Str.is_empty pin then mret (inl (Some "")) else hash_pin pin
  end.

Definition update_room (id : Z) (bd : UpdateConferenceRoom) : M (Api unit) :=
  if from_option (fun mp => (mp =? 0) || (200 <? mp)) false (ur_max_participants bd)
  then api_err 400 "max_participants must be between 1 and 200"
  else
    pin_hash <-? new_pin_hash (ur_pin bd);
    rows <-? db (update_room_row id bd pin_hash);
    if rows =? 0 then api_err 404 "Conference room not found" else mret (inl tt).
End rooms.

(** ** Facts *)

(** A room's extension has nine digits and its places are between one and two hundred; ids are
    unique, and so are (extension, domain). *)
Definition room_ok (r : ConferenceRoomRow) : Prop :=
  validate_conference_extension (cr_extension r) = true /\ 1 <= cr_max_participants r <= 200.

Definition rooms_ok (w : World) : Prop :=
  Forall room_ok (w_conf_rooms w) /\ NoDup (map cr_id (w_conf_rooms w)) /\
  NoDup (map room_key (w_conf_rooms w)).

Section facts.
Context (cfg : Config) `{!BcryptHash}.

Lemma hash_pin_inv pin w h w1 :
  hash_pin pin w = (Val (inl h), w1) ->
  4 <= Str.len pin <= 16 /\
  exists salt r hash, bcrypt_hash salt pin = Some hash /\ h = Some hash /\ w1 = set_random r w.
Proof.
  unfold hash_pin, api_err. destruct (_ || _) eqn:Hl; [done|].
  apply orb_false_iff in Hl as [H1%Z.ltb_ge H2%Z.ltb_ge]. intros Hh. split; [lia|].
  unfold mbind, M_bind in Hh. destruct (hash_password pin w) as [[[hash|e]|e|] w2] eqn:E; [|done..].
  apply hash_password_inv in E as (salt & r & Hb & ->). inversion Hh; subst. eauto 6.
Qed.

Lemma moves_hash_pin R `{!IoFrame R} pin : moves R (hash_pin pin).
Proof. unfold hash_pin, api_err. case_match; [apply moves_ret|]. solve_api. Qed.

Lemma room_update_row id bd h w n w' :
  update_room_row id bd h w = (Val n, w') ->
  w' = set_conf_rooms (map (fun r => if cr_id r =? id then updated_room bd h r else r)
         (w_conf_rooms w)) w /\
  n = Z.of_nat (length (filter (fun r => cr_id r = id) (w_conf_rooms w))) /\
  forall r s, r ∈ w_conf_rooms w -> s ∈ w_conf_rooms w -> cr_id r = id -> cr_id s <> id ->
    room_key s <> room_key (updated_room bd h r).
Proof.
  unfold update_room_row. rewrite bind_gets. destruct (existsb _ _) eqn:Hc; [done|].
  rewrite bind_gets, bind_modify. intros Hr. inversion Hr; subst. split_and!; [done..|].
  intros r s Hrin Hsin Hid Hne Hkey. apply not_true_iff_false in Hc. apply Hc, existsb_exists.
  exists r. split; [by apply list_elem_of_In|]. apply andb_true_iff. split; [by apply Z.eqb_eq|].
  apply existsb_exists. exists s. split; [by apply list_elem_of_In|].
  apply andb_true_iff. split; [by apply negb_true_iff, Z.eqb_neq|by apply bool_decide_eq_true].
Qed.

(** What a successful update did. *)
Lemma update_room_inv id bd w w' :
  update_room id bd w = (Val (inl tt), w') ->
  exists h v r w1, new_pin_hash (ur_pin bd) w = (Val (inl h), w1) /\ w1 = set_random r w /\
    from_option (fun mp => (mp =? 0) || (200 <? mp)) false (ur_max_participants bd) = false /\
    w' = set_conf_rooms (map (fun r => if cr_id r =? id then updated_room bd h r else r)
           (w_conf_rooms w)) (set_faults v w1) /\
    is_Some (find_first (fun r => cr_id r =? id) (w_conf_rooms w)).
Proof.
  unfold update_room, api_err. destruct (from_option _ _ _) eqn:Hmp; [done|].
  intros (h & w1 & Hh & Hrest)%api_bind_inv.
  assert (exists r, w1 = set_random r w) as [r Hw1].
  { unfold new_pin_hash in Hh. destruct (ur_pin bd) as [pin|];
      [destruct (Str.is_empty pin)|]; [inversion Hh; subst|..|inversion Hh; subst].
    - exists (w_random w1). by destruct w1.
    - apply hash_pin_inv in Hh as (_ & salt & r & hash & _ & _ & ->). eauto.
    - exists (w_random w1). by destruct w1. }
  apply api_bind_inv in Hrest as (n & w2 & Hup & Hret). apply db_inv in Hup as [v Hup].
  apply room_update_row in Hup as (Hw2 & Hn & _).
  exists h, v, r, w1. destruct (n =? 0) eqn:E0; [done|]. inversion Hret; subst w'.
  split_and!; [done..|by rewrite Hw2, Hw1|]. rewrite Hw1 in Hn. cbn in Hn. apply Z.eqb_neq in E0.
  destruct (filter _ (w_conf_rooms w)) as [|x l] eqn:Ef; [by subst n|].
  assert (x ∈ filter (fun r => cr_id r = id) (w_conf_rooms w)) as [Hid Hx]%list_elem_of_filter
    by (rewrite Ef; set_solver).
  destruct (find_first _ _) eqn:Ef'; [done|]. apply find_first_None in Ef'. rewrite Forall_forall in Ef'.
  specialize (Ef' x Hx). by apply Z.eqb_neq in Ef'.
Qed.

Lemma updated_pin_hash id bd h w :
  is_Some (find_first (fun r => cr_id r =? id) (w_conf_rooms w)) ->
  room_pin_hash (set_conf_rooms (map (fun r => if cr_id r =? id then updated_room bd h r else r)
    (w_conf_rooms w)) w) id = h.
Proof.
  unfold room_pin_hash. cbn. induction (w_conf_rooms w) as [|x l IH]; [by intros [? ?]|]. cbn.
  destruct (cr_id x =? id) eqn:E; cbn; [|rewrite E; apply IH]. rewrite E. by cbn.
Qed.
End facts.

(** ** Theorems *)

(** What an update does to the PIN of a room.  A PIN that is given becomes the one that opens
    the room.  But an update that does not mention the PIN (a new name, more places) removes
    it: every caller with an account is let in without one.  And an update with the empty PIN,
    which should remove it, locks the room: no caller is let in, with any PIN. *)
Theorem room_update_pin `{!Bcrypt, !BcryptHash, !BcryptLaws} id bd w w' :
  (forall p, bcrypt_verify p "" <> Some true) ->
  update_room id bd w = (Val (inl tt), w') ->
  match ur_pin bd with
  | None => forall uri, pin_refusal (room_pin_hash w' id) uri = None
  | Some pin =>
      if Str.is_empty pin then forall uri, is_Some (pin_refusal (room_pin_hash w' id) uri)
      else forall uri, extract_pin_from_uri uri = Some pin ->
             pin_refusal (room_pin_hash w' id) uri = None
  end.
Proof.
  intros Hempty (h & v & r & w1 & Hpin & Hw1 & _ & -> & Hfound)%update_room_inv.
  rewrite Hw1. change (w_conf_rooms w) with (w_conf_rooms (set_faults v (set_random r w))) at 1.
  assert (forall w0, w_conf_rooms w0 = w_conf_rooms w -> room_pin_hash (set_conf_rooms
    (map (fun r => if cr_id r =? id then updated_room bd h r else r) (w_conf_rooms w)) w0) id = h) as Hr.
  { intros w0 E. rewrite <-E. apply updated_pin_hash. by rewrite E. }
  change (w_conf_rooms (set_faults v (set_random r w))) with (w_conf_rooms w). rewrite Hr by done.
  unfold new_pin_hash in Hpin. destruct (ur_pin bd) as [pin|]; [|by inversion Hpin; subst].
  destruct (Str.is_empty pin) eqn:Epin.
  - inversion Hpin; subst. intros uri. cbn. destruct (extract_pin_from_uri uri) as [p|]; [|done].
    specialize (Hempty p). destruct (bcrypt_verify p "") as [[]|]; done.
  - apply hash_pin_inv in Hpin as (_ & salt & r' & hash & Hh%bcrypt_verify_hash & -> & _).
    intros uri Huri. cbn. by rewrite Huri, Hh.
Qed.

(** *** The table of rooms *)

Section rooms_invariant.
Context (cfg : Config) `{!BcryptHash}.

Lemma insert_room_ok bd domain max h w :
  rooms_ok w -> validate_conference_extension (nr_extension bd) = true -> 1 <= max <= 200 ->
  (nr_extension bd, domain) ∉ map room_key (w_conf_rooms w) ->
  rooms_ok (insert_room bd domain max h w).
Proof.
  intros (Hf & Hi & Hk) Hv Hmax Hfree. unfold rooms_ok, insert_room. cbn. split_and!.
  - apply Forall_app. split; [done|]. apply Forall_singleton. by split.
  - apply NoDup_map_snoc; [done|]. apply next_id_fresh.
  - by apply NoDup_map_snoc.
Qed.

Lemma create_room_ok bd :
  0 <= default 20 (nr_max_participants bd) -> moves (keeps rooms_ok) (create_room cfg bd).
Proof.
  intros Hpos. unfold create_room, api_err. case_match; [apply moves_ret|].
  destruct (validate_conference_extension _) eqn:Hv; cbn [negb]; [|apply moves_ret]. cbv zeta.
  destruct (_ || _) eqn:Hm; [apply moves_ret|]. apply orb_false_iff in Hm as [H1%Z.eqb_neq H2%Z.ltb_ge].
  apply moves_api_bind; [destruct (nr_pin bd); [apply moves_hash_pin, _|apply moves_ret]|]. intros h.
  apply moves_bind; [apply moves_fault|]. intros []; [apply moves_ret|]. intros w Hok.
  rewrite bind_gets. case_bool_decide; [done|]. rewrite bind_gets, bind_modify.
  apply insert_room_ok; [done..|lia|done].
Qed.

(** One row may take a key that no other row has. *)
Lemma update_rooms_ok id bd h w :
  rooms_ok w -> from_option (fun mp => 1 <= mp <= 200) True (ur_max_participants bd) ->
  (forall r s, r ∈ w_conf_rooms w -> s ∈ w_conf_rooms w -> cr_id r = id -> cr_id s <> id ->
     room_key s <> room_key (updated_room bd h r)) ->
  rooms_ok (set_conf_rooms (map (fun r => if cr_id r =? id then updated_room bd h r else r)
    (w_conf_rooms w)) w).
Proof.
  intros (Hf & Hi & Hk) Hmax Hfree. unfold rooms_ok. cbn. split_and!.
  - apply Forall_map. eapply Forall_impl; [exact Hf|]. intros r [Hv Hm]. case_match; [|done].
    split; [done|]. cbn. unfold coalesce. by destruct (ur_max_participants bd).
  - rewrite map_update_key; [done|]. intros r. by case_match.
  - rewrite map_map. pose proof (NoDup_fmap_1 _ _ Hi) as Hl.
    apply NoDup_fmap_2_strong; [|done]. intros r s Hr Hs.
    destruct (Z.eqb_spec (cr_id r) id) as [Er|Er], (Z.eqb_spec (cr_id s) id) as [Es|Es]; intros Hkey.
    + eapply (NoDup_map_inj cr_id); [exact Hi|done..|congruence].
    + by destruct (Hfree r s Hr Hs Er Es).
    + by destruct (Hfree s r Hs Hr Es Er).
    + by eapply (NoDup_map_inj room_key).
Qed.

Lemma update_room_ok id bd :
  from_option (fun mp => 0 <= mp) True (ur_max_participants bd) ->
  moves (keeps rooms_ok) (update_room id bd).
Proof.
  intros Hpos. unfold update_room, new_pin_hash, api_err.
  destruct (from_option (fun mp => (mp =? 0) || _) _ _) eqn:Hm; [apply moves_ret|].
  apply moves_api_bind.
  { repeat case_match; [apply moves_ret|apply moves_hash_pin, _|apply moves_ret]. }
  intros h. apply moves_api_bind; [|intros; case_match; apply moves_ret]. apply moves_db.
  intros w Hok. destruct (update_room_row id bd h w) as [[n|e|] w1] eqn:E.
  - apply room_update_row in E as (-> & _ & Hfree). apply update_rooms_ok; [done| |done].
    destruct (ur_max_participants bd) as [mp|]; [|done]. cbn in *.
    apply orb_false_iff in Hm as [H1%Z.eqb_neq H2%Z.ltb_ge]. lia.
  - unfold update_room_row in E. rewrite bind_gets in E. by destruct (existsb _ _); inversion E; subst.
  - unfold update_room_row in E. rewrite bind_gets in E. by destruct (existsb _ _).
Qed.

Lemma delete_room_ok id : moves (keeps rooms_ok) (delete_room id).
Proof.
  unfold delete_room, api_err. solve_api. intros w (Hf & Hi & Hk). unfold rooms_ok. cbn.
  split_and!; [by apply Forall_filter_keep|by apply NoDup_map_filter..].
Qed.

(** The requests that write the table; the numbers of a body are unsigned. *)
Inductive room_step : World -> World -> Prop :=
  | room_create bd w : 0 <= default 20 (nr_max_participants bd) -> room_step w (create_room cfg bd w).2
  | room_update id bd w : from_option (fun mp => 0 <= mp) True (ur_max_participants bd) ->
      room_step w (update_room id bd w).2
  | room_delete id w : room_step w (delete_room id w).2
  | room_environment now faults rnd w :
      room_step w (set_now now (set_faults faults (set_random rnd w))).

Lemma room_step_ok w w' : room_step w w' -> keeps rooms_ok w w'.
Proof.
  destruct 1; [by apply create_room_ok|by apply update_room_ok|by apply delete_room_ok|by intros ?].
Qed.

(** In a table with keys, the only enabled row of a key is the one found. *)
Lemma find_room_unique w r :
  rooms_ok w -> r ∈ w_conf_rooms w -> cr_enabled r = 1 ->
  find_room w (cr_extension r) (cr_domain r) = Some r.
Proof.
  intros (_ & _ & Hk) Hr Hen. unfold find_room. destruct (find_first _ _) as [s|] eqn:E.
  - apply find_first_Some in E as [Hs Hp]. bool_simpl. f_equal.
    eapply (NoDup_map_inj room_key); [exact Hk|done..|]. unfold room_key. congruence.
  - apply find_first_None in E. rewrite Forall_forall in E. specialize (E r Hr).
    by rewrite !bool_decide_eq_true_2, Hen in E.
Qed.

End rooms_invariant.

Section rooms_called.
Context (cfg : Config) (secret : str).
Context `{!BcryptHash, !Digests, !HeaderOrder, !Bcrypt, !WebRtc}.

(** What a call to [ext] finds. *)
Lemma lookup_room_run w ext domain :
  w_faults w = [] -> validate_conference_extension ext = true ->
  lookup_room ext domain w =
    (Val ((fun r => (cr_id r, cr_max_participants r)) <$> find_room w ext domain), w).
Proof.
  intros Hf He. unfold lookup_room. rewrite He. cbn [negb].
  by erewrite bind_val by (unfold attempt, gets; rewrite query_ok by done; reflexivity).
Qed.

(** An INVITE to an extension goes to the room found in the server's domain. *)
Lemma invite_to_room msg src w ext :
  request_uri msg ≫= uri_username = Some ext -> is_access_invite cfg msg = false ->
  w_faults w = [] -> validate_conference_extension ext = true ->
  process_request cfg secret msg "INVITE" src w =
    match find_room w ext (sip_domain cfg) with
    | Some r => finalize msg "INVITE" (conf_handle_invite cfg msg src (cr_id r) (cr_max_participants r)) w
    | None => process_generic cfg secret msg "INVITE" src w
    end.
Proof.
  intros Hu Ha Hf He. unfold process_request. cbv zeta.
  set (cid := default "" (call_id msg)).
  assert (exists b, (if Str.is_empty cid then mret false else is_voicemail_call cid) w = (Val b, w)) as [b Eb].
  { destruct (Str.is_empty cid); by eexists. }
  rewrite (bind_val _ _ _ _ _ Eb). rewrite Ha, andb_false_r.
  rewrite bool_decide_eq_false_2 by done. cbn [andb].
  assert ((if b then voicemail_in_call cfg msg "INVITE" else None) = None) as -> by by destruct b.
  cbv iota. unfold route_conference.
  assert (exists b, (if Str.is_empty cid then mret false else is_conference_call cid) w = (Val b, w)) as [c Ec].
  { destruct (Str.is_empty cid); by eexists. }
  rewrite (bind_val _ _ _ _ _ Ec). rewrite bool_decide_eq_true_2 by done.
  assert (default [] (uri_username (default [] (request_uri msg))) = ext) as ->.
  { destruct (request_uri msg); [|done]. cbn in *. by rewrite Hu. }
  rewrite (bind_val _ _ _ _ _ (lookup_room_run _ _ _ Hf He)). by destruct (find_room _ _ _).
Qed.

(** C24: the rooms of the server's domain can be called.  Over any sequence of creations,
    changes and deletions, whatever fails, extensions have nine digits, places are between one
    and two hundred and no two rooms share id or number.  So, when the database answers, an
    INVITE to the extension of an enabled room of the SIP domain is handed to that very room
    with its number of places.  A room of another domain (the default is the realm) is found by
    no call: what an INVITE to its extension finds is another room, or none. *)
Theorem rooms_reachable w w' r msg src :
  rtc (room_step cfg) w w' -> rooms_ok w -> r ∈ w_conf_rooms w' -> cr_enabled r = 1 ->
  w_faults w' = [] -> request_uri msg ≫= uri_username = Some (cr_extension r) ->
  is_access_invite cfg msg = false ->
  rooms_ok w' /\
  (cr_domain r = sip_domain cfg ->
   process_request cfg secret msg "INVITE" src w' =
     finalize msg "INVITE" (conf_handle_invite cfg msg src (cr_id r) (cr_max_participants r)) w') /\
  (cr_domain r <> sip_domain cfg ->
   process_request cfg secret msg "INVITE" src w' = process_generic cfg secret msg "INVITE" src w' \/
   exists s, s ∈ w_conf_rooms w' /\ cr_id s <> cr_id r /\ cr_domain s = sip_domain cfg /\
     process_request cfg secret msg "INVITE" src w' =
       finalize msg "INVITE" (conf_handle_invite cfg msg src (cr_id s) (cr_max_participants s)) w').
Proof.
  intros Hs Hok Hr Hen Hf Hu Ha. assert (rooms_ok w') as Hok'.
  { clear Hr Hf. induction Hs as [|x y z Hxy _ IH]; [done|]. by eapply IH, (room_step_ok cfg). }
  assert (validate_conference_extension (cr_extension r) = true) as He.
  { destruct Hok' as [Hv _]. rewrite Forall_forall in Hv. by apply Hv. }
  rewrite (invite_to_room msg src w' _ Hu Ha Hf He). split_and!; [done|..].
  - intros <-. by rewrite (find_room_unique w' r).
  - intros Hd. destruct (find_room w' _ _) as [s|] eqn:E; [right|by left].
    apply find_first_Some in E as [Hin Hp]. bool_simpl. exists s. split_and!; [done| |done|done].
    intros Hid. destruct Hok' as (_ & Hn & _). assert (s = r) as -> by by eapply (NoDup_map_inj cr_id).
    done.
Qed.
End rooms_called.

(** The list page fails as soon as there is a room. *)
Lemma list_rooms_fails w : w_conf_rooms w <> [] -> forall l, (list_rooms w).1 <> Val (inl l).
Proof.
  intros Hne l. unfold list_rooms. destruct (db_gets w_conf_rooms w) as [v [E|E]]; [done|..].
  - rewrite (api_bind_ok _ _ _ _ _ E). by destruct (w_conf_rooms w).
  - by rewrite (api_bind_err _ _ _ _ _ E).
Qed.

(** ** Examples *)

(** Verifying against a text that is no hash is an error. *)
Definition strict_bcrypt : Bcrypt :=
  {| bcrypt_verify p h := if Str.is_empty h then None else Some (bool_decide (p = h)) |}.

Definition strict_bcrypt_hash : BcryptHash :=
  {| bcrypt_hash _ p := if Str.is_empty p then None else Some p |}.

Lemma strict_bcrypt_laws : @BcryptLaws strict_bcrypt strict_bcrypt_hash.
Proof.
  constructor. intros salt p h. cbn. destruct (Str.is_empty p) eqn:E; [done|]. intros [= <-].
  by rewrite E, bool_decide_eq_true_2.
Qed.

Definition rename_room (pin : option str) : UpdateConferenceRoom :=
  {| ur_name := Some "All hands"; ur_domain := None; ur_max_participants := None;
     ur_enabled := None; ur_pin := pin |}.

Lemma room_update_pin_witness :
  let opened := (@update_room strict_bcrypt_hash 1 (rename_room None) room_world).2 in
  let locked := (@update_room strict_bcrypt_hash 1 (rename_room (Some "")) room_world).2 in
  @pin_refusal strict_bcrypt (room_pin_hash opened 1) "sip:900000000@sip.example.com" = None /\
  is_Some (@pin_refusal strict_bcrypt (room_pin_hash locked 1) "sip:900000000@x;pin=1234").
Proof.
  intros opened locked. split.
  - exact (@room_update_pin strict_bcrypt strict_bcrypt_hash strict_bcrypt_laws 1 (rename_room None)
      room_world opened ltac:(done) ltac:(vm_compute; reflexivity) _).
  - exact (@room_update_pin strict_bcrypt strict_bcrypt_hash strict_bcrypt_laws 1
      (rename_room (Some "")) room_world locked ltac:(done) ltac:(vm_compute; reflexivity) _).
Defined.

Definition new_room : CreateConferenceRoom :=
  {| nr_extension := "900000001"; nr_name := "Board"; nr_domain := None;
     nr_max_participants := None; nr_enabled := None; nr_pin := Some "4711" |}.

Definition board_invite : SipMessage := message_of (render
  "INVITE sip:900000001@sip.example.com;pin=4711 SIP/2.0"
  [("From", "<sip:alice@sip.example.com>;tag=1"); ("To", "<sip:900000001@sip.example.com>");
   ("Call-ID", "c1"); ("CSeq", "1 INVITE")]
  (Str.terminated ["v=0"; "c=IN IP4 198.51.100.7"; "m=audio 4000 RTP/AVP 0"])).

Lemma rooms_reachable_witness :
  let w := (@create_room sample_config strict_bcrypt_hash new_room room_world).2 in
  @process_request sample_config "s3cret" toy_digests list_order strict_bcrypt toy_webrtc board_invite
      "INVITE" sample_src w =
    finalize board_invite "INVITE"
      (@conf_handle_invite sample_config strict_bcrypt board_invite sample_src 2 20) w.
Proof.
  cbv zeta. set (w := (@create_room sample_config strict_bcrypt_hash new_room room_world).2).
  destruct (@rooms_reachable sample_config "s3cret" strict_bcrypt_hash toy_digests list_order
    strict_bcrypt toy_webrtc room_world w
    (List.last (w_conf_rooms w) (Build_ConferenceRoomRow 0 "" "" "" 0 0 None))
    board_invite sample_src) as (_ & Hl & _).
  - apply rtc_once, room_create. done.
  - split_and!; [|apply (bool_decide_eq_true_1 _); vm_compute; reflexivity..].
    apply Forall_singleton. split; [by vm_compute|cbn; lia].
  - vm_compute. right. left.
  - by vm_compute.
  - by vm_compute.
  - by vm_compute.
  - by vm_compute.
  - apply Hl. by vm_compute.
Defined.
