(* ===== verification/WebSocket.v ===== *)
(** * SIP over WebSocket: [backend/src/sip/ws_server.rs]

    The handshake, the task of a connection, and the connections of a server side by side, with
    the TLS streams of [tcp_server.rs] that share their registry.  Framing is the tungstenite
    crate, TLS the native-tls crate; how a TLS stream is cut into messages is in [Stream]. *)

From S2P Require Import Prelude RustStr Net Message Response Stream Forward SecurityGuard Acl.
From S2P Require Import Storage Sdp Media World Gateway Voicemail Presence ConferenceMedia Conference Registrar.
From S2P Require Import Frames Proxy Handler.

Open Scope str_scope.
Open Scope Z_scope.

(** ** The handshake *)

(** Does the client ask for the sub-protocol [sip]?  [requested] is the header
    [Sec-WebSocket-Protocol], when it is text. *)
Definition wants_sip (requested : option str) : bool :=
  from_option (fun v => existsb (fun p => Str.eq_ignore_case (Str.trim p) "sip") (Str.split_char "," v))
    false requested.

(** The header of the response. *)
Definition accept_ws (requested : option str) : option str :=
  if wants_sip requested then Some "sip" else None.

(** ** A connection *)

Inductive WsMessage :=
  | WsText (t : str)
  | WsBinary (b : str)
  | WsPing (data : str)
  | WsPong (data : str)
  | WsClose.

(** What [select!] can see next; [fails] when the answer cannot be written. *)
Inductive WsEvent :=
  | FrameIn (f : WsMessage) (fails : bool)
  | StreamEnd
  | ReadFailed
  | OutboundReady (message : str) (fails : bool).

Section connection.
Context (cfg : Config) (secret : str) `{Digests, HeaderOrder, Bcrypt, WebRtc}.
Context (src : SocketAddr).

(** [sink.send]: what is written, and whether it could be. *)
Definition ws_send (fails : bool) (m : WsMessage) : list WsMessage * bool :=
  if fails then ([], false) else ([m], true).

(** One turn of the loop: what is written, and does the loop go on? *)
Definition on_text (text : str) (fails : bool) : M (list WsMessage * bool) :=
  r ← attempt (handle_tcp_msg cfg secret text src);
  mret (match r with
        | Some (Some resp) => ws_send fails (WsText resp)
        | _ => ([], true)
        end).

Definition on_event (ev : WsEvent) : M (list WsMessage * bool) :=
  match ev with
  | StreamEnd | ReadFailed => mret ([], false)
  | FrameIn (WsText t) fails => on_text t fails
  | FrameIn (WsBinary b) fails => if Str.valid_utf8 b then on_text b fails else mret ([], true)
  | FrameIn (WsPing d) fails => mret ((ws_send fails (WsPong d)).1, true)
  | FrameIn WsClose _ => mret ([], false)
  | FrameIn (WsPong _) _ => mret ([], true)
  | OutboundReady m fails => mret (ws_send fails (WsText m))
  end.

(** The task of a connection between two awaits: what it has written so far. *)
Inductive StreamTask (A : Type) :=
  | Connecting
  | Talking (sent : list A)
  | Ended (sent : list A).
#[global] Arguments Connecting {A}.
#[global] Arguments Talking {A}.
#[global] Arguments Ended {A}.

(** The task resumed: it registers its queue and enters the loop; then it takes the next thing
    [select!] sees, and after the loop it unregisters. *)
Definition process_ws (t : StreamTask WsMessage) (next : option WsEvent) : M (StreamTask WsMessage) :=
  match t, next with
  | Connecting, _ => _ ← register_stream src; mret (Talking [])
  | Talking sent, Some ev =>
      '(out, go) ← on_event ev;
      if go : bool then mret (Talking (sent ++ out))
      else _ ← unregister_stream src; mret (Ended (sent ++ out))
  | _, _ => mret t
  end.

(** A connection on its own. *)
Fixpoint run_ws (t : StreamTask WsMessage) (evs : list WsEvent) : M (StreamTask WsMessage) :=
  match evs with
  | [] => mret t
  | ev :: evs => t' ← process_ws t (Some ev); run_ws t' evs
  end.

Definition ws_session (evs : list WsEvent) : M (StreamTask WsMessage) :=
  t ← process_ws Connecting None; run_ws t evs.

(** *** A TLS stream *)

(** A message read, the end of the stream, an error of the reader, a queued message; [fails]
    when the bytes cannot be written. *)
Inductive TlsEvent :=
  | TlsMessage (raw : str) (fails : bool)
  | TlsEof
  | TlsReadError
  | TlsOutbound (message : str) (fails : bool).

Definition tls_write (sent : list str) (text : str) (fails : bool) : list str * bool :=
  if fails then (sent, false) else (sent ++ [text], true).

Definition on_tls_event (sent : list str) (ev : TlsEvent) : M (list str * bool) :=
  match ev with
  | TlsMessage raw fails =>
      r ← attempt (handle_tcp_msg cfg secret raw src);
      mret (match r with
            | Some (Some resp) => tls_write sent resp fails
            | _ => (sent, true)
            end)
  | TlsEof | TlsReadError => mret (sent, false)
  | TlsOutbound m fails => mret (tls_write sent m fails)
  end.

Definition pump_registered_stream (t : StreamTask str) (next : option TlsEvent) : M (StreamTask str) :=
  match t, next with
  | Connecting, _ => _ ← registry_register src; mret (Talking [])
  | Talking sent, Some ev =>
      '(sent', go) ← on_tls_event sent ev;
      if go : bool then mret (Talking sent')
      else _ ← registry_unregister src; mret (Ended sent')
  | _, _ => mret t
  end.
End connection.

(** ** The handlers leave the registry alone *)

Section registry.
Context (cfg : Config) (secret : str) `{!Digests, !HeaderOrder, !Bcrypt, !WebRtc}.

Lemma process_registry text src : moves (same w_registry) (process_sip_msg cfg secret text src).
Proof.
  unfold process_sip_msg. destruct (parse text) as [msg|]; [|apply moves_ret].
  destruct (method msg) as [mth|]; [|solve_frame].
  apply request_moves; [typeclasses eauto|solve_frame|solve_frame|..].
  - intros m Hm. eapply in_call_moves; [typeclasses eauto|exact Hm|solve_frame..].
  - intros. solve_frame.
  - intros m Hm. eapply in_call_moves; [typeclasses eauto|exact Hm|solve_frame..].
  - apply generic_moves; [typeclasses eauto|solve_frame|]. intros m. unfold generic_handler.
    repeat case_bool_decide; intros [= <-]; solve_frame.
Qed.

Lemma on_event_registry src ev : moves (same w_registry) (on_event cfg secret src ev).
Proof.
  assert (forall t fails, moves (same w_registry) (on_text cfg secret src t fails)) as Ht.
  { intros t fails. unfold on_text. apply moves_bind; [apply moves_attempt, process_registry|].
    intros; apply moves_ret. }
  destruct ev as [[t|b|d|d|] fails| | |m fails]; cbn [on_event]; try apply moves_ret; [apply Ht|].
  case_match; [apply Ht|apply moves_ret].
Qed.

Lemma on_tls_event_registry src sent ev : moves (same w_registry) (on_tls_event cfg secret src sent ev).
Proof.
  destruct ev; cbn [on_tls_event]; try apply moves_ret.
  apply moves_bind; [apply moves_attempt, process_registry|]. intros; apply moves_ret.
Qed.

(** ** Many connections *)

Inductive ConnTask := WsTask (t : StreamTask WsMessage) | TlsTask (t : StreamTask str).

Inductive TaskEvent := WsNext (ev : option WsEvent) | TlsNext (ev : option TlsEvent).

Definition resume (src : SocketAddr) (t : ConnTask) (ev : TaskEvent) : M ConnTask :=
  match t, ev with
  | WsTask t, WsNext ev => t' ← process_ws cfg secret src t ev; mret (WsTask t')
  | TlsTask t, TlsNext ev => t' ← pump_registered_stream cfg secret src t ev; mret (TlsTask t')
  | _, _ => mret t
  end.

Inductive Stage := NotYet | InLoop | Over.

Definition stage_of {A} (t : StreamTask A) : Stage :=
  match t with Connecting => NotYet | Talking _ => InLoop | Ended _ => Over end.

Definition stage (t : ConnTask) : Stage :=
  match t with WsTask t => stage_of t | TlsTask t => stage_of t end.

(** A connection: its peer, its task, whether the task panicked, and whether another connection
    of the same address has registered or ended since it registered. *)
Record Connection := {
  cn_src : SocketAddr;
  cn_task : ConnTask;
  cn_crashed : bool;
  cn_shadowed : bool;
}.

Record Streams := { st_world : World; st_conns : gmap nat Connection }.

(** Is the sender in the registry the one of this connection? *)
Definition holds (c : Connection) : Prop := stage (cn_task c) = InLoop /\ cn_shadowed c = false.

Definition shadow (i : nat) (src : SocketAddr) (j : nat) (c : Connection) : Connection :=
  if decide (j <> i /\ cn_src c = src)
  then {| cn_src := cn_src c; cn_task := cn_task c; cn_crashed := cn_crashed c; cn_shadowed := true |}
  else c.

(** The connections after one of them went on to [t]: when it registers or ends, the others of
    its address are shadowed. *)
Definition moved (i : nat) (c : Connection) (t : ConnTask) (o : gmap nat Connection) : gmap nat Connection :=
  match stage (cn_task c), stage t with
  | NotYet, InLoop =>
      <[i := {| cn_src := cn_src c; cn_task := t; cn_crashed := cn_crashed c; cn_shadowed := false |}]>
        (map_imap (fun j c' => Some (shadow i (cn_src c) j c')) o)
  | InLoop, Over =>
      <[i := {| cn_src := cn_src c; cn_task := t; cn_crashed := cn_crashed c; cn_shadowed := cn_shadowed c |}]>
        (map_imap (fun j c' => Some (shadow i (cn_src c) j c')) o)
  | _, _ =>
      <[i := {| cn_src := cn_src c; cn_task := t; cn_crashed := cn_crashed c; cn_shadowed := cn_shadowed c |}]> o
  end.

(** A connection is accepted, its task goes on or panics; a message arrives on UDP; time
    passes.  A task that panics drops the receiver of its queue, and nothing takes the sender
    out of the registry. *)
Inductive stream_step : Streams -> Streams -> Prop :=
  | stream_accepted i src t w o :
      o !! i = None -> stage t = NotYet ->
      stream_step (Build_Streams w o) (Build_Streams w
        (<[i := {| cn_src := src; cn_task := t; cn_crashed := false; cn_shadowed := false |}]> o))
  | stream_resumed i c ev t' w w' o :
      o !! i = Some c -> cn_crashed c = false -> resume (cn_src c) (cn_task c) ev w = (Val t', w') ->
      stream_step (Build_Streams w o) (Build_Streams w' (moved i c t' o))
  | stream_panicked i c ev w w' o :
      o !! i = Some c -> cn_crashed c = false -> resume (cn_src c) (cn_task c) ev w = (Panicked, w') ->
      stream_step (Build_Streams w o) (Build_Streams
        (if cn_shadowed c then w' else set_registry (<[cn_src c := false]> (w_registry w')) w')
        (<[i := {| cn_src := cn_src c; cn_task := cn_task c; cn_crashed := true;
                   cn_shadowed := cn_shadowed c |}]> o))
  | stream_datagram text src w o :
      stream_step (Build_Streams w o) (Build_Streams (process_sip_msg cfg secret text src w).2 o)
  | stream_passes now faults rnd w o :
      stream_step (Build_Streams w o)
        (Build_Streams (set_now now (set_faults faults (set_random rnd w))) o).

(** The registry has one entry per address whose sender belongs to a connection in its loop,
    open unless that connection's task panicked. *)
Record registry_exact (s : Streams) : Prop := {
  re_unique i j c d : st_conns s !! i = Some c -> st_conns s !! j = Some d -> holds c -> holds d ->
    cn_src c = cn_src d -> i = j;
  re_entry a b : w_registry (st_world s) !! a = Some b <->
    exists i c, st_conns s !! i = Some c /\ cn_src c = a /\ holds c /\ b = negb (cn_crashed c);
}.

(** What one resumption does to the registry, by the stage before and after. *)
Lemma resume_registry src t ev w r w' :
  resume src t ev w = (r, w') ->
  match r with
  | Val t' =>
      match stage t, stage t' with
      | NotYet, InLoop => w_registry w' = <[src := true]> (w_registry w)
      | InLoop, Over => w_registry w' = delete src (w_registry w)
      | s, s' => s = s' /\ w_registry w' = w_registry w
      end
  | _ => stage t = InLoop /\ w_registry w' = w_registry w
  end.
Proof.
  unfold resume. destruct t as [t|t], ev as [ev|ev]; try (intros [= <- <-]; by case_match).
  - destruct t as [|sent|sent], ev as [ev|]; cbn [process_ws];
      try (intros [= <- <-]; cbn; done).
    pose proof (on_event_registry src ev w) as Hr. unfold mbind, M_bind.
    destruct (on_event cfg secret src ev w) as [[[out []]|e|] w1]; intros [= <- <-]; cbn in *;
      by rewrite <-?Hr.
  - destruct t as [|sent|sent], ev as [ev|]; cbn [pump_registered_stream];
      try (intros [= <- <-]; cbn; done).
    pose proof (on_tls_event_registry src sent ev w) as Hr. unfold mbind, M_bind.
    destruct (on_tls_event cfg secret src sent ev w) as [[[out []]|e|] w1]; intros [= <- <-]; cbn in *;
      by rewrite <-?Hr.
Qed.

Lemma shadow_src i src j c : cn_src (shadow i src j c) = cn_src c.
Proof. unfold shadow. by case_decide. Qed.

Lemma shadow_holds i src j c : holds (shadow i src j c) <-> holds c /\ ~ (j <> i /\ cn_src c = src).
Proof. unfold shadow, holds. case_decide; cbn; naive_solver. Qed.

Lemma shadow_crashed i src j c : cn_crashed (shadow i src j c) = cn_crashed c.
Proof. unfold shadow. by case_decide. Qed.

(** Replacing a connection that neither held nor holds. *)
Lemma exact_other i c c' w w' o :
  w_registry w' = w_registry w -> (forall d, o !! i = Some d -> d = c) -> (is_Some (o !! i) -> ~ holds c) ->
  ~ holds c' -> registry_exact (Build_Streams w o) -> registry_exact (Build_Streams w' (<[i := c']> o)).
Proof.
  intros Hw Hi Hc Hc' [Hu He]. split; cbn in *.
  - intros j k d e. rewrite !lookup_insert_Some. naive_solver.
  - intros a b. rewrite Hw, He. split.
    + intros (j & d & Hj & Hrest). exists j, d. split; [|done]. rewrite lookup_insert_Some. right.
      split; [|done]. intros <-. rewrite Hj in *. destruct (Hc (ex_intro _ d eq_refl)).
      rewrite <-(Hi d eq_refl). by destruct Hrest as (_ & ? & _).
    + intros (j & d & [[<- <-]|[Hne Hj]]%lookup_insert_Some & Hs & Hh & Hb); [done|]. by exists j, d.
Qed.

(** Replacing a connection by one that is as much a holder, with the same state of its task. *)
Lemma exact_same i c c' w w' o :
  w_registry w' = w_registry w -> o !! i = Some c -> cn_src c' = cn_src c ->
  (holds c' <-> holds c) -> cn_crashed c' = cn_crashed c ->
  registry_exact (Build_Streams w o) -> registry_exact (Build_Streams w' (<[i := c']> o)).
Proof.
  intros Hw Hi Hsrc Hh Hcr [Hu He]. split; cbn in *.
  - intros j k d e. rewrite !lookup_insert_Some. intros [[<- <-]|[Hj Hd]] [[<- <-]|[Hk He']] Hhd Hhe Hs; try done.
    + eapply Hu; [exact Hi|exact He'|by apply Hh|done|congruence].
    + symmetry. eapply Hu; [exact Hi|exact Hd|by apply Hh|done|congruence].
    + by eapply Hu.
  - intros a b. rewrite Hw, He. split; intros (j & d & Hj & Hs & Hhd & ->).
    + destruct (decide (j = i)) as [->|Hne].
      * simplify_eq. exists i, c'. rewrite lookup_insert_eq, Hcr. naive_solver.
      * exists j, d. by rewrite lookup_insert_ne.
    + apply lookup_insert_Some in Hj as [[<- <-]|[Hne Hj]]; [|by exists j, d].
      exists i, c. rewrite Hcr. naive_solver.
Qed.

Lemma lookup_shadowed i src j d (o : gmap nat Connection) :
  map_imap (fun j c' => Some (shadow i src j c')) o !! j = Some d <->
  exists c, o !! j = Some c /\ d = shadow i src j c.
Proof. rewrite map_lookup_imap. destruct (o !! j); cbn; naive_solver. Qed.

(** Registering: the only holder of the address is the new one. *)
Lemma exact_register i c t w w' o :
  w_registry w' = <[cn_src c := true]> (w_registry w) -> stage t = InLoop -> cn_crashed c = false ->
  o !! i = Some c -> ~ holds c -> registry_exact (Build_Streams w o) ->
  registry_exact (Build_Streams w' (<[i := {| cn_src := cn_src c; cn_task := t;
    cn_crashed := cn_crashed c; cn_shadowed := false |}]>
    (map_imap (fun j c' => Some (shadow i (cn_src c) j c')) o))).
Proof.
  intros Hw Ht Hcr Hi Hnh [Hu He]. split; cbn in *.
  - intros j k d e. rewrite !lookup_insert_Some, !lookup_shadowed.
    intros [[<- <-]|[Hj (d' & Hd & ->)]] [[<- <-]|[Hk (e' & He' & ->)]]; rewrite ?shadow_holds, ?shadow_src; cbn;
      try done; naive_solver.
  - intros a b. rewrite Hw, lookup_insert_Some, He. split.
    + intros [[<- <-]|[Hne (j & d & Hj & <- & Hh & ->)]].
      * eexists i, _. rewrite lookup_insert_eq. split_and!; [done|done|by split|cbn; by rewrite Hcr].
      * destruct (decide (j = i)) as [->|Hji].
        -- by simplify_eq.
        -- exists j, (shadow i (cn_src c) j d). rewrite lookup_insert_ne by done.
           rewrite lookup_shadowed, shadow_src, shadow_holds, shadow_crashed. naive_solver.
    + intros (j & d & [[<- <-]|[Hj (d' & Hd & ->)%lookup_shadowed]]%lookup_insert_Some & Hs & Hh & ->); cbn in *.
      * left. by rewrite Hcr.
      * rewrite shadow_src in Hs. rewrite shadow_holds in Hh. rewrite shadow_crashed. right. naive_solver.
Qed.

(** Ending: no holder of the address is left. *)
Lemma exact_end i c c' w w' o :
  w_registry w' = delete (cn_src c) (w_registry w) -> cn_src c' = cn_src c -> ~ holds c' ->
  o !! i = Some c -> registry_exact (Build_Streams w o) ->
  registry_exact (Build_Streams w' (<[i := c']> (map_imap (fun j d => Some (shadow i (cn_src c) j d)) o))).
Proof.
  intros Hw Hsrc Hc' Hi [Hu He]. split; cbn in *.
  - intros j k d e. rewrite !lookup_insert_Some, !lookup_shadowed.
    intros [[<- <-]|[Hj (d' & Hd & ->)]] [[<- <-]|[Hk (e' & He' & ->)]]; rewrite ?shadow_holds, ?shadow_src; cbn;
      try done; naive_solver.
  - intros a b. rewrite Hw, lookup_delete_Some, He. split.
    + intros [Hne (j & d & Hj & <- & Hh & ->)]. destruct (decide (j = i)) as [->|Hji]; [by simplify_eq|].
      exists j, (shadow i (cn_src c) j d). rewrite lookup_insert_ne by done.
      rewrite lookup_shadowed, shadow_src, shadow_holds, shadow_crashed. naive_solver.
    + intros (j & d & [[<- <-]|[Hj (d' & Hd & ->)%lookup_shadowed]]%lookup_insert_Some & Hs & Hh & ->); [done|].
      rewrite shadow_src in Hs. rewrite shadow_holds in Hh. rewrite shadow_crashed. naive_solver.
Qed.

(** A panic of a holder closes its entry. *)
Lemma exact_panic i c w w' o :
  w_registry w' = <[cn_src c := false]> (w_registry w) -> o !! i = Some c -> holds c ->
  registry_exact (Build_Streams w o) ->
  registry_exact (Build_Streams w' (<[i := {| cn_src := cn_src c; cn_task := cn_task c;
    cn_crashed := true; cn_shadowed := cn_shadowed c |}]> o)).
Proof.
  intros Hw Hi Hh [Hu He]. split; cbn in *.
  - intros j k d e. rewrite !lookup_insert_Some. unfold holds in *.
    intros [[<- <-]|[Hj Hd]] [[<- <-]|[Hk He']] Hhd Hhe Hs; try done; cbn in *;
      [|symmetry|]; by eapply Hu.
  - intros a b. rewrite Hw, lookup_insert_Some, He. split.
    + intros [[<- <-]|[Hne (j & d & Hj & <- & Hhd & ->)]].
      * eexists i, _. rewrite lookup_insert_eq. by split_and!.
      * exists j, d. rewrite lookup_insert_ne; [done|]. intros <-. by simplify_eq.
    + intros (j & d & [[<- <-]|[Hj Hd]]%lookup_insert_Some & Hs & Hhd & ->); cbn in *; [by left|].
      right. split; [|by exists j, d]. intros <-. apply Hj. by eapply Hu.
Qed.

Lemma stream_step_exact s s' : stream_step s s' -> registry_exact s -> registry_exact s'.
Proof.
  intros Hst Hex. destruct Hst as [i src t w o Ho Ht|i c ev t' w w' o Ho Hc E|i c ev w w' o Ho Hc E
    |text src w o|now faults rnd w o].
  - eapply (exact_other i (Build_Connection src t false false) _ w); [done|..|done]; unfold holds; cbn.
    + by rewrite Ho.
    + by rewrite Ho; intros [? ?].
    + by rewrite Ht; intros [? ?].
  - apply resume_registry in E. unfold moved.
    destruct (stage (cn_task c)) eqn:E1, (stage t') eqn:E2;
      cbv zeta in E; try (match type of E with _ /\ _ => destruct E as [? E] end; try done).
    + eapply (exact_other i c _ w); [done|by rewrite Ho; intros d [= <-]|..|done]; unfold holds; cbn;
        rewrite ?E1, ?E2; by intros; intros [? ?].
    + eapply (exact_register i c _ w); [done..| |done]. unfold holds. rewrite E1. by intros [? ?].
    + eapply (exact_same i c _ w); [done|done|done|..|done]; unfold holds; cbn; by rewrite ?E1, ?E2.
    + eapply (exact_end i c _ w); [done|done|..|done|done]. unfold holds. cbn. rewrite E2. by intros [? ?].
    + eapply (exact_other i c _ w); [done|by rewrite Ho; intros d [= <-]|..|done]; unfold holds; cbn;
        rewrite ?E1, ?E2; by intros; intros [? ?].
  - apply resume_registry in E as [E1 E]. destruct (cn_shadowed c) eqn:Es.
    + eapply (exact_other i c _ w); [done|by rewrite Ho; intros d [= <-]|..|done]; unfold holds; cbn;
        rewrite ?Es; by intros; intros [? ?].
    + pose proof (exact_panic i c w (set_registry (<[cn_src c := false]> (w_registry w')) w') o) as Hp.
      rewrite Es in Hp. apply Hp; [cbn; by rewrite E|done|by split|done].
  - destruct Hex as [Hu He]. split; [done|]. cbn in *. by rewrite (process_registry text src w).
  - destruct Hex as [Hu He]. by split.
Qed.

(** C38: a message finds its connection.  Over any interleaving of WebSocket and TLS connections
    that are accepted, talk, end and panic with messages on UDP, the registry has an entry for
    exactly the addresses of the connections that are in their loop and since whose
    registration no other connection of the same address has registered or ended; the entry is
    closed if the task of that connection panicked.  So a message is put into the queue of such
    a connection if it still runs, and otherwise goes out as a datagram. *)
Theorem ws_registry_exact s s' a text :
  rtc stream_step s s' -> registry_exact s -> w_faults (st_world s') = [] ->
  registry_exact s' /\
  exists w' live, send_sip text a (st_world s') = (Val tt, w') /\
    w_outbox w' = w_outbox (st_world s') ++ [{| out_dst := a; out_stream := live; out_text := text |}] /\
    w_registry w' = w_registry (st_world s') /\
    (live = true <-> exists i c, st_conns s' !! i = Some c /\ cn_src c = a /\ holds c /\
                                 cn_crashed c = false).
Proof.
  intros Hr Hex Hf. assert (registry_exact s') as Hex'.
  { clear Hf. induction Hr as [|x y z Hxy _ IH]; [done|]. by eapply IH, stream_step_exact. }
  split; [done|]. pose proof (re_entry _ Hex' a true) as Ha.
  assert (exists w', send_sip text a (st_world s') = (Val tt, w') /\
    w_outbox w' = w_outbox (st_world s') ++ [{| out_dst := a;
      out_stream := default false (w_registry (st_world s') !! a); out_text := text |}] /\
    w_registry w' = w_registry (st_world s')) as (w' & E & Ho & Hreg).
  { unfold send_sip, registry_send, udp_send, fault, emit, mbind, M_bind. cbn.
    destruct (w_registry (st_world s') !! a) as [[]|]; cbn; rewrite ?Hf; eexists; split_and!; done. }
  exists w', (default false (w_registry (st_world s') !! a)). split_and!; [done..|].
  transitivity (w_registry (st_world s') !! a = Some true).
  { destruct (w_registry (st_world s') !! a) as [[]|]; naive_solver. }
  rewrite Ha. split; intros (i & c & Hi & Hs & Hh & Hc); exists i, c; split_and!; try done.
  - by destruct (cn_crashed c).
  - by rewrite Hc.
Qed.

(** Two connections at one address: when the first one ends it takes the entry of the second
    one, which goes on without being reachable. *)
Theorem second_connection_cut_off src w :
  exists w1 w2 w3,
    process_ws cfg secret src Connecting None w = (Val (Talking []), w1) /\
    process_ws cfg secret src Connecting None w1 = (Val (Talking []), w2) /\
    process_ws cfg secret src (Talking []) (Some StreamEnd) w2 = (Val (Ended []), w3) /\
    w_registry w2 !! src = Some true /\ w_registry w3 !! src = None.
Proof.
  do 3 eexists. split_and!; [reflexivity..| |]; cbn; [apply lookup_insert_eq|apply lookup_delete_eq].
Qed.
End registry.

(** ** Examples *)

Definition browser : SocketAddr := {| ip := V4 198 51 100 9; port := 40000 |}.

Definition toy_on_event := @on_event sample_config "s3cret" toy_digests list_order toy_bcrypt toy_webrtc.

(** A quoted parameter that ends in a backslash: the connection's task panics. *)
Definition poison : str := render "REGISTER sip:sip.example.com SIP/2.0"
  [("From", "<sip:1001@sip.example.com>;tag=1"); ("To", "<sip:1001@sip.example.com>"); ("Call-ID", "p");
   ("CSeq", "1 REGISTER"); ("Authorization", "Digest nonce=" ++ [Str.DQUOTE] ++ "x" ++ [Str.BACKSLASH])] "".

Definition ws_start : Streams := Build_Streams sample_world ∅.
Definition connection (t : StreamTask WsMessage) (crashed : bool) : Connection :=
  {| cn_src := browser; cn_task := WsTask t; cn_crashed := crashed; cn_shadowed := false |}.
Definition ws_accepted : Streams := Build_Streams sample_world {[ 1%nat := connection Connecting false ]}.
Definition ws_connected : Streams :=
  Build_Streams (register_stream browser sample_world).2 {[ 1%nat := connection (Talking []) false ]}.
Definition ws_poisoned : Streams :=
  let w' := (toy_on_event browser (FrameIn (WsText poison) false) (st_world ws_connected)).2 in
  Build_Streams (set_registry (<[browser := false]> (w_registry w')) w')
    {[ 1%nat := connection (Talking []) true ]}.

Lemma ws_registry_exact_witness :
  registry_exact ws_poisoned /\ w_registry (st_world ws_poisoned) !! browser = Some false.
Proof.
  split; [|vm_compute; reflexivity].
  destruct (@ws_registry_exact sample_config "s3cret" toy_digests list_order toy_bcrypt toy_webrtc
    ws_start ws_poisoned browser "x") as [Hex _]; [..|exact Hex].
  - eapply (rtc_l _ _ ws_accepted); [|eapply (rtc_l _ _ ws_connected);
      [|apply (rtc_l _ _ ws_poisoned); [|apply rtc_refl]]].
    + by apply (stream_accepted _ _ 1%nat browser (WsTask Connecting)).
    + assert (ws_connected = Build_Streams (register_stream browser sample_world).2
        (moved 1%nat (connection Connecting false) (WsTask (Talking [])) (st_conns ws_accepted))) as ->
        by (vm_compute; reflexivity).
      eapply (stream_resumed _ _ 1%nat (connection Connecting false) (WsNext None)); reflexivity.
    + assert (ws_poisoned = Build_Streams (st_world ws_poisoned)
        (<[1%nat := connection (Talking []) true]> (st_conns ws_connected))) as -> by (vm_compute; reflexivity).
      eapply (stream_panicked _ _ 1%nat (connection (Talking []) false)
        (WsNext (Some (FrameIn (WsText poison) false)))); [reflexivity|reflexivity|vm_compute; reflexivity].
  - split; cbn.
    + intros i j c d Hi. by rewrite lookup_empty in Hi.
    + intros x b. rewrite lookup_empty. split; [done|]. intros (i & c & Hi & _). by rewrite lookup_empty in Hi.
  - vm_compute. reflexivity.
Defined.

Example handshakes :
  accept_ws (Some "chat, SIP") = Some "sip" /\ accept_ws (Some "chat") = None /\ accept_ws None = None.
Proof. split_and!; vm_compute; reflexivity. Qed.

(** A ping is answered, bytes that are no text are skipped, a close ends the connection. *)
Example ws_small_session :
  let out := @ws_session sample_config "s3cret" toy_digests list_order toy_bcrypt toy_webrtc browser
    [FrameIn (WsPing "p") false; FrameIn (WsBinary (map ascii_of_nat [255%nat])) false;
     FrameIn WsClose false; FrameIn (WsPing "late") false] sample_world in
  out.1 = Val (Ended [WsPong "p"]) /\ w_registry out.2 = ∅.
Proof. split; vm_compute; reflexivity. Qed.
