(* ===== verification/Server.v ===== *)
(** * The server: [backend/src/sip/server.rs], [backend/src/sip/call_cleanup.rs]

    Start-up, the UDP loop with its access control, the background tasks, and the whole server
    as a transition system. *)

From S2P Require Import Prelude RustStr Net Message Response Forward SecurityGuard Acl Storage.
From S2P Require Import Sdp Media World Gateway VoicemailSdp VoicemailMedia NoAnswer Mwi.
From S2P Require Import Voicemail Presence ConferenceMedia Conference Registrar Frames Proxy Handler.

Open Scope str_scope.
Open Scope Z_scope.

(** ** Clean-up of the tables *)

Definition stale_call (now : Z) (older_than_hours : option Z) (c : CallRow) : bool :=
  match call_ended_at c with Some _ => false | None => true end &&
  (bool_decide (call_status c = "trying") || bool_decide (call_status c = "answered")) &&
  match older_than_hours with
  | None => true
  | Some h => call_started_at c <? now - h * 3600
  end.

(** Returns the number of rows changed. *)
Definition mark_stale_calls_ended (older_than_hours : option Z) : M Z :=
  query (fun w =>
    let now := w_now w / 1000000000 in
    let stale c := stale_call now older_than_hours c in
    (Val (Z.of_nat (size (filter (fun kv => stale kv.2 = true) (w_calls w)))),
     set_calls ((fun c => if stale c then
        {| call_caller := call_caller c; call_callee := call_callee c; call_status := "ended";
           call_started_at := call_started_at c; call_answered_at := call_answered_at c;
           call_ended_at := Some now |} else c) <$> w_calls w) w)).

Definition is_old_cdr (now older_than_days : Z) (c : CallRow) : bool :=
  match call_ended_at c with Some t => t <? now - older_than_days * 86400 | None => false end.

Definition purge_old_cdr_records (older_than_days : Z) : M Z :=
  query (fun w =>
    let old c := is_old_cdr (w_now w / 1000000000) older_than_days c in
    (Val (Z.of_nat (size (filter (fun kv => old kv.2 = true) (w_calls w)))),
     set_calls (filter (fun kv => old kv.2 = false) (w_calls w)) w)).

(** [DELETE FROM sip_registrations WHERE expires_at < NOW()] *)
Definition cleanup_registrations : M unit :=
  query (modify (fun w => set_registrations
    (filter (fun kv => w_now w / 1000000000 <= reg_expires_at kv.2) (w_registrations w)) w)).

(** [DELETE FROM sip_presence_subscriptions WHERE expires_at < NOW()] *)
Definition cleanup_presence : M unit :=
  query (modify (fun w => set_presence_subs
    (filter (fun kv => w_now w / 1000000000 <= ps_expires_at kv.2) (w_presence_subs w)) w)).

(** [MediaRelay::cleanup_stale_sessions] *)
Definition relay_cleanup (max_age_secs : Z) : M unit :=
  modify (fun w => set_media_relay (cleanup_stale_sessions (w_now w) max_age_secs (w_media_relay w)) w).

(** ** Start-up *)

Definition file_name (path : str) : str := default "" (last (Str.split_char "/" path)).

(** [cleanup_temp_files]: the temporary files below [root]; a file that cannot be removed
    stays. *)
Definition cleanup_temp_files (root : str) : M unit :=
  paths ← gets (fun w => filter (fun p => Str.starts_with (root ++ "/") p = true /\
                           is_identifiable_temp_file (file_name p) = true)
                    (map fst (map_to_list (w_files w))));
  for_each paths (fun p => ignore (query (modify (fun w => set_files (delete p (w_files w)) w)))).

(** [Voicemail::reconcile_on_startup] *)
Definition vm_reconcile_on_startup (cfg : Config) : M unit :=
  _ ← query (modify (fun w => set_mwi_subs
        (filter (fun kv => w_now w / 1000000000 < mw_expires_at kv.2) (w_mwi_subs w)) w));
  cleanup_temp_files (voicemail_storage_dir cfg).

Definition startup (cfg : Config) : M unit :=
  _ ← ignore (mark_stale_calls_ended None);
  _ ← ignore reconcile_active_on_startup;
  ignore (vm_reconcile_on_startup cfg).

Section server.
Context (cfg : Config) (secret : str) `{!Digests, !HeaderOrder, !Bcrypt, !WebRtc, !IpNets}.

(** The rules in force. *)
Definition load_acl (p : DefaultPolicy) : M AclChecker :=
  rows ← attempt (query (gets w_acl_rows));
  mret (match rows with
        | Some rows => load_from_db rows p
        | None => checker_new p
        end).

(** A periodic reload keeps the old rules when the query fails. *)
Definition reload_acl (acl : AclChecker) : M AclChecker :=
  rows ← attempt (query (gets w_acl_rows));
  mret (match rows with
        | Some rows => load_from_db rows (default_policy acl)
        | None => acl
        end).

(** One turn of the receive loop: [permit] is what [try_acquire_owned] returned, the datagram
    is cut at the size of the buffer. *)
Definition receive (acl : AclChecker) (permit : bool) (udp_buffer_size : nat) (data : str)
    (src : SocketAddr) : M unit :=
  if negb (is_allowed acl (ip src)) then mret tt
  else if negb permit then mret tt
  else ignore (handle_datagram cfg secret (take udp_buffer_size data) src).

(** ** The server as a transition system *)

Record Server := { sv_world : World; sv_acl : AclChecker }.

(** A task of the list is done. *)
Definition drop_task (i : nat) (w : World) : World := set_tasks (delete i (w_tasks w)) w.

(** Every handler runs to its end in one step. *)
Inductive server_step : Server -> Server -> Prop :=
  | step_datagram acl permit n data src w :
      server_step (Build_Server w acl) (Build_Server (receive acl permit n data src w).2 acl)
  | step_stream acl text src w :
      server_step (Build_Server w acl) (Build_Server (handle_tcp_msg cfg secret text src w).2 acl)
  | step_connect acl src w :
      server_step (Build_Server w acl) (Build_Server (register_stream src w).2 acl)
  | step_disconnect acl src w :
      server_step (Build_Server w acl) (Build_Server (unregister_stream src w).2 acl)
  | step_no_answer acl i id t w :
      w_tasks w !! i = Some (TaskNoAnswer id t) ->
      server_step (Build_Server w acl)
        (Build_Server (run_no_answer_timer cfg t (drop_task i w)).2 acl)
  | step_recorded acl i r outcome w :
      w_tasks w !! i = Some (TaskRecord r) ->
      server_step (Build_Server w acl)
        (Build_Server (finish_recording cfg r outcome (drop_task i w)).2 acl)
  | step_played acl i cid key w :
      w_tasks w !! i = Some (TaskPlay cid key) ->
      server_step (Build_Server w acl) (Build_Server (drop_task i w) acl)
  | step_notified acl i u d w :
      w_tasks w !! i = Some (TaskNotifyMailbox u d) ->
      server_step (Build_Server w acl) (Build_Server (notify_mailbox u d (drop_task i w)).2 acl)
  | step_relay_cleanup acl age w :
      server_step (Build_Server w acl) (Build_Server (relay_cleanup age w).2 acl)
  | step_gateway_cleanup acl age w :
      server_step (Build_Server w acl) (Build_Server (gateway_cleanup_stale age w).2 acl)
  | step_cleanup_registrations acl w :
      server_step (Build_Server w acl) (Build_Server (cleanup_registrations w).2 acl)
  | step_cleanup_presence acl w :
      server_step (Build_Server w acl) (Build_Server (cleanup_presence w).2 acl)
  | step_stale_calls acl h w :
      server_step (Build_Server w acl) (Build_Server (mark_stale_calls_ended h w).2 acl)
  | step_purge acl days w :
      server_step (Build_Server w acl) (Build_Server (purge_old_cdr_records days w).2 acl)
  | step_reload acl acl' w w' :
      reload_acl acl w = (Val acl', w') ->
      server_step (Build_Server w acl) (Build_Server w' acl')
  (** the clock, what fails next, the random bytes *)
  | step_environment acl now faults random w :
      w_now w <= now ->
      server_step (Build_Server w acl)
        (Build_Server (set_now now (set_faults faults (set_random random w))) acl).
End server.

(** ** The stores agree *)

(** Whoever waits for the responses of a call is the caller of its dialog. *)
Definition dialogs_ok (w : World) : Prop :=
  forall cid a, w_pending_dialogs w !! cid = Some a ->
    caller_addr <$> w_active_dialogs w !! cid = Some a.

(** What every reachable state satisfies. *)
Definition consistent (w : World) : Prop := dialogs_ok w /\ calls_ok w.

Definition keeps_consistent : relation World := fun w w' => consistent w -> consistent w'.

#[export] Instance keeps_consistent_io : IoFrame keeps_consistent.
Proof.
  split; [split|by intros ???..]; [by intros ??|]. intros x y z Hxy Hyz Hx. by apply Hyz, Hxy.
Qed.

Definition dialog_maps (w : World) := (w_pending_dialogs w, w_active_dialogs w).

(** Handlers that leave the dialogs alone; handlers that leave everything alone. *)
Lemma consistent_vm {A} (m : M A) :
  moves (same dialog_maps) m -> moves keeps_ok m -> moves keeps_consistent m.
Proof.
  intros Hd Hc w [Hw Hok]. split; [|by apply Hc]. specialize (Hd w). unfold same, dialog_maps in Hd.
  injection Hd as Hp Ha. unfold dialogs_ok. by rewrite Hp, Ha.
Qed.

Lemma consistent_same {A} (m : M A) :
  moves (same (fun w => (dialog_maps w, w_voicemail_calls w))) m -> moves keeps_consistent m.
Proof.
  intros Hm. apply consistent_vm.
  - by eapply (same_mono _ _ fst); [|exact Hm].
  - apply keeps_ok_same. by eapply (same_mono _ _ snd); [|exact Hm].
Qed.

(** Writes of the maps that go together. *)
Lemma consistent_delete_bind {B} cid (k : M B) :
  moves keeps_consistent k ->
  moves keeps_consistent (_ ← drop_active cid; _ ← drop_pending cid; k).
Proof.
  intros Hk w [Hd Hc]. unfold drop_active, drop_pending. rewrite !bind_modify. apply Hk.
  split; [|done]. intros c a. cbn. destruct (decide (c = cid)) as [->|Hne].
  - by rewrite lookup_delete_eq.
  - rewrite !lookup_delete_ne by done. apply Hd.
Qed.

Lemma consistent_delete_bind' {B} cid (k : M B) :
  moves keeps_consistent k ->
  moves keeps_consistent (_ ← drop_pending cid; _ ← drop_active cid; k).
Proof.
  intros Hk w [Hd Hc]. unfold drop_active, drop_pending. rewrite !bind_modify. apply Hk.
  split; [|done]. intros c a. cbn. destruct (decide (c = cid)) as [->|Hne].
  - by rewrite lookup_delete_eq.
  - rewrite !lookup_delete_ne by done. apply Hd.
Qed.

Lemma consistent_drop_pending cid : moves keeps_consistent (drop_pending cid).
Proof.
  intros w [Hd Hc]. split; [|done]. intros c a. cbn. intros [_ Hp]%lookup_delete_Some. by apply Hd.
Qed.

Lemma consistent_insert_bind {B} cid src msg d (k : M B) :
  caller_addr d = src -> moves keeps_consistent k ->
  moves keeps_consistent (
    _ ← note_pending cid src; _ ← note_invite cid msg; _ ← note_active cid d; k).
Proof.
  intros Hsrc Hk w [Hd Hc]. unfold note_pending, note_invite, note_active. rewrite !bind_modify. apply Hk. split; [|done].
  intros c a. cbn. destruct (decide (c = cid)) as [->|Hne].
  - rewrite !lookup_insert_eq. intros [= <-]. cbn. by f_equal.
  - rewrite !lookup_insert_ne by done. apply Hd.
Qed.

Section consistent.
Context (cfg : Config) (secret : str) `{!Digests, !HeaderOrder, !Bcrypt, !WebRtc, !IpNets}.

Lemma forward_invite_consistent msg src caller callee r :
  moves keeps_consistent (forward_invite cfg msg src caller callee r).
Proof.
  unfold forward_invite. cbv zeta. apply moves_bind; [apply consistent_same; solve_frame|].
  intros mailbox. destruct (parse_addr _); [|apply moves_fail].
  apply moves_bind; [apply moves_gets|]. intros cs. apply moves_bind; [apply moves_gets|]. intros ts.
  apply moves_bind; [apply consistent_same; solve_frame|]. intros _.
  apply consistent_insert_bind; [done|]. apply consistent_same. solve_frame.
Qed.

Lemma delivery_consistent msg callee : moves keeps_consistent (handle_delivery_invite cfg msg callee).
Proof.
  apply consistent_vm; [|intros w Hw; by apply ivr_handlers_ok].
  eapply (same_mono core dialog_maps (fun c => (c.1.1.1.1.2, c.1.1.1.2))); [done|].
  apply delivery_invite_core.
Qed.

Lemma invite_consistent msg src : moves keeps_consistent (Proxy.handle_invite cfg msg src).
Proof.
  unfold Proxy.handle_invite. cbv zeta. destruct (Str.is_empty _); [apply moves_ret|].
  destruct (max_forwards msg =? 0); [apply moves_ret|].
  apply moves_bind; [apply consistent_same; solve_frame|]. intros []; [apply moves_ret|].
  destruct (bool_decide _); [apply consistent_same; solve_frame|].
  apply moves_bind; [apply consistent_same; solve_frame|]. intros []; cbn [negb];
    [|apply consistent_same; solve_frame].
  apply moves_bind; [apply consistent_same; solve_frame|]. intros _.
  apply moves_bind; [apply consistent_same; solve_frame|]. intros [r|];
    [apply forward_invite_consistent|]. apply moves_bind; [apply consistent_same; solve_frame|].
  intros [b|]; [apply delivery_consistent|apply moves_ret].
Qed.

Lemma bye_consistent msg src : moves keeps_consistent (Proxy.handle_bye cfg msg src).
Proof.
  unfold Proxy.handle_bye. cbv zeta.
  do 3 (apply moves_bind; [apply consistent_same; solve_frame|]; intros ?).
  apply consistent_delete_bind. apply consistent_same. solve_frame.
Qed.

Lemma cancel_consistent msg : moves keeps_consistent (Proxy.handle_cancel cfg msg).
Proof.
  unfold Proxy.handle_cancel. cbv zeta.
  do 4 (apply moves_bind; [apply consistent_same; solve_frame|]; intros ?).
  apply consistent_delete_bind'. apply consistent_same. solve_frame.
Qed.

Lemma drop_call_consistent cid : moves keeps_consistent (drop_call cid).
Proof. unfold drop_call. apply consistent_delete_bind'. apply consistent_same. solve_frame. Qed.

Lemma relay_response_consistent msg : moves keeps_consistent (relay_response cfg msg).
Proof.
  unfold relay_response. destruct (call_id msg) as [cid|]; [|apply moves_ret].
  apply moves_bind; [apply consistent_same; solve_frame|]. intros []; [apply drop_call_consistent|].
  apply moves_bind; [apply moves_gets|]. intros [addr|]; [|apply moves_ret].
  unfold relay_to. apply moves_bind; [apply consistent_same; solve_frame|]. intros relayed.
  apply moves_bind; [apply consistent_same; solve_frame|]. intros _.
  apply moves_bind; [apply moves_when, consistent_drop_pending|]. intros _.
  apply consistent_same. solve_frame.
Qed.

Lemma response_consistent msg : moves keeps_consistent (process_response cfg msg).
Proof.
  unfold process_response. apply moves_bind.
  - destruct (is_busy _); [|apply moves_ret]. unfold handle_busy_to_voicemail.
    destruct (call_id msg) as [cid|]; [|apply moves_ret].
    destruct (header_user _); [|apply moves_ret].
    apply moves_bind; [apply consistent_same; solve_frame|]. intros [box|]; [|apply moves_ret].
    apply moves_bind; [apply consistent_same; solve_frame|]. intros [inv|]; [|apply moves_ret].
    apply moves_bind; [apply consistent_same; solve_frame|]. intros _.
    apply moves_bind; [apply drop_call_consistent|]. intros _.
    apply moves_bind; [apply moves_gets|]. intros [a|]; [|apply moves_ret].
    apply moves_attempt, delivery_consistent.
  - intros [r|]; [apply moves_ret|]. apply moves_bind; [apply relay_response_consistent|].
    intros; apply moves_ret.
Qed.

(** The voicemail handlers: the core frame, and the IVR's own invariant. *)
Lemma vm_consistent {A} (m : M A) :
  moves (same core) m -> (forall w, calls_ok w -> calls_ok (m w).2) -> moves keeps_consistent m.
Proof.
  intros Hcore Hok. apply consistent_vm; [|exact Hok].
  by eapply (same_mono core dialog_maps (fun c => (c.1.1.1.1.2, c.1.1.1.2))).
Qed.

Lemma generic_consistent msg mth src :
  moves keeps_consistent (process_generic cfg secret msg mth src).
Proof.
  apply generic_moves; [typeclasses eauto| |].
  { apply consistent_same. solve_frame. }
  intros m. unfold generic_handler. repeat case_bool_decide; intros [= <-].
  all: first [ apply invite_consistent | apply bye_consistent | apply cancel_consistent
             | apply consistent_same; solve [solve_frame] ].
Qed.

Lemma process_consistent text src : moves keeps_consistent (process_sip_msg cfg secret text src).
Proof.
  unfold process_sip_msg. destruct (parse text) as [msg|]; [|apply moves_ret].
  destruct (method msg) as [mth|]; [|apply response_consistent].
  apply request_moves; [typeclasses eauto|..|apply generic_consistent].
  - apply consistent_same. solve_frame.
  - apply vm_consistent; [apply access_invite_core|]. intros w Hw. by apply ivr_handlers_ok.
  - intros m Hm. eapply in_call_moves; [typeclasses eauto|exact Hm|..]; apply vm_consistent;
      auto using vm_ack_core, vm_bye_core, vm_cancel_core, vm_info_core;
      intros w Hw; by apply (ivr_handlers_ok cfg w Hw).
  - intros. apply consistent_same. solve_frame.
  - intros m Hm. eapply in_call_moves; [typeclasses eauto|exact Hm|..]; apply consistent_same;
      solve_frame.
Qed.

Lemma finish_recording_core r outcome : moves (same core) (finish_recording cfg r outcome).
Proof. solve_frame. Qed.

Lemma no_answer_consistent t : moves keeps_consistent (run_no_answer_timer cfg t).
Proof.
  unfold run_no_answer_timer. cbv zeta.
  apply moves_bind; [apply consistent_same; solve_frame|]. intros []; cbn [negb]; [|apply moves_ret].
  apply moves_bind.
  { unfold timer_cancel_leg. cbv zeta. apply moves_bind; [apply consistent_same; solve_frame|].
    intros _. apply consistent_delete_bind'. apply consistent_same. solve_frame. }
  intros _. apply moves_bind; [apply moves_gets|]. intros []; cbn [negb];
    [|apply consistent_same; solve_frame].
  apply moves_bind; [apply moves_attempt, delivery_consistent|]. intros delivered.
  apply moves_bind; [apply moves_gets|]. intros []; cbn [negb]; [apply consistent_same; solve_frame|].
  apply moves_bind; [|intros; apply consistent_same; solve_frame].
  unfold cleanup_suppressed_no_answer_delivery.
  apply moves_bind; [apply consistent_same; solve_frame|]. intros _.
  apply moves_bind; [|intros; apply consistent_same; solve_frame].
  apply consistent_vm; [solve_frame|apply keeps_ok_delete].
Qed.

Lemma step_consistent s s' :
  server_step cfg secret s s' -> consistent (sv_world s) -> consistent (sv_world s').
Proof.
  intros Hs. assert (forall A (m : M A) w, moves keeps_consistent m -> consistent w ->
    consistent (m w).2) as Hm by (intros A m w H' Hw; by apply H').
  destruct Hs; cbn [sv_world]; intros Hw;
    try (apply Hm; [apply consistent_same; solve [solve_frame]|exact Hw]).
  - apply Hm; [|done]. unfold receive. destruct (negb _); [apply moves_ret|].
    destruct (negb _); [apply moves_ret|]. apply moves_ignore. unfold handle_datagram.
    apply moves_bind; [apply process_consistent|]. intros [resp|]; [|apply moves_ret].
    apply consistent_same. solve_frame.
  - apply Hm; [apply process_consistent|done].
  - apply Hm; [apply no_answer_consistent|done].
  - apply Hm; [|done]. apply vm_consistent; [apply finish_recording_core|].
    intros w' Hw'. by apply ivr_handlers_ok.
  - done.
  - assert (moves keeps_consistent (reload_acl acl)) as Hr by (apply consistent_same; solve_frame).
    specialize (Hr w). match goal with E : reload_acl _ _ = _ |- _ => rewrite E in Hr end. by apply Hr.
  - done.
Qed.

(** C2: when the messages and the background tasks are handled one at a time, in every state
    the server can reach, through any sequence of datagrams, stream messages, timers, finished
    recordings, clean-ups, failures of the database and passing of time: the address that waits
    for a call's responses is the caller address of that call's dialog, and every IVR session
    points at an existing message (or shows an empty mailbox).  Handlers that interleave at
    their awaits can leave this state: [concurrent_invites_disagree],
    [concurrent_next_and_delete]. *)
Theorem reachable_consistent s s' :
  rtc (server_step cfg secret) s s' -> consistent (sv_world s) -> consistent (sv_world s').
Proof. induction 1 as [|x y z Hxy _ IH]; [done|]. intros Hx. by eapply IH, step_consistent. Qed.
End consistent.

(** ** Handlers that interleave

    Every map has its own lock, released between the writes of an INVITE and around the
    queries of the IVR. *)

(** Two INVITEs with one Call-ID from two addresses, interleaved between the two locks: the
    responses wait for the second caller, the dialog is the first one's. *)
Theorem concurrent_invites_disagree cid d1 d2 w :
  caller_addr d1 <> caller_addr d2 ->
  let w' := (_ ← note_pending cid (caller_addr d1);
             _ ← note_pending cid (caller_addr d2);
             _ ← note_active cid d2;
             note_active cid d1) w in
  w_pending_dialogs w'.2 !! cid = Some (caller_addr d2) /\
  w_active_dialogs w'.2 !! cid = Some d1 /\ ~ dialogs_ok w'.2.
Proof.
  intros Hne w'. assert (w_pending_dialogs w'.2 !! cid = Some (caller_addr d2)) as Hp
    by apply lookup_insert_eq.
  assert (w_active_dialogs w'.2 !! cid = Some d1) as Ha by apply lookup_insert_eq.
  split_and!; [done..|]. intros Hok. apply Hok in Hp. rewrite Ha in Hp. cbn in Hp. congruence.
Qed.

(** The digit for the next message, decided while the last message but one is shown, and a
    delete whose second lock comes first: the index points past the end of the list. *)
Theorem concurrent_next_and_delete cid w mb ms i :
  playback w cid = Some (mb, ms, i) -> length ms = S (S i) ->
  let w' := (_ ← remove_from_playback cid i;
             modify_playback cid (fun messages _ => (messages, S i))) w in
  w'.1 = Val tt /\ ~ calls_ok w'.2.
Proof.
  intros Hp Hl w'.
  assert (exists r, remove_message i ms i = Some r /\ length r.1 = S i) as (r & Hr & Hlr).
  { unfold remove_message. rewrite (proj2 (Nat.ltb_lt i (length ms))) by lia. cbn [negb].
    eexists; split; [done|]. cbn. rewrite length_delete by (apply lookup_lt_is_Some; lia). lia. }
  subst w'. unfold remove_from_playback. rewrite bind_assoc, bind_gets, Hp, Hr.
  split; [done|]. intros Hok. unfold playback in Hp.
  destruct (w_voicemail_calls w !! cid) as [c|] eqn:Ec; [|done]. cbn in Hp.
  destruct (vc_mode c) as [| |mb' b ms' j] eqn:Em; try done. destruct r as [ms2 i2]. cbn in Hlr.
  match type of Hok with calls_ok ?w2 =>
    assert (w_voicemail_calls w2 !! cid = Some {| vc_mode := Playback mb' b ms2 (S i);
      vc_caller := vc_caller c; vc_callee := vc_callee c; vc_pin_buffer := vc_pin_buffer c |}) as Hc2 end.
  { unfold modify_playback. rewrite bind_modify. cbn. rewrite !lookup_alter_eq, Ec. cbn. by rewrite Em. }
  apply Hok in Hc2. destruct Hc2 as [?|[-> ?]]; cbn in *; lia.
Qed.

(** ** From a flood of INVITEs to the firewall *)

Section firewall.
Context (cfg : Config) (secret : str) `{!Digests, !HeaderOrder, !Bcrypt, !WebRtc, !IpNets, !IpNetLaws}.

(** The failure that fills the window: the ban is written. *)
Lemma reject_bans msg src caller detail w :
  w_faults w = [] -> persist_acl_bans cfg = true ->
  (record_failure (w_now w) SipInvite (show_ip (ip src)) caller (w_invite_guard w)).1 = true ->
  let w' := (reject_invalid_invite cfg msg src caller detail w).2 in
  w_acl_rows w' =
    persist_acl_ban (ip src) (acl_ban_priority cfg) INVITE_AUTO_BAN_DESCRIPTION (w_acl_rows w) /\
  w_faults w' = [].
Proof.
  intros Hf Hp Hb. cbv zeta. unfold reject_invalid_invite, invite_guard_record_failure. cbv zeta.
  destruct (record_failure _ _ _ _ _) as [b g] eqn:Eg. cbn in Hb. subst b.
  erewrite bind_val by (rewrite Eg; reflexivity). unfold db_persist_event, db_persist_acl_ban. rewrite Hp. cbn [andb].
  set (w1 := set_invite_guard g w). assert (w_faults w1 = []) as Hf1 by done.
  erewrite bind_val by (eapply ignore_ok; by rewrite query_ok). cbv beta.
  unfold when. rewrite bind_assoc.
  erewrite bind_val by (eapply ignore_ok; by rewrite query_ok). cbv beta.
  erewrite bind_val by (eapply ignore_ok; by rewrite query_ok). by cbn.
Qed.

(** The state in which an INVITE with an unknown caller is rejected. *)
Lemma unknown_caller_rejected msg src w :
  w_faults w = [] -> well_addressed msg = true -> invite_blocked w src = false ->
  known_caller cfg w msg = false ->
  exists detail, Proxy.handle_invite cfg msg src w =
    reject_invalid_invite cfg msg src (rejected_user msg) detail
      (set_invite_guard (is_blocked (w_now w) (show_ip (ip src)) (w_invite_guard w)).2 w).
Proof.
  unfold well_addressed, known_caller, rejected_user, Proxy.handle_invite. intros Hf Hw Hb Hk.
  apply andb_true_iff in Hw as [Hc Hm]. apply negb_true_iff in Hc, Hm. rewrite Hc, Hm.
  rewrite (bind_val _ _ _ _ _ (invite_guard_run _ w)). fold (invite_blocked w src). rewrite Hb.
  destruct (bool_decide (invite_caller msg = "unknown")); [by eexists|]. cbn [negb andb] in Hk.
  unfold db_account_exists. erewrite bind_val by by rewrite query_ok. cbv beta.
  match goal with |- context [account_enabled ?w1 _ _] =>
    assert (account_enabled w1 (invite_caller msg) (sip_domain cfg) = false) as -> by exact Hk end.
  by eexists.
Qed.

(** C11: an INVITE flood ends at the firewall.  The INVITE with an unknown caller that fills the
    failure window of its address puts the address on the access list; once the list is
    reloaded, every datagram from that address, whatever its port, is dropped without any
    effect, provided no allow rule takes precedence over the ban. *)
Theorem invite_flood_reaches_firewall msg src w acl :
  w_faults w = [] -> persist_acl_bans cfg = true -> well_addressed msg = true ->
  invite_blocked w src = false -> known_caller cfg w msg = false ->
  (record_failure (w_now w) SipInvite (show_ip (ip src)) (rejected_user msg)
     (is_blocked (w_now w) (show_ip (ip src)) (w_invite_guard w)).2).1 = true ->
  (forall s, s ∈ w_acl_rows w -> row_applies (ip src) s = true -> row_allows s = true ->
     acl_ban_priority cfg < acl_priority s /\
     forall r, r ∈ w_acl_rows w -> is_active_deny (host_cidr (ip src)) r = true ->
       acl_priority r < acl_priority s) ->
  exists acl' w', reload_acl acl (Proxy.handle_invite cfg msg src w).2 = (Val acl', w') /\
    forall permit n data src2 w2, ip src2 = ip src ->
      receive cfg secret acl' permit n data src2 w2 = (Val tt, w2).
Proof.
  intros Hf Hp Hw Hb Hk Hfull Hallow.
  destruct (unknown_caller_rejected msg src w Hf Hw Hb Hk) as [detail ->].
  destruct (reject_bans msg src (rejected_user msg) detail
    (set_invite_guard (is_blocked (w_now w) (show_ip (ip src)) (w_invite_guard w)).2 w))
    as [Hrows Hf']; [done..|].
  set (w' := (reject_invalid_invite _ _ _ _ _ _).2) in *. unfold reload_acl.
  eexists _, w'. erewrite bind_val by (unfold attempt; by rewrite query_ok). split; [reflexivity|].
  intros permit n data src2 w2 Hip. unfold receive. rewrite Hrows, Hip.
  change (w_acl_rows (set_invite_guard ?g w)) with (w_acl_rows w).
  by rewrite acl_ban_effective.
Qed.
End firewall.

(** ** The stored INVITEs are never dropped *)

Definition keeps_invites : relation World := fun w w' =>
  forall cid, is_Some (w_pending_invites w !! cid) -> is_Some (w_pending_invites w' !! cid).

#[export] Instance keeps_invites_io : IoFrame keeps_invites.
Proof. split; [split|by intros v w cid..]; [by intros w cid|]. intros x y z Hxy Hyz cid H. auto. Qed.

Lemma keeps_invites_same {A} (m : M A) :
  moves (same w_pending_invites) m -> moves keeps_invites m.
Proof. intros Hm w cid. by rewrite (Hm w). Qed.

Section invites.
Context (cfg : Config) (secret : str) `{!Digests, !HeaderOrder, !Bcrypt, !WebRtc}.

Lemma insert_invite_keeps cid msg :
  moves keeps_invites
    (modify (fun w => set_pending_invites (<[cid := msg]> (w_pending_invites w)) w)).
Proof. intros w c Hc. cbn. rewrite lookup_insert_is_Some'. auto. Qed.

Lemma forward_invite_invites msg src caller callee r :
  moves keeps_invites (forward_invite cfg msg src caller callee r).
Proof.
  unfold forward_invite. cbv zeta. apply moves_bind; [apply keeps_invites_same; solve_frame|].
  intros mailbox. destruct (parse_addr _); [|apply moves_fail].
  do 4 (apply moves_bind; [apply keeps_invites_same; solve_frame|]; intros ?).
  apply moves_bind; [apply insert_invite_keeps|]. intros ?. apply keeps_invites_same. solve_frame.
Qed.

(** No message but a busy response removes a stored INVITE: not the callee's answer, not the
    refusal, not the BYE and not the CANCEL of its call.  The table of stored INVITEs grows
    with every call. *)
Theorem pending_invites_never_dropped text src w cid :
  (forall msg, parse text = Ok msg -> method msg = None ->
     is_busy (default 0 (status_code msg)) = false) ->
  is_Some (w_pending_invites w !! cid) ->
  is_Some (w_pending_invites (process_sip_msg cfg secret text src w).2 !! cid).
Proof.
  intros Hbusy. enough (moves keeps_invites (process_sip_msg cfg secret text src)) as Hm by apply Hm.
  unfold process_sip_msg. destruct (parse text) as [msg|] eqn:Et; [|apply moves_ret].
  destruct (method msg) as [mth|] eqn:Em.
  - apply request_moves_core; [typeclasses eauto| |].
    { intros A m Hm. apply keeps_invites_same. by apply (same_mono core _ (fun c => c.1.1.2)). }
    apply generic_moves; [typeclasses eauto|apply keeps_invites_same; solve_frame|].
    intros m. unfold generic_handler. repeat case_bool_decide; intros [= <-].
    all: try (apply keeps_invites_same; solve [solve_frame]).
    unfold Proxy.handle_invite. cbv zeta.
    repeat first [ match goal with |- forall _, _ => intro end | simple apply moves_bind
      | match goal with |- moves _ (match ?x with _ => _ end) => destruct x end
      | apply forward_invite_invites | apply keeps_invites_same; solve [solve_frame] ].
  - unfold process_response. rewrite (Hbusy msg) by done. apply keeps_invites_same. solve_frame.
Qed.
End invites.

(** ** Examples *)

#[local] Existing Instances toy_digests list_order toy_bcrypt toy_webrtc host_nets host_nets_laws.

Lemma sample_consistent : consistent bob_world.
Proof. split; [by intros cid a|by intros cid call]. Qed.

(** An INVITE, then Bob's 180. *)
Lemma reachable_consistent_witness :
  let w1 := (handle_tcp_msg sample_config "s3cret"
    (call_text "INVITE sip:bob@sip.example.com SIP/2.0" "alice") sample_src bob_world).2 in
  let w2 := (handle_tcp_msg sample_config "s3cret" (bob_response "SIP/2.0 180 Ringing") bob_addr w1).2 in
  w_pending_dialogs w2 !! "c1" = Some sample_src /\
  caller_addr <$> w_active_dialogs w2 !! "c1" = Some sample_src.
Proof.
  intros w1 w2. assert (w_pending_dialogs w2 !! "c1" = Some sample_src) as Hp by by vm_compute.
  split; [exact Hp|].
  destruct (reachable_consistent sample_config "s3cret"
    (Build_Server bob_world (checker_new PolicyAllow)) (Build_Server w2 (checker_new PolicyAllow)))
    as [Hd _]; [|apply sample_consistent|by apply Hd].
  eapply rtc_l; [apply step_stream|]. eapply rtc_l; [apply step_stream|]. apply rtc_refl.
Defined.

(** Four failures before. *)
Definition nervous_world : World :=
  set_invite_guard (foldl (fun g _ =>
    (record_failure (1700000000 * 1000000000) SipInvite "198.51.100.7" (Some "mallory") g).2)
    (guard_new {| window_secs := 60; ip_fail_threshold := 5; user_ip_fail_threshold := 9;
                  block_secs := 600 |}) [1; 2; 3; 4]) bob_world.

Lemma invite_flood_reaches_firewall_witness :
  exists acl' w', reload_acl (checker_new PolicyAllow)
      (Proxy.handle_invite sample_config (call_invite "mallory") sample_src nervous_world).2 =
      (Val acl', w') /\
    receive sample_config "s3cret" acl' true 65535 "OPTIONS"
      {| ip := V4 198 51 100 7; port := 9999 |} w' = (Val tt, w').
Proof.
  destruct (invite_flood_reaches_firewall sample_config "s3cret" (call_invite "mallory") sample_src
    nervous_world (checker_new PolicyAllow)) as (acl' & w' & E & Hd); [by vm_compute..| |].
  - intros s Hs. by apply elem_of_nil in Hs.
  - exists acl', w'. split; [exact E|]. by apply Hd.
Defined.
