(* ===== verification/Calls.v ===== *)
(** * Registrations and calls in the API: [backend/src/api/status.rs]

    The lists of registrations and calls, the export of call records, and the two requests that
    change them: removing a registration and closing stale calls. *)

From S2P Require Import Prelude RustStr Net Message SecurityGuard Acl Storage Sdp Media World.
From S2P Require Import Voicemail HttpApi Registrar Proxy Portal Handler Server.

Open Scope str_scope.
Open Scope Z_scope.
Open Scope api_scope.

(** ** Registrations *)

(** The column [id] of [sip_registrations]; the rows themselves are keyed by user and domain. *)
Section registrations.
Context (reg_id : str * str -> Z).

(** [WHERE expires_at > NOW()].  The order, by a column [registered_at] nothing else reads, is
    not kept: the list stands for the set of its rows. *)
Definition live_registrations (w : World) : list (str * str * Registration) :=
  filter (fun kv => w_now w / 1000000000 < reg_expires_at kv.2) (map_to_list (w_registrations w)).

Definition list_registrations : M (Api (list (str * str * Registration))) :=
  db (gets live_registrations).

(** [DELETE FROM sip_registrations WHERE id = ?]; was there a row? *)
Definition delete_registration_row (id : Z) : M bool := fun w =>
  (Val (bool_decide (filter (fun kv => reg_id kv.1 = id) (w_registrations w) <> ∅)),
   set_registrations (filter (fun kv => reg_id kv.1 <> id) (w_registrations w)) w).

Definition delete_registration (id : Z) : M (Api unit) :=
  found <-? db (delete_registration_row id);
  if found : bool then mret (inl tt) else api_err 404 "Registration not found".
End registrations.

(** ** Calls *)

(** [since] is the time the database reads the text as. *)
Record CallsQuery := {
  cq_status : option str;
  cq_caller : option str;
  cq_callee : option str;
  cq_since : option Z;
  cq_limit : option Z;
  cq_offset : option Z;
}.

(** The WHERE clause. *)
Definition call_listed (q : CallsQuery) (c : CallRow) : bool :=
  from_option (fun s => bool_decide (call_status c = s)) true (cq_status q) &&
  from_option (fun s => like_anywhere s (call_caller c)) true (cq_caller q) &&
  from_option (fun s => like_anywhere s (call_callee c)) true (cq_callee q) &&
  from_option (fun t => t <=? call_started_at c) true (cq_since q).

(** [ORDER BY started_at DESC] *)
Definition newer_call (a b : str * CallRow) : Prop := call_started_at b.2 <= call_started_at a.2.

#[export] Instance newer_call_dec : RelDecision newer_call.
Proof. intros a b. unfold newer_call. apply _. Defined.

Definition select_calls (q : CallsQuery) (w : World) : list (str * CallRow) :=
  merge_sort newer_call (filter (fun kv => call_listed q kv.2 = true) (map_to_list (w_calls w))).

(** [TIMESTAMPDIFF(SECOND, started_at, COALESCE(ended_at, NOW()))] *)
Definition duration_secs (now : Z) (c : CallRow) : Z :=
  default now (call_ended_at c) - call_started_at c.

Definition with_duration (now : Z) (kv : str * CallRow) : str * CallRow * Z :=
  (kv, duration_secs now kv.2).

Definition list_calls (q : CallsQuery) : M (Api (list (str * CallRow * Z) * Z * Z)) :=
  let limit := Z.min (default 100 (cq_limit q)) 500 in
  let offset := default 0 (cq_offset q) in
  rows <-? db (gets (fun w => map (with_duration (w_now w / 1000000000))
                                (page limit offset (select_calls q w))));
  mret (inl (rows, limit, offset)).

(** The csv crate (a writer that is given all records, and a reader) and the printing of times
    by the chrono crate. *)
Class Csv := {
  csv_write : list (list str) -> str;
  csv_read : str -> option (list (list str));
  format_time : Z -> str;
}.

(** What the writer wrote, a reader that takes no line for a header reads, when all records have
    as many fields as the first. *)
Class CsvLaws `{Csv} : Prop := {
  csv_read_write first rows :
    first <> [] -> Forall (fun row => length row = length first) rows ->
    csv_read (csv_write (first :: rows)) = Some (first :: rows);
}.

Definition MAX_EXPORT_ROWS : Z := 100000.

Definition export_header : list str :=
  ["call_id"; "caller"; "callee"; "status"; "hangup_cause"; "sip_response_code"; "started_at";
   "answered_at"; "ended_at"; "duration_secs"; "recording_key"].

(** The UTF-8 byte order mark. *)
Definition bom : str := map ascii_of_nat [239; 187; 191]%nat.

Section export.
Context `{Csv}.

(** No code writes [hangup_cause], [sip_response_code] or [recording_key]: they are NULL. *)
Definition export_record (now : Z) (kv : str * CallRow) : list str :=
  let c := kv.2 in
  [kv.1; call_caller c; call_callee c; call_status c; ""; ""; format_time (call_started_at c);
   from_option format_time "" (call_answered_at c); from_option format_time "" (call_ended_at c);
   Str.show_int (duration_secs now c); ""].

Definition export_calls (q : CallsQuery) : M (Api str) :=
  rows <-? db (gets (fun w => map (export_record (w_now w / 1000000000))
                                (take (Z.to_nat MAX_EXPORT_ROWS) (select_calls q w))));
  mret (inl (bom ++ csv_write (export_header :: rows))).
End export.

(** [POST /api/calls/cleanup] *)
Definition cleanup_calls (older_than_hours : option Z) : M (Api (Z * Z)) :=
  let hours := default 4 older_than_hours in
  let threshold := if hours <=? 0 then None else Some hours in
  r ← attempt (mark_stale_calls_ended threshold);
  mret (match r with
        | Some cleaned => inl (cleaned, hours)
        | None => inr (500, "database error")
        end).

(** ** Facts *)

#[export] Instance newer_call_trans : Transitive newer_call.
Proof. intros a b c. unfold newer_call. lia. Qed.
#[export] Instance newer_call_total : Total newer_call.
Proof. intros a b. unfold newer_call. lia. Qed.

(** The calls selected are those of the table that are asked for, newest first. *)
Lemma select_calls_spec q w :
  StronglySorted newer_call (select_calls q w) /\ NoDup (map fst (select_calls q w)) /\
  forall cid c, (cid, c) ∈ select_calls q w <-> w_calls w !! cid = Some c /\ call_listed q c = true.
Proof.
  unfold select_calls. split_and!.
  - apply StronglySorted_merge_sort; apply _.
  - rewrite (merge_sort_Permutation newer_call).
    apply NoDup_map_filter, NoDup_fst_map_to_list.
  - intros cid c. rewrite (merge_sort_Permutation newer_call), list_elem_of_filter, elem_of_map_to_list.
    cbn. naive_solver.
Qed.

(** Removing a registration removes that one and no other; nobody is called there any more. *)
Lemma delete_registration_effect reg_id id w w' u d r :
  Inj (=) (=) reg_id -> w_registrations w !! (u, d) = Some r -> reg_id (u, d) = id ->
  delete_registration reg_id id w = (Val (inl tt), w') ->
  w_registrations w' = delete (u, d) (w_registrations w) /\ live_registration w' u d = None.
Proof.
  intros Hinj Hr <-. unfold delete_registration. intros (found & w1 & Hdb & Hk)%api_bind_inv.
  apply db_inv in Hdb as [v Hrow]. destruct found; [|done]. injection Hk as <-.
  unfold delete_registration_row in Hrow. injection Hrow as _ <-.
  assert (filter (fun kv => reg_id kv.1 <> reg_id (u, d)) (w_registrations w) =
    delete (u, d) (w_registrations w)) as Hdel.
  { apply map_eq. intros k. destruct (decide (k = (u, d))) as [->|Hne].
    - rewrite lookup_delete_eq. apply map_lookup_filter_None. right. cbn. tauto.
    - rewrite lookup_delete_ne by done. apply option_eq. intros x.
      rewrite map_lookup_filter_Some. cbn. split; [tauto|]. intros Hx. split; [done|].
      intros Heq%Hinj. done. }
  cbn. rewrite Hdel. split; [done|]. unfold live_registration. cbn. by rewrite lookup_delete_eq.
Qed.

(** The clean-up closes exactly the calls that are open and old enough. *)
Lemma cleanup_calls_effect hours w n h w' :
  cleanup_calls hours w = (Val (inl (n, h)), w') ->
  let limit := if default 4 hours <=? 0 then None else Some (default 4 hours) in
  h = default 4 hours /\
  n = Z.of_nat (size (filter (fun kv => stale_call (w_now w / 1000000000) limit kv.2 = true) (w_calls w))) /\
  (forall cid c, w_calls w' !! cid = Some c -> stale_call (w_now w' / 1000000000) limit c = false) /\
  forall cid c, w_calls w !! cid = Some c -> stale_call (w_now w / 1000000000) limit c = false ->
    w_calls w' !! cid = Some c.
Proof.
  intros Hc limit. unfold cleanup_calls, mark_stale_calls_ended in Hc. fold limit in Hc.
  unfold attempt, query, fault, mbind, M_bind in Hc.
  assert (exists v, w' = set_calls ((fun c => if stale_call (w_now w / 1000000000) limit c then
     {| call_caller := call_caller c; call_callee := call_callee c; call_status := "ended";
        call_started_at := call_started_at c; call_answered_at := call_answered_at c;
        call_ended_at := Some (w_now w / 1000000000) |} else c) <$> w_calls w) (set_faults v w) /\
     n = Z.of_nat (size (filter (fun kv => stale_call (w_now w / 1000000000) limit kv.2 = true) (w_calls w))) /\
     h = default 4 hours) as (v & -> & Hn & Hh).
  { destruct (w_faults w) as [|[] v] eqn:E; cbn in Hc; inversion Hc; subst.
    - exists []. split_and!; [|done..]. f_equal. by destruct w; cbn in *; subst.
    - by exists v. }
  split_and!; [done|done|..]; cbn; intros cid c.
  - rewrite lookup_fmap. intros (c0 & E & H0)%fmap_Some. subst c.
    destruct (stale_call _ limit c0) eqn:Es; [done|exact Es].
  - intros Hl Hs. rewrite lookup_fmap, Hl. cbn. by rewrite Hs.
Qed.

(** ** Theorems *)

(** C28: the export is the call log.  What the export writes is read back by a csv reader as a
    header and one record for each call that is asked for, none twice and newest first, with
    its parties, status, times and length; none is left out while there are no more than a
    hundred thousand. *)
Theorem export_roundtrip `{!Csv, !CsvLaws} q w :
  w_faults w = [] ->
  exists text calls, export_calls q w = (Val (inl text), w) /\
    (s ← Str.strip_prefix bom text; csv_read s) =
      Some (export_header :: map (export_record (w_now w / 1000000000)) calls) /\
    StronglySorted newer_call calls /\ NoDup (map fst calls) /\
    (forall cid c, (cid, c) ∈ calls -> w_calls w !! cid = Some c /\ call_listed q c = true) /\
    (Z.of_nat (size (w_calls w)) <= MAX_EXPORT_ROWS -> forall cid c,
       w_calls w !! cid = Some c -> call_listed q c = true -> (cid, c) ∈ calls).
Proof.
  intros Hf. destruct (select_calls_spec q w) as (Hs & Hn & Hin).
  set (calls := take (Z.to_nat MAX_EXPORT_ROWS) (select_calls q w)).
  assert (calls `prefix_of` select_calls q w) as Hpre.
  { exists (drop (Z.to_nat MAX_EXPORT_ROWS) (select_calls q w)). unfold calls. by rewrite take_drop. }
  eexists _, calls. unfold export_calls. split_and!.
  - by erewrite api_bind_ok by by apply db_ok.
  - rewrite Str.strip_prefix_app. cbn [mbind option_bind]. apply csv_read_write; [done|].
    by apply Forall_map, Forall_true.
  - destruct Hpre as [k Hk]. rewrite Hk in Hs. by apply StronglySorted_app_1_l in Hs.
  - destruct Hpre as [k Hk]. rewrite Hk, map_app in Hn. by apply NoDup_app in Hn as [Hn _].
  - intros cid c Hc. apply Hin. destruct Hpre as [k ->]. apply elem_of_app. by left.
  - intros Hsize cid c Hc Hl. unfold calls. rewrite take_ge; [by apply Hin|].
    unfold select_calls. rewrite (Permutation_length (merge_sort_Permutation newer_call _)).
    etrans; [apply length_filter|]. rewrite length_map_to_list. unfold MAX_EXPORT_ROWS in *. lia.
Qed.

(** ** Examples *)

(** A reading of the csv crate: the bits of the records. *)
Definition toy_csv : Csv := {|
  csv_write rows := bits (encode rows);
  csv_read s := decode (of_bits s);
  format_time := Str.show_dec |}.

Lemma toy_csv_laws : @CsvLaws toy_csv.
Proof. constructor. intros first rows _ _. cbn. by rewrite of_bits_bits, decode_encode. Qed.

Definition finished_call : CallRow :=
  {| call_caller := "1001"; call_callee := "1002"; call_status := "ended"; call_started_at := 1699999000;
     call_answered_at := Some 1699999005; call_ended_at := Some 1699999065 |}.

Definition open_call : CallRow :=
  {| call_caller := "1003"; call_callee := "1002"; call_status := "trying"; call_started_at := 1699999900;
     call_answered_at := None; call_ended_at := None |}.

Definition call_log : World := set_calls {[ "c1" := finished_call; "c2" := open_call ]} sample_world.

Definition all_calls : CallsQuery :=
  {| cq_status := None; cq_caller := None; cq_callee := Some "1002"; cq_since := None;
     cq_limit := None; cq_offset := None |}.

Lemma export_roundtrip_witness :
  exists text (calls : list (str * CallRow)), @export_calls toy_csv all_calls call_log = (Val (inl text), call_log) /\
    ("c1", finished_call) ∈ calls /\ ("c2", open_call) ∈ calls.
Proof.
  destruct (@export_roundtrip toy_csv toy_csv_laws all_calls call_log) as
    (text & calls & E & _ & _ & _ & _ & Hall); [by_decide|].
  exists text, calls. split; [exact E|].
  split; apply Hall; try (vm_compute; reflexivity); vm_compute; intros [=].
Defined.

Example listing_calls :
  (list_calls all_calls call_log).1 =
    Val (inl ([("c2", open_call, 100); ("c1", finished_call, 65)], 100, 0)).
Proof. vm_compute. reflexivity. Qed.
