(* ===== verification/Stats.v ===== *)
(** * Dashboard figures: [backend/src/api/stats.rs]

    Counts of the table of calls by day, week, user and hour.

    The columns [started_at], [answered_at] and [ended_at] are [DATETIME]s, in seconds of the
    database's wall clock, which is what [CURDATE] and [HOUR] read.  A [SUM] or [AVG] of
    integers has the type DECIMAL in MySQL; whether the sqlx crate gives such a column to an
    [i64] or an [f64] is a parameter. *)

From S2P Require Import Prelude RustStr Net Message SecurityGuard Acl Storage Sdp Media World.
From S2P Require Import Voicemail HttpApi Calls.

Open Scope str_scope.
Open Scope Z_scope.
Open Scope api_scope.

(** ** Data *)

Record UserCount := {
  uc_user : str;
  uc_count : Z;
}.

Record PeriodStats := {
  total : Z;
  answered : Z;
  period_duration_secs : Z;
}.

Record Stats `{SqlDecimal} := {
  st_today : PeriodStats;
  st_week : PeriodStats;
  avg_duration_secs : F64;
  top_callers : list UserCount;
  top_callees : list UserCount;
  hourly_calls : list Z;
}.

(** ** Queries *)

(** [SELECT .. FROM sip_calls WHERE p] *)
Definition calls_where (p : CallRow -> bool) (w : World) : list CallRow :=
  filter (fun c => p c = true) (map snd (map_to_list (w_calls w))).

Definition sql_now (w : World) : Z := w_now w / 1000000000.

(** [started_at >= DATE_SUB(NOW(), INTERVAL n SECOND)] *)
Definition since (secs now : Z) (c : CallRow) : bool := now - secs <=? call_started_at c.

Definition curdate (now : Z) : Z := now / 86400 * 86400.

(** [started_at >= CURDATE() AND started_at < CURDATE() + INTERVAL 1 DAY] *)
Definition today (now : Z) (c : CallRow) : bool :=
  (curdate now <=? call_started_at c) && (call_started_at c <? curdate now + 86400).

(** [TIMESTAMPDIFF(SECOND, answered_at, ended_at)], NULL when one of them is *)
Definition talk_secs (c : CallRow) : option Z :=
  a ← call_answered_at c; e ← call_ended_at c; Some (e - a).

(** [SUM(CASE WHEN answered_at IS NOT NULL THEN 1 ELSE 0 END)] *)
Definition answered_count (cs : list CallRow) : Z :=
  foldr Z.add 0 (map (fun c => if call_answered_at c then 1 else 0) cs).

(** [SUM] passes over NULLs. *)
Definition talk_total (cs : list CallRow) : Z := foldr Z.add 0 (omap talk_secs cs).

(** [SELECT k AS user, COUNT AS count .. GROUP BY k] *)
Definition group_count {K} `{Countable K} (ks : list K) : gmap K Z :=
  foldr (fun k m => <[k := default 0 (m !! k) + 1]> m) ∅ ks.

(** [ORDER BY count DESC] *)
Definition more_calls (a b : str * Z) : Prop := b.2 <= a.2.

#[export] Instance more_calls_dec : RelDecision more_calls.
Proof. intros a b. unfold more_calls. apply _. Defined.

(** [.. ORDER BY count DESC LIMIT 5] *)
Definition top_users (key : CallRow -> str) (cs : list CallRow) : list UserCount :=
  map (fun kv => {| uc_user := kv.1; uc_count := kv.2 |})
    (take 5 (merge_sort more_calls (map_to_list (group_count (map key cs))))).

Definition sql_hour (t : Z) : Z := t / 3600 mod 24.

Definition earlier_hour (a b : Z * Z) : Prop := a.1 <= b.1.

#[export] Instance earlier_hour_dec : RelDecision earlier_hour.
Proof. intros a b. unfold earlier_hour. apply _. Defined.

(** [SELECT HOUR(started_at), COUNT .. GROUP BY HOUR(started_at) ORDER BY hour] *)
Definition hourly_rows (cs : list CallRow) : list (Z * Z) :=
  merge_sort earlier_hour (map_to_list (group_count (map (fun c => sql_hour (call_started_at c)) cs))).

(** The loop over the rows: hours without a call keep their 0. *)
Definition fill_hours (rows : list (Z * Z)) : list Z :=
  foldl (fun hourly '(hour, count) =>
           if (0 <=? hour) && (hour <? 24) then <[Z.to_nat hour := count]> hourly else hourly)
    (replicate 24 0) rows.

(** ** The handler *)

Section stats.
Context `{SqlDecimal}.

(** A column that does not decode is an error of the query. *)
Definition decoded {A} (x : option A) : M (Api A) :=
  match x with
  | Some a => mret (inl a)
  | None => api_err 500 "error occurred while decoding column"
  end.

Definition period (p : Z -> CallRow -> bool) : M (Api PeriodStats) :=
  cs <-? db (gets (fun w => calls_where (p (sql_now w)) w));
  answered <-? decoded (decimal_i64 (answered_count cs));
  duration <-? decoded (decimal_i64 (talk_total cs));
  mret (inl {| total := Z.of_nat (length cs); answered := answered; period_duration_secs := duration |}).

(** [AVG] of no row is NULL. *)
Definition avg_duration : M (Api (option F64)) :=
  cs <-? db (gets (fun w => omap talk_secs (calls_where (since (30 * 86400) (sql_now w)) w)));
  match cs with
  | [] => mret (inl None)
  | _ => a <-? decoded (decimal_f64 (foldr Z.add 0 cs) (Z.of_nat (length cs))); mret (inl (Some a))
  end.

Definition get_stats : M (Api Stats) :=
  today <-? period today;
  week <-? period (since (7 * 86400));
  avg <-? avg_duration;
  callers <-? db (gets (fun w => top_users call_caller (calls_where (since (7 * 86400) (sql_now w)) w)));
  callees <-? db (gets (fun w => top_users call_callee (calls_where (since (7 * 86400) (sql_now w)) w)));
  rows <-? db (gets (fun w => hourly_rows (calls_where (since 86400 (sql_now w)) w)));
  mret (inl {| st_today := today; st_week := week; avg_duration_secs := default f64_zero avg;
               top_callers := callers; top_callees := callees; hourly_calls := fill_hours rows |}).
End stats.

(** ** Facts *)

(** How many of the elements are [k]. *)
Definition tally {K} `{EqDecision K} (k : K) (ks : list K) : Z := Z.of_nat (length (filter (k =.) ks)).

Lemma tally_nonneg `{EqDecision K} (k : K) ks : 0 <= tally k ks.
Proof. unfold tally. lia. Qed.

Lemma tally_cons `{EqDecision K} (k x : K) ks : tally k (x :: ks) = tally k ks + (if decide (k = x) then 1 else 0).
Proof. unfold tally. rewrite filter_cons. case_decide; [rewrite length_cons|]; lia. Qed.

Lemma tally_pos `{EqDecision K} (k : K) ks : k ∈ ks -> 0 < tally k ks.
Proof.
  induction 1 as [x ks|x y ks _ IH]; rewrite tally_cons.
  - rewrite decide_True by done. pose proof (tally_nonneg x ks). lia.
  - case_decide; lia.
Qed.

Lemma tally_zero `{EqDecision K} (k : K) ks : k ∉ ks -> tally k ks = 0.
Proof.
  induction ks as [|x ks IH]; intros Hk; [done|].
  rewrite tally_cons, IH, decide_False; set_solver.
Qed.

Lemma group_count_lookup `{Countable K} (ks : list K) k :
  group_count ks !! k = if decide (k ∈ ks) then Some (tally k ks) else None.
Proof.
  induction ks as [|x ks IH]; [by rewrite decide_False by set_solver|].
  cbn [group_count foldr]. fold (group_count ks). rewrite tally_cons. destruct (decide (k = x)) as [->|Hne].
  - rewrite lookup_insert_eq, decide_True by set_solver. f_equal. rewrite IH.
    case_decide; [done|]. by rewrite tally_zero.
  - rewrite lookup_insert_ne by done. rewrite IH, Z.add_0_r.
    destruct (decide (k ∈ ks)); [rewrite decide_True by set_solver|rewrite decide_False by set_solver]; done.
Qed.

#[export] Instance more_calls_trans : Transitive more_calls.
Proof. intros a b c. unfold more_calls. lia. Qed.
#[export] Instance more_calls_total : Total more_calls.
Proof. intros a b. unfold more_calls. lia. Qed.

(** What [SELECT k, COUNT .. GROUP BY k ORDER BY count DESC LIMIT n] promises of its rows. *)
Record top_list (n : nat) (ks : list str) (top : list UserCount) : Prop := {
  top_counts : Forall (fun u => uc_count u = tally (uc_user u) ks /\ 0 < uc_count u) top;
  top_distinct : NoDup (map uc_user top);
  top_sorted : StronglySorted (fun u v => uc_count v <= uc_count u) top;
  top_length : (length top <= n)%nat;
  top_rest : forall k, k ∈ ks -> k ∉ map uc_user top ->
    length top = n /\ Forall (fun u => tally k ks <= uc_count u) top;
}.

Lemma StronglySorted_take {A} (R : relation A) n l : StronglySorted R l -> StronglySorted R (take n l).
Proof. intros Hs. rewrite <- (take_drop n l) in Hs. by apply StronglySorted_app_1_l in Hs. Qed.

Lemma StronglySorted_split {A} (R : relation A) n l x y :
  StronglySorted R l -> x ∈ take n l -> y ∈ drop n l -> R x y.
Proof.
  intros Hs. rewrite <- (take_drop n l) in Hs. revert Hs. generalize (take n l) (drop n l). clear.
  intros l1 l2. induction l1 as [|z l1 IH]; cbn; [set_solver|]. intros [Hs Hf]%StronglySorted_inv Hx Hy.
  apply elem_of_cons in Hx as [->|Hx]; [|by apply IH]. rewrite Forall_forall in Hf. apply Hf. set_solver.
Qed.

Lemma StronglySorted_fmap_impl {A B} (f : A -> B) (R : relation A) (S : relation B) l :
  (forall x y, R x y -> S (f x) (f y)) -> StronglySorted R l -> StronglySorted S (map f l).
Proof.
  intros HRS. induction 1 as [|x l _ IH Hf]; cbn; constructor; [done|].
  apply Forall_map. eapply Forall_impl; [exact Hf|]. intros y. apply HRS.
Qed.

Lemma top_users_spec key cs : top_list 5 (map key cs) (top_users key cs).
Proof.
  unfold top_users. set (ks := map key cs). set (rows := merge_sort more_calls (map_to_list (group_count ks))).
  assert (rows ≡ₚ map_to_list (group_count ks)) as Hp by apply merge_sort_Permutation.
  assert (StronglySorted more_calls rows) as Hs by (apply StronglySorted_merge_sort; apply _).
  assert (NoDup (map fst rows)) as Hn by (rewrite Hp; apply NoDup_fst_map_to_list).
  assert (forall k n, (k, n) ∈ rows <-> k ∈ ks /\ n = tally k ks) as Hin.
  { intros k n. rewrite Hp, elem_of_map_to_list, group_count_lookup. case_decide; naive_solver. }
  clearbody rows. split.
  - apply Forall_map, Forall_forall. intros [k n] Hk. apply elem_of_take in Hk as (i & Hk & _).
    apply list_elem_of_lookup_2, Hin in Hk as [Hk ->]. cbn. split; [done|by apply tally_pos].
  - rewrite map_map. cbn. rewrite <- (take_drop 5 rows), map_app in Hn. by apply NoDup_app in Hn as [Hn _].
  - eapply StronglySorted_fmap_impl, StronglySorted_take, Hs. done.
  - rewrite length_map, length_take. lia.
  - intros k Hk Hk'. rewrite map_map in Hk'. cbn in Hk'.
    assert ((k, tally k ks) ∈ drop 5 rows) as Hd.
    { assert ((k, tally k ks) ∈ rows) as Hr by by apply Hin.
      rewrite <- (take_drop 5 rows), elem_of_app in Hr. destruct Hr as [Hr|]; [|done].
      destruct Hk'. apply list_elem_of_fmap. by exists (k, tally k ks). }
    split.
    + assert (drop 5 rows <> []) as Hne by (intros E; rewrite E in Hd; set_solver).
      rewrite length_map, length_take. destruct (decide (length rows <= 5)%nat); [|lia].
      by rewrite drop_ge in Hne.
    + apply Forall_map, Forall_forall. intros [k' n'] Hr.
      exact (StronglySorted_split _ 5 _ _ _ Hs Hr Hd).
Qed.

(** The hours. *)
Lemma fill_hours_lookup rows hourly h :
  NoDup (map fst rows) -> length hourly = 24%nat -> (h < 24)%nat ->
  foldl (fun hourly '(hour, count) =>
           if (0 <=? hour) && (hour <? 24) then <[Z.to_nat hour := count]> hourly else hourly)
    hourly rows !! h =
  match list_to_map (M := gmap Z Z) rows !! Z.of_nat h with Some n => Some n | None => hourly !! h end.
Proof.
  revert hourly. induction rows as [|[k n] rows IH]; intros hourly Hn Hl Hh; [done|]. cbn in Hn |- *.
  apply NoDup_cons in Hn as [Hk Hn]. rewrite IH; [|done|by destruct (_ && _); rewrite ?length_insert|done].
  destruct (decide (k = Z.of_nat h)) as [->|Hne].
  - rewrite lookup_insert_eq, not_elem_of_list_to_map_1 by done.
    rewrite (proj2 (Z.leb_le _ _)), (proj2 (Z.ltb_lt _ _)) by lia. cbn. rewrite Nat2Z.id.
    apply list_lookup_insert_eq. lia.
  - rewrite lookup_insert_ne by done. case_match; [done|]. destruct (_ && _) eqn:E; [|done].
    apply list_lookup_insert_ne. lia.
Qed.

Lemma fill_hours_length rows : length (fill_hours rows) = 24%nat.
Proof.
  unfold fill_hours. rewrite <- (length_replicate 24 0) at 2. generalize (replicate 24 0).
  induction rows as [|[k n] rows IH]; intros l; [done|]. cbn. rewrite IH. by destruct (_ && _); rewrite ?length_insert.
Qed.

Lemma fill_hours_counts cs h :
  (h < 24)%nat ->
  fill_hours (hourly_rows cs) !! h =
    Some (tally (Z.of_nat h) (map (fun c => sql_hour (call_started_at c)) cs)).
Proof.
  intros Hh. unfold hourly_rows. set (ks := map _ cs).
  assert (merge_sort earlier_hour (map_to_list (group_count ks)) ≡ₚ map_to_list (group_count ks)) as Hp
    by apply merge_sort_Permutation.
  assert (NoDup (map fst (merge_sort earlier_hour (map_to_list (group_count ks))))) as Hn
    by (rewrite Hp; apply NoDup_fst_map_to_list).
  unfold fill_hours. rewrite fill_hours_lookup; [|done|apply length_replicate|done].
  rewrite (list_to_map_proper _ _ Hn Hp), list_to_map_to_list, group_count_lookup, lookup_replicate_2 by done.
  case_decide; [done|]. by rewrite tally_zero.
Qed.

Lemma sum_add {A} (f g : A -> Z) l :
  foldr Z.add 0 (map (fun x => f x + g x) l) = foldr Z.add 0 (map f l) + foldr Z.add 0 (map g l).
Proof. induction l as [|x l IH]; [done|]. cbn. rewrite IH. lia. Qed.

Lemma hour_once n :
  (n < 24)%nat ->
  foldr Z.add 0 (map (fun h => if decide (Z.of_nat h = Z.of_nat n) then 1 else 0) (seq 0 24)) = 1.
Proof. intros Hn. do 24 (destruct n as [|n]; [reflexivity|]). lia. Qed.

Lemma tally_sum hs :
  Forall (fun h => 0 <= h < 24) hs ->
  foldr Z.add 0 (map (fun h => tally (Z.of_nat h) hs) (seq 0 24)) = Z.of_nat (length hs).
Proof.
  induction 1 as [|x hs Hx _ IH]; [done|]. rewrite length_cons, Nat2Z.inj_succ, <- IH. clear IH.
  rewrite (map_ext _ _ (fun h => tally_cons (Z.of_nat h) x hs)), sum_add.
  replace x with (Z.of_nat (Z.to_nat x)) by lia.
  assert (Z.to_nat x < 24)%nat as Hn by lia. revert Hn. generalize (Z.to_nat x). intros n Hn.
  rewrite (hour_once n Hn). lia.
Qed.

Lemma sql_hour_range t : 0 <= sql_hour t < 24.
Proof. apply Z.mod_pos_bound. lia. Qed.

Lemma answered_bounds cs : 0 <= answered_count cs <= Z.of_nat (length cs).
Proof. induction cs as [|c cs IH]; [done|]. cbn [answered_count map foldr length] in *. fold (answered_count cs). case_match; lia. Qed.

(** The calls of a period, which the figures count. *)
Definition period_of (p : Z -> CallRow -> bool) (w : World) : list CallRow := calls_where (p (sql_now w)) w.

Section decoding.
Context `{SqlDecimal}.

(** Sums and averages decode to what they are. *)
Definition decimals_decode : Prop :=
  (forall z, decimal_i64 z = Some z) /\ (forall s n, is_Some (decimal_f64 s n)).

Lemma period_run p w :
  w_faults w = [] -> (forall z, decimal_i64 z = Some z) ->
  period p w = (Val (inl {| total := Z.of_nat (length (period_of p w));
                            answered := answered_count (period_of p w);
                            period_duration_secs := talk_total (period_of p w) |}), w).
Proof.
  intros Hf Hd. unfold period. erewrite api_bind_ok by by apply db_ok. by rewrite !Hd.
Qed.

Lemma avg_run w :
  w_faults w = [] -> (forall s n, is_Some (decimal_f64 s n)) ->
  exists a, avg_duration w = (Val (inl a), w).
Proof.
  intros Hf Hd. unfold avg_duration. erewrite api_bind_ok by by apply db_ok.
  case_match; [by eexists|]. edestruct Hd as [a ->]. by eexists.
Qed.

(** What the dashboard shows, if its sums decode and no query fails ([dashboard_unavailable]
    says what happens otherwise): the figures of a period are those of its calls, the two
    rankings are rankings of the last week (the five users with most calls, each once, with
    their numbers), and the 24 hourly figures count every call of the last 24 hours exactly
    once, at the hour it started. *)
Theorem dashboard_spec w :
  w_faults w = [] -> decimals_decode ->
  exists s, get_stats w = (Val (inl s), w) /\
    let week := period_of (since (7 * 86400)) w in
    let day := period_of (since 86400) w in
    total (st_today s) = Z.of_nat (length (period_of today w)) /\
    0 <= answered (st_today s) <= total (st_today s) /\
    total (st_week s) = Z.of_nat (length week) /\ 0 <= answered (st_week s) <= total (st_week s) /\
    top_list 5 (map call_caller week) (top_callers s) /\
    top_list 5 (map call_callee week) (top_callees s) /\
    length (hourly_calls s) = 24%nat /\
    (forall h, (h < 24)%nat -> hourly_calls s !! h =
       Some (tally (Z.of_nat h) (map (fun c => sql_hour (call_started_at c)) day))) /\
    foldr Z.add 0 (hourly_calls s) = Z.of_nat (length day).
Proof.
  intros Hf [Hi Hd]. destruct (avg_run w Hf Hd) as [avg Ea]. eexists. split.
  { unfold get_stats. erewrite api_bind_ok by by apply period_run.
    erewrite api_bind_ok by by apply period_run. erewrite api_bind_ok by exact Ea.
    do 3 erewrite api_bind_ok by by apply db_ok. reflexivity. }
  cbn [total answered st_today st_week top_callers top_callees hourly_calls]. split_and!; try done;
    try apply answered_bounds; try apply top_users_spec.
  - apply fill_hours_length.
  - intros h Hh. by apply fill_hours_counts.
  - unfold period_of. rewrite <- (length_map (fun c => sql_hour (call_started_at c))).
    rewrite <- tally_sum; [f_equal|apply Forall_map, Forall_true; intros; apply sql_hour_range].
    apply list_eq. intros h. destruct (decide (h < 24)%nat) as [Hh|Hh].
    + rewrite fill_hours_counts, list_lookup_fmap, lookup_seq_lt by done. done.
    + rewrite !lookup_ge_None_2; [done| |]; rewrite ?length_map, ?fill_hours_length, ?length_seq; lia.
Qed.

(** Where a DECIMAL is not given to an [i64], there are no figures at all. *)
Theorem dashboard_unavailable w :
  w_faults w = [] -> (forall z, decimal_i64 z = None) ->
  get_stats w = (Val (inr (500, "error occurred while decoding column")), w).
Proof.
  intros Hf Hd. unfold get_stats. erewrite api_bind_err; [done|].
  unfold period. erewrite api_bind_ok by by apply db_ok. by rewrite Hd.
Qed.
End decoding.

(** ** On a sample log *)

Definition toy_decimal : SqlDecimal :=
  {| F64 := Z * Z; f64_zero := (0, 1); decimal_i64 := Some; decimal_f64 := fun s n => Some (s, n) |}.

Lemma dashboard_spec_witness :
  exists s, @get_stats toy_decimal call_log = (Val (inl s), call_log) /\
    foldr Z.add 0 (hourly_calls s) = Z.of_nat (length (period_of (since 86400) call_log)).
Proof.
  destruct (@dashboard_spec toy_decimal call_log) as (s & E & H); [reflexivity| |].
  - split; [done|]. intros s n. by eexists.
  - exists s. split; [exact E|apply H].
Defined.

Example ranking :
  top_users call_caller [open_call; finished_call; open_call] =
    [{| uc_user := "1003"; uc_count := 2 |}; {| uc_user := "1001"; uc_count := 1 |}].
Proof. vm_compute. reflexivity. Qed.
