(* ===== verification/Reload.v ===== *)
(** * Configuration reload: [backend/src/config_watch.rs]

    The live configuration is a cell shared by the handlers of the API; a reload replaces it by
    what [Config::load] returns and looks for changes that need a restart. *)

From S2P Require Import Prelude RustStr Net Message SecurityGuard Acl Storage Sdp Media World.

Open Scope str_scope.
Open Scope Z_scope.

(** [prev.server.sip_port != new_cfg.server.sip_port || ...] *)
Definition structural_changed (prev new : Config) : bool :=
  negb (sip_port prev =? sip_port new) || negb (api_port prev =? api_port new) ||
  negb (tls_port prev =? tls_port new) || negb (ws_port prev =? ws_port new) ||
  negb (wss_port prev =? wss_port new) || negb (rtp_port_min prev =? rtp_port_min new) ||
  negb (rtp_port_max prev =? rtp_port_max new) ||
  negb (bool_decide (tls_cert prev = tls_cert new)) || negb (bool_decide (tls_key prev = tls_key new)).

(** [ConfigWatcher]: the shared cell, and the warnings logged, newest last. *)
Record ConfigWatcher := {
  cw_inner : Config;
  cw_interval_secs : Z;
  cw_warnings : list str;
}.

Definition RESTART_WARNING : str :=
  "config reloaded with structural changes (ports/TLS); restart the binary to apply them".

(** Compared with what is in the cell. *)
Definition warn_structural_changes (new : Config) (cw : ConfigWatcher) : ConfigWatcher :=
  if structural_changed (cw_inner cw) new then
    {| cw_inner := cw_inner cw; cw_interval_secs := cw_interval_secs cw;
       cw_warnings := cw_warnings cw ++ [RESTART_WARNING] |}
  else cw.

Definition store (new : Config) (cw : ConfigWatcher) : ConfigWatcher :=
  {| cw_inner := new; cw_interval_secs := cw_interval_secs cw; cw_warnings := cw_warnings cw |}.

(** [loaded]: what [Config::load] returns, from the file and the environment at that time. *)
Definition reload_now (loaded : result Config) (cw : ConfigWatcher) : result Config * ConfigWatcher :=
  match loaded with
  | Err e => (Err e, cw)
  | Ok new => (Ok new, warn_structural_changes new (store new cw))
  end.

(** The periodic task: a failed reload is logged and the loop goes on. *)
Definition reload_periodically (loads : list (result Config)) (cw : ConfigWatcher) : ConfigWatcher :=
  foldl (fun cw loaded => (reload_now loaded cw).2) cw loads.

Definition reload_interval (cw : ConfigWatcher) : Z := Z.max (cw_interval_secs cw) 5.

(** ** Facts *)

Lemma structural_changed_refl c : structural_changed c c = false.
Proof. unfold structural_changed. by rewrite !Z.eqb_refl, !bool_decide_eq_true_2. Qed.

(** The last configuration that could be loaded. *)
Definition last_loaded (c : Config) (loads : list (result Config)) : Config :=
  foldl (fun c l => match l with Ok c' => c' | Err _ => c end) c loads.

Lemma reload_now_run loaded cw :
  (reload_now loaded cw).2 = store (last_loaded (cw_inner cw) [loaded]) cw.
Proof.
  destruct loaded as [new|e]; [|by destruct cw]. cbn. unfold warn_structural_changes. cbn.
  by rewrite structural_changed_refl.
Qed.

(** The cell holds the last configuration that could be loaded, whatever failed in between, and
    the operator is never told that a restart is needed: the new configuration is compared
    after it was stored, with itself. *)
Theorem reload_never_warns loads cw :
  reload_periodically loads cw = store (last_loaded (cw_inner cw) loads) cw /\
  cw_warnings (reload_periodically loads cw) = cw_warnings cw.
Proof.
  assert (reload_periodically loads cw = store (last_loaded (cw_inner cw) loads) cw) as E; [|by rewrite E].
  revert cw. induction loads as [|l loads IH]; intros cw; [by destruct cw|].
  unfold reload_periodically, last_loaded in *. cbn [foldl]. rewrite reload_now_run, IH. by destruct cw, l.
Qed.
