(* ===== verification/Firewall.v ===== *)
(** * Administration of the firewall: [backend/src/api/acl.rs], [backend/src/api/security.rs]

    The rules of the access list, the automatic bans and their removal, and the counts of the
    security page; with what they mean for the SIP side. *)

From S2P Require Import Prelude RustStr Net Message Response SecurityGuard Acl Storage Sdp Media.
From S2P Require Import World Voicemail HttpApi Auth Registrar Forward Gateway Server.

Open Scope str_scope.
Open Scope Z_scope.
Open Scope api_scope.

(** ** Rules *)

Record CreateAclEntry := {
  ce_action : str;
  ce_cidr : str;
  ce_description : option str;
  ce_priority : option Z;
  ce_enabled : option Z;
}.

Record UpdateAclEntry := {
  ue_action : option str;
  ue_cidr : option str;
  ue_description : option str;
  ue_priority : option Z;
  ue_enabled : option Z;
}.

Definition is_action (s : str) : bool := bool_decide (s = "allow") || bool_decide (s = "deny").

(** [sort by priority, id]: the order of the list page. *)
Definition list_rules : M (Api (list AclEntry)) :=
  db (gets (fun w => merge_sort row_le (w_acl_rows w))).

Section rules.
Context `{IpNets}.

(** [parse_cidr(..).map_err(|e| (StatusCode::BAD_REQUEST, e))?] *)
Definition checked_cidr (cidr : str) : M (Api str) :=
  mret (match parse_cidr cidr with Ok c => inl c | Err e => inr (400, e) end).

Definition checked_cidr_opt (cidr : option str) : M (Api (option str)) :=
  mret (match cidr with
        | None => inl None
        | Some cidr => match parse_cidr cidr with Ok c => inl (Some c) | Err e => inr (400, e) end
        end).

Definition create_rule (bd : CreateAclEntry) : M (Api Z) :=
  if negb (is_action (ce_action bd)) then api_err 400 "action must be 'allow' or 'deny'"
  else
    cidr <-? checked_cidr (ce_cidr bd);
    db (fun w =>
      let id := next_acl_id (w_acl_rows w) in
      (Val id, set_acl_rows (w_acl_rows w ++ [{| acl_id := id; acl_action := ce_action bd;
         acl_cidr := cidr; acl_description := ce_description bd;
         acl_priority := default 100 (ce_priority bd);
         acl_enabled := default 1 (ce_enabled bd) |}]) w)).

(** The row after [UPDATE .. SET x = COALESCE(?, x)]. *)
Definition updated_rule (bd : UpdateAclEntry) (cidr : option str) (r : AclEntry) : AclEntry :=
  {| acl_id := acl_id r; acl_action := coalesce (ue_action bd) (acl_action r);
     acl_cidr := coalesce cidr (acl_cidr r);
     acl_description := coalesce_opt (ue_description bd) (acl_description r);
     acl_priority := coalesce (ue_priority bd) (acl_priority r);
     acl_enabled := coalesce (ue_enabled bd) (acl_enabled r) |}.

Definition update_rule (id : Z) (bd : UpdateAclEntry) : M (Api unit) :=
  if negb (from_option is_action true (ue_action bd))
  then api_err 400 "action must be 'allow' or 'deny'"
  else
    cidr <-? checked_cidr_opt (ue_cidr bd);
    db (modify (fun w => set_acl_rows
      (map (fun r => if acl_id r =? id then updated_rule bd cidr r else r) (w_acl_rows w)) w)).
End rules.

Definition delete_rule (id : Z) : M (Api unit) :=
  db (modify (fun w => set_acl_rows (filter (fun r => acl_id r <> id) (w_acl_rows w)) w)).

(** ** Automatic bans *)

(** [action = 'deny' AND enabled = 1 AND description LIKE 'auto-ban:%'] *)
Definition is_auto_block (r : AclEntry) : bool :=
  bool_decide (acl_action r = "deny") && (acl_enabled r =? 1) &&
  from_option (Str.starts_with "auto-ban:") false (acl_description r).

Definition is_auto_block_of (cidr : str) (r : AclEntry) : bool :=
  is_auto_block r && bool_decide (acl_cidr r = cidr).

Definition list_blocks : M (Api (list AclEntry)) :=
  db (gets (fun w => reverse (filter (fun r => is_auto_block r = true) (w_acl_rows w)))).

Definition disable_rule (r : AclEntry) : AclEntry :=
  {| acl_id := acl_id r; acl_action := acl_action r; acl_cidr := acl_cidr r;
     acl_description := acl_description r; acl_priority := acl_priority r; acl_enabled := 0 |}.

Definition disable_blocks (cidr : str) (table : list AclEntry) : list AclEntry :=
  map (fun r => if is_auto_block_of cidr r then disable_rule r else r) table.

(** What the event of an unblocking says. *)
Definition unblock_surface (description : option str) : AuthSurface :=
  if Str.contains INVITE_AUTO_BAN_DESCRIPTION (default "" description) then SipInvite
  else SipRegister.

(** The body is the text of the request's [cidr]. *)
Definition unblock_cidr (body : str) : M (Api unit) :=
  let cidr := Str.trim body in
  if Str.is_empty cidr then api_err 400 "cidr is required"
  else
    row <-? db (gets (fun w => find_first (is_auto_block_of cidr) (w_acl_rows w)));
    n <-? db (fun w => (Val (length (filter (fun r => is_auto_block_of cidr r = true) (w_acl_rows w))),
                        set_acl_rows (disable_blocks cidr (w_acl_rows w)) w));
    if (n =? 0)%nat then api_err 404 "block not found"
    else
      let source_ip := default "0.0.0.0" (head (Str.split_char "/" body)) in
      logged ← attempt (db_persist_event (unblock_surface (row ≫= acl_description)) IpUnblocked
                 source_ip None "manual unblock from security api");
      match logged with
      | Some _ => mret (inl tt)
      | None => api_err 500 "database error"
      end.

(** ** The security page *)

Record SecurityEventsQuery := {
  sq_source_ip : option str;
  sq_event_type : option str;
  sq_surface : option str;
  sq_limit : option Z;
  sq_offset : option Z;
}.

Definition event_matches (q : SecurityEventsQuery) (e : SecurityEventRow) : Prop :=
  ev_source_ip e = default (ev_source_ip e) (sq_source_ip q) /\
  ev_type e = default (ev_type e) (sq_event_type q) /\
  ev_surface e = default (ev_surface e) (sq_surface q).

#[export] Instance event_matches_dec q e : Decision (event_matches q e).
Proof. unfold event_matches. apply _. Defined.

(** [ORDER BY created_at DESC]; among equal times the later row first. *)
Definition newer (a b : SecurityEventRow) : Prop := ev_created_at b <= ev_created_at a.

#[export] Instance newer_dec : RelDecision newer.
Proof. intros a b. unfold newer. apply _. Defined.

Definition events_limit (q : SecurityEventsQuery) : Z := Z.min (default 100 (sq_limit q)) 500.

Definition list_events (q : SecurityEventsQuery) : M (Api (list SecurityEventRow)) :=
  db (gets (fun w =>
    take (Z.to_nat (events_limit q)) (drop (Z.to_nat (default 0 (sq_offset q)))
      (merge_sort newer (reverse (filter (event_matches q) (w_security_events w))))))).

(** [SELECT COUNT] of the events of the last [secs] seconds. *)
Definition count_events (p : SecurityEventRow -> bool) (secs : Z) : M Z :=
  gets (fun w => Z.of_nat (length (filter (fun e =>
    p e = true /\ w_now w / 1000000000 - secs <= ev_created_at e) (w_security_events w)))).

Definition has_type (t : SecurityEventType) (e : SecurityEventRow) : bool :=
  bool_decide (ev_type e = event_db_value t).

Definition invite_blocked_event (e : SecurityEventRow) : bool :=
  bool_decide (ev_surface e = surface_db_value SipInvite) && has_type IpBlocked e.

Definition count_rules (p : AclEntry -> bool) : M Z :=
  gets (fun w => Z.of_nat (length (filter (fun r => p r = true) (w_acl_rows w)))).

(** (failed, blocked, invites rejected, invites blocked, automatic bans) *)
Definition security_summary : M (Api (Z * Z * Z * Z * Z)) :=
  failed <-? db (count_events (has_type AuthFailed) 86400);
  blocked <-? db (count_events (has_type IpBlocked) 86400);
  rejected <-? db (count_events (has_type InviteRejected) 86400);
  invite_blocked <-? db (count_events invite_blocked_event 86400);
  active <-? db (count_rules is_auto_block);
  mret (inl (failed, blocked, rejected, invite_blocked, active)).

Definition is_open_call (c : CallRow) : bool :=
  (bool_decide (call_status c = "trying") || bool_decide (call_status c = "answered")) &&
  bool_decide (call_ended_at c = None).

Definition is_invite_ban (r : AclEntry) : bool :=
  bool_decide (acl_action r = "deny") && (acl_enabled r =? 1) &&
  bool_decide (acl_description r = Some INVITE_AUTO_BAN_DESCRIPTION).

(** (registrations, calls, failures and rejections of five minutes, bans, INVITE bans) *)
Definition runtime_snapshot : M (Api (Z * Z * Z * Z * Z * Z)) :=
  regs <-? db (gets (fun w => Z.of_nat (size (filter (fun kv : (str * str) * Registration =>
                 w_now w / 1000000000 < reg_expires_at kv.2) (w_registrations w)))));
  calls <-? db (gets (fun w => Z.of_nat (size (filter (fun kv : str * CallRow =>
                 is_open_call kv.2 = true) (w_calls w)))));
  failed <-? db (count_events (has_type AuthFailed) 300);
  rejected <-? db (count_events (has_type InviteRejected) 300);
  active <-? db (count_rules is_auto_block);
  invite_bans <-? db (count_rules is_invite_ban);
  mret (inl (regs, calls, failed, rejected, active, invite_bans)).

(** ** Facts: the table of rules *)

(** Printing a network and reading it again gives the network. *)
Class IpNetPrinting `{IpNets} : Prop := {
  ipnet_from_to n : ipnet_from_str (ipnet_to_string n) = Some n;
}.

(** A rule the checker can read. *)
Definition rule_ok `{IpNets} (r : AclEntry) : Prop :=
  is_action (acl_action r) = true /\ is_Some (ipnet_from_str (acl_cidr r)).

Definition firewall_ok `{IpNets} (w : World) : Prop :=
  Forall rule_ok (w_acl_rows w) /\ NoDup (map acl_id (w_acl_rows w)).

Lemma filter_length_map {A} (P : A -> Prop) `{!forall x, Decision (P x)} (f : A -> A) l :
  (forall x, P x <-> P (f x)) -> length (filter P (map f l)) = length (filter P l).
Proof.
  intros Hf. induction l as [|x l IH]; [done|]. cbn [map]. rewrite !filter_cons.
  specialize (Hf x). repeat case_decide; cbn; naive_solver.
Qed.

Section rules_facts.
Context `{!IpNets, !IpNetLaws, !IpNetPrinting}.

Lemma rule_ok_loads r : rule_ok r -> is_Some (load_row r).
Proof.
  intros [Ha [n Hn]]. unfold load_row, is_action in *. rewrite Hn. bind_some.
  apply orb_true_iff in Ha as [Ha|Ha]; apply bool_decide_eq_true in Ha; rewrite Ha; decide_lits;
    by eexists.
Qed.

(** No enabled rule is skipped. *)
Lemma all_rules_load table p :
  Forall rule_ok table ->
  length (rules (load_from_db table p)) = length (filter (fun r => acl_enabled r = 1) table).
Proof.
  intros Hok. unfold load_from_db. cbn [rules]. fold (sorted_rows table).
  assert (Forall rule_ok (sorted_rows table)) as Hs.
  { apply Forall_forall. intros r [_ Hr]%sorted_rows_elem. rewrite Forall_forall in Hok. by apply Hok. }
  assert (length (sorted_rows table) = length (filter (fun r => acl_enabled r = 1) table)) as <-.
  { unfold sorted_rows. by rewrite (merge_sort_Permutation row_le). }
  induction Hs as [|r l [rule Hr]%rule_ok_loads _ IH]; [done|]. cbn. rewrite Hr. cbn. by rewrite IH.
Qed.

Lemma moves_checked_cidr R `{!IoFrame R} {B} cidr (k : str -> M (Api B)) :
  (forall c, is_Some (ipnet_from_str c) -> moves R (k c)) -> moves R (c <-? checked_cidr cidr; k c).
Proof.
  intros Hk w. unfold checked_cidr, parse_cidr. destruct (ipnet_from_str cidr) as [n|] eqn:E; [|by cbn].
  erewrite api_bind_ok by done. apply Hk. by rewrite ipnet_from_to.
Qed.

Lemma moves_checked_cidr_opt R `{!IoFrame R} {B} cidr (k : option str -> M (Api B)) :
  (forall c, from_option (fun c => is_Some (ipnet_from_str c)) True c -> moves R (k c)) ->
  moves R (c <-? checked_cidr_opt cidr; k c).
Proof.
  intros Hk w. unfold checked_cidr_opt, parse_cidr.
  destruct cidr as [cidr|]; [destruct (ipnet_from_str cidr) as [n|] eqn:E; [|by cbn]|];
    erewrite api_bind_ok by done; apply Hk; cbn; [by rewrite ipnet_from_to|done].
Qed.

Lemma insert_rule_ok r w :
  firewall_ok w -> rule_ok r -> acl_id r = next_acl_id (w_acl_rows w) ->
  firewall_ok (set_acl_rows (w_acl_rows w ++ [r]) w).
Proof.
  intros [Hf Hn] Hr Hid. split; cbn.
  - apply Forall_app. auto using Forall_singleton.
  - apply NoDup_map_snoc; [done|]. rewrite Hid. apply next_id_fresh.
Qed.

Lemma map_rules_ok f w :
  firewall_ok w -> (forall r, acl_id (f r) = acl_id r) -> (forall r, rule_ok r -> rule_ok (f r)) ->
  firewall_ok (set_acl_rows (map f (w_acl_rows w)) w).
Proof.
  intros [Hf Hn] Hid Hr. split; cbn; [|by rewrite map_update_key].
  apply Forall_map. eapply Forall_impl; [exact Hf|]. apply Hr.
Qed.

Lemma create_rule_ok bd : moves (keeps firewall_ok) (create_rule bd).
Proof.
  unfold create_rule, api_err. destruct (is_action _) eqn:Ha; [|apply moves_ret].
  apply moves_checked_cidr; [apply _|]. intros c Hc. apply moves_db. intros w Hok.
  apply insert_rule_ok; [done| |done]. by split.
Qed.

Lemma update_rule_ok id bd : moves (keeps firewall_ok) (update_rule id bd).
Proof.
  unfold update_rule, api_err. destruct (from_option _ _ _) eqn:Ha; [|apply moves_ret].
  cbn [negb]. apply moves_checked_cidr_opt; [apply _|]. intros c Hc. apply moves_db, moves_modify.
  intros w Hok. apply map_rules_ok; [done|intros r; by case_match|].
  intros r [Hact Hcidr]. case_match; [|done]. split; cbn; unfold coalesce.
  - by destruct (ue_action bd).
  - by destruct c.
Qed.

Lemma delete_rule_ok id : moves (keeps firewall_ok) (delete_rule id).
Proof.
  apply moves_db, moves_modify. intros w [Hf Hn]. split; cbn; [by apply Forall_filter_keep|].
  by apply NoDup_map_filter.
Qed.

Lemma disable_blocks_ok cidr w :
  firewall_ok w -> firewall_ok (set_acl_rows (disable_blocks cidr (w_acl_rows w)) w).
Proof.
  intros Hok. apply map_rules_ok; [done|intros r; by case_match|]. intros r Hr. by case_match.
Qed.

Lemma unblock_ok body : moves (keeps firewall_ok) (unblock_cidr body).
Proof.
  unfold unblock_cidr, db_persist_event, api_err. solve_api.
  - intros w Hok. by apply disable_blocks_ok.
  - apply moves_modify. intros w Hok. exact Hok.
Qed.

Lemma persist_ban_ok i prio d : moves (keeps firewall_ok) (db_persist_acl_ban i prio d).
Proof.
  apply moves_query, moves_modify. intros w Hok. unfold persist_acl_ban. case_match; [by destruct w|].
  apply insert_rule_ok; [done| |done]. split; [done|]. cbn.
  destruct (ipnet_host i) as (n & Hn & _). by eexists.
Qed.

(** What writes the table: the API and the two guards. *)
Inductive firewall_step : World -> World -> Prop :=
  | firewall_create bd w : firewall_step w (create_rule bd w).2
  | firewall_update id bd w : firewall_step w (update_rule id bd w).2
  | firewall_delete id w : firewall_step w (delete_rule id w).2
  | firewall_unblock body w : firewall_step w (unblock_cidr body w).2
  | firewall_ban i prio d w : firewall_step w (db_persist_acl_ban i prio d w).2
  | firewall_environment now faults w : firewall_step w (set_now now (set_faults faults w)).

Lemma firewall_step_ok w w' : firewall_step w w' -> keeps firewall_ok w w'.
Proof.
  destruct 1; [by apply create_rule_ok|by apply update_rule_ok|by apply delete_rule_ok
              |by apply unblock_ok|by apply persist_ban_ok|by intros ?].
Qed.

(** C19: no rule is lost on its way to the firewall.  Over any sequence of administrations,
    unblockings and automatic bans, whatever fails, every row keeps a known action and a
    network that parses, so that a reload turns every enabled row into a rule; ids stay
    unique. *)
Theorem firewall_invariant w w' p :
  rtc firewall_step w w' -> firewall_ok w ->
  firewall_ok w' /\
  length (rules (load_from_db (w_acl_rows w') p)) =
  length (filter (fun r => acl_enabled r = 1) (w_acl_rows w')).
Proof.
  intros Hr Hok. assert (firewall_ok w') as Hok'.
  { induction Hr as [|x y z Hxy _ IH]; [done|]. by eapply IH, firewall_step_ok. }
  split; [done|]. by apply all_rules_load, Hok'.
Qed.
End rules_facts.

(** ** Unblocking *)

Lemma disable_blocks_none cidr table :
  existsb (is_active_deny cidr) table = false -> disable_blocks cidr table = table.
Proof.
  intros Hn. apply map_update_none, Forall_forall. intros r Hr. apply not_true_is_false. intros Hb.
  apply not_true_iff_false in Hn. apply Hn, existsb_exists. exists r.
  split; [by apply list_elem_of_In|]. apply is_active_deny_spec.
  unfold is_auto_block_of, is_auto_block in Hb. by bool_simpl.
Qed.

(** A ban and its removal leave the enabled rows as they were. *)
Lemma disabled_ban_invisible `{!IpNets} i prio d table :
  existsb (is_active_deny (host_cidr i)) table = false -> Str.starts_with "auto-ban:" d = true ->
  sorted_rows (disable_blocks (host_cidr i) (persist_acl_ban i prio d table)) = sorted_rows table /\
  filter (fun r => is_auto_block_of (host_cidr i) r = true) (persist_acl_ban i prio d table) <> [].
Proof.
  intros Hn Hd. unfold persist_acl_ban. rewrite Hn.
  set (r := Build_AclEntry _ _ _ _ _ _).
  assert (is_auto_block_of (host_cidr i) r = true) as Hb.
  { unfold is_auto_block_of, is_auto_block. by rewrite !andb_true_iff, !bool_decide_eq_true. }
  split.
  - unfold disable_blocks. rewrite map_app. fold (disable_blocks (host_cidr i) table).
    rewrite disable_blocks_none by done. cbn [map]. rewrite Hb. unfold sorted_rows. f_equal.
    rewrite filter_app, filter_cons_False by (cbn; lia). by rewrite filter_nil, app_nil_r.
  - rewrite filter_app. rewrite filter_cons_True by done. by destruct (filter _ table).
Qed.

Lemma unblock_run body w :
  w_faults w = [] -> Str.trim body <> [] ->
  filter (fun r => is_auto_block_of (Str.trim body) r = true) (w_acl_rows w) <> [] ->
  exists evs, unblock_cidr body w = (Val (inl tt),
    set_security_events evs (set_acl_rows (disable_blocks (Str.trim body) (w_acl_rows w)) w)).
Proof.
  intros Hf Hne Hsome. unfold unblock_cidr. destruct (Str.trim body) as [|c cs] eqn:Eb; [done|].
  cbn [Str.is_empty]. rewrite <-Eb in *.
  erewrite api_bind_ok by (by apply db_ok). erewrite api_bind_ok by (by apply db_ok). cbv beta.
  destruct (filter _ (w_acl_rows w)) as [|r l]; [done|]. cbn [length Nat.eqb]. cbv zeta.
  eexists. erewrite bind_val; [|unfold attempt, db_persist_event; by rewrite query_ok].
  reflexivity.
Qed.

Lemma blocked_register_refused `{!Digests} cfg secret msg src w :
  register_username msg <> [] -> blocked_now w (show_ip (ip src)) = true ->
  (handle_register cfg secret msg src w).1 = Val (build (base_response msg 403 "Forbidden")).
Proof.
  intros Hu Hb. unfold handle_register. destruct (register_username msg); [done|]. cbn [Str.is_empty].
  destruct (guard_is_blocked_run (show_ip (ip src)) w) as [g Hg].
  by rewrite (bind_val _ _ _ _ _ Hg), Hb.
Qed.

(** Unblocking is half done.  When an address was banned automatically and an administrator
    unblocks it, the firewall decides about every address exactly as it did before the ban;
    but the guard in memory is not told, and a REGISTER from the unblocked address is still
    refused for as long as the guard's block lasts. *)
Theorem unblock_is_half_done `{!IpNets, !Digests} i prio d body w :
  w_faults w = [] -> existsb (is_active_deny (host_cidr i)) (w_acl_rows w) = false ->
  Str.starts_with "auto-ban:" d = true -> Str.trim body = host_cidr i ->
  let out := unblock_cidr body (db_persist_acl_ban i prio d w).2 in
  out.1 = Val (inl tt) /\
  (forall p j, is_allowed (load_from_db (w_acl_rows out.2) p) j =
               is_allowed (load_from_db (w_acl_rows w) p) j) /\
  (forall cfg secret msg src, ip src = i -> register_username msg <> [] ->
     blocked_now w (show_ip i) = true ->
     (handle_register cfg secret msg src out.2).1 = Val (build (base_response msg 403 "Forbidden"))).
Proof.
  intros Hf Hn Hd Hbody. unfold db_persist_acl_ban. rewrite query_ok by done. cbn [modify snd].
  destruct (disabled_ban_invisible i prio d _ Hn Hd) as [Hsorted Hsome].
  set (rows := persist_acl_ban i prio d (w_acl_rows w)) in *.
  destruct (unblock_run body (set_acl_rows rows w)) as [evs ->]; [done|..].
  { rewrite Hbody. destruct i; cbn [host_cidr]; by destruct (show_ip _). }
  { by rewrite Hbody. }
  rewrite Hbody. split_and!; [done| |].
  - intros p j. rewrite !is_allowed_load. cbn -[disable_blocks sorted_rows find_first].
    by rewrite Hsorted.
  - intros cfg secret msg src <- Hu Hb. by apply blocked_register_refused.
Qed.

(** ** The login guard believes a header

    The address a login is counted against is the first of [X-Forwarded-For], which the client
    writes. *)

(** Only deny rows are added. *)
Definition denies_more : relation World := fun w w' =>
  (forall r, r ∈ w_acl_rows w -> r ∈ w_acl_rows w') /\
  (forall r, r ∈ w_acl_rows w' -> r ∈ w_acl_rows w \/ acl_action r = "deny").

#[export] Instance denies_more_io : IoFrame denies_more.
Proof.
  split; [split|by intros v w; split; eauto..]; [by intros w; split; eauto|].
  intros x y z [H1 H2] [H3 H4]. split; [by eauto|]. intros r [Hr|Hr]%H4; [by apply H2|by right].
Qed.

Lemma denies_more_same {A} (m : M A) : moves (same w_acl_rows) m -> moves denies_more m.
Proof. intros Hm w. unfold denies_more. rewrite (Hm w). eauto. Qed.

Section forged.
Context (cfg : Config) (jwt_secret : str) `{!Jwt, !Bcrypt}.
Implicit Types (hs : HeaderMap) (bd : LoginRequest).

Lemma login_failed_denies source_ip u d : moves denies_more (login_failed cfg source_ip u d).
Proof.
  unfold login_failed, db_persist_event. apply moves_bind.
  { apply denies_more_same. intros w. unfold auth_guard_record_failure, same. by case_match. }
  intros b. apply moves_bind; [apply denies_more_same; solve_moves|]. intros _. apply moves_when.
  apply moves_bind; [|intros _; apply denies_more_same; solve_moves].
  case_match; [|apply moves_ret]. apply moves_ignore, moves_query, moves_modify. intros w.
  split; cbn; [|apply persist_acl_ban_elem]. intros r Hr. unfold persist_acl_ban.
  case_match; [done|]. apply elem_of_app. by left.
Qed.

Lemma login_denies hs bd : moves denies_more (login cfg jwt_secret hs bd).
Proof.
  unfold login, login_succeeded, issue_token, api_err, verify_password.
  assert (forall A (m : M (Api A)), moves (same w_acl_rows) m -> moves denies_more m) as Hsame
    by (intros; by apply denies_more_same).
  case_match; [apply moves_ret|]. apply moves_bind.
  { apply denies_more_same. intros w. unfold auth_guard_is_blocked, same. by case_match. }
  intros []; [apply denies_more_same; unfold db_persist_event; solve_moves|].
  apply moves_api_bind; [apply denies_more_same, moves_db, moves_gets|].
  intros [u|]; [|apply moves_bind; [apply login_failed_denies|intros; apply moves_ret]].
  apply moves_api_bind; [apply moves_ret|]. intros []; cbn [negb].
  - apply denies_more_same. unfold auth_guard_record_success, db_persist_event. solve_api.
  - apply moves_bind; [apply login_failed_denies|intros; apply moves_ret].
Qed.

(** The same wrong login, [n] times. *)
Fixpoint login_burst (n : nat) hs bd (w : World) : World :=
  match n with
  | O => w
  | S n => login_burst n hs bd (login cfg jwt_secret hs bd w).2
  end.

Definition wrong_login (w : World) bd : Prop :=
  lr_username bd <> [] /\ lr_password bd <> [] /\
  forall u, admin_named (lr_username bd) w = Some u ->
    bcrypt_verify (lr_password bd) (au_password_hash u) = Some false.

(** A wrong login from an address that is not blocked does what [login_failed] does. *)
Lemma wrong_login_run hs bd w :
  w_faults w = [] -> wrong_login w bd -> login_blocked w hs = false ->
  exists detail,
    (login cfg jwt_secret hs bd w).2 =
    (login_failed cfg (extract_client_ip hs) (lr_username bd) detail
       (set_auth_guard (is_blocked (w_now w) (extract_client_ip hs) (w_auth_guard w)).2 w)).2.
Proof.
  intros Hf (Hu & Hp & Hwrong) Hb. unfold login.
  destruct (lr_username bd) as [|c cs] eqn:Eu; [done|]. destruct (lr_password bd) eqn:Ep; [done|].
  cbn [Str.is_empty orb]. rewrite <-Ep in *. rewrite <-Eu in *.
  unfold auth_guard_is_blocked. unfold mbind at 1, M_bind at 1.
  unfold login_blocked in Hb. destruct (is_blocked _ _ _) as [b g]. cbn [fst] in Hb. subst b. cbn [snd].
  erewrite api_bind_ok by (by apply db_ok). cbv beta.
  change (admin_named (lr_username bd) (set_auth_guard g w)) with (admin_named (lr_username bd) w).
  destruct (admin_named (lr_username bd) w) as [u|] eqn:Hn.
  - unfold verify_password. rewrite (Hwrong u) by done. erewrite api_bind_ok by done. cbn [negb].
    eexists. destruct (login_failed_total cfg (extract_client_ip hs) (lr_username bd)
      "api login failed: bad password" (set_auth_guard g w)) as ([] & w' & E).
    rewrite (bind_val _ _ _ _ _ E). cbn. by rewrite E.
  - eexists. destruct (login_failed_total cfg (extract_client_ip hs) (lr_username bd)
      "api login failed: user not found" (set_auth_guard g w)) as ([] & w' & E).
    rewrite (bind_val _ _ _ _ _ E). cbn. by rewrite E.
Qed.

(** What [login_failed] does to the guard and to the rules. *)
Lemma login_failed_run source_ip u d i w :
  w_faults w = [] -> persist_acl_bans cfg = true -> parse_ip source_ip = Some i ->
  let '(b, g) := record_failure (w_now w) ApiLogin source_ip (Some u) (w_auth_guard w) in
  let w' := (login_failed cfg source_ip u d w).2 in
  w_faults w' = [] /\ w_now w' = w_now w /\ w_admin_users w' = w_admin_users w /\
  w_auth_guard w' = g /\
  w_acl_rows w' = if b then persist_acl_ban i (acl_ban_priority cfg)
    "auto-ban: api login brute force" (w_acl_rows w) else w_acl_rows w.
Proof.
  intros Hf Hp Hi. destruct (record_failure _ _ _ _ _) as [b g] eqn:E. cbv zeta.
  assert (auth_guard_record_failure ApiLogin source_ip (Some u) w = (Val b, set_auth_guard g w)) as Hr
    by (unfold auth_guard_record_failure; by rewrite E).
  unfold login_failed. rewrite (bind_val _ _ _ _ _ Hr).
  erewrite bind_val; [|by eapply ignore_ok; unfold db_persist_event; rewrite query_ok].
  rewrite Hp, andb_true_r, Hi. destruct b; cbn [when]; [|by split_and!].
  erewrite bind_val; [|by eapply ignore_ok; unfold db_persist_acl_ban; rewrite query_ok].
  erewrite ignore_ok; [|unfold db_persist_event; by rewrite query_ok]. by split_and!.
Qed.

Lemma login_burst_denies n hs bd w : denies_more w (login_burst n hs bd w).
Proof.
  revert w. induction n as [|n IH]; intros w; cbn; [done|]. etrans; [apply login_denies|apply IH].
Qed.

(** A failure at the time of [k] earlier ones. *)
Lemma record_failure_count now s ip u g k b g2 :
  record_failure now s ip (Some u) g = (b, g2) -> 0 <= window_secs (limits g) ->
  default [] (user_ip_failures g !! (ip, u)) = replicate k now ->
  limits g2 = limits g /\ default [] (user_ip_failures g2 !! (ip, u)) = replicate (S k) now /\
  (user_ip_fail_threshold (limits g) <= Z.of_nat (S k) -> b = true) /\
  (b = false -> blocks g !! ip = None -> blocks g2 !! ip = None).
Proof.
  intros Hr Hw Hq. unfold record_failure, note_failure in Hr. cbn in Hr. rewrite Hq in Hr.
  assert (prune_old (replicate k now ++ [now]) now (from_secs (window_secs (limits g))) =
    replicate (S k) now) as Hp.
  { rewrite <-replicate_S_end. cbn [replicate]. unfold prune_old. apply drop_while_id.
    apply Z.ltb_ge. unfold Int.sat_sub, from_secs. lia. }
  rewrite Hp, length_replicate in Hr.
  destruct (_ || _) eqn:Ht; inversion Hr; subst; cbn; rewrite lookup_insert_eq; split_and!; try done.
  - intros Hth. apply orb_false_iff in Ht as [_ Ht]. by apply Z.leb_gt in Ht; lia.
  - intros _ Hnone. apply map_lookup_filter_None. by left.
Qed.

Lemma burst_bans n k hs bd i w :
  w_faults w = [] -> persist_acl_bans cfg = true -> parse_ip (extract_client_ip hs) = Some i ->
  wrong_login w bd -> 0 <= window_secs (limits (w_auth_guard w)) ->
  blocks (w_auth_guard w) !! extract_client_ip hs = None ->
  default [] (user_ip_failures (w_auth_guard w) !! (extract_client_ip hs, lr_username bd)) =
    replicate k (w_now w) ->
  (0 < n)%nat -> user_ip_fail_threshold (limits (w_auth_guard w)) <= Z.of_nat (k + n) ->
  exists r, r ∈ w_acl_rows (login_burst n hs bd w) /\ is_active_deny (host_cidr i) r = true /\
    (r ∈ w_acl_rows w \/ acl_priority r = acl_ban_priority cfg).
Proof.
  revert k w. induction n as [|n IH]; intros k w Hf Hp Hi Hwrong Hwin Hnb Hq Hn Hth; [lia|].
  cbn [login_burst].
  assert (login_blocked w hs = false) as Hb.
  { unfold login_blocked, is_blocked. cbn. apply bool_decide_eq_false. intros [x Hx].
    apply map_lookup_filter_Some in Hx as [Hx _]. congruence. }
  destruct (wrong_login_run hs bd w Hf Hwrong Hb) as [detail Hw1].
  set (g := (is_blocked (w_now w) (extract_client_ip hs) (w_auth_guard w)).2) in *.
  pose proof (login_failed_run (extract_client_ip hs) (lr_username bd) detail i (set_auth_guard g w)
    Hf Hp Hi) as Hrun. rewrite <-Hw1 in Hrun. set (w1 := (login cfg jwt_secret hs bd w).2) in *.
  destruct (record_failure _ _ _ _ _) as [b g2] eqn:E.
  destruct Hrun as (Hf1 & Hnow & Hadm & Hg1 & Hrows). cbn in Hf1, Hnow, Hadm, Hrows.
  apply (record_failure_count _ _ _ _ _ k) in E as (Hlim & Hq1 & Hfull & Hblk); [|done|done].
  cbn [set_auth_guard w_auth_guard] in Hlim, Hfull, Hblk. change (limits g) with (limits (w_auth_guard w)) in *.
  destruct b.
  - destruct (persist_acl_ban_row i (acl_ban_priority cfg) "auto-ban: api login brute force"
      (w_acl_rows w)) as (r & Hr & Hd & Hpr). exists r. split; [|done].
    apply (login_burst_denies n hs bd w1). by rewrite Hrows.
  - destruct n as [|n]; [exfalso; discriminate Hfull; lia|]. rewrite <-Hrows.
    apply (IH (S k)); try done; try lia.
    + destruct Hwrong as (Hu & Hpw & Hwr). split_and!; [done..|]. intros u Hu'. apply Hwr.
      unfold admin_named in *. by rewrite Hadm in Hu'.
    + by rewrite Hg1, Hlim.
    + rewrite Hg1. apply Hblk; [done|]. apply map_lookup_filter_None. by left.
    + by rewrite Hg1, Hnow.
    + rewrite Hg1, Hlim. lia.
Qed.
End forged.

(** C20: anybody can have anybody banned.  A login is counted against the address its
    [X-Forwarded-For] header names, and nothing checks the header: as many wrong logins as the
    threshold of the guard allows, sent with the address of a victim, put a deny rule for the
    victim on the access list.  After the next reload that reaches the database every SIP
    datagram of the victim is dropped without effect, provided no allow rule takes precedence
    over bans. *)
Theorem forged_login_bans_anyone cfg secret jwt_secret `{!Jwt, !Bcrypt, !Digests, !HeaderOrder,
    !WebRtc, !IpNets, !IpNetLaws} hs bd i w acl :
  w_faults w = [] -> persist_acl_bans cfg = true -> parse_ip (extract_client_ip hs) = Some i ->
  wrong_login w bd -> w_auth_guard w = guard_new (limits (w_auth_guard w)) ->
  0 <= window_secs (limits (w_auth_guard w)) ->
  0 < user_ip_fail_threshold (limits (w_auth_guard w)) ->
  (forall s, s ∈ w_acl_rows w -> row_applies i s = true -> row_allows s = true ->
     acl_ban_priority cfg < acl_priority s /\
     forall r, r ∈ w_acl_rows w -> is_active_deny (host_cidr i) r = true ->
       acl_priority r < acl_priority s) ->
  let n := Z.to_nat (user_ip_fail_threshold (limits (w_auth_guard w))) in
  exists acl' w', reload_acl acl (set_faults [] (login_burst cfg jwt_secret n hs bd w)) = (Val acl', w') /\
    forall permit len data src w2, ip src = i ->
      receive cfg secret acl' permit len data src w2 = (Val tt, w2).
Proof.
  intros Hf Hp Hi Hwrong Hfresh Hwin Hth Hallow n.
  destruct (burst_bans cfg jwt_secret n 0 hs bd i w) as (r & Hr & Hd & Hprio);
    try done; try (rewrite Hfresh; done); try (unfold n; lia).
  destruct (login_burst_denies cfg jwt_secret n hs bd w) as [_ Hadded].
  set (w1 := login_burst cfg jwt_secret n hs bd w) in *. unfold reload_acl.
  eexists _, (set_faults [] w1). erewrite bind_val by (unfold attempt; by rewrite query_ok).
  split; [reflexivity|]. intros permit len data src w2 Hsrc. unfold receive. rewrite Hsrc.
  change (w_acl_rows (set_faults [] w1)) with (w_acl_rows w1).
  rewrite (active_deny_refused _ _ _ r Hr Hd); [done|]. intros s Hs Ha Hal.
  destruct (Hadded s Hs) as [Hold|Hden]; [|unfold row_allows in Hal; by rewrite Hden in Hal].
  destruct (Hallow s Hold Ha Hal) as [Hban Hdeny]. destruct Hprio as [Hpr|Hpr]; [by apply Hdeny|lia].
Qed.

(** *** Evading the guard *)

Section evasion.
Context (cfg : Config) (jwt_secret : str) `{!Jwt, !Bcrypt}.

Definition unblocked_at (x : str) (w : World) : Prop := blocks (w_auth_guard w) !! x = None.

Lemma unblocked_not_blocked hs w : unblocked_at (extract_client_ip hs) w -> login_blocked w hs = false.
Proof.
  intros Hn. unfold login_blocked, is_blocked. cbn. apply bool_decide_eq_false. intros [x Hx].
  apply map_lookup_filter_Some in Hx as [Hx _]. unfold unblocked_at in Hn. congruence.
Qed.

Lemma login_unblocked x hs bd :
  extract_client_ip hs <> x -> moves (keeps (unblocked_at x)) (login cfg jwt_secret hs bd).
Proof.
  intros Hx.
  assert (forall ip u d, ip <> x -> moves (keeps (unblocked_at x)) (login_failed cfg ip u d)) as Hfail.
  { intros ip u d Hne. unfold login_failed, db_persist_event, db_persist_acl_ban.
    apply moves_bind; [|solve_moves; apply moves_modify; by intros w Hw].
    intros w Hw. unfold auth_guard_record_failure. destruct (record_failure _ _ _ _ _) as [b g] eqn:E.
    unfold unblocked_at, record_failure, note_failure in *. cbn in E |- *.
    assert (filter (fun kb => w_now w < ab_until kb.2) (blocks (w_auth_guard w)) !! x = None) as Hfil.
    { apply map_lookup_filter_None. by left. }
    destruct (_ || _); inversion E; subst; cbn; [by rewrite lookup_insert_ne|done]. }
  unfold login, login_succeeded, issue_token, api_err, verify_password, db_persist_event,
    auth_guard_record_success.
  solve_api; try (by apply Hfail); try (apply moves_modify; by intros w Hw).
  intros w Hw. unfold auth_guard_is_blocked, unblocked_at, is_blocked in *. cbn.
  apply map_lookup_filter_None. by left.
Qed.

(** In a run of these logins none is refused by the guard. *)
Fixpoint never_refused (reqs : list (HeaderMap * LoginRequest)) (w : World) : Prop :=
  match reqs with
  | [] => True
  | (hs, bd) :: reqs =>
      login_blocked w hs = false /\ never_refused reqs (login cfg jwt_secret hs bd w).2
  end.

(** Guessing without limit.  A client that names another address in every request is never
    refused by the login guard, however many passwords it tries, at any speed and whatever
    the thresholds: each guess reaches the password check. *)
Theorem rotating_header_evades reqs w :
  NoDup (map (fun r => extract_client_ip r.1) reqs) ->
  Forall (fun r => unblocked_at (extract_client_ip r.1) w) reqs -> never_refused reqs w.
Proof.
  revert w. induction reqs as [|[hs bd] reqs IH]; intros w; [done|]. cbn [map].
  intros [Hhs Hn]%NoDup_cons [Hu Hall]%Forall_cons. split; [by apply unblocked_not_blocked|].
  apply IH; [done|]. rewrite Forall_forall in Hall |- *. intros r Hr.
  apply (login_unblocked _ hs bd); [|by apply Hall]. intros Heq. apply Hhs. cbn. rewrite Heq.
  apply elem_of_map. eauto.
Qed.
End evasion.

(** ** Examples *)

Lemma host_nets_printing : @IpNetPrinting host_nets.
Proof. by constructor. Qed.

Definition office_rule : CreateAclEntry :=
  {| ce_action := "allow"; ce_cidr := "0.0.0.0/0"; ce_description := None; ce_priority := None;
     ce_enabled := None |}.

Lemma firewall_invariant_witness :
  let w := (unblock_cidr " 10.0.0.1/32" (db_persist_acl_ban (V4 10 0 0 1) 5 "auto-ban: x"
             (@create_rule host_nets office_rule sample_world).2).2).2 in
  length (rules (@load_from_db host_nets (w_acl_rows w) PolicyDeny)) = 1%nat.
Proof.
  cbv zeta. destruct (@firewall_invariant host_nets host_nets_laws host_nets_printing sample_world
    (unblock_cidr " 10.0.0.1/32" (db_persist_acl_ban (V4 10 0 0 1) 5 "auto-ban: x"
       (@create_rule host_nets office_rule sample_world).2).2).2 PolicyDeny) as [_ Hl].
  - eapply rtc_l; [apply firewall_create|]. eapply rtc_l; [apply firewall_ban|].
    apply rtc_once, firewall_unblock.
  - split; [by apply Forall_nil|apply NoDup_nil_2].
  - rewrite Hl. vm_compute. reflexivity.
Defined.

(** [198.51.100.7] is blocked by the guard of the registrar. *)
Definition guarded_world : World :=
  set_guard (record_failure (1700000000 * 1000000000) SipRegister "198.51.100.7" None
    (guard_new {| window_secs := 60; ip_fail_threshold := 1; user_ip_fail_threshold := 9;
                  block_secs := 600 |})).2 sample_world.

Lemma unblock_is_half_done_witness :
  let out := unblock_cidr "198.51.100.7/32 "
               (db_persist_acl_ban (V4 198 51 100 7) 5 "auto-ban: x" guarded_world).2 in
  @is_allowed host_nets (@load_from_db host_nets (w_acl_rows out.2) PolicyAllow) (V4 198 51 100 7) = true /\
  (@handle_register toy_digests sample_config "s3cret" sample_register sample_src out.2).1 =
    Val (build (base_response sample_register 403 "Forbidden")).
Proof.
  cbv zeta. destruct (@unblock_is_half_done host_nets toy_digests (V4 198 51 100 7) 5 "auto-ban: x"
    "198.51.100.7/32 " guarded_world) as (_ & Hfw & Hreg); [by vm_compute..|].
  split; [rewrite Hfw; vm_compute; reflexivity|].
  apply Hreg; [done|by vm_compute|by vm_compute].
Defined.

Definition from_victim : HeaderMap := [("x-forwarded-for", "203.0.113.77, 10.0.0.1")].

Definition guess (password : str) : LoginRequest := {| lr_username := "root"; lr_password := password |}.

Lemma forged_login_bans_anyone_witness :
  exists acl' w', @reload_acl host_nets (@checker_new host_nets PolicyAllow)
      (set_faults [] (@login_burst sample_config "k" toy_jwt toy_bcrypt 3 from_victim (guess "x")
         admin_world)) = (Val acl', w') /\
    @receive sample_config "s3cret" toy_digests list_order toy_bcrypt toy_webrtc host_nets acl' true
      65535 "OPTIONS" {| ip := V4 203 0 113 77; port := 5060 |} w' = (Val tt, w').
Proof.
  destruct (@forged_login_bans_anyone sample_config "s3cret" "k" toy_jwt toy_bcrypt toy_digests
    list_order toy_webrtc host_nets host_nets_laws from_victim (guess "x") (V4 203 0 113 77)
    admin_world (@checker_new host_nets PolicyAllow)) as (acl' & w' & E & Hd);
    [done|done|by vm_compute| |done|by vm_compute|by vm_compute| |].
  - split_and!; [done|done|]. intros u Hu. vm_compute in Hu. inversion Hu. by vm_compute.
  - intros s Hs. by apply not_elem_of_nil in Hs.
  - exists acl', w'. split; [exact E|]. by apply Hd.
Defined.

Lemma rotating_header_evades_witness :
  @never_refused sample_config "k" toy_jwt toy_bcrypt
    (map (fun x => ([("x-forwarded-for", "10.0.0." ++ Str.show_dec x)], guess (Str.show_dec x)))
       [1; 2; 3; 4; 5; 6; 7; 8]) admin_world.
Proof.
  apply (@rotating_header_evades sample_config "k" toy_jwt toy_bcrypt).
  - apply (bool_decide_eq_true_1 _). vm_compute. reflexivity.
  - repeat (apply Forall_cons; split; [by vm_compute|]). by apply Forall_nil.
Defined.
