(* ===== verification/Router.v ===== *)
(** * The HTTP server: [backend/src/api/mod.rs]

    The routes with the layers in front of them, and the state of the server: the live
    configuration and the world.  A route is its handler with decoded arguments; matching paths,
    CORS and JSON are the axum crate. *)

From S2P Require Import Prelude RustStr Net Message SecurityGuard Acl RateLimit Storage Sdp Media World.
From S2P Require Import Voicemail HttpApi Webhooks Auth Accounts Rooms Mailboxes Portal Firewall Calls Stats Reload.

Open Scope str_scope.
Open Scope Z_scope.
Open Scope api_scope.

(** ** Start-up *)

(** The configured secret, or 32 random bytes in hexadecimal. *)
Definition resolve_jwt_secret (configured : str) : M str :=
  if Str.is_empty configured then random_hex 32 else mret configured.

Definition make_rate_limiter (requests window_secs : Z) : option RateLimiter :=
  if 0 <? requests then Some (limiter_new requests window_secs) else None.

(** ** Routes *)

(** Without a layer of their own. *)
Inductive PublicRoute :=
  | GetHealth
  | PostLogin (bd : LoginRequest)
  | PostTurnCredentials (username password : str)
  | GetTurnHealth
  | PostHistory (bd : MessageHistoryRequest)
  | GetMetrics
  | GetOpenApi.

(** Behind [require_jwt]. *)
Inductive JwtRoute :=
  | GetMe
  | PostChangePassword (bd : ChangePasswordRequest)
  | PostReload.

(** Behind [require_auth]. *)
Inductive ProtectedRoute :=
  | GetAccounts
  | PostAccounts (bd : CreateAccount)
  | PutAccount (id : Z) (bd : UpdateAccount)
  | DeleteAccount (id : Z)
  | GetRegistrations
  | DeleteRegistration (id : Z)
  | GetCalls (q : CallsQuery)
  | PostCalls (q : CallsQuery)
  | PostCallsCleanup (older_than_hours : option Z)
  | GetMessages (q : MessagesQuery)
  | GetStats
  | GetSecurityEvents (q : SecurityEventsQuery)
  | GetSecurityBlocks
  | PostUnblock (cidr : str)
  | GetSecuritySummary
  | GetSecurityRuntime
  | GetAcl
  | PostAcl (bd : CreateAclEntry)
  | PutAcl (id : Z) (bd : UpdateAclEntry)
  | DeleteAcl (id : Z)
  | GetAdmins
  | PostAdmins (bd : CreateAdminUser)
  | PutAdmin (id : Z) (password : option str)
  | DeleteAdmin (id : Z)
  | GetConferences
  | PostConferences (bd : CreateConferenceRoom)
  | PutConference (id : Z) (bd : UpdateConferenceRoom)
  | DeleteConference (id : Z)
  | GetParticipants (id : Z)
  | GetBoxes
  | PostBoxes (bd : CreateVoicemailBox)
  | PutBox (id : Z) (bd : UpdateVoicemailBox)
  | PostGreeting (id : Z) (form : list (option MultipartField)) (uuids : list str) (ft : FsFault)
  | GetGreeting (id : Z)
  | DeleteGreeting (id : Z)
  | GetVoicemails (q : ListMessagesQuery)
  | PutVoicemail (id : Z) (status : str)
  | DeleteVoicemail (id : Z)
  | GetVoicemailAudio (id : Z)
  | GetWebhooks
  | PostWebhooks (bd : CreateWebhook)
  | PutWebhook (id : Z) (bd : UpdateWebhook)
  | DeleteWebhook (id : Z)
  | GetDeliveries (q : DeliveryQuery)
  | PostRetryDelivery (id : Z).

Inductive Route :=
  | Public (r : PublicRoute)
  | JwtOnly (r : JwtRoute)
  | Protected (r : ProtectedRoute).

(** What a route answers. *)
Definition public_reply (r : PublicRoute) : Type :=
  match r with
  | GetHealth | GetMetrics | GetOpenApi => str
  | PostLogin _ => LoginResponse
  | PostTurnCredentials _ _ => TurnCredentials
  | GetTurnHealth => bool * list str * bool
  | PostHistory _ => list MessageRow * Z * Z
  end.

Definition jwt_reply (r : JwtRoute) : Type :=
  match r with
  | GetMe => str
  | PostChangePassword _ => unit
  | PostReload => Config
  end.

Definition protected_reply `{SqlDecimal} (r : ProtectedRoute) : Type :=
  match r with
  | GetAccounts => list (str * str * Account * option Z * Z)
  | PostAccounts _ | PostAcl _ | PostAdmins _ | PostConferences _ | PostBoxes _ | PostWebhooks _ => Z
  | PutAccount _ _ | DeleteAccount _ | DeleteRegistration _ | PostUnblock _ | PutAcl _ _
  | DeleteAcl _ | PutAdmin _ _ | DeleteAdmin _ | PutConference _ _ | DeleteConference _
  | PutBox _ _ | DeleteGreeting _ | PutVoicemail _ _ | DeleteVoicemail _ | PutWebhook _ _
  | DeleteWebhook _ | PostRetryDelivery _ => unit
  | GetRegistrations => list (str * str * Registration)
  | GetCalls _ => list (str * CallRow * Z) * Z * Z
  | PostCalls _ => str
  | GetStats => Stats
  | PostCallsCleanup _ => Z * Z
  | GetMessages _ => list MessageRow * Z * Z
  | GetSecurityEvents _ => list SecurityEventRow
  | GetSecurityBlocks | GetAcl => list AclEntry
  | GetSecuritySummary => Z * Z * Z * Z * Z
  | GetSecurityRuntime => Z * Z * Z * Z * Z * Z
  | GetAdmins => list AdminUser
  | GetConferences => list ConferenceRoomRow
  | GetParticipants _ => list (str * ConferenceParticipantRow)
  | GetBoxes => list (VoicemailBox * bool * Z * Z)
  | PostGreeting _ _ _ _ => str * Z
  | GetGreeting _ => list Z
  | GetVoicemails _ => list VoicemailMessage
  | GetVoicemailAudio _ => list Z * str
  | GetWebhooks => list Webhook
  | GetDeliveries _ => list Delivery
  end.

Definition route_reply `{SqlDecimal} (r : Route) : Type :=
  match r with
  | Public r => public_reply r
  | JwtOnly r => jwt_reply r
  | Protected r => protected_reply r
  end.

(** The state of the API server.  The secret of the tokens and the limits of the login guard are
    those of the start. *)
Record ApiState := {
  st_watcher : ConfigWatcher;
  st_limiter : option RateLimiter;
  st_world : World;
}.

Definition lift {A} (m : M A) (st : ApiState) : res A * ApiState :=
  let '(r, w) := m (st_world st) in (r, {| st_watcher := st_watcher st; st_limiter := st_limiter st; st_world := w |}).

(** A request: its route, its headers, and what [Config::load] would find now. *)
Record Request := {
  rq_route : Route;
  rq_headers : HeaderMap;
  rq_loaded : result Config;
}.

Section server.
Context (jwt_secret : str) (notifier : bool) (reg_id : str * str -> Z).
Context `{Digests, Bcrypt, BcryptHash, Jwt, TurnIo, IpNets, Csv, SqlDecimal}.
(** The texts that [api/metrics.rs] and [api/openapi.rs] print. *)
Context (metrics_text openapi_text : str).

Definition public_handler (cfg : Config) (hs : HeaderMap) (r : PublicRoute) : M (Api (public_reply r)) :=
  match r return M (Api (public_reply r)) with
  | GetHealth => mret (inl "OK")
  | PostLogin bd => login cfg jwt_secret hs bd
  | PostTurnCredentials u p => credentials cfg u p
  | GetTurnHealth => mret (inl (turn_health cfg))
  | PostHistory bd => history cfg bd
  | GetMetrics => mret (inl metrics_text)
  | GetOpenApi => mret (inl openapi_text)
  end.

Definition protected_handler (cfg : Config) (r : ProtectedRoute) : M (Api (protected_reply r)) :=
  match r return M (Api (protected_reply r)) with
  | GetAccounts => list_accounts
  | PostAccounts bd => create_account cfg bd
  | PutAccount id bd => update_account cfg id bd
  | DeleteAccount id => delete_account id
  | GetRegistrations => list_registrations
  | DeleteRegistration id => delete_registration reg_id id
  | GetCalls q => list_calls q
  | PostCalls q => export_calls q
  | PostCallsCleanup h => cleanup_calls h
  | GetMessages q => list_messages q
  | GetStats => get_stats
  | GetSecurityEvents q => list_events q
  | GetSecurityBlocks => list_blocks
  | PostUnblock cidr => unblock_cidr cidr
  | GetSecuritySummary => security_summary
  | GetSecurityRuntime => runtime_snapshot
  | GetAcl => list_rules
  | PostAcl bd => create_rule bd
  | PutAcl id bd => update_rule id bd
  | DeleteAcl id => delete_rule id
  | GetAdmins => list_admins
  | PostAdmins bd => create_admin bd
  | PutAdmin id pw => update_admin id pw
  | DeleteAdmin id => delete_admin id
  | GetConferences => list_rooms
  | PostConferences bd => create_room cfg bd
  | PutConference id bd => update_room id bd
  | DeleteConference id => delete_room id
  | GetParticipants id => list_participants id
  | GetBoxes => list_boxes
  | PostBoxes bd => create_box cfg bd
  | PutBox id bd => update_box id bd
  | PostGreeting id form uuids ft => upload_greeting cfg id form uuids ft
  | GetGreeting id => download_greeting cfg id
  | DeleteGreeting id => delete_greeting cfg id
  | GetVoicemails q => list_voicemails q
  | PutVoicemail id status => update_voicemail notifier id status
  | DeleteVoicemail id => delete_voicemail notifier id
  | GetVoicemailAudio id => download_voicemail cfg id
  | GetWebhooks => list_webhooks
  | PostWebhooks bd => create_webhook bd
  | PutWebhook id bd => update_webhook id bd
  | DeleteWebhook id => delete_webhook id
  | GetDeliveries q => list_deliveries q
  | PostRetryDelivery id => retry_delivery id
  end.

Definition admin_reload (loaded : result Config) (st : ApiState) : res (Api Config) * ApiState :=
  let '(r, cw) := reload_now loaded (st_watcher st) in
  (Val (match r with Ok cfg => inl cfg | Err e => inr (500, e) end),
   {| st_watcher := cw; st_limiter := st_limiter st; st_world := st_world st |}).

Definition jwt_handler (loaded : result Config) (hs : HeaderMap) (r : JwtRoute) (st : ApiState)
    : res (Api (jwt_reply r)) * ApiState :=
  match r return res (Api (jwt_reply r)) * ApiState with
  | GetMe => lift (jwt_route jwt_secret hs (fun claims => mret (inl (me claims)))) st
  | PostChangePassword bd => lift (jwt_route jwt_secret hs (fun claims => change_password claims bd)) st
  | PostReload =>
      match require_jwt jwt_secret (w_now (st_world st) / 1000000000) hs with
      | Some _ => admin_reload loaded st
      | None => (Val (inr (401, "")), st)
      end
  end.

(** The router behind the layers that all routes share. *)
Definition routed (rq : Request) (st : ApiState) : res (Api (route_reply (rq_route rq))) * ApiState :=
  let cfg := cw_inner (st_watcher st) in
  match rq_route rq as r return res (Api (route_reply r)) * ApiState with
  | Public r => lift (public_handler cfg (rq_headers rq) r) st
  | JwtOnly r => jwt_handler (rq_loaded rq) (rq_headers rq) r st
  | Protected r => lift (protected_route cfg jwt_secret (rq_headers rq) (protected_handler cfg r)) st
  end.

(** [req.extensions().get::<AppState>().and_then(|s| s.rate_limiter.clone())]: the state, with
    its [st_limiter], is given to the router with [with_state]; no layer puts it into the
    extensions of a request. *)
Definition limiter_of_request (rq : Request) (st : ApiState) : option RateLimiter := None.

(** [rate_limit_middleware], then the routes. *)
Definition serve (rq : Request) (st : ApiState) : res (Api (route_reply (rq_route rq))) * ApiState :=
  let '(admitted, _) := rate_limit_middleware (w_now (st_world st))
    (header_get "x-forwarded-for" (rq_headers rq)) (limiter_of_request rq st) in
  if admitted : bool then routed rq st else (Val (inr (429, "")), st).
End server.

(** ** Facts: what an anonymous client can do *)

(** A request without a valid token and without the configured key. *)
Definition anonymous `{Jwt} (jwt_secret : str) (rq : Request) (st : ApiState) : Prop :=
  require_auth (cw_inner (st_watcher st)) jwt_secret (w_now (st_world st) / 1000000000)
    (rq_headers rq) = false.

Definition is_public (r : Route) : bool := match r with Public _ => true | _ => false end.

(** The world but for the clock, the faults, the random bytes, the log of security events, the
    access list and what the login guard has counted. *)
Definition untouched (w : World) : World :=
  set_now 0 (set_faults [] (set_random [] (set_security_events [] (set_acl_rows []
    (set_auth_guard (guard_new (limits (w_auth_guard w))) w))))).

Lemma guard_limits_failure now s ip u g : limits (record_failure now s ip u g).2 = limits g.
Proof. unfold record_failure. repeat case_match; done. Qed.

Lemma untouched_guard g w :
  limits g = limits (w_auth_guard w) -> untouched (set_auth_guard g w) = untouched w.
Proof. intros Hg. unfold untouched. cbn [w_auth_guard set_auth_guard]. by rewrite Hg. Qed.

Lemma untouched_record_failure s ip u : moves (same untouched) (auth_guard_record_failure s ip u).
Proof.
  intros w. unfold auth_guard_record_failure, same.
  pose proof (guard_limits_failure (w_now w) s ip u (w_auth_guard w)) as Hl.
  destruct (record_failure _ _ _ _ _) as [b g]. by apply untouched_guard.
Qed.

Lemma untouched_is_blocked ip : moves (same untouched) (auth_guard_is_blocked ip).
Proof. intros w. unfold auth_guard_is_blocked, is_blocked, same. by apply untouched_guard. Qed.

Lemma untouched_record_success ip u : moves (same untouched) (auth_guard_record_success ip u).
Proof. intros w. unfold auth_guard_record_success, modify, same. apply untouched_guard. by destruct u. Qed.

#[export] Hint Resolve untouched_record_failure untouched_is_blocked untouched_record_success : untouched.

Section anonymous.
Context (jwt_secret : str) (notifier : bool) (reg_id : str * str -> Z).
Context `{!Digests, !Bcrypt, !BcryptHash, !Jwt, !TurnIo, !IpNets, !Csv, !SqlDecimal}.
Context (metrics_text openapi_text : str).

Abbreviation serve := (serve jwt_secret notifier reg_id metrics_text openapi_text).

Lemma login_untouched cfg hs bd : moves (same untouched) (login cfg jwt_secret hs bd).
Proof.
  unfold login, login_failed, login_succeeded, issue_token, api_err, verify_password,
    db_persist_event, db_persist_acl_ban.
  solve_api; auto with untouched.
Qed.

Lemma check_ha1_reads R `{!IoFrame R} u d c : moves R (check_ha1 u d c).
Proof.
  unfold check_ha1, stored_ha1, api_err. apply moves_api_bind.
  - apply moves_db. intros w. repeat case_match; done.
  - intros h. solve_api.
Qed.

(** What a route without a layer may touch. *)
Lemma public_untouched cfg hs r :
  moves (same untouched) (public_handler jwt_secret metrics_text openapi_text cfg hs r) /\
  moves denies_more (public_handler jwt_secret metrics_text openapi_text cfg hs r).
Proof.
  destruct r as [|bd|u p| |bd| |]; cbn [public_handler public_reply].
  all: try (split; apply moves_ret).
  - split; [apply login_untouched|apply login_denies].
  - unfold credentials, api_err, unix_secs. split.
    all: repeat case_match; try apply moves_ret; apply moves_api_bind; [apply check_ha1_reads; apply _|].
    all: intros _; apply moves_bind; [apply moves_gets|intros; apply moves_ret].
  - unfold history, verify_sip_credentials, api_err. split.
    all: case_match; [apply moves_ret|]; apply moves_api_bind; [apply check_ha1_reads; apply _|].
    all: intros _; apply moves_api_bind; [apply moves_ret|]; intros q.
    all: apply moves_api_bind; [apply moves_db, moves_gets|intros; apply moves_ret].
Qed.

(** A guarded route is closed to an anonymous request: 401, and nothing else happens. *)
Lemma guarded_closed rq st :
  anonymous jwt_secret rq st -> is_public (rq_route rq) = false ->
  serve rq st = (Val (inr (401, "")), st).
Proof.
  intros Ha Hp. destruct rq as [r hs l]. unfold anonymous in Ha. cbn [rq_headers rq_route] in *.
  assert (require_jwt jwt_secret (w_now (st_world st) / 1000000000) hs = None) as Hj.
  { unfold require_auth in Ha. apply orb_false_iff in Ha as [Ha _].
    apply bool_decide_eq_false in Ha. by apply eq_None_not_Some. }
  unfold Router.serve, routed.
  cbn [rate_limit_middleware limiter_of_request rq_route rq_headers rq_loaded].
  destruct r as [r|r|r]; [done|..].
  - destruct r; cbn [jwt_handler]; unfold lift; rewrite ?jwt_route_refused by done; try by destruct st.
    by rewrite Hj.
  - unfold lift. rewrite protected_route_refused by done. by destruct st.
Qed.

(** A client that never authenticates, and everything that happens outside the API in between
    to the clock, the failures and the random bytes. *)
Inductive anonymous_step (st : ApiState) : ApiState -> Prop :=
  | anonymous_request rq : anonymous jwt_secret rq st -> anonymous_step st (serve rq st).2
  | anonymous_time now faults rnd :
      anonymous_step st {| st_watcher := st_watcher st; st_limiter := st_limiter st;
        st_world := set_now now (set_faults faults (set_random rnd (st_world st))) |}.

Lemma anonymous_step_ok st st' :
  anonymous_step st st' ->
  untouched (st_world st') = untouched (st_world st) /\ denies_more (st_world st) (st_world st') /\
  st_watcher st' = st_watcher st /\ st_limiter st' = st_limiter st.
Proof.
  intros [rq Ha|now faults rnd]; [|split_and!; [done| |done..]; by split; eauto].
  destruct (is_public (rq_route rq)) eqn:Hp.
  2: { rewrite guarded_closed by done. split_and!; [done|split; eauto|done..]. }
  destruct rq as [[r|r|r] hs l]; [|done..]. unfold Router.serve, routed.
  cbn [rate_limit_middleware limiter_of_request rq_route rq_headers]. unfold lift.
  destruct (public_untouched (cw_inner (st_watcher st)) hs r) as [Hu Hd].
  specialize (Hu (st_world st)). specialize (Hd (st_world st)).
  destruct (public_handler _ _ _ _ _ _ _) as [a w]. by split_and!.
Qed.

(** ** Theorems *)

(** C21: without credentials nothing can be done.  Every route but the public ones answers a
    request without a valid token or key with 401 and has no effect; and however many requests
    such a client sends to any routes, over any time and with any failures, no account,
    administrator, registration, call, message, mailbox, file, room or webhook changes, the
    configuration and the limits stay, and the access list only gets deny rules, of failed
    logins. *)
Theorem anonymous_changes_nothing st st' :
  (forall rq, anonymous jwt_secret rq st -> is_public (rq_route rq) = false ->
     serve rq st = (Val (inr (401, "")), st)) /\
  (rtc anonymous_step st st' ->
   untouched (st_world st') = untouched (st_world st) /\ denies_more (st_world st) (st_world st') /\
   st_watcher st' = st_watcher st).
Proof.
  split; [intros; by apply guarded_closed|]. induction 1 as [st|x y z Hxy _ IH].
  - split_and!; [done|split; eauto|done].
  - destruct IH as (Hu & Hd & Hw). destruct (anonymous_step_ok x y Hxy) as (Hu' & Hd' & Hw' & _).
    split_and!; [by rewrite Hu|by etrans|by rewrite Hw].
Qed.

(** The rate limiter is never asked.  Whatever limit is configured and however many requests
    a client has sent, no request is refused with 429 by the limiter, every request reaches its
    route, and the limiter has counted nothing. *)
Theorem rate_limit_never_applies rq st :
  serve rq st = routed jwt_secret notifier reg_id metrics_text openapi_text rq st /\
  st_limiter (serve rq st).2 = st_limiter st.
Proof.
  split; [done|]. unfold Router.serve, routed. cbn [rate_limit_middleware limiter_of_request].
  destruct (rq_route rq) as [r|r|r]; [|destruct r; cbn [jwt_handler]|]; unfold lift; try by case_match.
  case_match; [|done]. unfold admin_reload. by case_match.
Qed.
End anonymous.

(** ** Examples *)

Definition guest_state : ApiState :=
  {| st_watcher := {| cw_inner := sample_config; cw_interval_secs := 60; cw_warnings := [] |};
     st_limiter := make_rate_limiter 1 60; st_world := portal_world |}.

Definition guest_request (r : Route) : Request :=
  {| rq_route := r; rq_headers := [("x-forwarded-for", "203.0.113.9")]; rq_loaded := Ok sample_config |}.

Definition toy_serve (rq : Request) (st : ApiState) :=
  @serve "k" true (fun _ => 0) toy_digests toy_bcrypt toy_bcrypt_hash toy_jwt toy_turn host_nets
    toy_csv toy_decimal "" "" rq st.

(** Deleting an account and guessing a password: refused, counted, and no account changes. *)
Definition guest_delete : Request := guest_request (Protected (DeleteAccount 1)).
Definition guest_login : Request :=
  guest_request (Public (PostLogin {| lr_username := "root"; lr_password := "guess" |})).

Lemma anonymous_changes_nothing_witness :
  let st' := (toy_serve guest_login (toy_serve guest_delete guest_state).2).2 in
  toy_serve guest_delete guest_state = (Val (inr (401, "")), guest_state) /\
  w_accounts (st_world st') = w_accounts portal_world /\ w_security_events (st_world st') <> [].
Proof.
  cbv zeta.
  destruct (@anonymous_changes_nothing "k" true (fun _ => 0) toy_digests toy_bcrypt toy_bcrypt_hash
    toy_jwt toy_turn host_nets toy_csv toy_decimal "" "" guest_state
    (toy_serve guest_login (toy_serve guest_delete guest_state).2).2) as [H1 H2].
  split; [|split].
  - apply (H1 guest_delete); vm_compute; reflexivity.
  - destruct H2 as [Hu _]; [|exact (f_equal w_accounts Hu)].
    eapply rtc_l; [apply (anonymous_request _ _ _ _ _ _ guest_delete); vm_compute; reflexivity|].
    eapply rtc_l; [apply (anonymous_request _ _ _ _ _ _ guest_login); vm_compute; reflexivity|].
    apply rtc_refl.
  - vm_compute. intros [=].
Defined.
