(* ===== verification/Metrics.v ===== *)
(** * Metrics: [backend/src/api/metrics.rs]

    The process-wide registry, the functions that write to it, what [/api/metrics] exports after
    any history of calls, and the places that keep a gauge: the rooms of conferences and the
    guards' blocks.

    Registries, counters and gauges are those of the prometheus crate, a parameter.  A collector
    is shared between the struct [Metrics] and the registry; here its name stands for it. *)

From S2P Require Import Prelude RustStr Net Message SecurityGuard Acl Storage Sdp Media World.
From S2P Require Import Forward Gateway NoAnswer Mwi Voicemail Presence ConferenceMedia Conference.
From S2P Require Import Registrar Frames Proxy Handler Server.

Open Scope str_scope.
Open Scope Z_scope.

(** [IntCounter], [IntGauge] and their vectors. *)
Inductive MetricKind := IntCounter | IntGauge | IntCounterVec | IntGaugeVec.

#[export] Instance MetricKind_eq_dec : EqDecision MetricKind.
Proof. solve_decision. Defined.

Record Collector := {
  mt_kind : MetricKind;
  mt_name : str;
  mt_help : str;
  mt_labels : list str;
}.

(** The crate.  [valid_opts] is whether a constructor accepts the name and the labels;
    [register] fails for a name that is taken; [sample r n ls] is the value exported for the
    series of [n] with the label values [ls]. *)
Class Prometheus := {
  PromRegistry : Type;
  registry_new : PromRegistry;
  valid_opts : str -> list str -> bool;
  register_collector : Collector -> PromRegistry -> option PromRegistry;
  registered : PromRegistry -> gset str;
  metric_inc : str -> list str -> PromRegistry -> PromRegistry;
  metric_set : str -> list str -> Z -> PromRegistry -> PromRegistry;
  sample : PromRegistry -> str -> list str -> option Z;
}.

(** ** The registry *)

Section registry.
Context `{Prometheus}.

(** [..::with_opts(..).expect(..)], then [registry.register(..).expect(..)]: [None] is a panic. *)
Definition make (kind : MetricKind) (name help : str) (labels : list str) : option Collector :=
  if valid_opts name labels
  then Some {| mt_kind := kind; mt_name := name; mt_help := help; mt_labels := labels |} else None.

Definition collectors : option (list Collector) := mapM id
  [make IntCounter "sip3_registrations_total" "Total REGISTER successes" [];
   make IntGauge "sip3_active_registrations" "Currently registered SIP users" [];
   make IntGauge "sip3_active_calls" "Calls currently in trying/answered state" [];
   make IntGaugeVec "sip3_conference_participants" "Active conference participants per room" ["room"];
   make IntCounterVec "sip3_auth_failures_total" "Auth failures and rejections by surface and event type"
     ["surface"; "event_type"];
   make IntGauge "sip3_auto_bans_active" "Number of IPs currently in active auto-ban state" [];
   make IntCounter "sip3_rate_limit_hits_total" "Number of requests rejected by API rate limiter" [];
   make IntGauge "sip3_email_outbox_pending" "Pending entries in the voicemail email outbox" [];
   make IntCounter "sip3_email_outbox_sent_total" "Total emails successfully sent by the outbox worker" [];
   make IntCounterVec "sip3_webhook_deliveries_total"
     "Webhook delivery outcomes (delivered / failed / dead)" ["status"];
   make IntGauge "sip3_rtp_relay_sessions_active" "RTP/SRTP relay sessions currently allocated" [];
   make IntCounter "sip3_config_reload_count" "Number of times the runtime config has been reloaded" []].

Definition build : option PromRegistry :=
  cs ← collectors; foldl (fun r c => r ≫= register_collector c) (Some registry_new) cs.

(** ** The functions the other modules call *)

Definition inc_registration := metric_inc "sip3_registrations_total" [].
Definition inc_auth_failure (surface event_type : str) :=
  metric_inc "sip3_auth_failures_total" [surface; event_type].
Definition inc_rate_limit_hit := metric_inc "sip3_rate_limit_hits_total" [].
Definition inc_webhook_delivery (status : str) := metric_inc "sip3_webhook_deliveries_total" [status].
Definition inc_config_reload := metric_inc "sip3_config_reload_count" [].
Definition set_conference_participants (room : str) := metric_set "sip3_conference_participants" [room].
Definition set_auto_bans_active := metric_set "sip3_auto_bans_active" [].
Definition set_active_registrations := metric_set "sip3_active_registrations" [].
Definition set_active_calls := metric_set "sip3_active_calls" [].
Definition set_email_outbox_pending := metric_set "sip3_email_outbox_pending" [].
Definition inc_email_outbox_sent := metric_inc "sip3_email_outbox_sent_total" [].
Definition set_rtp_relay_sessions_active := metric_set "sip3_rtp_relay_sessions_active" [].

(** ** Where gauges are kept *)

(** [self.blocks.len() as i64] *)
Definition block_count (g : SecurityGuard) : Z := Z.of_nat (size (blocks g)).

(** A call of a guard: [record_failure] sets the gauge when it blocks, [unblock] always. *)
Definition metered_guard (now : Z) (e : GuardEvent) (s : SecurityGuard * PromRegistry)
    : SecurityGuard * PromRegistry :=
  let '(g, r) := s in
  let g' := guard_step now e g in
  match e with
  | Failure sf ip u => (g', if (record_failure now sf ip u g).1 then set_auto_bans_active (block_count g') r else r)
  | Unblock ip => (g', set_auto_bans_active (block_count g') r)
  | _ => (g', r)
  end.
End registry.

(** ** What the crate promises *)

(** Names of lower-case letters, digits and underscores are valid, a fresh name can be
    registered and then exports 0 if it has no labels; incrementing and setting touch one
    series, of a registered collector. *)
Definition plain_name (s : str) : bool :=
  match s with
  | [] => false
  | c :: _ => negb (Str.is_digit c) && forallb (fun c => (97 <=? Str.code c) && (Str.code c <=? 122) || Str.is_digit c || bool_decide (c = "_"%char)) s
  end.

Class PrometheusLaws `{Prometheus} : Prop := {
  valid_plain name labels :
    plain_name name = true -> forallb plain_name labels = true -> valid_opts name labels = true;
  registered_new : registered registry_new = ∅;
  sample_new n ls : sample registry_new n ls = None;
  register_fresh c r :
    mt_name c ∉ registered r ->
    exists r', register_collector c r = Some r' /\ registered r' = {[mt_name c]} ∪ registered r /\
      forall n ls, sample r' n ls =
        if decide (n = mt_name c) then (if decide (mt_labels c = [] /\ ls = []) then Some 0 else None)
        else sample r n ls;
  registered_inc name ls r : registered (metric_inc name ls r) = registered r;
  registered_set name ls v r : registered (metric_set name ls v r) = registered r;
  sample_inc name ls r n ls' :
    name ∈ registered r -> sample (metric_inc name ls r) n ls' =
      if decide (n = name /\ ls' = ls) then Some (default 0 (sample r n ls') + 1) else sample r n ls';
  sample_set name ls v r n ls' :
    name ∈ registered r -> sample (metric_set name ls v r) n ls' =
      if decide (n = name /\ ls' = ls) then Some v else sample r n ls';
}.

(** ** Histories *)

(** The calls the source makes: [registrar.rs], [rate_limit.rs], [webhook_dispatcher.rs],
    [api/mod.rs], [conference_media.rs], [security_guard.rs] and [email_worker.rs] (twice). *)
Inductive Emission :=
  | Registered
  | RateLimitHit
  | WebhookOutcome (status : str)
  | Reloaded
  | Participants (room : str) (count : Z)
  | AutoBans (count : Z)
  | OutboxPending (count : Z)
  | OutboxSent.

Section facts.
Context `{PrometheusLaws}.

Definition emit (e : Emission) : PromRegistry -> PromRegistry :=
  match e with
  | Registered => inc_registration
  | RateLimitHit => inc_rate_limit_hit
  | WebhookOutcome s => inc_webhook_delivery s
  | Reloaded => inc_config_reload
  | Participants room n => set_conference_participants room n
  | AutoBans n => set_auto_bans_active n
  | OutboxPending n => set_email_outbox_pending n
  | OutboxSent => inc_email_outbox_sent
  end.

(** The series an emission writes, and the value it leaves there. *)
Definition target (e : Emission) : str * list str :=
  match e with
  | Registered => ("sip3_registrations_total", [])
  | RateLimitHit => ("sip3_rate_limit_hits_total", [])
  | WebhookOutcome s => ("sip3_webhook_deliveries_total", [s])
  | Reloaded => ("sip3_config_reload_count", [])
  | Participants room _ => ("sip3_conference_participants", [room])
  | AutoBans _ => ("sip3_auto_bans_active", [])
  | OutboxPending _ => ("sip3_email_outbox_pending", [])
  | OutboxSent => ("sip3_email_outbox_sent_total", [])
  end.

Definition written (e : Emission) (old : Z) : Z :=
  match e with
  | Participants _ n | AutoBans n | OutboxPending n => n
  | _ => old + 1
  end.

(** What is exported after a history, newest call first: for a counter the number of its calls,
    for a gauge the last value. *)
Fixpoint exported (series : str * list str) (h : list Emission) (initial : option Z) : option Z :=
  match h with
  | [] => initial
  | e :: h' =>
      let old := exported series h' initial in
      if decide (series = target e) then Some (written e (default 0 old)) else old
  end.

Definition scalar_names : list str :=
  ["sip3_registrations_total"; "sip3_active_registrations"; "sip3_active_calls"; "sip3_auto_bans_active";
   "sip3_rate_limit_hits_total"; "sip3_email_outbox_pending"; "sip3_email_outbox_sent_total";
   "sip3_rtp_relay_sessions_active"; "sip3_config_reload_count"].

Definition all_names : list str :=
  ["sip3_registrations_total"; "sip3_active_registrations"; "sip3_active_calls";
   "sip3_conference_participants"; "sip3_auth_failures_total"; "sip3_auto_bans_active";
   "sip3_rate_limit_hits_total"; "sip3_email_outbox_pending"; "sip3_email_outbox_sent_total";
   "sip3_webhook_deliveries_total"; "sip3_rtp_relay_sessions_active"; "sip3_config_reload_count"].

(** What a new registry exports. *)
Definition initially (series : str * list str) : option Z :=
  if decide (series.1 ∈ scalar_names /\ series.2 = []) then Some 0 else None.

Lemma register_all cs r :
  NoDup (map mt_name cs) -> Forall (fun c => mt_name c ∉ registered r) cs ->
  exists r', foldl (fun r c => r ≫= register_collector c) (Some r) cs = Some r' /\
    registered r' = list_to_set (map mt_name cs) ∪ registered r /\
    forall n ls, sample r' n ls =
      match find (fun c => bool_decide (mt_name c = n)) cs with
      | Some c => if decide (mt_labels c = [] /\ ls = []) then Some 0 else None
      | None => sample r n ls
      end.
Proof.
  revert r. induction cs as [|c cs IH]; intros r Hn Hf.
  { exists r. split_and!; [done|cbn; set_solver|done]. }
  cbn in Hn. apply NoDup_cons in Hn as [Hc Hn]. apply Forall_cons in Hf as [Hc' Hf].
  destruct (register_fresh c r Hc') as (r1 & E1 & R1 & S1). cbn [foldl mbind option_bind]. rewrite E1.
  destruct (IH r1 Hn) as (r2 & E2 & R2 & S2).
  { rewrite Forall_forall in Hf |- *. intros c' Hin. rewrite R1.
    intros [Heq%elem_of_singleton|?]%elem_of_union; [|by apply (Hf c')].
    apply Hc. rewrite <- Heq. by apply list_elem_of_fmap_2. }
  exists r2. split_and!; [done|rewrite R2, R1; cbn; set_solver|]. intros n ls. rewrite S2. cbn [find].
  case_bool_decide as Hcn.
  - subst n. destruct (find _ cs) as [c'|] eqn:E.
    + apply find_some in E as [Hin Heq]. apply bool_decide_eq_true in Heq. destruct Hc.
      rewrite <- Heq. apply list_elem_of_fmap_2. by apply list_elem_of_In.
    + rewrite S1. by rewrite decide_True.
  - destruct (find _ cs); [done|]. rewrite S1. by rewrite decide_False.
Qed.

Lemma make_ok kind name help labels :
  plain_name name = true -> forallb plain_name labels = true ->
  make kind name help labels =
    Some {| mt_kind := kind; mt_name := name; mt_help := help; mt_labels := labels |}.
Proof. intros Hn Hl. unfold make. by rewrite valid_plain. Qed.

Lemma scalar_known n : n ∈ scalar_names -> n ∈ all_names.
Proof.
  assert (Forall (fun n => n ∈ all_names) scalar_names) as Hf by (apply (bool_decide_unpack _); vm_compute; exact I).
  rewrite Forall_forall in Hf. apply Hf.
Qed.

(** The registry is built without a panic. *)
Lemma build_ok :
  exists r, build = Some r /\ registered r = list_to_set all_names /\
    forall n ls, sample r n ls = initially (n, ls).
Proof.
  unfold build, collectors. rewrite !make_ok by reflexivity. cbn [mapM id mbind option_bind mret option_ret].
  edestruct register_all as (r & -> & R & S); cycle 2.
  - exists r. split; [done|]. split; [by rewrite R, registered_new, union_empty_r_L|].
    intros n ls. rewrite S. unfold initially. cbn [fst snd].
    destruct (decide (n ∈ all_names)) as [Hn|Hn].
    + unfold all_names in Hn. clear R S. rewrite !elem_of_cons in Hn. destruct_or! Hn; try subst n; [destruct ls; vm_compute; reflexivity..|].
      by apply not_elem_of_nil in Hn.
    + rewrite decide_False by (intros [? _]; by apply Hn, scalar_known).
      cbn [find mt_name]. rewrite sample_new.
      repeat (case_bool_decide as E; [subst n; destruct Hn; apply (bool_decide_unpack _); vm_compute; exact I|clear E]).
      done.
  - apply (bool_decide_unpack _). vm_compute. exact I.
  - rewrite registered_new. apply Forall_true. set_solver.
Qed.

Lemma target_known e : (target e).1 ∈ (list_to_set all_names : gset str).
Proof. apply elem_of_list_to_set. destruct e; apply (bool_decide_unpack _); vm_compute; exact I. Qed.

Lemma emit_spec e r :
  registered r = list_to_set all_names ->
  registered (emit e r) = list_to_set all_names /\
  forall n ls, sample (emit e r) n ls =
    if decide ((n, ls) = target e) then Some (written e (default 0 (sample r n ls))) else sample r n ls.
Proof.
  intros Hr. pose proof (target_known e) as Hk. rewrite <- Hr in Hk.
  destruct e; cbn in Hk |- *; unfold inc_registration, inc_rate_limit_hit, inc_webhook_delivery,
    inc_config_reload, set_conference_participants, set_auto_bans_active, set_email_outbox_pending,
    inc_email_outbox_sent; (split; [by rewrite ?registered_inc, ?registered_set|]);
    intros n ls; rewrite ?sample_inc, ?sample_set by done; repeat case_decide; naive_solver.
Qed.

Lemma emissions_spec h r :
  registered r = list_to_set all_names ->
  registered (foldr emit r h) = list_to_set all_names /\
  forall n ls, sample (foldr emit r h) n ls = exported (n, ls) h (sample r n ls).
Proof.
  intros Hr. induction h as [|e h [IHr IHs]]; [done|]. cbn [foldr exported].
  destruct (emit_spec e _ IHr) as [Er Es]. split; [done|]. intros n ls. by rewrite Es, IHs.
Qed.

(** The series that no call of the source writes. *)
Definition unwritten (n : str) : bool :=
  bool_decide (n ∈ ["sip3_active_registrations"; "sip3_active_calls"; "sip3_rtp_relay_sessions_active";
                    "sip3_auth_failures_total"]).

Lemma unwritten_exported n ls h i : unwritten n = true -> exported (n, ls) h i = i.
Proof.
  intros Hn. induction h as [|e h IH]; [done|]. cbn. rewrite decide_False; [done|].
  intros E. apply (f_equal fst) in E. cbn in E. subst n. by destruct e.
Qed.

(** The exported metrics.  The registry is built without a panic, and after any history of
    the calls that the source makes [/api/metrics] exports for every series what the history
    says: counters their number of calls, gauges the last value.  The gauges of registrations,
    calls and relay sessions export 0 for ever, and authentication failures nothing, since no
    call writes them. *)
Theorem metrics_export_history h :
  exists r0, build = Some r0 /\ let r := foldr emit r0 h in
    (forall n ls, sample r n ls = exported (n, ls) h (initially (n, ls))) /\
    sample r "sip3_active_registrations" [] = Some 0 /\ sample r "sip3_active_calls" [] = Some 0 /\
    sample r "sip3_rtp_relay_sessions_active" [] = Some 0 /\
    forall ls, sample r "sip3_auth_failures_total" ls = None.
Proof.
  destruct build_ok as (r0 & E & R & S). exists r0. split; [done|]. intros r.
  destruct (emissions_spec h r0 R) as [_ Hs]. fold r in Hs.
  split; [intros n ls; by rewrite Hs, S|].
  split_and!; [..|intros ls]; by rewrite Hs, unwritten_exported, S by reflexivity.
Qed.

(** ** The gauge of a conference *)

Definition PARTICIPANTS : str := "sip3_conference_participants".

(** The calls of [set_conference_participants] in a history. *)
Definition participant_sets (h : list Emission) : list (str * Z) :=
  omap (fun e => match e with Participants room n => Some (room, n) | _ => None end) h.

(** The last value set for a key, 0 when there is none. *)
Definition last_set {K} `{EqDecision K} (k : K) (l : list (K * Z)) : Z :=
  from_option snd 0 (find_first (fun g => bool_decide (g.1 = k)) l).

(** What is exported for a room is what was set last. *)
Lemma exported_participants h room :
  default 0 (exported (PARTICIPANTS, [room]) h (initially (PARTICIPANTS, [room]))) =
    last_set room (participant_sets h).
Proof.
  unfold last_set, participant_sets. induction h as [|e h IH]; [done|]. cbn [exported omap list_omap].
  case_decide as E; destruct e; try discriminate E; cbn [target] in E; try exact IH.
  - injection E as ->. cbn. by rewrite bool_decide_eq_true_2.
  - cbn. rewrite bool_decide_eq_false_2; [exact IH|]. intros <-. by apply E.
Qed.

Lemma show_dec_inj n m : 0 <= n -> 0 <= m -> Str.show_dec n = Str.show_dec m -> n = m.
Proof.
  intros Hn Hm E. apply (f_equal (Str.parse_digits 10 0)) in E.
  rewrite !parse_digits_show_dec in E by done. by injection E.
Qed.

(** Room ids are unsigned, so their texts tell them apart. *)
Lemma last_set_text room_id l :
  0 <= room_id -> Forall (fun g => 0 <= g.1) l ->
  last_set (Str.show_dec room_id) (map (fun g => (Str.show_dec g.1, g.2)) l) = last_set room_id l.
Proof.
  intros Hr. unfold last_set. induction 1 as [|[i n] l Hi _ IH]; [done|]. cbn in *.
  destruct (decide (i = room_id)) as [->|Hne].
  - by rewrite !bool_decide_eq_true_2.
  - rewrite !bool_decide_eq_false_2; [exact IH|done|]. intros E. by apply Hne, show_dec_inj.
Qed.

(** The gauge of every room is its size. *)
Definition gauge_ok (w : World) : Prop :=
  forall room_id, last_set room_id (w_participants_gauge w) = room_size room_id w.

Definition keeps_gauge : relation World := fun w w' => gauge_ok w -> gauge_ok w'.

#[local] Instance keeps_gauge_io : IoFrame keeps_gauge.
Proof.
  split; [split|by intros ???..]; [by intros ??|]. intros x y z Hxy Hyz Hx. by apply Hyz, Hxy.
Qed.

Definition room_state (w : World) := (w_conf_media w, w_participants_gauge w).

Lemma gauge_same {A} (m : M A) : moves (same room_state) m -> moves keeps_gauge m.
Proof.
  intros Hm w Hw i. specialize (Hm w). unfold same, room_state in Hm. injection Hm as H1 H2.
  unfold room_size. rewrite H1, H2. apply Hw.
Qed.

(** A step that sets the gauge of the one room it changes to its size. *)
Lemma gauge_set_ok room_id w w' :
  gauge_ok w -> (forall i, i <> room_id -> w_conf_media w' !! i = w_conf_media w !! i) ->
  w_participants_gauge w' = (room_id, room_size room_id w') :: w_participants_gauge w -> gauge_ok w'.
Proof.
  intros Hw Ho Hg i. rewrite Hg. unfold last_set. cbn [find_first fst]. destruct (decide (i = room_id)) as [->|Hi].
  - by rewrite bool_decide_eq_true_2.
  - rewrite bool_decide_eq_false_2 by done. unfold room_size. rewrite Ho by done. apply Hw.
Qed.

(** A step that changes participants but neither comes nor goes. *)
Lemma gauge_sizes {A} (m : M A) :
  (forall w, w_participants_gauge (m w).2 = w_participants_gauge w /\
             forall i, room_size i (m w).2 = room_size i w) -> moves keeps_gauge m.
Proof. intros Hm w Hw i. destruct (Hm w) as [-> ->]. apply Hw. Qed.

Lemma add_participant_gauge room_id cid p port :
  moves keeps_gauge (_ ← add_participant room_id cid p;
                     _ ← modify (fun w => gauge_set room_id (room_size room_id w) w); mret (port : Z)).
Proof.
  intros w Hw. apply (gauge_set_ok room_id w); [done| |done]. intros i Hi.
  by apply lookup_insert_ne.
Qed.

Lemma join_gauge cfg room_id cid c apt te : moves keeps_gauge (join cfg room_id cid c apt te).
Proof.
  unfold join. apply moves_bind; [apply gauge_same; solve_frame|]. intros port.
  do 3 (apply moves_bind; [apply gauge_same; solve_frame|]; intros ?). apply add_participant_gauge.
Qed.

Lemma leave_gauge room_id cid : moves keeps_gauge (leave room_id cid).
Proof.
  intros w Hw. unfold leave, modify. cbn [snd]. destruct (w_conf_media w !! room_id) as [room|] eqn:E; [|done].
  case_bool_decide as He; (apply (gauge_set_ok room_id w); [done|intros i Hi|]); cbn.
  - by apply lookup_delete_ne.
  - unfold room_size. cbn. by rewrite lookup_delete_eq.
  - by apply lookup_insert_ne.
  - unfold room_size. cbn. by rewrite lookup_insert_eq.
Qed.

(** Writing one participant of a room. *)
Lemma room_size_alter (room_id : Z) (f : gmap str Participant -> gmap str Participant) w i :
  (forall room, w_conf_media w !! room_id = Some room -> size (f room) = size room) ->
  room_size i (set_conf_media (alter f room_id (w_conf_media w)) w) = room_size i w.
Proof.
  intros Hf. unfold room_size. cbn. destruct (decide (i = room_id)) as [->|Hi].
  - rewrite lookup_alter_eq. destruct (w_conf_media w !! room_id) as [room|]; [|done]. cbn.
    by rewrite Hf.
  - by rewrite lookup_alter_ne.
Qed.

Lemma size_overwrite (room : gmap str Participant) cid p p' :
  room !! cid = Some p -> size (<[cid := p']> room) = size room.
Proof. intros Hp. by rewrite map_size_insert_Some. Qed.

Lemma set_muted_gauge room_id cid m : moves keeps_gauge (set_muted room_id cid m).
Proof.
  apply gauge_sizes. intros w. unfold set_muted. destruct (_ ≫= _) as [p|] eqn:E; [|done].
  split; [done|]. intros i. cbn [snd]. apply room_size_alter. intros room Hr. rewrite Hr in E.
  by eapply size_overwrite.
Qed.

Lemma dtmf_gauge room_id cid event : moves keeps_gauge (record_dtmf_for room_id cid event).
Proof.
  apply gauge_sizes. intros w. unfold record_dtmf_for. destruct (_ ≫= _) as [p|] eqn:E; [|done].
  destruct (record_dtmf _ _ _) as [t p']. split; [done|]. intros i. cbn [snd].
  apply room_size_alter. intros room Hr. rewrite Hr in E. by eapply size_overwrite.
Qed.

Section server_gauge.
Context (cfg : Config) (secret : str) `{!Digests, !HeaderOrder, !Bcrypt, !WebRtc, !IpNets}.

Ltac solve_gauge :=
  repeat first
    [ match goal with |- forall _, _ => intro end
    | simple apply join_gauge | simple apply leave_gauge | simple apply dtmf_gauge
    | solve [apply gauge_same; solve_frame]
    | simple apply moves_bind | simple apply moves_ignore | simple apply moves_attempt
    | simple apply moves_query
    | match goal with |- moves _ (match ?x with _ => _ end) => destruct x end ].

Lemma conf_invite_gauge msg src room_id max :
  moves keeps_gauge (conf_handle_invite cfg msg src room_id max).
Proof. unfold conf_handle_invite, admit_participant. cbv zeta. solve_gauge. Qed.

Lemma conf_bye_gauge msg : moves keeps_gauge (conf_handle_bye msg).
Proof. unfold conf_handle_bye. cbv zeta. solve_gauge. Qed.

Lemma conf_info_gauge msg : moves keeps_gauge (conf_handle_info msg).
Proof. unfold conf_handle_info, parse_dtmf_relay_for_star6. cbv zeta. solve_gauge. Qed.

Lemma generic_gauge msg mth src : moves keeps_gauge (process_generic cfg secret msg mth src).
Proof.
  apply generic_moves; [typeclasses eauto|apply gauge_same; solve_frame|].
  intros m. unfold generic_handler. repeat case_bool_decide; intros [= <-].
  all: apply gauge_same; solve [solve_frame].
Qed.

Lemma process_gauge text src : moves keeps_gauge (process_sip_msg cfg secret text src).
Proof.
  unfold process_sip_msg. destruct (parse text) as [msg|]; [|apply moves_ret].
  destruct (method msg) as [mth|]; [|apply gauge_same; solve_frame].
  apply request_moves; [typeclasses eauto|..|apply generic_gauge].
  - apply gauge_same. solve_frame.
  - apply gauge_same. solve_frame.
  - intros m Hm. eapply in_call_moves; [typeclasses eauto|exact Hm|..]; apply gauge_same; solve_frame.
  - intros. apply conf_invite_gauge.
  - intros m Hm. eapply in_call_moves; [typeclasses eauto|exact Hm|apply moves_ret|..];
      auto using conf_bye_gauge, conf_info_gauge.
Qed.

Lemma server_step_gauge s s' :
  server_step cfg secret s s' -> gauge_ok (sv_world s) -> gauge_ok (sv_world s').
Proof.
  intros Hs. assert (forall A (m : M A) w, moves keeps_gauge m -> gauge_ok w ->
    gauge_ok (m w).2) as Hm by (intros A m w H' Hw; by apply H').
  destruct Hs; cbn [sv_world]; intros Hw; try done;
    try (apply Hm; [apply gauge_same; solve [solve_frame]|exact Hw]).
  - apply Hm; [|done]. unfold receive. destruct (negb _); [apply moves_ret|].
    destruct (negb _); [apply moves_ret|]. apply moves_ignore. unfold handle_datagram.
    apply moves_bind; [apply process_gauge|]. intros [resp|]; [|apply moves_ret].
    apply gauge_same. solve_frame.
  - apply Hm; [apply process_gauge|done].
  - assert (moves keeps_gauge (reload_acl acl)) as Hr by (apply gauge_same; solve_frame).
    specialize (Hr w). match goal with E : reload_acl _ _ = _ |- _ => rewrite E in Hr end. by apply Hr.
Qed.

(** The steps of the server, and the work on the rooms beside them: the receive tasks (packets,
    and the lock of the frame they write) and the mixer of every room, and the call that mutes a
    participant.  These are all the methods of
    [ConferenceMedia] and its tasks but [shutdown_all], which nothing calls. *)
Inductive room_step : Server -> Server -> Prop :=
  | room_server s s' : server_step cfg secret s s' -> room_step s s'
  | room_packet acl room_id cid src packet w :
      room_step (Build_Server w acl) (Build_Server (set_conf_media
        (alter (alter (conf_receive (w_now w) src packet) cid) room_id (w_conf_media w)) w) acl)
  | room_tick acl room_id w :
      room_step (Build_Server w acl) (Build_Server (set_conf_media
        (alter (fun room => (mixer_tick room).2) room_id (w_conf_media w)) w) acl)
  | room_lock acl room_id cid b w :
      room_step (Build_Server w acl) (Build_Server (set_conf_media
        (alter (alter (with_lock b) cid) room_id (w_conf_media w)) w) acl)
  | room_mute acl room_id cid m w :
      room_step (Build_Server w acl) (Build_Server (set_muted room_id cid m w).2 acl).

Lemma room_step_gauge s s' : room_step s s' -> gauge_ok (sv_world s) -> gauge_ok (sv_world s').
Proof.
  destruct 1 as [s s' Hs|acl i cid src packet w|acl i w|acl i cid b w|acl i cid m w]; cbn [sv_world]; intros Hw.
  - by eapply server_step_gauge.
  - intros j. rewrite room_size_alter; [apply Hw|]. intros room _.
    rewrite <-!size_dom. f_equal. apply dom_alter_L.
  - intros j. rewrite room_size_alter; [apply Hw|]. intros room _. apply map_size_fmap.
  - intros j. rewrite room_size_alter; [apply Hw|]. intros room _.
    rewrite <-!size_dom. f_equal. apply dom_alter_L.
  - by apply set_muted_gauge.
Qed.
End server_gauge.

(** C35: the gauge of a conference is exact.  From the start of the process, through any
    sequence of steps of the server (messages, timers, clean-ups, failures), RTP packets, mixer
    ticks and mutings, one at a time, and whatever other metrics are written in between,
    [/api/metrics] exports for every room the number of participants that are in it, 0 when it
    is closed.  ([shutdown_all], which nothing calls, would leave the gauge behind:
    [shutdown_leaves_gauge].) *)
Theorem participants_gauge_exact cfg secret `{!Digests, !HeaderOrder, !Bcrypt, !WebRtc, !IpNets} s s' h :
  w_conf_media (sv_world s) = ∅ -> w_participants_gauge (sv_world s) = [] ->
  rtc (room_step cfg secret) s s' ->
  Forall (fun g => 0 <= g.1) (w_participants_gauge (sv_world s')) ->
  participant_sets h = map (fun g => (Str.show_dec g.1, g.2)) (w_participants_gauge (sv_world s')) ->
  exists r0, build = Some r0 /\ forall room_id, 0 <= room_id ->
    default 0 (sample (foldr emit r0 h) PARTICIPANTS [Str.show_dec room_id]) =
      room_size room_id (sv_world s').
Proof.
  intros Hrooms Hlog Hs Hids Hh. destruct build_ok as (r0 & E & R & S). exists r0. split; [done|].
  assert (gauge_ok (sv_world s')) as Hg.
  { assert (gauge_ok (sv_world s)) as Hstart.
    { intros i. rewrite Hlog. unfold room_size. by rewrite Hrooms, lookup_empty. }
    clear -Hs Hstart. induction Hs as [|s1 s2 s3 H12 _ IH]; [done|]. by eapply IH, room_step_gauge. }
  intros i Hi. destruct (emissions_spec h r0 R) as [_ ->]. rewrite S, exported_participants, Hh.
  rewrite last_set_text by done. apply Hg.
Qed.

(** Draining the rooms does not write the gauge. *)
Theorem shutdown_leaves_gauge room_id w :
  gauge_ok w -> room_size room_id w <> 0 ->
  let w' := (shutdown_all w).2 in
  room_size room_id w' = 0 /\ last_set room_id (w_participants_gauge w') = room_size room_id w /\
  ~ gauge_ok w'.
Proof.
  intros Hw Hn w'. assert (room_size room_id w' = 0) as Hz by (unfold room_size; cbn; by rewrite lookup_empty).
  split_and!; [done|apply Hw|]. intros Hw'. apply Hn. rewrite <-Hz, <-Hw'. symmetry. apply Hw.
Qed.

(** ** The gauge of blocks *)

(** When a guard writes the gauge, it is the number of its blocks. *)
Lemma bans_gauge_written now e g r :
  "sip3_auto_bans_active" ∈ registered r ->
  (metered_guard now e (g, r)).2 <> r ->
  sample (metered_guard now e (g, r)).2 "sip3_auto_bans_active" [] =
    Some (block_count (metered_guard now e (g, r)).1).
Proof.
  intros Hk Hne. unfold metered_guard in *. unfold set_auto_bans_active in *.
  destruct e; cbn [fst snd] in *; try done; [destruct (record_failure _ _ _ _ _).1; [|done]|];
    rewrite sample_set by done; by rewrite decide_True.
Qed.

(** Blocks that are over stay in the gauge: looking up addresses and listing the blocks drop
    them from the guard but do not write it. *)
Theorem expired_bans_stay_counted now es g r :
  Forall (fun e => match e with CheckBlocked _ | ListBlocks => True | _ => False end) es ->
  map_Forall (fun _ b => ab_until b <= now) (blocks g) -> es <> [] ->
  let s := foldl (fun s e => metered_guard now e s) (g, r) es in
  block_count s.1 = 0 /\ s.2 = r.
Proof.
  intros He Hb Hne. destruct es as [|e es]; [done|]. clear Hne. revert g Hb e He.
  induction es as [|e' es IH]; intros g Hb e [He Hes]%Forall_cons.
  all: assert (filter (fun kb : str * ActiveBlock => now < ab_until kb.2) (blocks g) = ∅) as Hf
    by (apply map_empty; intros k; apply map_lookup_filter_None; right; intros b Hk; apply Hb in Hk; cbn in *; lia).
  - unfold block_count. destruct e; try done; cbn; by rewrite Hf, map_size_empty.
  - destruct e; try done; apply IH; try done; cbn; rewrite Hf; apply map_Forall_empty.
Qed.
End facts.

(** ** On a registry *)

(** The names and the series. *)
Definition toy_prometheus : Prometheus := {|
  PromRegistry := gset str * gmap (str * list str) Z;
  registry_new := (∅, ∅);
  valid_opts name labels := plain_name name && forallb plain_name labels;
  register_collector c r :=
    if decide (mt_name c ∈ r.1) then None
    else Some ({[mt_name c]} ∪ r.1,
      let fresh := filter (fun kv => kv.1.1 <> mt_name c) r.2 in
      if decide (mt_labels c = []) then <[(mt_name c, []) := 0]> fresh else fresh);
  registered r := r.1;
  metric_inc name ls r := (r.1, <[(name, ls) := default 0 (r.2 !! (name, ls)) + 1]> r.2);
  metric_set name ls v r := (r.1, <[(name, ls) := v]> r.2);
  sample r n ls := r.2 !! (n, ls) |}.

Lemma toy_register (m : gmap (str * list str) Z) name labels n ls :
  (let fresh := filter (fun kv : str * list str * Z => kv.1.1 <> name) m in
   if decide (labels = []) then <[(name, []) := 0]> fresh else fresh) !! (n, ls) =
  if decide (n = name) then (if decide (labels = ([] : list str) /\ ls = []) then Some 0 else None)
  else m !! (n, ls).
Proof.
  assert (filter (fun kv : str * list str * Z => kv.1.1 <> name) m !! (n, ls) =
          if decide (n = name) then None else m !! (n, ls)) as Hf.
  { case_decide as Hn.
    - apply map_lookup_filter_None. right. intros v _ Hne. by apply Hne.
    - destruct (m !! (n, ls)) as [v|] eqn:E.
      + by apply map_lookup_filter_Some.
      + apply map_lookup_filter_None. by left. }
  cbn zeta. destruct (decide (labels = [])) as [Hl|Hl].
  - destruct (decide ((n, ls) = (name, []))) as [E|E].
    + injection E as -> ->. rewrite lookup_insert_eq, !decide_True by done. done.
    + rewrite lookup_insert_ne by done. rewrite Hf. repeat case_decide; naive_solver.
  - rewrite Hf. repeat case_decide; naive_solver.
Qed.

Lemma toy_prometheus_laws : @PrometheusLaws toy_prometheus.
Proof.
  split; cbn.
  - intros name labels -> ->. done.
  - done.
  - intros. apply lookup_empty.
  - intros c r Hc. rewrite decide_False by done. eexists. split; [done|]. split; [done|].
    intros n ls. apply toy_register.
  - done.
  - done.
  - intros name ls r n ls' _. case_decide as E.
    + destruct E as [-> ->]. by rewrite lookup_insert_eq.
    + rewrite lookup_insert_ne; [done|naive_solver].
  - intros name ls v r n ls' _. case_decide as E.
    + destruct E as [-> ->]. by rewrite lookup_insert_eq.
    + rewrite lookup_insert_ne; [done|naive_solver].
Qed.

(** Alice calls a room: the gauge is 1. *)
#[local] Existing Instance host_nets.

Definition rooms_server : Server :=
  {| sv_world := set_conf_rooms [{| cr_id := 7; cr_extension := "900000000";
       cr_domain := "sip.example.com"; cr_name := "Team"; cr_enabled := 1; cr_max_participants := 2;
       cr_pin_hash := None |}] sample_world;
     sv_acl := checker_new PolicyAllow |}.

Definition room_call : str := render
  "INVITE sip:900000000@sip.example.com SIP/2.0"
  [("From", "<sip:alice@sip.example.com>;tag=1"); ("To", "<sip:900000000@sip.example.com>");
   ("Call-ID", "c1"); ("CSeq", "1 INVITE")]
  (Str.terminated ["v=0"; "c=IN IP4 198.51.100.7"; "m=audio 4000 RTP/AVP 0"]).

Definition called_world : World :=
  (@handle_tcp_msg sample_config "s3cret" toy_digests list_order toy_bcrypt toy_webrtc room_call sample_src
     (sv_world rooms_server)).2.

Lemma participants_gauge_exact_witness :
  exists r0, @build toy_prometheus = Some r0 /\
    default 0 (@sample toy_prometheus (@emit toy_prometheus (Participants "7" 1) r0) PARTICIPANTS ["7"]) =
      room_size 7 called_world /\ room_size 7 called_world = 1.
Proof.
  destruct (@participants_gauge_exact toy_prometheus toy_prometheus_laws sample_config "s3cret"
    toy_digests list_order toy_bcrypt toy_webrtc host_nets rooms_server
    (Build_Server called_world (sv_acl rooms_server)) [Participants "7" 1]) as (r0 & E & Hg).
  - reflexivity.
  - reflexivity.
  - apply rtc_once, room_server, step_stream.
  - vm_compute. repeat constructor; discriminate.
  - vm_compute. reflexivity.
  - exists r0. split; [exact E|]. split; [apply (Hg 7); lia|vm_compute; reflexivity].
Defined.

Lemma metrics_export_history_witness :
  exists r0, @build toy_prometheus = Some r0 /\
    @sample toy_prometheus (foldr emit r0 [Registered; AutoBans 2; Registered; AutoBans 5])
      "sip3_registrations_total" [] = Some 2 /\
    @sample toy_prometheus (foldr emit r0 [Registered; AutoBans 2; Registered; AutoBans 5])
      "sip3_auto_bans_active" [] = Some 2.
Proof.
  destruct (@metrics_export_history toy_prometheus toy_prometheus_laws
    [Registered; AutoBans 2; Registered; AutoBans 5]) as (r0 & E & Hs & _).
  exists r0. split; [exact E|]. rewrite !Hs. split; reflexivity.
Defined.

(** The registrar, the INVITE guard and the login guard of the API write one gauge: with a block
    in each of two guards it exports 1. *)
Example guards_share_a_gauge :
  let one := {| window_secs := 60; ip_fail_threshold := 1; user_ip_fail_threshold := 1; block_secs := 60 |} in
  (r0 ← @build toy_prometheus;
   let '(g1, r1) := @metered_guard toy_prometheus 0 (Failure SipInvite "192.0.2.1" None) (guard_new one, r0) in
   let '(g2, r2) := @metered_guard toy_prometheus 0 (Failure ApiLogin "192.0.2.2" None) (guard_new one, r1) in
   Some (block_count g1 + block_count g2, @sample toy_prometheus r2 "sip3_auto_bans_active" [])) =
  Some (2, Some 1).
Proof. vm_compute. reflexivity. Qed.
