(* ===== verification/OpenApi.v ===== *)
(** * The API description: [backend/src/api/openapi.rs]

    The document served at [/api/openapi.json] and what it says of the routes of
    [backend/src/api/mod.rs].  The part that the utoipa crate derives, and JSON, are a
    parameter. *)

From S2P Require Import Prelude RustStr Net Message SecurityGuard Acl RateLimit Storage Sdp Media World.
From S2P Require Import Voicemail HttpApi Webhooks Auth Accounts Rooms Mailboxes Portal Firewall Calls Stats Reload Router.

Open Scope str_scope.
Open Scope Z_scope.

(** ** The document *)

Record Operation := {
  op_summary : str;
  op_responses : list (str * str);
}.

(** The objects [components.securitySchemes] and [paths]. *)
Record OpenApiDoc := {
  security_schemes : gmap str (list (str * str));
  doc_paths : gmap str (gmap str Operation);
}.

Definition inventory : list (str * str * list str) :=
  [("/api/health", "Health check", ["get"]);
   ("/api/auth/login", "Admin login", ["post"]);
   ("/api/auth/me", "Current admin user", ["get"]);
   ("/api/auth/change-password", "Change admin password", ["post"]);
   ("/api/accounts", "List / create SIP accounts", ["get"; "post"]);
   ("/api/accounts/{id}", "Update / delete SIP account", ["put"; "delete"]);
   ("/api/registrations", "List / delete registrations", ["get"; "delete"]);
   ("/api/calls", "List / export call detail records", ["get"]);
   ("/api/calls/cleanup", "Close stale active calls", ["post"]);
   ("/api/messages", "List persisted SIP MESSAGE records", ["get"]);
   ("/api/messages/history", "Phone message history (SIP auth)", ["post"]);
   ("/api/stats", "Dashboard statistics", ["get"]);
   ("/api/security/events", "Security event timeline", ["get"]);
   ("/api/security/blocks", "Active auto-ban ACL entries", ["get"]);
   ("/api/security/blocks/unblock", "Disable one auto-ban entry", ["post"]);
   ("/api/security/summary", "Security summary", ["get"]);
   ("/api/security/runtime", "Runtime troubleshooting snapshot", ["get"]);
   ("/api/acl", "List / create IP ACL rules", ["get"; "post"]);
   ("/api/acl/{id}", "Update / delete IP ACL rule", ["put"; "delete"]);
   ("/api/admin/users", "List / create admin users", ["get"; "post"]);
   ("/api/admin/users/{id}", "Update / delete admin user", ["put"; "delete"]);
   ("/api/conferences", "List / create conference rooms", ["get"; "post"]);
   ("/api/conferences/{id}", "Update / delete conference room", ["put"; "delete"]);
   ("/api/conferences/{id}/participants", "List active conference participants", ["get"]);
   ("/api/voicemail/boxes", "List / create voicemail mailboxes", ["get"; "post"]);
   ("/api/voicemail/boxes/{id}", "Update voicemail mailbox", ["put"]);
   ("/api/voicemail/messages", "List voicemail messages", ["get"]);
   ("/api/voicemail/messages/{id}", "Update or soft-delete a message", ["put"; "delete"]);
   ("/api/voicemail/messages/{id}/download", "Download message WAV audio", ["get"]);
   ("/api/turn/credentials", "TURN creds (SIP HA1 auth)", ["post"]);
   ("/api/turn/health", "TURN server reachability", ["get"]);
   ("/api/metrics", "Prometheus exposition", ["get"])].

Definition operation (summary : str) : Operation :=
  {| op_summary := summary;
     op_responses := [("200", "OK"); ("401", "Unauthorized"); ("403", "Forbidden")] |}.

(** [paths.entry(path).or_insert_with(..)], then [path_item.insert(method, ..)] for each method. *)
Definition add_path (paths : gmap str (gmap str Operation)) (entry : str * str * list str)
    : gmap str (gmap str Operation) :=
  let '(path, summary, methods) := entry in
  <[path := foldl (fun item method => <[method := operation summary]> item)
              (default ∅ (paths !! path)) methods]> paths.

(** [derived] is what [ApiDoc::openapi()] has. *)
Definition openapi_json (derived : OpenApiDoc) : OpenApiDoc :=
  {| security_schemes :=
       {[ "bearer_jwt" := [("type", "http"); ("scheme", "bearer"); ("bearerFormat", "JWT")];
          "api_key" := [("type", "apiKey"); ("in", "header"); ("name", "X-Api-Key")] ]};
     doc_paths := foldl add_path (doc_paths derived) inventory |}.

Definition documented (doc : OpenApiDoc) (path method : str) : bool :=
  bool_decide (is_Some (doc_paths doc !! path ≫= (.!! method))).

(** ** The routes *)

Definition public_table : list (str * list str) :=
  [("/api/health", ["get"]);
   ("/api/auth/login", ["post"]);
   ("/api/turn/credentials", ["post"]);
   ("/api/turn/health", ["get"]);
   ("/api/messages/history", ["post"]);
   ("/api/metrics", ["get"]);
   ("/api/openapi.json", ["get"])].

Definition jwt_table : list (str * list str) :=
  [("/api/auth/me", ["get"]);
   ("/api/auth/change-password", ["post"]);
   ("/api/admin/reload", ["post"])].

Definition protected_table : list (str * list str) :=
  [("/api/accounts", ["get"; "post"]);
   ("/api/accounts/:id", ["put"; "delete"]);
   ("/api/registrations", ["get"]);
   ("/api/registrations/:id", ["delete"]);
   ("/api/calls", ["get"; "post"]);
   ("/api/calls/cleanup", ["post"]);
   ("/api/messages", ["get"]);
   ("/api/stats", ["get"]);
   ("/api/security/events", ["get"]);
   ("/api/security/blocks", ["get"]);
   ("/api/security/blocks/unblock", ["post"]);
   ("/api/security/summary", ["get"]);
   ("/api/security/runtime", ["get"]);
   ("/api/acl", ["get"; "post"]);
   ("/api/acl/:id", ["put"; "delete"]);
   ("/api/admin/users", ["get"; "post"]);
   ("/api/admin/users/:id", ["put"; "delete"]);
   ("/api/conferences", ["get"; "post"]);
   ("/api/conferences/:id", ["put"; "delete"]);
   ("/api/conferences/:id/participants", ["get"]);
   ("/api/voicemail/boxes", ["get"; "post"]);
   ("/api/voicemail/boxes/:id", ["put"]);
   ("/api/voicemail/boxes/:id/greeting", ["post"; "get"; "delete"]);
   ("/api/voicemail/messages", ["get"]);
   ("/api/voicemail/messages/:id", ["put"; "delete"]);
   ("/api/voicemail/messages/:id/download", ["get"]);
   ("/api/webhooks", ["get"; "post"]);
   ("/api/webhooks/:id", ["put"; "delete"]);
   ("/api/webhooks/deliveries", ["get"]);
   ("/api/webhooks/deliveries/:id/retry", ["post"])].

Definition route_table : list (str * list str) := public_table ++ jwt_table ++ protected_table.

(** The entry of a route: its path and its method. *)
Definition public_entry (r : PublicRoute) : str * str :=
  match r with
  | GetHealth => ("/api/health", "get")
  | PostLogin _ => ("/api/auth/login", "post")
  | PostTurnCredentials _ _ => ("/api/turn/credentials", "post")
  | GetTurnHealth => ("/api/turn/health", "get")
  | PostHistory _ => ("/api/messages/history", "post")
  | GetMetrics => ("/api/metrics", "get")
  | GetOpenApi => ("/api/openapi.json", "get")
  end.

Definition jwt_entry (r : JwtRoute) : str * str :=
  match r with
  | GetMe => ("/api/auth/me", "get")
  | PostChangePassword _ => ("/api/auth/change-password", "post")
  | PostReload => ("/api/admin/reload", "post")
  end.

Definition protected_entry (r : ProtectedRoute) : str * str :=
  match r with
  | GetAccounts => ("/api/accounts", "get")
  | PostAccounts _ => ("/api/accounts", "post")
  | PutAccount _ _ => ("/api/accounts/:id", "put")
  | DeleteAccount _ => ("/api/accounts/:id", "delete")
  | GetRegistrations => ("/api/registrations", "get")
  | DeleteRegistration _ => ("/api/registrations/:id", "delete")
  | GetCalls _ => ("/api/calls", "get")
  | PostCalls _ => ("/api/calls", "post")
  | PostCallsCleanup _ => ("/api/calls/cleanup", "post")
  | GetMessages _ => ("/api/messages", "get")
  | GetStats => ("/api/stats", "get")
  | GetSecurityEvents _ => ("/api/security/events", "get")
  | GetSecurityBlocks => ("/api/security/blocks", "get")
  | PostUnblock _ => ("/api/security/blocks/unblock", "post")
  | GetSecuritySummary => ("/api/security/summary", "get")
  | GetSecurityRuntime => ("/api/security/runtime", "get")
  | GetAcl => ("/api/acl", "get")
  | PostAcl _ => ("/api/acl", "post")
  | PutAcl _ _ => ("/api/acl/:id", "put")
  | DeleteAcl _ => ("/api/acl/:id", "delete")
  | GetAdmins => ("/api/admin/users", "get")
  | PostAdmins _ => ("/api/admin/users", "post")
  | PutAdmin _ _ => ("/api/admin/users/:id", "put")
  | DeleteAdmin _ => ("/api/admin/users/:id", "delete")
  | GetConferences => ("/api/conferences", "get")
  | PostConferences _ => ("/api/conferences", "post")
  | PutConference _ _ => ("/api/conferences/:id", "put")
  | DeleteConference _ => ("/api/conferences/:id", "delete")
  | GetParticipants _ => ("/api/conferences/:id/participants", "get")
  | GetBoxes => ("/api/voicemail/boxes", "get")
  | PostBoxes _ => ("/api/voicemail/boxes", "post")
  | PutBox _ _ => ("/api/voicemail/boxes/:id", "put")
  | PostGreeting _ _ _ _ => ("/api/voicemail/boxes/:id/greeting", "post")
  | GetGreeting _ => ("/api/voicemail/boxes/:id/greeting", "get")
  | DeleteGreeting _ => ("/api/voicemail/boxes/:id/greeting", "delete")
  | GetVoicemails _ => ("/api/voicemail/messages", "get")
  | PutVoicemail _ _ => ("/api/voicemail/messages/:id", "put")
  | DeleteVoicemail _ => ("/api/voicemail/messages/:id", "delete")
  | GetVoicemailAudio _ => ("/api/voicemail/messages/:id/download", "get")
  | GetWebhooks => ("/api/webhooks", "get")
  | PostWebhooks _ => ("/api/webhooks", "post")
  | PutWebhook _ _ => ("/api/webhooks/:id", "put")
  | DeleteWebhook _ => ("/api/webhooks/:id", "delete")
  | GetDeliveries _ => ("/api/webhooks/deliveries", "get")
  | PostRetryDelivery _ => ("/api/webhooks/deliveries/:id/retry", "post")
  end.

Definition route_entry (r : Route) : str * str :=
  match r with
  | Public r => public_entry r
  | JwtOnly r => jwt_entry r
  | Protected r => protected_entry r
  end.

(** ** Facts *)

(** The path of a route in the notation of the document. *)
Definition openapi_path (path : str) : str := Str.join "{id}" (Str.split_str ":id" path).

(** The pairs of path and method of a table. *)
Definition entries (table : list (str * list str)) : list (str * str) :=
  table ≫= fun '(path, methods) => map (fun m => (path, m)) methods.

Definition described : list (str * str) := entries (map (fun '(path, _, methods) => (path, methods)) inventory).

(** The routes that the document leaves out. *)
Definition left_out : list (str * str) :=
  entries [("/api/openapi.json", ["get"]); ("/api/admin/reload", ["post"]);
           ("/api/registrations/:id", ["delete"]); ("/api/calls", ["post"]);
           ("/api/voicemail/boxes/:id/greeting", ["post"; "get"; "delete"]);
           ("/api/webhooks", ["get"; "post"]); ("/api/webhooks/:id", ["put"; "delete"]);
           ("/api/webhooks/deliveries", ["get"]); ("/api/webhooks/deliveries/:id/retry", ["post"])].

Lemma route_entry_in_table r : route_entry r ∈ entries route_table.
Proof. destruct r as [[]|[]|[]]; apply (bool_decide_unpack _); vm_compute; exact I. Qed.

Lemma add_path_spec paths e p m :
  is_Some (add_path paths e !! p ≫= (.!! m)) <->
  is_Some (paths !! p ≫= (.!! m)) \/ p = e.1.1 /\ m ∈ e.2.
Proof.
  destruct e as [[path summary] methods]. cbn.
  destruct (decide (p = path)) as [->|Hne]; [|rewrite lookup_insert_ne by done; naive_solver].
  rewrite lookup_insert_eq. cbn.
  assert (is_Some (paths !! path ≫= (.!! m)) <-> is_Some (default ∅ (paths !! path) !! m)) as ->.
  { destruct (paths !! path); cbn; [done|]. rewrite lookup_empty. split; intros [? ?]; done. }
  generalize (default ∅ (paths !! path)). induction methods as [|m' ms IH]; intros item; cbn.
  { rewrite elem_of_nil. naive_solver. }
  rewrite IH, elem_of_cons. destruct (decide (m = m')) as [->|Hm].
  - rewrite lookup_insert_eq. split; [naive_solver|]. intros _. left. by eexists.
  - rewrite lookup_insert_ne by done. naive_solver.
Qed.

Lemma documented_spec derived p m :
  doc_paths derived = ∅ -> documented (openapi_json derived) p m = true <-> (p, m) ∈ described.
Proof.
  intros Hd. unfold documented, openapi_json, described. rewrite bool_decide_eq_true. cbn [doc_paths]. rewrite Hd.
  assert (forall es paths, is_Some (foldl add_path paths es !! p ≫= (.!! m)) <->
    is_Some (paths !! p ≫= (.!! m)) \/
    (p, m) ∈ entries (map (fun '(path, _, methods) => (path, methods)) es)) as ->.
  { induction es as [|[[path summary] ms] es IH]; intros paths.
    - cbn. rewrite elem_of_nil. naive_solver.
    - cbn [foldl]. rewrite IH, add_path_spec. unfold entries. cbn [map mbind list_bind fst snd].
      rewrite elem_of_app, list_elem_of_fmap. naive_solver. }
  rewrite lookup_empty. cbn. split; [intros [[? ?]|?]; done|by right].
Qed.

(** What the API description says of the routes.  Every route is described under its path
    and method except thirteen (exporting calls, deleting one registration, greetings,
    webhooks, reloading and the description itself); and every operation described is one of
    a route except DELETE /api/registrations, which no route serves. *)
Theorem api_description derived :
  doc_paths derived = ∅ ->
  (forall r, documented (openapi_json derived) (openapi_path (route_entry r).1) (route_entry r).2 = true <->
     route_entry r ∉ left_out) /\
  (forall p m, documented (openapi_json derived) p m = true <->
     (p, m) = ("/api/registrations", "delete") \/
     exists path, (path, m) ∈ entries route_table /\ (path, m) ∉ left_out /\ openapi_path path = p).
Proof.
  intros Hd.
  assert (Forall (fun e => bool_decide ((openapi_path e.1, e.2) ∈ described) = bool_decide (e ∉ left_out))
    (entries route_table)) as Hr by (apply (bool_decide_unpack _); vm_compute; exact I).
  assert (Forall (fun e => e = ("/api/registrations", "delete") \/
      Exists (fun t => openapi_path t.1 = e.1 /\ t.2 = e.2 /\ t ∉ left_out) (entries route_table)) described) as Hd'
    by (apply (bool_decide_unpack _); vm_compute; exact I).
  assert (("/api/registrations", "delete") ∈ described) as Hextra by (apply (bool_decide_unpack _); vm_compute; exact I).
  rewrite Forall_forall in Hr, Hd'. split.
  - intros r. rewrite (documented_spec _ _ _ Hd). rewrite <- (bool_decide_eq_true (_ ∉ _)).
    by rewrite <- (Hr _ (route_entry_in_table r)), bool_decide_eq_true.
  - intros p m. rewrite (documented_spec _ _ _ Hd). split.
    + intros [->|Ht]%Hd'; [by left|right]. apply Exists_exists in Ht as ([path m'] & Ht & Hp & Hm & Hl).
      cbn in *. subst. by exists path.
    + intros [->|(path & Ht & Hl & <-)]; [done|].
      apply (bool_decide_eq_true (_ ∈ _)). apply Hr in Ht. cbn [fst snd] in Ht. rewrite Ht. by apply bool_decide_eq_true.
Qed.

Lemma api_description_witness :
  let doc := openapi_json {| security_schemes := ∅; doc_paths := ∅ |} in
  documented doc "/api/accounts/{id}" "put" = true /\ documented doc "/api/registrations" "delete" = true.
Proof.
  destruct (api_description {| security_schemes := ∅; doc_paths := ∅ |} eq_refl) as [_ H]. cbn zeta. split.
  - apply H. right. exists "/api/accounts/:id".
    split; [|split]; [apply (bool_decide_unpack _); vm_compute; exact I..|vm_compute; reflexivity].
  - apply H. by left.
Defined.
