(* ===== verification/Client.v ===== *)
(** * The SIP client: [backend/src/test_client/endpoint.rs]

    The client the repository tests its server with: the requests it writes, the messages it
    reads and the events it makes of them, and its REGISTER and MESSAGE exchanges, run here
    against the server of [Handler]. *)

From S2P Require Import Prelude RustStr Net Message Response Stream Forward SecurityGuard Acl.
From S2P Require Import Storage Sdp Media World Gateway Voicemail ConferenceMedia Conference Registrar.
From S2P Require Import Frames Proxy Handler.

Open Scope str_scope.
Open Scope Z_scope.

(** ** Requests *)

Record SipEndpointConfig := {
  ec_label : str;
  ec_host : str;
  ec_tls_port : Z;
  ec_domain : str;
  ec_realm : str;
  ec_username : str;
  ec_password : str;
  ec_run_token : str;
  ec_insecure_tls : bool;
}.

Definition run_scoped_id (parts : list str) (run_token : str) : str :=
  Str.join "-" parts ++ "-" ++ run_token.

Section requests.
Context (c : SipEndpointConfig).

Definition register_fields (cid : str) (n : Z) (auth : option str) : list (str * str) :=
  [("Via", "SIP/2.0/TLS tester.invalid;branch=z9hG4bK-" ++ cid ++ ";rport");
   ("From", "<sip:" ++ ec_username c ++ "@" ++ ec_domain c ++ ">;tag=register");
   ("To", "<sip:" ++ ec_username c ++ "@" ++ ec_domain c ++ ">");
   ("Call-ID", cid); ("CSeq", Str.show_dec n ++ " REGISTER");
   ("Contact", "<sip:" ++ ec_username c ++ "@" ++ ec_domain c ++ ";transport=tls>");
   ("Expires", "300")] ++
  option_list ((fun v => ("Authorization", v)) <$> auth) ++ [("Content-Length", "0")].

(** [format!] with one line for each field. *)
Definition build_register_request (cid : str) (n : Z) (auth : option str) : str :=
  render ("REGISTER sip:" ++ ec_domain c ++ " SIP/2.0") (register_fields cid n auth) "".

Definition build_message_request (to_username bd cid : str) (n : Z) : str :=
  render ("MESSAGE sip:" ++ to_username ++ "@" ++ ec_domain c ++ " SIP/2.0")
    [("Via", "SIP/2.0/TLS tester.invalid;branch=z9hG4bK-" ++ cid ++ ";rport");
     ("From", "<sip:" ++ ec_username c ++ "@" ++ ec_domain c ++ ">;tag=tester");
     ("To", "<sip:" ++ to_username ++ "@" ++ ec_domain c ++ ">");
     ("Call-ID", cid); ("CSeq", Str.show_dec n ++ " MESSAGE");
     ("Contact", "<sip:" ++ ec_username c ++ "@" ++ ec_domain c ++ ";transport=tls>");
     ("Content-Type", "text/plain"); ("Content-Length", Str.show_dec (Str.len bd))] bd.

(** A parameter of a digest header: its name, is it quoted, its value. *)
Definition auth_item (p : str * bool * str) : str :=
  let '(k, q, v) := p in k ++ "=" ++ (if q : bool then quoted v else v).

Definition auth_header (ps : list (str * bool * str)) : str :=
  "Digest " ++ Str.join ", " (map auth_item ps).

Context `{Digests}.

Definition client_response (nonce realm nc cnonce : str) : str :=
  let ha1 := md5_hex (ec_username c ++ ":" ++ realm ++ ":" ++ ec_password c) in
  let ha2 := md5_hex ("REGISTER:sip:" ++ ec_domain c) in
  md5_hex (ha1 ++ ":" ++ nonce ++ ":" ++ nc ++ ":" ++ cnonce ++ ":auth:" ++ ha2).

Definition build_register_authorization (nonce realm nc cnonce : str) : str :=
  auth_header [("username", true, ec_username c); ("realm", true, realm); ("nonce", true, nonce);
    ("uri", true, "sip:" ++ ec_domain c); ("response", true, client_response nonce realm nc cnonce);
    ("algorithm", false, "MD5"); ("qop", false, "auth"); ("nc", false, nc); ("cnonce", true, cnonce)].
End requests.

(** ** Events *)

Inductive SipEvent :=
  | Registered
  | AuthChallenge (cseq_method : str) (auth_params : gmap str str)
  | MessageReceived (from bd : str)
  | InviteReceived (cid from sdp : str)
  | Ringing (cid : str)
  | Answered (cid sdp : str)
  | AckReceived (cid : str)
  | ByeReceived (cid : str)
  | CancelReceived (cid : str)
  | ErrorResponse (status : Z) (reason cseq_method : str)
  | OkResponse (cseq_method : str).

Definition header_value_case_insensitive (raw name : str) : option str :=
  find_map (fun line => '(n, v) ← Str.split_once ":" line;
                        if Str.eq_ignore_case n name then Some (Str.trim v) else None)
    (Str.lines raw).

(** [raw.split_once("\r\n\r\n")]: what comes after the blank line. *)
Definition body_of (raw : str) : str :=
  match Str.find_str (Str.crlf ++ Str.crlf) raw with
  | Some pos => drop (pos + 4) raw
  | None => []
  end.

(** [SIP/2.0 <code> <reason>] with a code from 300 on. *)
Definition error_status (first_line : str) : option (Z * str) :=
  status ← Str.split_whitespace first_line !! 1%nat ≫= Str.parse_u16;
  if 300 <=? status
  then Some (status, default "" (Str.splitn 3 Str.SP first_line !! 2%nat)) else None.

(** The event of a request the server sends. *)
Definition request_event (raw cid from bd : str) : option SipEvent :=
  if Str.starts_with "INVITE " raw then Some (InviteReceived cid from bd)
  else if Str.starts_with "ACK " raw then Some (AckReceived cid)
  else if Str.starts_with "BYE " raw then Some (ByeReceived cid)
  else if Str.starts_with "CANCEL " raw then Some (CancelReceived cid)
  else if Str.starts_with "MESSAGE " raw then Some (MessageReceived from bd)
  else None.

Definition parse_event (raw : str) : outcome (option SipEvent) :=
  let first_line := default "" (head (Str.lines raw)) in
  let cid := default "" (header_value_case_insensitive raw "Call-ID") in
  let from := default "" (header_value_case_insensitive raw "From") in
  let cseq := default "" (header_value_case_insensitive raw "CSeq") in
  let cseq_method := default "" (last (Str.split_whitespace cseq)) in
  let bd := body_of raw in
  let errors :=
    match (if Str.starts_with "SIP/2.0 " raw then error_status first_line else None) with
    | Some (status, reason) => Some (ErrorResponse status reason cseq_method)
    | None => request_event raw cid from bd
    end in
  match (if Str.starts_with "SIP/2.0 401" raw
         then header_value_case_insensitive raw "WWW-Authenticate" else None) with
  | Some www =>
      match parse_auth_params www with
      | Panic => Panic
      | Done params => Done (Some (AuthChallenge cseq_method params))
      end
  | None => Done
      (if Str.starts_with "SIP/2.0 200" raw && bool_decide (cseq_method = "REGISTER") then Some Registered
       else if Str.starts_with "SIP/2.0 200" raw && bool_decide (cseq_method = "INVITE")
       then Some (Answered cid bd)
       else if Str.starts_with "SIP/2.0 200" raw && negb (Str.is_empty cseq_method)
       then Some (OkResponse cseq_method)
       else if Str.starts_with "SIP/2.0 180" raw && bool_decide (cseq_method = "INVITE")
       then Some (Ringing cid)
       else errors)
  end.

(** The queue until an event that matches; an error response ends the wait, and so does a
    queue that stays empty. *)
Fixpoint recv_matching_event (label : str) (p : SipEvent -> bool) (events : list SipEvent)
    : result (SipEvent * list SipEvent) :=
  match events with
  | [] => Err (label ++ " timed out")
  | ErrorResponse status reason m :: _ =>
      Err (label ++ " failed with SIP " ++ Str.show_dec status ++ " " ++ reason ++ " (" ++ m ++ ")")
  | e :: rest => if p e then Ok (e, rest) else recv_matching_event label p rest
  end.

(** ** Reading from the connection *)

Definition client_length_line (line : str) : option Z :=
  if Str.starts_with "content-length:" (Str.to_lower line)
  then v ← Str.split_char ":" line !! 1%nat; Str.parse_u64 (Str.trim v)
  else None.

(** [read_one_sip_message]: headers up to a blank line, then the body they announce.  Unlike the
    server's reader it takes a blank line for a message, and the end within the headers for an
    error. *)
Definition read_one_sip_message (s : str) : ReadResult :=
  match read_headers (S (length s)) [] s with
  | HeadersEof => if Str.is_empty s then ReadEof else ReadError
  | HeadersError => ReadError
  | Headers headers rest =>
      let content_length := default 0 (find_map client_length_line (Str.lines headers)) in
      if isize_max <? content_length then ReadPanic
      else if Str.len rest <? content_length then ReadError
      else ReadMessage (headers ++ Str.from_utf8_lossy (take (Z.to_nat content_length) rest))
             (drop (Z.to_nat content_length) rest)
  end.

(** ** Exchanges with the server *)

Section exchange.
Context (scfg : Config) (secret : str) `{Digests, HeaderOrder, Bcrypt, WebRtc}.
Context (c : SipEndpointConfig) (src : SocketAddr).

(** Write a request on the connection; the event of the answer joins the queue. *)
Definition send_raw (raw : str) (events : list SipEvent) : M (list SipEvent) :=
  reply ← handle_tcp_msg scfg secret raw src;
  match reply with
  | None => mret events
  | Some text =>
      match parse_event text with
      | Panic => panic
      | Done e => mret (events ++ option_list e)
      end
  end.

Definition is_register_answer (e : SipEvent) : bool :=
  match e with
  | Registered => true
  | OkResponse m => bool_decide (m = "REGISTER")
  | AuthChallenge m _ => bool_decide (m = "REGISTER")
  | _ => false
  end.

Definition is_registered (e : SipEvent) : bool :=
  match e with
  | Registered => true
  | OkResponse m => bool_decide (m = "REGISTER")
  | _ => false
  end.

(** The second REGISTER, with credentials for the challenge. *)
Definition answer_challenge (cid cnonce : str) (params : gmap str str) (events : list SipEvent)
    : M (result (list SipEvent)) :=
  match params !! "nonce" with
  | None => mret (Err "REGISTER challenge missing nonce")
  | Some nonce =>
      let realm := default (ec_realm c) (params !! "realm") in
      let auth := build_register_authorization c nonce realm "00000001" cnonce in
      events ← send_raw (build_register_request c cid 2 (Some auth)) events;
      mret (match recv_matching_event "REGISTER" is_registered events with
            | Ok (_, rest) => Ok rest
            | Err e => Err e
            end)
  end.

(** [SipEndpoint::register]; [delay] nanoseconds pass on the network between the two. *)
Definition register (cnonce : str) (delay : Z) (events : list SipEvent)
    : M (result (list SipEvent)) :=
  let cid := run_scoped_id ["register"; ec_username c] (ec_run_token c) in
  events ← send_raw (build_register_request c cid 1 None) events;
  match recv_matching_event "REGISTER" is_register_answer events with
  | Err e => mret (Err e)
  | Ok (AuthChallenge _ params, rest) =>
      _ ← modify (fun w => set_now (w_now w + delay) w);
      answer_challenge cid cnonce params rest
  | Ok (_, rest) => mret (Ok rest)
  end.

Definition is_message_ok (e : SipEvent) : bool :=
  match e with OkResponse m => bool_decide (m = "MESSAGE") | _ => false end.

(** [SipEndpoint::send_message] *)
Definition send_message (to_username bd : str) (events : list SipEvent)
    : M (result (list SipEvent)) :=
  let cid := run_scoped_id ["message"; ec_username c; to_username] (ec_run_token c) in
  events ← send_raw (build_message_request c to_username bd cid 1) events;
  mret (match recv_matching_event "MESSAGE" is_message_ok events with
        | Ok (_, rest) => Ok rest
        | Err e => Err e
        end).
End exchange.

(** ** Facts: digest headers *)

(** Parameters in the text after the first: each after a comma and a blank. *)
Definition auth_tail (ps : list (str * bool * str)) : str :=
  concat (map (fun p => ", " ++ auth_item p) ps).

Lemma join_auth_items p ps : Str.join ", " (map auth_item (p :: ps)) = auth_item p ++ auth_tail ps.
Proof.
  revert p. induction ps as [|q ps IH]; intros p; [cbn; by rewrite app_nil_r|].
  change (Str.join ", " (map auth_item (p :: q :: ps))) with
    (auth_item p ++ ", " ++ Str.join ", " (map auth_item (q :: ps))).
  rewrite IH. unfold auth_tail. cbn [map concat]. by rewrite <-!app_assoc.
Qed.

(** A name in lower case without blanks, and a value that needs no escape. *)
Record auth_param_ok (p : str * bool * str) : Prop := {
  ap_name : Forall (fun c => Str.between 97 122 c = true) p.1.1;
  ap_nonempty : p.1.1 <> [];
  ap_quoted : p.1.2 = true -> Str.DQUOTE ∉ p.2 /\ Str.BACKSLASH ∉ p.2;
  ap_plain : p.1.2 = false -> p.2 <> [] /\ Forall (fun c =>
    Str.is_ws c = false /\ c <> ","%char /\ c <> Str.DQUOTE) p.2;
}.

Definition auth_map (ps : list (str * bool * str)) (m : gmap str str) : gmap str str :=
  foldl (fun m p => <[p.1.1 := p.2]> m) m ps.

Lemma lower_char_facts ch : Str.between 97 122 ch = true ->
  is_auth_sep ch = false /\ ch <> "="%char /\ Str.is_ws ch = false /\ Str.to_lower_char ch = ch.
Proof. destruct ch as [[] [] [] [] [] [] [] []]; by vm_compute. Qed.

Lemma lower_name k : Forall (fun c => Str.between 97 122 c = true) k ->
  "="%char ∉ k /\ Str.to_lower (Str.trim k) = k.
Proof.
  intros Hk. split.
  - intros Hin. rewrite Forall_forall in Hk. specialize (Hk _ Hin).
    by apply lower_char_facts in Hk as (_ & ? & _).
  - rewrite Str.trim_no_ws; [|eapply Forall_impl; [exact Hk|]; intros ch Hc; by apply lower_char_facts].
    induction Hk as [|ch k Hc _ IH]; [done|]. cbn. f_equal; [by apply lower_char_facts|done].
Qed.

(** One parameter, at the end of the text or before the next. *)
Lemma auth_step_item p r m :
  auth_param_ok p -> r = [] \/ head r = Some ","%char ->
  auth_step (auth_item p ++ r) m = Some (Done (r, <[p.1.1 := p.2]> m)).
Proof.
  intros [Hn Hne Hq Hp] Hr. destruct p as [[k q] v]. cbn [fst snd] in *.
  destruct (lower_name k Hn) as [Heq Hlow].
  assert (forall x, drop_while is_auth_sep (k ++ x) = k ++ x) as Hsep.
  { intros x. destruct k as [|ch k]; [done|]. apply Forall_cons in Hn as [Hc _].
    apply lower_char_facts in Hc as (Hc & _). cbn. by rewrite Hc. }
  unfold auth_item. destruct q.
  - destruct Hq as [Hq1 Hq2]; [done|]. rewrite <-!app_assoc.
    rewrite auth_step_quoted by (done || apply Hsep). by rewrite Hlow.
  - destruct Hp as [Hv Hall]; [done|]. rewrite <-!app_assoc. unfold auth_step. rewrite Hsep.
    change ("=" ++ ?x) with ("="%char :: x). rewrite Str.split_once_app by done.
    assert (","%char ∉ v) as Hc.
    { intros Hin. rewrite Forall_forall in Hall. by destruct (Hall _ Hin) as (_ & ? & _). }
    rewrite decide_False.
    2: { destruct v as [|ch v]; [done|]. apply Forall_cons in Hall as [(_ & _ & ?) _].
         cbn. congruence. }
    assert (default (v ++ r) (head (Str.split_char "," (v ++ r))) = v) as ->.
    { destruct Hr as [->|Hr]; [by rewrite app_nil_r, Str.split_char_single|].
      destruct r as [|ch r]; [done|]. injection Hr as ->. by rewrite Str.split_char_app. }
    rewrite drop_app_length, Hlow, Str.trim_no_ws; [done|].
    eapply Forall_impl; [exact Hall|]. naive_solver.
Qed.

Lemma auth_tail_comma ps : auth_tail ps = [] \/ head (auth_tail ps) = Some ","%char.
Proof. destruct ps; [by left|by right]. Qed.

Lemma auth_params_tail ps fuel m :
  Forall auth_param_ok ps ->
  auth_params_go (length ps + fuel) (auth_tail ps) m = Done (auth_map ps m).
Proof.
  intros Hps. revert m. induction Hps as [|p ps Hp _ IH]; intros m; [by destruct fuel|].
  cbn [length Nat.add auth_params_go]. unfold auth_tail. cbn [map concat]. fold (auth_tail ps).
  rewrite <-!app_assoc, auth_step_sep by by repeat constructor.
  rewrite auth_step_item by (done || apply auth_tail_comma). apply IH.
Qed.

(** A digest header reads back as its parameters. *)
Lemma auth_header_roundtrip ps k v :
  Forall auth_param_ok (ps ++ [(k, true, v)]) ->
  parse_auth_params (auth_header (ps ++ [(k, true, v)])) = Done (auth_map (ps ++ [(k, true, v)]) ∅).
Proof.
  intros Hps. unfold parse_auth_params, auth_header.
  change ("Digest " ++ ?x) with ("Digest" ++ Str.SP :: x). rewrite Str.find_char_app by by_decide.
  change (drop (length "Digest" + 1) ("Digest" ++ Str.SP :: ?x)) with x.
  assert (exists p rest x, ps ++ [(k, true, v)] = p :: rest /\
    auth_item p ++ auth_tail rest = x ++ [Str.DQUOTE]) as (p & rest & x & Hpr & Hx).
  { assert (auth_item (k, true, v) = (k ++ "=" ++ [Str.DQUOTE] ++ v) ++ [Str.DQUOTE]) as Hi
      by (unfold auth_item, quoted; by rewrite <-!app_assoc).
    destruct ps as [|p ps]; [exists (k, true, v), []; rewrite Hi; eexists; by rewrite app_nil_r|].
    exists p, (ps ++ [(k, true, v)]), (auth_item p ++ auth_tail ps ++ ", " ++ k ++ "=" ++ [Str.DQUOTE] ++ v).
    split; [done|]. unfold auth_tail. rewrite map_app, concat_app. cbn [map concat].
    rewrite Hi, app_nil_r. by rewrite <-!app_assoc. }
  rewrite Hpr in Hps |- *. rewrite join_auth_items. apply Forall_cons in Hps as [Hp Hrest].
  assert (Str.trim (auth_item p ++ auth_tail rest) = auth_item p ++ auth_tail rest) as ->.
  { destruct p as [[kp qp] vp]. destruct Hp as [Hn Hne _ _]. cbn [fst snd] in *.
    destruct kp as [|ch kp]; [done|]. apply Forall_cons in Hn as [Hc _].
    apply lower_char_facts in Hc as (_ & _ & Hws & _).
    destruct x as [|ch' x]; [by destruct kp|]. rewrite Hx. cbn in Hx. injection Hx as -> _.
    by apply Str.trim_id. }
  rewrite <-(auth_params_go_fuel (S (length rest))) by done.
  cbn [Nat.add auth_params_go]. rewrite auth_step_item by (done || apply auth_tail_comma).
  change (auth_map (p :: rest) ∅) with (auth_map rest (<[p.1.1 := p.2]> ∅)). by apply auth_params_tail.
Qed.

(** ** Facts: the client's requests *)

(** Printable text without the characters that mean something in a SIP header. *)
Definition plain_char (ch : ascii) : bool :=
  Str.between 33 126 ch &&
  negb (existsb (fun x => bool_decide (ch = x))
    [Str.DQUOTE; Str.BACKSLASH; "<"%char; ">"%char; "@"%char; ";"%char; ","%char; "="%char]).

Definition plain (s : str) : Prop := Forall (fun ch => plain_char ch = true) s.

Lemma plain_char_ws ch : plain_char ch = true -> Str.is_ws ch = false.
Proof. destruct ch as [[] [] [] [] [] [] [] []]; by vm_compute. Qed.

Lemma plain_no_ws s : plain s -> Forall (fun ch => Str.is_ws ch = false) s.
Proof. intros Hs. eapply Forall_impl; [exact Hs|]. apply plain_char_ws. Qed.

Lemma plain_not_elem s ch : plain s -> plain_char ch = false -> ch ∉ s.
Proof. intros Hs Hc Hin. unfold plain in Hs. rewrite Forall_forall in Hs. apply Hs in Hin. congruence. Qed.

Lemma plain_app s t : plain s -> plain t -> plain (s ++ t).
Proof. intros. by apply Forall_app. Qed.

Lemma digit_plain ch : Str.is_digit ch = true -> plain_char ch = true.
Proof. destruct ch as [[] [] [] [] [] [] [] []]; by vm_compute. Qed.

Lemma digits_plain s : Forall (fun ch => Str.is_digit ch = true) s -> plain s.
Proof. intros Hs. eapply Forall_impl; [exact Hs|]. apply digit_plain. Qed.

(** The user is an extension; domain, realm and run token are plain. *)
Record client_ok (c : SipEndpointConfig) : Prop := {
  co_digits : Forall (fun ch => Str.is_digit ch = true) (ec_username c);
  co_user : ec_username c <> [];
  co_domain : plain (ec_domain c);
  co_token : plain (ec_run_token c);
}.

(** A text out of plain pieces and fixed ones has none of the characters fixed ones lack. *)
Ltac no_elem :=
  rewrite ?not_elem_of_app; repeat split;
  first [ by_decide
        | match goal with |- _ ∉ ?s => apply (plain_not_elem s); [assumption|reflexivity] end
        | by apply Str.show_dec_not_elem
        | assumption ].

Lemma bracket_uri u rest :
  ">"%char ∉ u -> Forall (fun ch => Str.is_ws ch = false) u -> extract_uri ("<" ++ u ++ ">" ++ rest) = Some u.
Proof.
  intros Hg Hws. unfold extract_uri. change ("<" ++ ?x) with ("<"%char :: x).
  cbn [Str.find_char]. rewrite decide_True by done. cbn [mbind option_bind].
  change (drop 0 ?l) with l. change ("<"%char :: u ++ ">" ++ rest) with (("<"%char :: u) ++ ">"%char :: rest).
  rewrite Str.find_char_app by set_solver. cbn [mbind option_bind length].
  replace (S (length u) - 1)%nat with (length u) by lia.
  change (drop (0 + 1) (("<"%char :: u) ++ ?x)) with (u ++ x).
  by rewrite take_app_length, Str.trim_no_ws.
Qed.

Lemma sip_uri_username u d :
  Forall (fun ch => Str.is_digit ch = true) u -> u <> [] -> uri_username ("sip:" ++ u ++ "@" ++ d) = Some u.
Proof.
  intros Hu Hne. unfold uri_username, without_scheme.
  destruct u as [|ch u]; [done|]. apply Forall_cons in Hu as [Hd Hu].
  assert (forall p f x, p = "sip:" \/ p = "sips:" -> Str.trim_start_matches_go f p (ch :: x) = ch :: x) as Hstop.
  { intros p f x Hp. destruct f; [done|]. cbn [Str.trim_start_matches_go].
    destruct Hp as [-> | ->]; cbn [Str.strip_prefix]; by rewrite decide_False by by intros <-. }
  assert (Str.trim_start_matches "sip:" ("sip:" ++ (ch :: u) ++ "@" ++ d) = (ch :: u) ++ "@" ++ d) as ->.
  { transitivity (Str.trim_start_matches_go (3 + length ((ch :: u) ++ "@" ++ d)) "sip:"
      ((ch :: u) ++ "@" ++ d)); [reflexivity|]. apply (Hstop _ _ (u ++ "@" ++ d)). by left. }
  unfold Str.trim_start_matches. change (((ch :: u) ++ "@" ++ d)) with (ch :: (u ++ "@" ++ d)).
  rewrite Hstop by by right. rewrite decide_True by set_solver.
  change (ch :: u ++ "@" ++ d) with ((ch :: u) ++ "@"%char :: d).
  rewrite Str.split_char_app; [done|]. apply plain_not_elem; [|reflexivity].
  apply digits_plain. by apply Forall_cons.
Qed.

Section requests_facts.
Context (c : SipEndpointConfig) (Hc : client_ok c).

Lemma user_plain : plain (ec_username c).
Proof. apply digits_plain, Hc. Qed.

Definition register_msg (cid : str) (n : Z) (auth : option str) : SipMessage :=
  {| method := Some "REGISTER"; request_uri := Some ("sip:" ++ ec_domain c); status_code := None;
     headers := push_fields ∅ (register_fields c cid n auth); body := [];
     raw := build_register_request c cid n auth |}.

Lemma register_request_parses cid n auth :
  plain cid -> from_option (fun a => Str.LF ∉ a) True auth ->
  parse (build_register_request c cid n auth) = Ok (register_msg cid n auth).
Proof.
  intros Hcid Ha. pose proof user_plain as Hu. pose proof (co_domain c Hc) as Hd.
  unfold build_register_request. rewrite parse_render.
  - assert (Str.splitn 3 Str.SP ("REGISTER sip:" ++ ec_domain c ++ " SIP/2.0") =
      ["REGISTER"; "sip:" ++ ec_domain c; "SIP/2.0"]) as ->; [|done].
    cbn [Str.splitn]. change ("REGISTER sip:" ++ ?x) with ("REGISTER" ++ Str.SP :: "sip:" ++ x).
    rewrite Str.split_once_app by by_decide.
    change (" SIP/2.0") with (Str.SP :: "SIP/2.0"). rewrite app_assoc, Str.split_once_app; [done|]. no_elem.
  - no_elem.
  - apply elem_of_app. left. by_decide.
  - unfold register_fields. repeat (apply Forall_app; split).
    + repeat (apply Forall_cons; split); [..|apply Forall_nil_2]; (split; [by_decide|cbn [snd]; no_elem]).
    + destruct auth as [a|]; [|apply Forall_nil_2]. apply Forall_singleton. split; [by_decide|done].
    + by_decide.
Qed.

(** What the fields give for a name. *)
Lemma msg_header m fs name :
  headers m = push_fields ∅ fs -> header m name = head (values_for (normalize_header_name name) fs).
Proof. intros Hm. rewrite header_values. unfold all_headers_vec. by rewrite Hm, push_fields_values. Qed.

Lemma register_headers cid n auth :
  let m := register_msg cid n auth in
  from_header m = Some (Str.trim ("<sip:" ++ ec_username c ++ "@" ++ ec_domain c ++ ">;tag=register")) /\
  Message.contact m = Some (Str.trim ("<sip:" ++ ec_username c ++ "@" ++ ec_domain c ++ ";transport=tls>")) /\
  cseq m = Some (Str.trim (Str.show_dec n ++ " REGISTER")) /\
  expires m = Some 300 /\ authorization m = Str.trim <$> auth.
Proof.
  cbv zeta. unfold from_header, Message.contact, cseq, expires, authorization.
  rewrite !(msg_header _ (register_fields c cid n auth)) by done.
  split_and!; [reflexivity..|]. by destruct auth.
Qed.

Lemma tagged_user tag :
  Forall (fun ch => Str.is_ws ch = false) tag ->
  header_user (Some (Str.trim ("<sip:" ++ ec_username c ++ "@" ++ ec_domain c ++ ">" ++ tag))) =
  Some (ec_username c).
Proof.
  intros Ht. pose proof user_plain as Hu. pose proof (co_domain c Hc) as Hd.
  pose proof (plain_no_ws _ Hu) as Hu'. pose proof (plain_no_ws _ Hd) as Hd'.
  rewrite Str.trim_no_ws by (repeat (apply Forall_app; split); try done; by_decide).
  unfold header_user. cbn [mbind option_bind].
  change ("<sip:" ++ ?x) with ("<" ++ "sip:" ++ x).
  assert (forall x, "<" ++ "sip:" ++ ec_username c ++ "@" ++ ec_domain c ++ ">" ++ x =
    "<" ++ ("sip:" ++ ec_username c ++ "@" ++ ec_domain c) ++ ">" ++ x) as -> by (intros; by rewrite <-!app_assoc).
  rewrite bracket_uri.
  - cbn [mbind option_bind]. apply sip_uri_username; apply Hc.
  - no_elem.
  - repeat (apply Forall_app; split); try done; by_decide.
Qed.

Lemma register_msg_username cid n auth : register_username (register_msg cid n auth) = ec_username c.
Proof.
  unfold register_username. destruct (register_headers cid n auth) as (-> & _).
  pose proof (tagged_user ";tag=register" ltac:(by_decide)) as Ht. unfold header_user in Ht.
  change (">" ++ ";tag=register") with ">;tag=register" in Ht. cbn [mbind option_bind default] in *.
  destruct (extract_uri _) as [uri|]; [|done]. cbn in Ht |- *. by rewrite Ht.
Qed.
End requests_facts.

(** ** Facts: what the client reads *)

(** The value of the first field of a name, whatever follows the fields. *)
Lemma header_value_render first fs gs b name f :
  Str.LF ∉ first -> Forall wf_field fs ->
  from_option (fun nv => Str.eq_ignore_case nv.1 name) false (Str.split_once ":" first) = false ->
  find_first (fun f => Str.eq_ignore_case f.1 name) fs = Some f ->
  header_value_case_insensitive (render first (fs ++ gs) b) name = Some (Str.trim f.2).
Proof.
  intros Hlf Hfs Hfirst Hfind. unfold header_value_case_insensitive, render.
  rewrite map_app, <-app_assoc, app_comm_cons, Str.terminated_app, <-app_assoc.
  rewrite Str.lines_terminated.
  2: { constructor; [done|]. apply Forall_map. eapply Forall_impl; [exact Hfs|]. apply header_line_no_lf. }
  cbn [app find_map]. destruct (Str.split_once ":" first) as [[n v]|] eqn:E; cbn in Hfirst |- *;
    rewrite ?Hfirst; clear E Hfirst.
  all: induction Hfs as [|g fs [[Hcol _] _] _ IH]; [done|]; cbn [map app find_map].
  all: unfold header_line at 1; change (g.1 ++ ": " ++ g.2) with (g.1 ++ ":"%char :: " " ++ g.2).
  all: rewrite Str.split_once_app by done; cbn [mbind option_bind]; cbn [find_first] in Hfind.
  all: destruct (Str.eq_ignore_case g.1 name); [injection Hfind as ->|by apply IH].
  all: by rewrite (Str.trim_ws_l " ") by by repeat constructor.
Qed.

Section replies.
Context (c : SipEndpointConfig) (Hc : client_ok c) (cid : str) (Hcid : plain cid).

Definition register_base (n : Z) : list (str * str) :=
  [("Via", Str.trim ("SIP/2.0/TLS tester.invalid;branch=z9hG4bK-" ++ cid ++ ";rport"));
   ("From", Str.trim ("<sip:" ++ ec_username c ++ "@" ++ ec_domain c ++ ">;tag=register"));
   ("To", Str.trim ("<sip:" ++ ec_username c ++ "@" ++ ec_domain c ++ ">"));
   ("Call-ID", Str.trim cid); ("CSeq", Str.trim (Str.show_dec n ++ " REGISTER"));
   ("Server", "SIP3/0.1.0")].

Lemma register_base_fields n auth : base_fields (register_msg c cid n auth) = register_base n.
Proof.
  unfold base_fields, via_headers, from_header, to_header, call_id, cseq, all_headers_vec.
  rewrite !(msg_header _ (register_fields c cid n auth)) by done. cbn [headers register_msg].
  rewrite push_fields_values. by destruct auth.
Qed.

Lemma register_base_wf n (auth : option str) :
  from_option (fun a => Str.LF ∉ a) True auth -> Forall wf_field (register_base n).
Proof.
  intros Ha. rewrite <-(register_base_fields n auth). apply base_fields_wf.
  by eapply parse_no_lf, register_request_parses.
Qed.

(** The two answers to a REGISTER, as the client sees them. *)
Definition reply_builder (n : Z) (code : Z) (reason name value : str) : SipResponseBuilder :=
  {| rb_status_code := code; rb_reason := reason; rb_headers := register_base n ++ [(name, value)];
     rb_body := [] |}.

Lemma register_reply_builder n auth code reason name value :
  builder_header (base_response (register_msg c cid n auth) code reason) name value =
  reply_builder n code reason name value.
Proof. rewrite base_response_eq, register_base_fields. reflexivity. Qed.

Lemma reply_header n code reason name value :
  Forall wf_field (register_base n) -> Str.LF ∉ reason -> ":"%char ∉ reason ->
  header_value_case_insensitive (build (reply_builder n code reason name value)) "CSeq" =
  Some (Str.trim (Str.trim (Str.show_dec n ++ " REGISTER"))).
Proof.
  intros Hwf Hr1 Hr2. rewrite build_render. unfold builder_fields. cbn [rb_headers reply_builder].
  rewrite <-app_assoc. apply (header_value_render _ _ _ _ _ ("CSeq", Str.trim (Str.show_dec n ++ " REGISTER")));
    [|done| |reflexivity].
  - unfold status_line. cbn [rb_status_code rb_reason reply_builder]. no_elem.
  - rewrite Str.split_once_None; [done|]. unfold status_line. cbn [rb_status_code rb_reason reply_builder].
    no_elem.
Qed.

Lemma challenge_event params www :
  Forall wf_field (register_base 1) -> Str.LF ∉ www -> parse_auth_params (Str.trim www) = Done params ->
  parse_event (build (reply_builder 1 401 "Unauthorized" "WWW-Authenticate" www)) =
  Done (Some (AuthChallenge "REGISTER" params)).
Proof.
  intros Hwf Hlf Hp. unfold parse_event. rewrite reply_header by (done || by_decide).
  assert (Str.starts_with "SIP/2.0 401" (build (reply_builder 1 401 "Unauthorized" "WWW-Authenticate" www)) =
    true) as -> by reflexivity.
  rewrite build_render. unfold builder_fields. cbn [rb_headers reply_builder].
  rewrite (header_value_render _ _ _ _ "WWW-Authenticate" ("WWW-Authenticate", www));
    [|by_decide| |reflexivity|reflexivity].
  - cbn [snd]. by rewrite Hp.
  - apply Forall_app. split; [done|]. apply Forall_singleton. split; [by_decide|done].
Qed.

Lemma registered_event contact :
  Forall wf_field (register_base 2) ->
  parse_event (build (reply_builder 2 200 "OK" "Contact" contact)) = Done (Some Registered).
Proof.
  intros Hwf. unfold parse_event. rewrite reply_header by (done || by_decide).
  assert (Str.starts_with "SIP/2.0 401" (build (reply_builder 2 200 "OK" "Contact" contact)) = false)
    as -> by reflexivity.
  assert (Str.starts_with "SIP/2.0 200" (build (reply_builder 2 200 "OK" "Contact" contact)) = true)
    as -> by reflexivity.
  reflexivity.
Qed.
End replies.

(** ** Facts: the exchange *)

Section registration.
Context (scfg : Config) (secret : str) `{!Digests, !DigestLaws, !HeaderOrder, !Bcrypt, !WebRtc}.
Context (c : SipEndpointConfig) (src : SocketAddr).

(** A request that belongs to no voicemail call and no conference goes to its handler. *)
Lemma generic_dispatch msg mth h w r w' :
  mth <> "SUBSCRIBE" -> mth <> "INVITE" -> voicemail_in_call scfg msg mth = None ->
  conference_in_call msg mth = None -> generic_handler scfg secret msg mth src = Some h ->
  h w = (Val r, w') -> process_request scfg secret msg mth src w = (Val (Some r), w').
Proof.
  intros Hsub Hinv Hvm Hconf Hgen Hr. unfold process_request, is_voicemail_call.
  rewrite !(bool_decide_eq_false_2 (mth = "SUBSCRIBE")), !(bool_decide_eq_false_2 (mth = "INVITE")) by done.
  cbn [andb]. rewrite Hvm.
  assert (forall cid, exists b, (if Str.is_empty cid then mret false
    else gets (fun w => bool_decide (is_Some (w_voicemail_calls w !! cid)))) w = (Val b, w)) as Hv
    by (intros cid; case_match; by eexists).
  destruct (Hv (default "" (call_id msg))) as [b Eb]. rewrite (bind_val _ _ _ _ _ Eb). clear Hv Eb.
  assert ((if b then None else None) = (None : option (M (option str)))) as -> by by destruct b.
  unfold route_conference, is_conference_call.
  rewrite (bool_decide_eq_false_2 (mth = "INVITE")) by done. rewrite Hconf.
  assert (forall cid, exists b, (if Str.is_empty cid then mret false
    else gets (fun w => bool_decide (is_Some (w_conf_calls w !! cid)))) w = (Val b, w)) as Hv
    by (intros cid; case_match; by eexists).
  destruct (Hv (default "" (call_id msg))) as [b' Eb]. rewrite (bind_val _ _ _ _ _ Eb). clear Hv Eb.
  assert ((if b' then None else None) = (None : option (M (option str)))) as -> by by destruct b'.
  unfold process_generic. rewrite Hgen. unfold as_result, mbind, M_bind. by rewrite Hr.
Qed.

Lemma register_dispatch text msg w r w' :
  parse text = Ok msg -> method msg = Some "REGISTER" ->
  handle_register scfg secret msg src w = (Val r, w') ->
  handle_tcp_msg scfg secret text src w = (Val (Some r), w').
Proof.
  intros Hp Hm Hr. unfold handle_tcp_msg, process_sip_msg. rewrite Hp, Hm.
  eapply generic_dispatch; [done..|exact Hr].
Qed.

Lemma hex_plain ch : is_lower_hex ch = true -> plain_char ch = true.
Proof. destruct ch as [[] [] [] [] [] [] [] []]; by vm_compute. Qed.

Lemma show_hex_pad_plain k n : plain (Str.show_hex_pad k n).
Proof.
  unfold Str.show_hex_pad, Str.pad_left. apply plain_app; [by apply Forall_replicate|].
  apply Str.digits_go_Forall; [lia| |constructor]. intros d Hd.
  assert (d = 0 \/ d = 1 \/ d = 2 \/ d = 3 \/ d = 4 \/ d = 5 \/ d = 6 \/ d = 7 \/ d = 8 \/ d = 9 \/
    d = 10 \/ d = 11 \/ d = 12 \/ d = 13 \/ d = 14 \/ d = 15) by lia.
  naive_solver.
Qed.

Lemma random_hex_run n w : exists hex r, random_hex n w = (Val hex, set_random r w) /\ plain hex.
Proof.
  revert w. induction n as [|n IH]; intros w; cbn [random_hex].
  { exists [], (w_random w). split; [by destruct w|constructor]. }
  assert (exists b r, random_byte w = (Val b, set_random r w)) as (b & r & E).
  { unfold random_byte. destruct (w_random w) as [|b bs] eqn:E; [|eauto].
    exists 0, []. by destruct w; cbn in *; subst. }
  rewrite (bind_val _ _ _ _ _ E). destruct (IH (set_random r w)) as (hex & r' & E' & Hh).
  rewrite (bind_val _ _ _ _ _ E'). eexists _, r'. split; [done|].
  apply plain_app; [apply show_hex_pad_plain|done].
Qed.

Lemma generate_nonce_run w :
  exists nonce r, generate_nonce secret w = (Val nonce, set_random r w) /\ plain nonce.
Proof.
  unfold generate_nonce, unix_secs. rewrite bind_gets.
  destruct (random_hex_run 8 w) as (hex & r & E & Hh). rewrite (bind_val _ _ _ _ _ E).
  eexists _, r. split; [done|]. unfold make_nonce.
  apply plain_app; [apply plain_app; [apply show_hex_pad_plain|done]|]. apply plain_app; [by_decide|].
  eapply Forall_impl; [apply md5_hex_chars|]. apply hex_plain.
Qed.

(** The first answer: a challenge with a fresh nonce. *)
Lemma challenge_run msg w :
  register_username msg <> [] -> blocked_now w (show_ip (ip src)) = false -> authorization msg = None ->
  exists g nonce r,
    handle_register scfg secret msg src w =
      (Val (build (builder_header (base_response msg 401 "Unauthorized") "WWW-Authenticate"
             (make_www_authenticate (sip_domain scfg) nonce))), set_random r (set_guard g w)) /\
    generate_nonce secret (set_guard g w) = (Val nonce, set_random r (set_guard g w)) /\
    plain nonce /\ blocks g !! show_ip (ip src) = None /\ g = prune_expired_blocks (w_now w) (w_guard w).
Proof.
  intros Hu Hb Ha. unfold handle_register. destruct (register_username msg) as [|ch u]; [done|].
  cbn [Str.is_empty]. unfold guard_is_blocked, blocked_now in *.
  destruct (is_blocked _ _ _) as [b g] eqn:E. cbn [fst] in Hb. subst b.
  erewrite bind_val by by rewrite E. rewrite Ha. unfold unauthorized_response.
  destruct (generate_nonce_run (set_guard g w)) as (nonce & r & En & Hn).
  rewrite (bind_val _ _ _ _ _ En). exists g, nonce, r. unfold is_blocked in E. injection E as Hnone <-.
  apply bool_decide_eq_false in Hnone. split_and!; [done..|by apply eq_None_not_Some|done].
Qed.

Lemma not_blocked_later w ip : blocks (w_guard w) !! ip = None -> blocked_now w ip = false.
Proof.
  intros Hn. unfold blocked_now, is_blocked. cbn. apply bool_decide_eq_false. intros [x Hx].
  apply map_lookup_filter_Some in Hx as [Hx _]. congruence.
Qed.

Lemma www_authenticate_header realm nonce :
  make_www_authenticate realm nonce =
  auth_header ([("realm", true, realm); ("nonce", true, nonce); ("algorithm", false, "MD5")] ++
               [("qop", true, "auth")]).
Proof.
  unfold make_www_authenticate, auth_header, auth_item, quoted. cbn [map app Str.join].
  by rewrite <-!app_assoc.
Qed.

Lemma quoted_param_ok k v :
  Forall (fun ch => Str.between 97 122 ch = true) k -> k <> [] -> plain v -> auth_param_ok (k, true, v).
Proof.
  intros Hk Hne Hv. split; [done|done| |done]. intros _. cbn [snd].
  split; by apply (plain_not_elem v).
Qed.

Lemma plain_param_ok k v :
  Forall (fun ch => Str.between 97 122 ch = true) k -> k <> [] -> plain v -> v <> [] ->
  auth_param_ok (k, false, v).
Proof.
  intros Hk Hne Hv Hv'. split; [done|done|done|]. intros _. split; [done|]. cbn [snd].
  eapply Forall_impl; [exact Hv|]. intros ch Hc. split_and!; [by apply plain_char_ws|..];
    intros ->; by vm_compute in Hc.
Qed.

(** A digest header has no blanks around it and no line break in it. *)
Lemma auth_header_text ps k v :
  plain v -> Str.trim (auth_header (ps ++ [(k, true, v)])) = auth_header (ps ++ [(k, true, v)]).
Proof.
  intros Hv. unfold auth_header. change ("Digest " ++ ?x) with ("D"%char :: "igest " ++ x).
  assert (exists y, Str.join ", " (map auth_item (ps ++ [(k, true, v)])) = y ++ [Str.DQUOTE]) as [y ->].
  { induction ps as [|p ps [y IH]].
    - exists (k ++ "=" ++ [Str.DQUOTE] ++ v). cbn. unfold quoted. by rewrite <-!app_assoc.
    - exists (auth_item p ++ ", " ++ y). rewrite <-!app_assoc, <-IH. by destruct ps. }
  rewrite app_assoc. by apply Str.trim_id.
Qed.

Lemma auth_header_no_lf ps :
  Forall (fun p => Str.LF ∉ p.1.1 /\ plain p.2) ps -> Str.LF ∉ auth_header ps.
Proof.
  intros Hps. unfold auth_header. rewrite not_elem_of_app. split; [by_decide|].
  induction Hps as [|p ps [Hk Hv] Hps IH]; [by_decide|].
  assert (Str.LF ∉ auth_item p) as Hi.
  { destruct p as [[k q] v]. unfold auth_item, quoted. cbn [fst snd] in *. destruct q; no_elem. }
  destruct ps as [|q ps]; [done|].
  change (Str.join ", " (map auth_item (p :: q :: ps))) with
    (auth_item p ++ ", " ++ Str.join ", " (map auth_item (q :: ps))).
  rewrite !not_elem_of_app. split_and!; [done|by_decide|done].
Qed.

Definition register_cid : str := run_scoped_id ["register"; ec_username c] (ec_run_token c).

Lemma register_cid_plain : client_ok c -> plain register_cid.
Proof.
  intros Hc. unfold register_cid, run_scoped_id. cbn [Str.join].
  repeat apply plain_app; try by_decide; [by apply user_plain|apply Hc].
Qed.

(** The parameters of the challenge. *)
Definition challenge_params (nonce : str) : gmap str str :=
  auth_map ([("realm", true, sip_domain scfg); ("nonce", true, nonce); ("algorithm", false, "MD5")] ++
            [("qop", true, "auth")]) ∅.

Lemma first_exchange w :
  client_ok c -> plain (sip_domain scfg) -> blocked_now w (show_ip (ip src)) = false ->
  exists g nonce r, send_raw scfg secret src (build_register_request c register_cid 1 None) [] w =
      (Val [AuthChallenge "REGISTER" (challenge_params nonce)], set_random r (set_guard g w)) /\
    generate_nonce secret (set_guard g w) = (Val nonce, set_random r (set_guard g w)) /\
    plain nonce /\ blocks g !! show_ip (ip src) = None /\ g = prune_expired_blocks (w_now w) (w_guard w).
Proof.
  intros Hc Hd Hb. pose proof (register_cid_plain Hc) as Hcid.
  pose proof (register_request_parses c Hc register_cid 1 None Hcid I) as Hparse.
  destruct (challenge_run (register_msg c register_cid 1 None) w) as (g & nonce & r & Hh & Hn & Hpl & Hg & Hgg);
    [rewrite register_msg_username by done; apply Hc|done|by apply register_headers|].
  exists g, nonce, r. split_and!; [|done..]. unfold send_raw.
  pose proof (register_dispatch _ _ _ _ _ Hparse eq_refl Hh) as E.
  rewrite (bind_val _ _ _ _ _ E). cbv beta iota. clear E.
  rewrite register_reply_builder, (challenge_event c register_cid (challenge_params nonce)); [done| | |].
  - by apply (register_base_wf c Hc register_cid Hcid 1 None).
  - rewrite www_authenticate_header. apply auth_header_no_lf.
    repeat (apply Forall_cons; split); try (split; [by_decide|done || by_decide]). apply Forall_nil_2.
  - rewrite www_authenticate_header, auth_header_text by by_decide. apply auth_header_roundtrip.
    repeat (apply Forall_cons; split); [apply quoted_param_ok|apply quoted_param_ok|apply plain_param_ok
      |apply quoted_param_ok|apply Forall_nil_2]; done || by_decide.
Qed.

(** The parameters of the client's answer. *)
Definition answer_params (nonce cnonce : str) : list (str * bool * str) :=
  [("username", true, ec_username c); ("realm", true, sip_domain scfg); ("nonce", true, nonce);
   ("uri", true, "sip:" ++ ec_domain c);
   ("response", true, client_response c nonce (sip_domain scfg) "00000001" cnonce);
   ("algorithm", false, "MD5"); ("qop", false, "auth"); ("nc", false, "00000001")] ++
  [("cnonce", true, cnonce)].

Lemma answer_header nonce cnonce :
  build_register_authorization c nonce (sip_domain scfg) "00000001" cnonce =
  auth_header (answer_params nonce cnonce).
Proof. reflexivity. Qed.

Lemma md5_hex_plain s : plain (md5_hex s).
Proof. eapply Forall_impl; [apply md5_hex_chars|]. apply hex_plain. Qed.

Lemma answer_params_plain nonce cnonce :
  client_ok c -> plain (sip_domain scfg) -> plain nonce -> plain cnonce ->
  Forall (fun p => Forall (fun ch => Str.between 97 122 ch = true) p.1.1 /\ p.1.1 <> [] /\ plain p.2)
    (answer_params nonce cnonce) /\ Forall auth_param_ok (answer_params nonce cnonce).
Proof.
  intros Hc Hd Hn Hcn. pose proof (user_plain c Hc) as Hu. pose proof (co_domain c Hc) as Hdom.
  assert (plain ("sip:" ++ ec_domain c)) as Huri by (apply plain_app; [by_decide|done]).
  pose proof (md5_hex_plain : forall s, plain (md5_hex s)) as Hr. unfold answer_params, client_response.
  split; repeat (apply Forall_cons; split); try apply Forall_nil_2; cbn [fst snd].
  all: try (split_and!; [by_decide|done|done || by_decide || apply Hr]).
  all: first [apply quoted_param_ok|apply plain_param_ok]; done || by_decide || apply Hr.
Qed.

Lemma plain_lower_no_lf k : Forall (fun ch => Str.between 97 122 ch = true) k -> Str.LF ∉ k.
Proof. intros Hk Hin. rewrite Forall_forall in Hk. by specialize (Hk _ Hin). Qed.

(** The answer to a challenge proves the account's credentials. *)
Lemma answer_authenticated nonce cnonce w a g0 w0 :
  client_ok c -> plain (sip_domain scfg) -> plain nonce -> plain cnonce ->
  generate_nonce secret w0 = (Val nonce, g0) -> 0 <= w_now w0 / 1000000000 < 2 ^ 32 ->
  Int.sat_sub (w_now w / 1000000000) (w_now w0 / 1000000000) < nonce_max_age_secs scfg ->
  w_accounts w !! (ec_username c, sip_domain scfg) = Some a -> ac_enabled a <> 0 ->
  ac_ha1_hash a = Some (md5_hex (ec_username c ++ ":" ++ sip_domain scfg ++ ":" ++ ec_password c)) ->
  authenticated scfg secret w
    (register_msg c register_cid 2 (Some (auth_header (answer_params nonce cnonce)))) src.
Proof.
  intros Hc Hd Hn Hcn Hgen Hts Hage Hacc Hen Hha.
  destruct (answer_params_plain nonce cnonce Hc Hd Hn Hcn) as [_ Hok].
  eexists (auth_header (answer_params nonce cnonce)), (auth_map (answer_params nonce cnonce) ∅), _, _.
  split_and!.
  - destruct (register_headers c register_cid 2 (Some (auth_header (answer_params nonce cnonce))))
      as (_ & _ & _ & _ & ->).
    apply (f_equal Some). exact (auth_header_text _ "cnonce" cnonce Hcn).
  - by apply auth_header_roundtrip.
  - change (param (auth_map (answer_params nonce cnonce) ∅) "nonce") with nonce.
    rewrite (generated_nonce_valid _ _ _ _ _ _ _ Hgen eq_refl Hts). by apply Z.ltb_lt.
  - rewrite register_msg_username by done. unfold account_row. rewrite Hacc. cbn. rewrite Hha. done.
  - done.
  - intros Hnil. pose proof (md5_hex_length (ec_username c ++ ":" ++ sip_domain scfg ++ ":" ++ ec_password c)) as Hl.
    cbn in Hnil, Hl. by rewrite Hnil in Hl.
  - reflexivity.
Qed.

(** The contact under which the server can reach the client again. *)
Lemma client_contact :
  client_ok c ->
  routable_contact_uri (Str.trim ("<sip:" ++ ec_username c ++ "@" ++ ec_domain c ++ ";transport=tls>"))
    (ec_username c) src =
  "sip:" ++ ec_username c ++ "@" ++ socket_addr_uri_host_port src ++ ";transport=tls".
Proof.
  intros Hc. pose proof (user_plain c Hc) as Hu. pose proof (co_domain c Hc) as Hd.
  pose proof (plain_no_ws _ Hu) as Hu'. pose proof (plain_no_ws _ Hd) as Hd'.
  set (uri := "sip:" ++ ec_username c ++ "@" ++ ec_domain c ++ ";transport=tls").
  assert ("<sip:" ++ ec_username c ++ "@" ++ ec_domain c ++ ";transport=tls>" = "<" ++ uri ++ ">" ++ "") as ->
    by (unfold uri; by rewrite <-!app_assoc).
  assert (Forall (fun ch => Str.is_ws ch = false) uri) as Huri
    by (unfold uri; repeat (apply Forall_app; split); try done; by_decide).
  rewrite Str.trim_no_ws by (repeat (apply Forall_app; split); try done; by_decide).
  unfold routable_contact_uri, contact_uri_preserving_uri_params.
  assert (Str.starts_with "<" (Str.trim_start ("<" ++ uri ++ ">" ++ "")) = true) as -> by reflexivity.
  rewrite bracket_uri; [|unfold uri; no_elem|done].
  assert (uri_username uri = Some (ec_username c)) as -> by (apply sip_uri_username; apply Hc).
  assert (Str.is_empty (ec_username c) = false) as -> by (pose proof (co_user c Hc); by destruct (ec_username c)).
  assert (uri_param_suffix uri = ";transport=tls") as ->.
  { unfold uri_param_suffix, uri.
    change (Str.strip_prefix "sip:" ("sip:" ++ ?x)) with (Some x). cbv beta iota zeta.
    change ("@" ++ ?x) with ("@"%char :: x). rewrite Str.split_once_app by no_elem.
    change (";transport=tls") with (";"%char :: "transport=tls"). rewrite Str.find_char_app by no_elem.
    by rewrite drop_app_length. }
  reflexivity.
Qed.

(** The binding a registered client has. *)
Definition client_binding (now : Z) : Registration :=
  {| contact_uri := "sip:" ++ ec_username c ++ "@" ++ socket_addr_uri_host_port src ++ ";transport=tls";
     reg_user_agent := ""; reg_expires_at := now + 300;
     reg_source_ip := show_ip (ip src); reg_source_port := port src |}.

(** It asks for a registration, not for its removal. *)
Lemma client_register_keeps auth :
  client_ok c -> unregisters scfg (register_msg c register_cid 2 (Some auth)) = false.
Proof.
  intros Hc. destruct (register_headers c register_cid 2 (Some auth)) as (_ & Hcon & _ & Hexp & _).
  unfold unregisters, register_expires. rewrite Hcon, Hexp. apply orb_false_iff. split; [|done].
  apply bool_decide_eq_false. pose proof (user_plain c Hc) as Hp. pose proof (co_domain c Hc) as Hd.
  assert (forall s, s = "<sip:" ++ ec_username c ++ "@" ++ ec_domain c ++ ";transport=tls>" ->
    Str.trim (default "*" (Some (Str.trim s))) <> "*") as Hstar; [|by apply Hstar].
  intros s Hs. assert (Forall (fun ch => Str.is_ws ch = false) s) as Hws.
  { rewrite Hs. repeat (apply Forall_app; split); try by apply plain_no_ws. all: by_decide. }
  cbn [default from_option]. unfold id. rewrite !(Str.trim_no_ws s) by done. by rewrite Hs.
Qed.

Lemma client_register_effect w auth :
  client_ok c -> let msg := register_msg c register_cid 2 (Some auth) in
  (exists contact, register_reply scfg msg src = build (reply_builder c register_cid 2 200 "OK" "Contact" contact)) /\
  registered_table scfg w msg src =
    <[(ec_username c, sip_domain scfg) := client_binding (w_now w / 1000000000)]> (w_registrations w).
Proof.
  intros Hc msg. destruct (register_headers c register_cid 2 (Some auth)) as (_ & Hcon & _ & Hexp & _).
  pose proof (register_msg_username c Hc register_cid 2 (Some auth)) as Hu. fold msg in Hcon, Hexp, Hu.
  assert (user_agent msg = None) as Hua.
  { unfold user_agent. by rewrite (msg_header _ (register_fields c register_cid 2 (Some auth))). }
  pose proof (client_register_keeps auth Hc) as Hun. fold msg in Hun.
  unfold register_reply, registered_table, new_binding, register_expires. rewrite Hun, Hexp, Hcon, Hu, Hua.
  change (default "*" (Some ?x)) with x. rewrite client_contact by done. split; [|done].
  eexists. unfold msg. by rewrite register_reply_builder.
Qed.

(** The second request: the server takes it for an authenticated one, and its answer ends the
    exchange. *)
Lemma second_exchange w nonce cnonce a w0 w0' :
  client_ok c -> plain (sip_domain scfg) -> plain nonce -> plain cnonce ->
  w_faults w = [] -> blocks (w_guard w) !! show_ip (ip src) = None ->
  generate_nonce secret w0 = (Val nonce, w0') -> 0 <= w_now w0 / 1000000000 < 2 ^ 32 ->
  Int.sat_sub (w_now w / 1000000000) (w_now w0 / 1000000000) < nonce_max_age_secs scfg ->
  w_accounts w !! (ec_username c, sip_domain scfg) = Some a -> ac_enabled a <> 0 ->
  ac_ha1_hash a = Some (md5_hex (ec_username c ++ ":" ++ sip_domain scfg ++ ":" ++ ec_password c)) ->
  exists auth, let msg := register_msg c register_cid 2 (Some auth) in
    authenticated scfg secret w msg src /\
    answer_challenge scfg secret c src register_cid cnonce (challenge_params nonce) [] w =
      (Val (Ok []), (handle_register scfg secret msg src w).2).
Proof.
  intros Hc Hd Hn Hcn Hf Hb Hgen Hts Hage Hacc Hen Hha.
  set (auth := auth_header (answer_params nonce cnonce)).
  pose proof (answer_authenticated nonce cnonce w a w0' w0 Hc Hd Hn Hcn Hgen Hts Hage Hacc Hen Hha) as Hauth.
  destruct (answer_params_plain nonce cnonce Hc Hd Hn Hcn) as [Hpl _].
  assert (Str.LF ∉ auth) as Hlf.
  { apply auth_header_no_lf. eapply Forall_impl; [exact Hpl|]. intros p (Hk & _ & Hv).
    split; [by apply plain_lower_no_lf|done]. }
  pose proof (register_cid_plain Hc) as Hcid.
  pose proof (register_request_parses c Hc register_cid 2 (Some auth) Hcid Hlf) as Hparse.
  destruct (authenticated_register_run scfg secret (register_msg c register_cid 2 (Some auth)) src w)
    as [Hreply _]; [done|rewrite register_msg_username by done; apply Hc|by apply not_blocked_later|done|].
  destruct (client_register_effect w auth Hc) as [[contact Hrep] _]. rewrite Hrep in Hreply.
  exists auth. split; [exact Hauth|].
  destruct (handle_register _ _ _ _ w) as [r w'] eqn:Eh. cbn [fst snd] in Hreply |- *. subst r.
  unfold answer_challenge.
  change (challenge_params nonce !! "nonce") with (Some nonce).
  change (challenge_params nonce !! "realm") with (Some (sip_domain scfg)).
  change (default (ec_realm c) (Some ?x)) with x. cbv beta iota zeta. rewrite answer_header. fold auth.
  assert (send_raw scfg secret src (build_register_request c register_cid 2 (Some auth)) [] w =
    (Val [Registered], w')) as E; [|by rewrite (bind_val _ _ _ _ _ E)].
  unfold send_raw. pose proof (register_dispatch _ _ _ _ _ Hparse eq_refl Eh) as E.
  rewrite (bind_val _ _ _ _ _ E). cbv beta iota. rewrite registered_event; [done|].
  by apply (register_base_wf c Hc register_cid Hcid 2 (Some auth)).
Qed.

(** The two requests: in between the server has only looked at its guard and drawn a nonce. *)
Lemma register_run cnonce delay w a :
  client_ok c -> plain (sip_domain scfg) -> plain cnonce ->
  w_faults w = [] -> blocked_now w (show_ip (ip src)) = false ->
  w_accounts w !! (ec_username c, sip_domain scfg) = Some a -> ac_enabled a <> 0 ->
  ac_ha1_hash a = Some (md5_hex (ec_username c ++ ":" ++ sip_domain scfg ++ ":" ++ ec_password c)) ->
  0 <= delay -> 0 <= w_now w / 1000000000 < 2 ^ 32 ->
  (w_now w + delay) / 1000000000 - w_now w / 1000000000 < nonce_max_age_secs scfg ->
  exists r auth,
    let w1 := set_now (w_now w + delay) (set_random r (set_guard (prune_expired_blocks (w_now w) (w_guard w)) w)) in
    let msg := register_msg c register_cid 2 (Some auth) in
    authenticated scfg secret w1 msg src /\ blocked_now w1 (show_ip (ip src)) = false /\
    register scfg secret c src cnonce delay [] w = (Val (Ok []), (handle_register scfg secret msg src w1).2).
Proof.
  intros Hc Hd Hcn Hf Hb Hacc Hen Hha Hdelay Hts Hage.
  destruct (first_exchange w Hc Hd Hb) as (g & nonce & r & E & Hgen & Hn & Hg & ->).
  set (w1 := set_now (w_now w + delay)
    (set_random r (set_guard (prune_expired_blocks (w_now w) (w_guard w)) w))).
  destruct (second_exchange w1 nonce cnonce a _ _ Hc Hd Hn Hcn Hf Hg Hgen Hts) as (auth & Hauth & E2); [|done..|].
  { unfold Int.sat_sub. cbn. pose proof (Z.div_le_mono (w_now w) (w_now w + delay) 1000000000). lia. }
  exists r, auth. split_and!; [exact Hauth|by apply not_blocked_later|].
  unfold register. fold register_cid. rewrite (bind_val _ _ _ _ _ E). clear E.
  cbn [recv_matching_event is_register_answer]. rewrite bool_decide_eq_true_2 by done. cbv beta iota.
  rewrite bind_modify. cbn [w_now set_random set_guard]. exact E2.
Qed.

(** C8: the repository's own client registers with the server.  Whoever has a plain extension
    as user name and the password of an enabled account, and whose address is not blocked, gets
    registered: the first REGISTER is answered with a challenge the client can read, the
    digest it computes from it is the one the server wants, the second is answered with 200
    as long as the nonce is young enough, nothing is left in the client's queue, and the table
    holds exactly its address, contact and five minutes of lifetime besides what it held. *)
Theorem client_registers cnonce delay w a :
  client_ok c -> plain (sip_domain scfg) -> plain cnonce ->
  w_faults w = [] -> blocked_now w (show_ip (ip src)) = false ->
  w_accounts w !! (ec_username c, sip_domain scfg) = Some a -> ac_enabled a <> 0 ->
  ac_ha1_hash a = Some (md5_hex (ec_username c ++ ":" ++ sip_domain scfg ++ ":" ++ ec_password c)) ->
  0 <= delay -> 0 <= w_now w / 1000000000 < 2 ^ 32 ->
  (w_now w + delay) / 1000000000 - w_now w / 1000000000 < nonce_max_age_secs scfg ->
  exists w', register scfg secret c src cnonce delay [] w = (Val (Ok []), w') /\
    w_registrations w' = <[(ec_username c, sip_domain scfg) :=
      client_binding ((w_now w + delay) / 1000000000)]> (w_registrations w).
Proof.
  intros Hc Hd Hcn Hf Hb Hacc Hen Hha Hdelay Hts Hage.
  destruct (register_run cnonce delay w a Hc Hd Hcn Hf Hb Hacc Hen Hha Hdelay Hts Hage)
    as (r & auth & Hauth & Hnb & E). rewrite E. eexists. split; [reflexivity|].
  match type of Hauth with authenticated _ _ ?w1 ?msg _ =>
    destruct (authenticated_register_run scfg secret msg src w1) as [_ ->] end;
    [done|rewrite register_msg_username by done; apply Hc|done|done|].
  match goal with |- registered_table _ ?w1 _ _ = _ => by destruct (client_register_effect w1 auth Hc) as [_ ->] end.
Qed.
End registration.

(** ** Examples *)

Definition client_1001 : SipEndpointConfig :=
  {| ec_label := "caller"; ec_host := "sip.example.com"; ec_tls_port := 5061;
     ec_domain := "sip.example.com"; ec_realm := "sip.example.com"; ec_username := "1001";
     ec_password := "pw"; ec_run_token := "t7"; ec_insecure_tls := false |}.

Definition client_world : World := set_accounts {[ ("1001", "sip.example.com") :=
  sample_account 1 (@md5_hex toy_digests "1001:sip.example.com:pw") ]} sample_world.

Lemma client_registers_witness :
  exists w', @register sample_config "s3cret" toy_digests list_order toy_bcrypt toy_webrtc client_1001
      sample_src "0badcafe" 5000000 [] client_world = (Val (Ok []), w') /\
    reg_expires_at <$> w_registrations w' !! ("1001", "sip.example.com") = Some 1700000300.
Proof.
  destruct (@client_registers sample_config "s3cret" toy_digests toy_digests_laws list_order toy_bcrypt
    toy_webrtc client_1001 sample_src "0badcafe" 5000000 client_world
    (sample_account 1 (@md5_hex toy_digests "1001:sip.example.com:pw"))) as (w' & E & Hr);
    [split; by_decide|first [by_decide|vm_compute; reflexivity]..|].
  exists w'. split; [exact E|]. rewrite Hr. by_decide.
Defined.
