(* ===== verification/Scenario.v ===== *)
(** * The call tester: [backend/src/test_client/scenario.rs], [dialog.rs], [rtp_probe.rs],
    [assertions.rs], and the arguments of [bin/headless_call_tester.rs]

    Two clients of [Client] on one server: each has a connection of its own, the messages the
    server sends to a connection become events of its client, and the RTP probes talk through
    the relay of the server. *)

From S2P Require Import Prelude RustStr Net Message Response Stream Forward SecurityGuard Acl.
From S2P Require Import Storage Sdp Media World Gateway Voicemail ConferenceMedia Conference Registrar.
From S2P Require Import HttpApi Accounts Frames Proxy Portal Handler Client.

Open Scope str_scope.
Open Scope Z_scope.

(** ** Outcomes: [assertions.rs] *)

Inductive ScenarioStatus := Passed | Failed.

Record ScenarioOutcome := {
  so_name : str;
  so_status : ScenarioStatus;
  so_detail : str;
  so_caller_rx : Z;
  so_callee_rx : Z;
}.

Definition outcome_pass (name detail : str) : ScenarioOutcome :=
  {| so_name := name; so_status := Passed; so_detail := detail; so_caller_rx := 0; so_callee_rx := 0 |}.

Definition outcome_fail (name detail : str) : ScenarioOutcome :=
  {| so_name := name; so_status := Failed; so_detail := detail; so_caller_rx := 0; so_callee_rx := 0 |}.

Definition with_rtp_counts (caller_rx callee_rx : Z) (o : ScenarioOutcome) : ScenarioOutcome :=
  {| so_name := so_name o; so_status := so_status o; so_detail := so_detail o;
     so_caller_rx := caller_rx; so_callee_rx := callee_rx |}.

Definition outcome_render (o : ScenarioOutcome) : str :=
  "[" ++ match so_status o with Passed => "PASSED" | Failed => "FAILED" end ++ "] " ++
  so_name o ++ ": " ++ so_detail o ++ " (caller_rx=" ++ Str.show_dec (so_caller_rx o) ++
  ", callee_rx=" ++ Str.show_dec (so_callee_rx o) ++ ")".

(** ** The trace of a dialog: [dialog.rs] *)

Inductive DialogState := DIdle | DInviting | DRinging | DAnswered | DEstablished | DTerminated | DCancelled.

Record DialogTrace := {
  dt_call_id : str;
  dt_state : DialogState;
  saw_200_ok : bool;
  saw_ack : bool;
  ack_before_200_ok : bool;
  saw_bye : bool;
}.

Definition trace_new (cid : str) : DialogTrace :=
  {| dt_call_id := cid; dt_state := DIdle; saw_200_ok := false; saw_ack := false;
     ack_before_200_ok := false; saw_bye := false |}.

Definition set_dialog_state (s : DialogState) (t : DialogTrace) : DialogTrace :=
  {| dt_call_id := dt_call_id t; dt_state := s; saw_200_ok := saw_200_ok t; saw_ack := saw_ack t;
     ack_before_200_ok := ack_before_200_ok t; saw_bye := saw_bye t |}.

Definition on_invite_sent (t : DialogTrace) : DialogTrace := set_dialog_state DInviting t.
Definition on_ringing (t : DialogTrace) : DialogTrace := set_dialog_state DRinging t.

Definition on_answered (t : DialogTrace) : DialogTrace :=
  {| dt_call_id := dt_call_id t; dt_state := DAnswered; saw_200_ok := true; saw_ack := saw_ack t;
     ack_before_200_ok := ack_before_200_ok t; saw_bye := saw_bye t |}.

Definition on_ack_sent (t : DialogTrace) : DialogTrace :=
  {| dt_call_id := dt_call_id t;
     dt_state := if saw_200_ok t then DEstablished else dt_state t;
     saw_200_ok := saw_200_ok t; saw_ack := true;
     ack_before_200_ok := if saw_200_ok t then ack_before_200_ok t else true; saw_bye := saw_bye t |}.

Definition on_bye (t : DialogTrace) : DialogTrace :=
  {| dt_call_id := dt_call_id t; dt_state := DTerminated; saw_200_ok := saw_200_ok t;
     saw_ack := saw_ack t; ack_before_200_ok := ack_before_200_ok t; saw_bye := true |}.

Definition require_established (t : DialogTrace) : result unit :=
  if negb (saw_200_ok t) then Err "dialog never received 200 OK"
  else if negb (saw_ack t) then Err "dialog never sent ACK"
  else if ack_before_200_ok t then Err "dialog sent ACK before receiving 200 OK"
  else Ok tt.

(** ** Texts *)

Inductive ScenarioName := TlsRegisterDual | TlsMessageDual | TlsBasicCall | InviteBusyToVm | ConferencePin.

Definition scenario_as_str (s : ScenarioName) : str :=
  match s with
  | TlsRegisterDual => "tls_register_dual"
  | TlsMessageDual => "tls_message_dual"
  | TlsBasicCall => "tls_basic_call"
  | InviteBusyToVm => "invite_busy_to_vm"
  | ConferencePin => "conference_pin"
  end.

Definition scenario_parse (raw : str) : result ScenarioName :=
  if bool_decide (raw = "tls_register_dual") then Ok TlsRegisterDual
  else if bool_decide (raw = "tls_message_dual") then Ok TlsMessageDual
  else if bool_decide (raw = "tls_basic_call") then Ok TlsBasicCall
  else if bool_decide (raw = "invite_busy_to_vm") then Ok InviteBusyToVm
  else if bool_decide (raw = "conference_pin") then Ok ConferencePin
  else Err ("unknown scenario: " ++ raw).

Definition message_event_matches (e : SipEvent) (expected_from expected_body : str) : bool :=
  match e with
  | MessageReceived from bd =>
      bool_decide (bd = expected_body) &&
      bool_decide ((extract_uri from ≫= uri_username) = Some expected_from)
  | _ => false
  end.

Definition require_relay_target (leg : str) (answer_target direct_target : SocketAddr) : result SocketAddr :=
  if bool_decide (answer_target = direct_target)
  then Err ("expected relay target in " ++ leg ++ " SDP, got direct peer target " ++ socket_addr_uri_host_port direct_target)
  else Ok answer_target.

Definition build_audio_sdp (addr : SocketAddr) : str :=
  Str.terminated ["v=0"; "o=- 0 0 IN IP4 " ++ show_ip (ip addr); "s=headless-call-tester";
    "c=IN IP4 " ++ show_ip (ip addr); "t=0 0"; "m=audio " ++ Str.show_dec (port addr) ++ " RTP/AVP 0";
    "a=rtpmap:0 PCMU/8000"; "a=sendrecv"].

Definition build_invite_request (from : SipEndpointConfig) (to_username cid sdp : str) : str :=
  render ("INVITE sip:" ++ to_username ++ "@" ++ ec_domain from ++ " SIP/2.0")
    [("Via", "SIP/2.0/TLS tester.invalid;branch=z9hG4bK-" ++ cid ++ ";rport");
     ("From", "<sip:" ++ ec_username from ++ "@" ++ ec_domain from ++ ">;tag=caller");
     ("To", "<sip:" ++ to_username ++ "@" ++ ec_domain from ++ ">");
     ("Call-ID", cid); ("CSeq", "1 INVITE");
     ("Contact", "<sip:" ++ ec_username from ++ "@" ++ ec_domain from ++ ";transport=tls>");
     ("Content-Type", "application/sdp"); ("Content-Length", Str.show_dec (Str.len sdp))] sdp.

Definition build_invite_response (status_code : Z) (reason cid : str) (sdp : option str) : str :=
  let bd := default "" sdp in
  render ("SIP/2.0 " ++ Str.show_dec status_code ++ " " ++ reason)
    ([("Call-ID", cid); ("CSeq", "1 INVITE")] ++
     match sdp with Some _ => [("Content-Type", "application/sdp")] | None => [] end ++
     [("Content-Length", Str.show_dec (Str.len bd))]) bd.

Definition build_in_dialog_request (mth : str) (from : SipEndpointConfig) (to_username cid : str) (n : Z) : str :=
  render (mth ++ " sip:" ++ to_username ++ "@" ++ ec_domain from ++ " SIP/2.0")
    [("Via", "SIP/2.0/TLS tester.invalid;branch=z9hG4bK-" ++ cid ++ "-" ++ mth ++ ";rport");
     ("From", "<sip:" ++ ec_username from ++ "@" ++ ec_domain from ++ ">;tag=caller");
     ("To", "<sip:" ++ to_username ++ "@" ++ ec_domain from ++ ">;tag=callee");
     ("Call-ID", cid); ("CSeq", Str.show_dec n ++ " " ++ mth);
     ("Contact", "<sip:" ++ ec_username from ++ "@" ++ ec_domain from ++ ";transport=tls>");
     ("Content-Length", "0")] "".

Definition build_bye_ok_response (cid : str) : str :=
  render "SIP/2.0 200 OK" [("Call-ID", cid); ("CSeq", "2 BYE"); ("Content-Length", "0")] "".

(** ** The probes: [rtp_probe.rs] *)

Record RtpProbe := {
  rp_local : SocketAddr;
  rp_peer : option SocketAddr;
  rp_rx : Z;
}.

Definition probe_bind (local : SocketAddr) : RtpProbe := {| rp_local := local; rp_peer := None; rp_rx := 0 |}.
Definition set_peer (peer : SocketAddr) (p : RtpProbe) : RtpProbe :=
  {| rp_local := rp_local p; rp_peer := Some peer; rp_rx := rp_rx p |}.
Definition count_packet (p : RtpProbe) : RtpProbe :=
  {| rp_local := rp_local p; rp_peer := rp_peer p; rp_rx := rp_rx p + 1 |}.
Definition meets_threshold (threshold : Z) (p : RtpProbe) : bool := threshold <=? rp_rx p.

(** The side of a stream whose port this is: the callee sends to the port of its offer. *)
Definition relay_side (p : Z) (st : MediaStreamSession) : option RelaySide :=
  if mp_relay_port_a (ms_ports st) =? p then Some FromCallee
  else if mp_relay_port_b (ms_ports st) =? p then Some FromCaller else None.

(** A packet through the streams of a session: where it goes on to, when it is for this session. *)
Fixpoint relay_streams (src : SocketAddr) (p : Z) (sts : list MediaStreamSession)
    : option (option SocketAddr) * list MediaStreamSession :=
  match sts with
  | [] => (None, [])
  | st :: sts =>
      match relay_side p st with
      | Some side => let '(dst, st) := relay_packet side src st in (Some dst, st :: sts)
      | None => let '(dst, sts) := relay_streams src p sts in (dst, st :: sts)
      end
  end.

(** A packet that arrives at a port of the relay. *)
Definition relay_rtp (src : SocketAddr) (p : Z) (r : MediaRelay) : option SocketAddr * MediaRelay :=
  foldl (fun '(dst, r) '(cid, s) =>
    match relay_streams src p (streams s) with
    | (Some d, sts) =>
        (d, set_sessions r (<[cid := {| streams := sts; created_at := created_at s |}]> (mr_sessions r)))
    | (None, _) => (dst, r)
    end) (None, r) (map_to_list (mr_sessions r)).

(** ** Two clients and a server *)

Record Endpoint := {
  ep_cfg : SipEndpointConfig;
  ep_addr : SocketAddr;
  ep_events : list SipEvent;
  ep_reading : bool;
}.

Record Net := {
  nt_world : World;
  nt_caller : Endpoint;
  nt_callee : Endpoint;
  nt_caller_probe : RtpProbe;
  nt_callee_probe : RtpProbe;
}.

Inductive Party := Caller | Callee.

Definition endpoint (p : Party) (n : Net) : Endpoint :=
  match p with Caller => nt_caller n | Callee => nt_callee n end.

Definition set_endpoint (p : Party) (e : Endpoint) (n : Net) : Net :=
  match p with
  | Caller => {| nt_world := nt_world n; nt_caller := e; nt_callee := nt_callee n;
                 nt_caller_probe := nt_caller_probe n; nt_callee_probe := nt_callee_probe n |}
  | Callee => {| nt_world := nt_world n; nt_caller := nt_caller n; nt_callee := e;
                 nt_caller_probe := nt_caller_probe n; nt_callee_probe := nt_callee_probe n |}
  end.

Definition set_world (w : World) (n : Net) : Net :=
  {| nt_world := w; nt_caller := nt_caller n; nt_callee := nt_callee n;
     nt_caller_probe := nt_caller_probe n; nt_callee_probe := nt_callee_probe n |}.

Definition set_probes (a b : RtpProbe) (n : Net) : Net :=
  {| nt_world := nt_world n; nt_caller := nt_caller n; nt_callee := nt_callee n;
     nt_caller_probe := a; nt_callee_probe := b |}.

Definition set_events (evs : list SipEvent) (e : Endpoint) : Endpoint :=
  {| ep_cfg := ep_cfg e; ep_addr := ep_addr e; ep_events := evs; ep_reading := ep_reading e |}.

(** The reader task of an endpoint takes a message; it dies when it panics. *)
Definition read_text (text : str) (e : Endpoint) : Endpoint :=
  if ep_reading e then
    match parse_event text with
    | Done ev => set_events (ep_events e ++ option_list ev) e
    | Panic => {| ep_cfg := ep_cfg e; ep_addr := ep_addr e; ep_events := ep_events e; ep_reading := false |}
    end
  else e.

(** A message of the server reaches the connection it is for. *)
Definition deliver (n : Net) (m : OutMsg) : Net :=
  if negb (out_stream m) then n
  else if bool_decide (out_dst m = ep_addr (nt_caller n))
  then set_endpoint Caller (read_text (out_text m) (nt_caller n)) n
  else if bool_decide (out_dst m = ep_addr (nt_callee n))
  then set_endpoint Callee (read_text (out_text m) (nt_callee n)) n
  else n.

(** What the server has sent since [old]. *)
Definition deliver_new (old : World) (n : Net) : Net :=
  foldl deliver n (drop (length (w_outbox old)) (w_outbox (nt_world n))).

(** A scenario: it goes on or fails with a message. *)
Definition Sc (A : Type) : Type := Net -> result A * Net.
Definition sc_ret {A} (a : A) : Sc A := fun n => (Ok a, n).
Definition sc_bind {A B} (m : Sc A) (k : A -> Sc B) : Sc B := fun n =>
  match m n with (Ok a, n) => k a n | (Err e, n) => (Err e, n) end.
Definition sc_result {A} (r : result A) : Sc A := fun n => (r, n).
Definition sc_gets {A} (f : Net -> A) : Sc A := fun n => (Ok (f n), n).
Definition sc_modify (f : Net -> Net) : Sc unit := fun n => (Ok tt, f n).

Declare Scope sc_scope.
Notation "x '<--' m ; k" := (sc_bind m (fun x => k))
  (at level 20, m at level 100, k at level 200, right associativity) : sc_scope.
Open Scope sc_scope.

Section scenario.
Context (scfg : Config) (secret : str) `{Digests, HeaderOrder, Bcrypt, WebRtc}.

(** Write on a connection: the server handles the text, answers, and sends what it sends. *)
Definition transmit (p : Party) (raw : str) : Sc unit := fun n =>
  let '(r, w) := handle_tcp_msg scfg secret raw (ep_addr (endpoint p n)) (nt_world n) in
  let n1 := set_world w n in
  let n2 := match r with
            | Val (Some text) => set_endpoint p (read_text text (endpoint p n1)) n1
            | _ => n1
            end in
  (Ok tt, deliver_new (nt_world n) n2).

Definition expect_event (p : Party) (label : str) (pred : SipEvent -> bool) : Sc SipEvent := fun n =>
  match recv_matching_event label pred (ep_events (endpoint p n)) with
  | Ok (e, rest) => (Ok e, set_endpoint p (set_events rest (endpoint p n)) n)
  | Err e => (Err e, n)
  end.

(** An exchange of [Client] on the queue of an endpoint. *)
Definition exchange (p : Party) (m : SipEndpointConfig -> SocketAddr -> list SipEvent -> M (result (list SipEvent)))
    : Sc unit := fun n =>
  let e := endpoint p n in
  match m (ep_cfg e) (ep_addr e) (ep_events e) (nt_world n) with
  | (Val (Ok rest), w) => (Ok tt, deliver_new (nt_world n) (set_endpoint p (set_events rest e) (set_world w n)))
  | (Val (Err err), w) => (Err err, set_world w n)
  | (Fail err, w) => (Err err, set_world w n)
  | (Panicked, w) => (Err "channel closed", set_world w n)
  end.

(** [cnonce]: eight random digits; [delay]: the time on the network. *)
Definition sc_register (p : Party) (cnonce : str) (delay : Z) : Sc unit :=
  exchange p (fun c src => register scfg secret c src cnonce delay).

Definition sc_message (p : Party) (to_username bd : str) : Sc unit :=
  exchange p (fun c src => send_message scfg secret c src to_username bd).

Definition send_packet (p : Party) : Sc unit := fun n =>
  let me := match p with Caller => nt_caller_probe n | Callee => nt_callee_probe n end in
  match rp_peer me with
  | None => (Err "RTP peer not set", n)
  | Some peer =>
      let relayed :=
        if bool_decide (Some (ip peer) = parse_ip (mr_public_ip (w_media_relay (nt_world n))))
        then relay_rtp (rp_local me) (port peer) (w_media_relay (nt_world n))
        else (Some peer, w_media_relay (nt_world n)) in
      let n := set_world (set_media_relay relayed.2 (nt_world n)) n in
      let arrives q := if bool_decide (relayed.1 = Some (rp_local q)) then count_packet q else q in
      (Ok tt, set_probes (arrives (nt_caller_probe n)) (arrives (nt_callee_probe n)) n)
  end.

Fixpoint packet_loop (p : Party) (count : nat) : Sc unit :=
  match count with
  | O => sc_ret tt
  | S count => _ <-- send_packet p; packet_loop p count
  end.

Definition probe (p : Party) (n : Net) : RtpProbe :=
  match p with Caller => nt_caller_probe n | Callee => nt_callee_probe n end.

Definition send_packets (p : Party) (count : nat) : Sc unit :=
  peer <-- sc_gets (fun n => rp_peer (probe p n));
  match peer with
  | None => sc_result (Err "RTP peer not set")
  | Some _ => packet_loop p count
  end.

Definition set_probe (p : Party) (q : RtpProbe) (n : Net) : Net :=
  match p with
  | Caller => set_probes q (nt_callee_probe n) n
  | Callee => set_probes (nt_caller_probe n) q n
  end.

(** The RTP address of a description becomes the peer of a probe, when it is not the other's. *)
Definition aim_probe (p : Party) (leg missing sdp : str) (direct : SocketAddr) : Sc unit :=
  target <-- sc_result (ok_or (sdp_rtp_addr sdp) missing);
  relay <-- sc_result (require_relay_target leg target direct);
  sc_modify (fun n => set_probe p (set_peer relay (probe p n)) n).

Definition is_invite (e : SipEvent) : bool := match e with InviteReceived _ _ _ => true | _ => false end.
Definition is_ringing_of (cid : str) (e : SipEvent) : bool :=
  match e with Client.Ringing c => bool_decide (c = cid) | _ => false end.
Definition is_answer_of (cid : str) (e : SipEvent) : bool :=
  match e with Answered c _ => bool_decide (c = cid) | _ => false end.
Definition is_ack_of (cid : str) (e : SipEvent) : bool :=
  match e with AckReceived c => bool_decide (c = cid) | _ => false end.
Definition is_bye_of (cid : str) (e : SipEvent) : bool :=
  match e with ByeReceived c => bool_decide (c = cid) | _ => false end.
Definition is_bye_ok (e : SipEvent) : bool :=
  match e with OkResponse m => bool_decide (m = "BYE") | _ => false end.

(** The offer of the INVITE the callee got. *)
Definition invite_sdp_of (cid : str) (e : SipEvent) : result str :=
  match e with
  | InviteReceived c _ sdp => if bool_decide (c = cid) then Ok sdp else Err ("unexpected INVITE call-id: " ++ c)
  | _ => Err "unexpected INVITE event"
  end.

Definition answer_sdp_of (e : SipEvent) : result str :=
  match e with Answered _ sdp => Ok sdp | _ => Err "unexpected INVITE answer event" end.

(** From the INVITE to the established dialog. *)
Definition establish (cid : str) : Sc DialogTrace :=
  n <-- sc_gets id;
  let caller := ep_cfg (nt_caller n) in
  let callee := ec_username (ep_cfg (nt_callee n)) in
  let caller_rtp := rp_local (nt_caller_probe n) in
  let callee_rtp := rp_local (nt_callee_probe n) in
  _ <-- transmit Caller (build_invite_request caller callee cid (build_audio_sdp caller_rtp));
  let trace := on_invite_sent (trace_new cid) in
  invite <-- expect_event Callee "INVITE" is_invite;
  invite_sdp <-- sc_result (invite_sdp_of cid invite);
  _ <-- aim_probe Callee "offer" "caller offer missing RTP address" invite_sdp caller_rtp;
  _ <-- transmit Callee (build_invite_response 180 "Ringing" cid None);
  _ <-- expect_event Caller "180 Ringing" (is_ringing_of cid);
  let trace := on_ringing trace in
  _ <-- transmit Callee (build_invite_response 200 "OK" cid (Some (build_audio_sdp callee_rtp)));
  answered <-- expect_event Caller "200 OK" (is_answer_of cid);
  answer_sdp <-- sc_result (answer_sdp_of answered);
  _ <-- aim_probe Caller "answer" "callee answer missing RTP address" answer_sdp callee_rtp;
  let trace := on_answered trace in
  _ <-- transmit Caller (build_in_dialog_request "ACK" caller callee cid 1);
  let trace := on_ack_sent trace in
  _ <-- expect_event Callee "ACK" (is_ack_of cid);
  _ <-- sc_result (require_established trace);
  sc_ret trace.

Definition basic_call_outcome (rtp_threshold : Z) (n : Net) : ScenarioOutcome :=
  let caller_rx := rp_rx (nt_caller_probe n) in
  let callee_rx := rp_rx (nt_callee_probe n) in
  with_rtp_counts caller_rx callee_rx
    (if meets_threshold rtp_threshold (nt_caller_probe n) && meets_threshold rtp_threshold (nt_callee_probe n)
     then outcome_pass "tls_basic_call" "TLS call established with bidirectional RTP"
     else outcome_fail "tls_basic_call"
       ("RTP threshold not met, caller_rx=" ++ Str.show_dec caller_rx ++ " callee_rx=" ++
        Str.show_dec callee_rx ++ " threshold=" ++ Str.show_dec rtp_threshold)).

(** The probes are given fresh sockets; their addresses are the system's choice. *)
Definition run_tls_basic_call (caller_rtp callee_rtp : SocketAddr) (rtp_threshold : Z) : Sc ScenarioOutcome :=
  _ <-- sc_modify (set_probes (probe_bind caller_rtp) (probe_bind callee_rtp));
  n <-- sc_gets id;
  let caller := ep_cfg (nt_caller n) in
  let callee := ec_username (ep_cfg (nt_callee n)) in
  let cid := run_scoped_id ["call"; ec_username caller; callee] (ec_run_token caller) in
  _ <-- establish cid;
  let packet_count := Z.to_nat (Z.max rtp_threshold 8) in
  _ <-- send_packets Caller packet_count;
  _ <-- send_packets Callee packet_count;
  _ <-- transmit Caller (build_in_dialog_request "BYE" caller callee cid 2);
  _ <-- expect_event Callee "BYE" (is_bye_of cid);
  _ <-- transmit Callee (build_bye_ok_response cid);
  _ <-- expect_event Caller "BYE OK" is_bye_ok;
  sc_gets (basic_call_outcome rtp_threshold).

(** The messages of the second scenario. *)
Definition exchange_messages : Sc unit :=
  n <-- sc_gets id;
  let caller := ec_username (ep_cfg (nt_caller n)) in
  let callee := ec_username (ep_cfg (nt_callee n)) in
  _ <-- sc_message Caller callee "hello-from-caller";
  _ <-- expect_event Callee "MESSAGE receipt" (fun e => message_event_matches e caller "hello-from-caller");
  _ <-- sc_message Callee caller "hello-from-callee";
  _ <-- expect_event Caller "MESSAGE receipt" (fun e => message_event_matches e callee "hello-from-callee");
  sc_ret tt.

(** What the system and the network choose. *)
Record Chance := {
  ch_cnonces : str * str;
  ch_delay : Z;
  ch_caller_rtp : SocketAddr;
  ch_callee_rtp : SocketAddr;
}.

Definition register_both (ch : Chance) : Sc unit :=
  _ <-- sc_register Caller (ch_cnonces ch).1 (ch_delay ch);
  sc_register Callee (ch_cnonces ch).2 (ch_delay ch).

Definition run_connected (ch : Chance) (s : ScenarioName) (rtp_threshold : Z) : Sc ScenarioOutcome :=
  match s with
  | TlsRegisterDual =>
      _ <-- register_both ch;
      sc_ret (outcome_pass "tls_register_dual" "both endpoints registered over TLS")
  | TlsMessageDual =>
      _ <-- register_both ch;
      _ <-- exchange_messages;
      sc_ret (outcome_pass "tls_message_dual" "two-way MESSAGE completed over TLS")
  | TlsBasicCall =>
      _ <-- register_both ch;
      run_tls_basic_call (ch_caller_rtp ch) (ch_callee_rtp ch) rtp_threshold
  | InviteBusyToVm =>
      _ <-- register_both ch;
      sc_ret (outcome_pass "invite_busy_to_vm" ("skeleton: both endpoints registered; full busy-to-vm " ++
        "assertion requires DB-seeded voicemail box (TODO)"))
  | ConferencePin =>
      _ <-- sc_register Caller (ch_cnonces ch).1 (ch_delay ch);
      sc_ret (outcome_pass "conference_pin" ("skeleton: caller registered; full PIN flow requires " ++
        "seed of 9-digit conference room (TODO)"))
  end.

(** Both connections are opened first. *)
Definition connect (caller callee : SipEndpointConfig) (caller_addr callee_addr : SocketAddr) (w : World) : Net :=
  let w := (register_stream callee_addr (register_stream caller_addr w).2).2 in
  let fresh c a := {| ep_cfg := c; ep_addr := a; ep_events := []; ep_reading := true |} in
  {| nt_world := w; nt_caller := fresh caller caller_addr; nt_callee := fresh callee callee_addr;
     nt_caller_probe := probe_bind caller_addr; nt_callee_probe := probe_bind callee_addr |}.

Definition run_scenario (ch : Chance) (s : ScenarioName) (rtp_threshold : Z)
    (caller callee : SipEndpointConfig) (caller_addr callee_addr : SocketAddr) (w : World)
    : result ScenarioOutcome * Net :=
  run_connected ch s rtp_threshold (connect caller callee caller_addr callee_addr w).
End scenario.

(** ** The command line: [CliArgs::parse] *)

Record CliArgs := {
  cli_target : str;
  cli_tls_port : Z;
  cli_domain : str;
  cli_realm : str;
  cli_scenario : ScenarioName;
  cli_caller : str;
  cli_caller_password : str;
  cli_callee : str;
  cli_callee_password : str;
  cli_rtp_threshold : Z;
  cli_insecure_tls : bool;
}.

Definition cli_value (args : list str) (key : str) : result str :=
  match list_find (fun a => a = key) args with
  | None => Err ("missing argument: " ++ key)
  | Some (idx, _) => ok_or (args !! S idx) ("missing value for " ++ key)
  end.

Definition cli_parse (args : list str) : result CliArgs :=
  target ← cli_value args "--target";
  tls_port ← (v ← cli_value args "--tls-port"; ok_or (Str.parse_u16 v) "invalid digit found in string");
  domain ← cli_value args "--domain";
  realm ← cli_value args "--realm";
  scenario ← (v ← cli_value args "--scenario"; scenario_parse v);
  caller ← cli_value args "--caller";
  caller_password ← cli_value args "--caller-password";
  callee ← cli_value args "--callee";
  callee_password ← cli_value args "--callee-password";
  threshold ← ok_or (Str.parse_u64 (match cli_value args "--rtp-threshold" with Ok v => v | Err _ => "8" end))
                "invalid digit found in string";
  Ok {| cli_target := target; cli_tls_port := tls_port; cli_domain := domain; cli_realm := realm;
        cli_scenario := scenario; cli_caller := caller; cli_caller_password := caller_password;
        cli_callee := callee; cli_callee_password := callee_password;
        cli_rtp_threshold := threshold; cli_insecure_tls := bool_decide ("--insecure-tls" ∈ args) |}.

(** The two endpoints of a run. *)
Definition cli_endpoints (cli : CliArgs) (run_token : str) : SipEndpointConfig * SipEndpointConfig :=
  let ep label user pw :=
    {| ec_label := label; ec_host := cli_target cli; ec_tls_port := cli_tls_port cli;
       ec_domain := cli_domain cli; ec_realm := cli_realm cli; ec_username := user; ec_password := pw;
       ec_run_token := run_token; ec_insecure_tls := cli_insecure_tls cli |} in
  (ep "caller" (cli_caller cli) (cli_caller_password cli),
   ep "callee" (cli_callee cli) (cli_callee_password cli)).

(** ** Runs *)

Definition client_1002 : SipEndpointConfig :=
  {| ec_label := "callee"; ec_host := "sip.example.com"; ec_tls_port := 5061;
     ec_domain := "sip.example.com"; ec_realm := "sip.example.com"; ec_username := "1002";
     ec_password := "pw2"; ec_run_token := "t7"; ec_insecure_tls := false |}.

Definition two_phones : World := set_accounts {[
  ("1001", "sip.example.com") := sample_account 1 (@md5_hex toy_digests "1001:sip.example.com:pw");
  ("1002", "sip.example.com") := sample_account 2 (@md5_hex toy_digests "1002:sip.example.com:pw2") ]} sample_world.

Definition phone_a : SocketAddr := {| ip := V4 198 51 100 7; port := 50001 |}.
Definition phone_b : SocketAddr := {| ip := V4 198 51 100 8; port := 50002 |}.

Definition a_chance : Chance :=
  {| ch_cnonces := ("0badcafe", "deadbeef"); ch_delay := 5000000;
     ch_caller_rtp := {| ip := V4 127 0 0 1; port := 40001 |};
     ch_callee_rtp := {| ip := V4 127 0 0 1; port := 40002 |} |}.

Definition toy_run (s : ScenarioName) (threshold : Z) : result ScenarioOutcome * Net :=
  @run_scenario sample_config "s3cret" toy_digests list_order toy_bcrypt toy_webrtc a_chance s threshold
    client_1001 client_1002 phone_a phone_b two_phones.

(** Registering and messaging work; the call is made, but its outcome is a failure. *)
Example register_run_passes :
  (toy_run TlsRegisterDual 8).1 = Ok (outcome_pass "tls_register_dual" "both endpoints registered over TLS").
Proof. vm_compute. reflexivity. Qed.

Example message_run_passes :
  (toy_run TlsMessageDual 8).1 = Ok (outcome_pass "tls_message_dual" "two-way MESSAGE completed over TLS").
Proof. vm_compute. reflexivity. Qed.

(** ** Facts: the trace *)

Inductive TraceEvent := EInvite | ERinging | EAnswered | EAck | EBye.

Definition trace_event (t : DialogTrace) (e : TraceEvent) : DialogTrace :=
  match e with
  | EInvite => on_invite_sent t
  | ERinging => on_ringing t
  | EAnswered => on_answered t
  | EAck => on_ack_sent t
  | EBye => on_bye t
  end.

Definition trace_of (cid : str) (es : list TraceEvent) : DialogTrace := foldl trace_event (trace_new cid) es.

#[export] Instance TraceEvent_eq_dec : EqDecision TraceEvent.
Proof. solve_decision. Defined.

Lemma trace_flags cid es :
  let t := trace_of cid es in
  saw_200_ok t = bool_decide (EAnswered ∈ es) /\ saw_ack t = bool_decide (EAck ∈ es) /\
  (ack_before_200_ok t = true <-> exists pre post, es = pre ++ EAck :: post /\ EAnswered ∉ pre).
Proof.
  cbv zeta. induction es as [|e es IH] using rev_ind.
  { split_and!; [done..|]. split; [done|]. by intros ([|] & ? & ? & _). }
  unfold trace_of in *. rewrite foldl_app. cbn [foldl]. set (t := foldl trace_event _ es) in *.
  destruct IH as (H1 & H2 & H3).
  assert (forall x, e <> x -> bool_decide (x ∈ es ++ [e]) = bool_decide (x ∈ es)) as Hkeep.
  { intros x Hx. apply bool_decide_ext. set_solver. }
  assert ((exists pre post, es ++ [e] = pre ++ EAck :: post /\ EAnswered ∉ pre) <->
    (exists pre post, es = pre ++ EAck :: post /\ EAnswered ∉ pre) \/ (e = EAck /\ EAnswered ∉ es)) as Hsnoc.
  { split.
    - intros (pre & post & E & Hp). destruct post as [|x post _] using rev_ind.
      + apply app_inj_tail in E as [-> ->]. by right.
      + rewrite app_comm_cons, app_assoc in E. apply app_inj_tail in E as [-> _]. left. eauto.
    - intros [(pre & post & -> & Hp)|[-> Hp]].
      + exists pre, (post ++ [e]). by rewrite <-app_assoc.
      + by exists es, []. }
  destruct e; cbn [trace_event on_invite_sent on_ringing on_answered on_ack_sent on_bye set_dialog_state
    saw_200_ok saw_ack ack_before_200_ok].
  - rewrite !Hkeep by done. split_and!; [done..|]. rewrite Hsnoc, <-H3. split; [intros; by left|by intros [?|[? _]]].
  - rewrite !Hkeep by done. split_and!; [done..|]. rewrite Hsnoc, <-H3. split; [intros; by left|by intros [?|[? _]]].
  - rewrite (Hkeep EAck) by done. split_and!; [symmetry; apply bool_decide_eq_true_2; set_solver|done|].
    rewrite Hsnoc, <-H3. split; [intros; by left|by intros [?|[? _]]].
  - rewrite (Hkeep EAnswered) by done.
    split_and!; [done|symmetry; apply bool_decide_eq_true_2; set_solver|].
    rewrite Hsnoc, <-H3, H1. destruct (bool_decide_reflect (EAnswered ∈ es)); split; [intros; by left|by intros [?|[_ ?]]|by right|done].
  - rewrite !Hkeep by done. split_and!; [done..|]. rewrite Hsnoc, <-H3. split; [intros; by left|by intros [?|[? _]]].
Qed.

(** A dialog counts as established exactly when it was answered and acknowledged, and never
    acknowledged before the first answer. *)
Theorem established_iff cid es :
  require_established (trace_of cid es) = Ok tt <->
  EAnswered ∈ es /\ EAck ∈ es /\ forall pre post, es = pre ++ EAck :: post -> EAnswered ∈ pre.
Proof.
  destruct (trace_flags cid es) as (H1 & H2 & H3). unfold require_established. rewrite H1, H2.
  destruct (bool_decide_reflect (EAnswered ∈ es)); cbn [negb]; [|by split; [|intros [? _]]].
  destruct (bool_decide_reflect (EAck ∈ es)); cbn [negb]; [|by split; [|intros (_ & ? & _)]].
  destruct (ack_before_200_ok _).
  - split; [done|]. destruct H3 as [(pre & post & -> & Hp) _]; [done|]. intros (_ & _ & Hall).
    destruct Hp. by eapply Hall.
  - split; [|done]. intros _. split_and!; [done..|]. intros pre post ->.
    destruct (decide (EAnswered ∈ pre)) as [|Hp]; [done|]. destruct H3 as [_ H3]. discriminate H3. eauto.
Qed.

(** ** Facts: the probes and the relay *)

Definition all_streams (P : MediaStreamSession -> Prop) (r : MediaRelay) : Prop :=
  map_Forall (fun _ s => Forall P (streams s)) (mr_sessions r).

Section relayed.
Context (P : MediaStreamSession -> Prop) (D : option SocketAddr -> Prop) (src : SocketAddr) (p : Z).
Context (HD : D None).
Context (Hstep : forall st side, P st -> relay_side p st = Some side ->
  D (relay_packet side src st).1 /\ P (relay_packet side src st).2).

Lemma relay_streams_inv sts :
  Forall P sts ->
  from_option D True (relay_streams src p sts).1 /\ Forall P (relay_streams src p sts).2.
Proof using Hstep.
  induction 1 as [|st sts Hst Hs [IH1 IH2]]; [done|]. cbn [relay_streams].
  destruct (relay_side p st) as [side|] eqn:E.
  - destruct (Hstep _ _ Hst E) as [H1 H2]. destruct (relay_packet side src st). cbn in *. auto.
  - destruct (relay_streams src p sts). cbn in *. auto.
Qed.

(** What every packet keeps of the streams, and what is true of where every packet goes. *)
Lemma relay_rtp_inv r :
  all_streams P r ->
  D (relay_rtp src p r).1 /\ all_streams P (relay_rtp src p r).2 /\
  mr_public_ip (relay_rtp src p r).2 = mr_public_ip r.
Proof using HD Hstep.
  intros Hr. unfold relay_rtp.
  match goal with |- context [foldl ?g (None, r)] => set (f := g) end.
  assert (forall l d0 r0, D d0 -> all_streams P r0 ->
    Forall (fun cs : str * MediaSession => Forall P (streams cs.2)) l ->
    D (foldl f (d0, r0) l).1 /\ all_streams P (foldl f (d0, r0) l).2 /\
    mr_public_ip (foldl f (d0, r0) l).2 = mr_public_ip r0) as Hfold.
  { induction l as [|[cid s] l IH]; intros d0 r0 Hd Hr0 Hl; [done|].
    apply Forall_cons in Hl as [Hst Hl]. cbn [foldl].
    assert (f (d0, r0) (cid, s) = match relay_streams src p (streams s) with
      | (Some d, sts) =>
          (d, set_sessions r0 (<[cid := {| streams := sts; created_at := created_at s |}]> (mr_sessions r0)))
      | (None, _) => (d0, r0)
      end) as -> by reflexivity.
    destruct (relay_streams_inv (streams s) Hst) as [H1 H2].
    destruct (relay_streams src p (streams s)) as [[d|] sts]; [|by apply IH].
    destruct (IH d (set_sessions r0 (<[cid := {| streams := sts; created_at := created_at s |}]>
      (mr_sessions r0)))) as (? & ? & ->); [done| |done|done]. by apply map_Forall_insert_2. }
  apply Hfold; [done..|]. apply Forall_forall. intros [cid s] Hin%elem_of_map_to_list. by eapply Hr.
Qed.
End relayed.

(** Before the callee's first packet, between a caller at [a] sending to port [pa] and a callee
    at [b] sending to port [pb]; and after it. *)
Definition unheard (b : SocketAddr) (pa pb : Z) (st : MediaStreamSession) : Prop :=
  callee_rtp st = None /\ caller_rtp st <> Some b /\
  relay_side pa st <> Some FromCallee /\ relay_side pb st <> Some FromCaller.

Definition heard (b : SocketAddr) (pb : Z) (st : MediaStreamSession) : Prop :=
  caller_rtp st <> Some b /\ relay_side pb st <> Some FromCaller.

Lemma caller_packet a b pa pb r :
  a <> b -> all_streams (unheard b pa pb) r ->
  (relay_rtp a pa r).1 = None /\ all_streams (unheard b pa pb) (relay_rtp a pa r).2 /\
  mr_public_ip (relay_rtp a pa r).2 = mr_public_ip r.
Proof.
  intros Hab. apply (relay_rtp_inv _ (fun d => d = None)); [done|]. intros st [] (Hn & Hb & Ha & Hp) E.
  - done.
  - cbn. split; [done|]. split_and!; [done|by intros [= ?]|exact Ha|exact Hp].
Qed.

Lemma callee_packet b pb r :
  all_streams (heard b pb) r ->
  (relay_rtp b pb r).1 <> Some b /\ all_streams (heard b pb) (relay_rtp b pb r).2 /\
  mr_public_ip (relay_rtp b pb r).2 = mr_public_ip r.
Proof.
  apply (relay_rtp_inv _ (fun d => d <> Some b)); [done|]. intros st [] (Hb & Hp) E; [|done].
  cbn. by split.
Qed.

(** Both probes are aimed at ports of the relay. *)
Record aimed (n : Net) (pa pb : SocketAddr) : Prop := {
  am_caller : rp_peer (nt_caller_probe n) = Some pa;
  am_callee : rp_peer (nt_callee_probe n) = Some pb;
  am_ip_a : parse_ip (mr_public_ip (w_media_relay (nt_world n))) = Some (ip pa);
  am_ip_b : parse_ip (mr_public_ip (w_media_relay (nt_world n))) = Some (ip pb);
  am_distinct : rp_local (nt_caller_probe n) <> rp_local (nt_callee_probe n);
}.

(** The callee has received nothing more, and stands where it stood. *)
Definition callee_same (n n' : Net) : Prop :=
  rp_rx (nt_callee_probe n') = rp_rx (nt_callee_probe n) /\
  rp_local (nt_callee_probe n') = rp_local (nt_callee_probe n).

Lemma arrives_fields (d : option SocketAddr) q :
  let q' := if bool_decide (d = Some (rp_local q)) then count_packet q else q in
  rp_local q' = rp_local q /\ rp_peer q' = rp_peer q /\ (d <> Some (rp_local q) -> rp_rx q' = rp_rx q).
Proof. by case_bool_decide. Qed.

Lemma silent_packet n pa pb :
  aimed n pa pb -> all_streams (unheard (rp_local (nt_callee_probe n)) (port pa) (port pb)) (w_media_relay (nt_world n)) ->
  exists n', send_packet Caller n = (Ok tt, n') /\ aimed n' pa pb /\ callee_same n n' /\
    all_streams (unheard (rp_local (nt_callee_probe n)) (port pa) (port pb)) (w_media_relay (nt_world n')).
Proof.
  intros [Ha Hb Hia Hib Hd] Hs. unfold send_packet. rewrite Ha, Hia.
  rewrite (bool_decide_eq_true_2 (Some (ip pa) = Some (ip pa))) by done. cbv zeta.
  destruct (caller_packet _ _ _ _ _ Hd Hs) as (H1 & H2 & H3).
  eexists. split; [reflexivity|]. cbn -[relay_rtp]. rewrite H1. cbn -[relay_rtp].
  split_and!; [|done|done]. split; cbn -[relay_rtp]; by rewrite ?H3.
Qed.

Lemma callee_sends n pa pb :
  aimed n pa pb -> all_streams (heard (rp_local (nt_callee_probe n)) (port pb)) (w_media_relay (nt_world n)) ->
  exists n', send_packet Callee n = (Ok tt, n') /\ aimed n' pa pb /\ callee_same n n' /\
    all_streams (heard (rp_local (nt_callee_probe n)) (port pb)) (w_media_relay (nt_world n')).
Proof.
  intros [Ha Hb Hia Hib Hd] Hs. unfold send_packet. rewrite Hb, Hib.
  rewrite (bool_decide_eq_true_2 (Some (ip pb) = Some (ip pb))) by done. cbv zeta.
  destruct (callee_packet _ _ _ Hs) as (H1 & H2 & H3). destruct (relay_rtp _ _ _) as [d r]. cbn in H1, H2, H3.
  destruct (arrives_fields d (nt_caller_probe n)) as (A1 & A2 & _).
  destruct (arrives_fields d (nt_callee_probe n)) as (B1 & B2 & B3).
  eexists. split; [reflexivity|]. split_and!; [|by split; [apply B3|]|done].
  split; cbn in *; by rewrite ?H3, ?A1, ?A2, ?B1, ?B2.
Qed.

(** A packet step that keeps [Q] gives a run of packets that keeps it. *)
Lemma send_packets_run p (Q : Net -> Prop) n count :
  (forall n, Q n -> is_Some (rp_peer (probe p n))) ->
  (forall n, Q n -> exists n', send_packet p n = (Ok tt, n') /\ Q n' /\ callee_same n n') ->
  Q n -> exists n', send_packets p count n = (Ok tt, n') /\ Q n' /\ callee_same n n'.
Proof.
  intros Hpeer Hstep HQ. unfold send_packets, sc_bind, sc_gets. destruct (Hpeer n HQ) as [peer ->].
  revert n HQ. induction count as [|count IH]; intros n HQ; [by exists n|].
  destruct (Hstep n HQ) as (n1 & E & HQ1 & R1 & L1). cbn [packet_loop]. unfold sc_bind at 1. rewrite E.
  destruct (IH n1 HQ1) as (n2 & E2 & HQ2 & R2 & L2). exists n2. split_and!; [done..|]. split; congruence.
Qed.

(** All the caller's packets, then all the callee's. *)
Lemma media_phase count n pa pb :
  aimed n pa pb -> all_streams (unheard (rp_local (nt_callee_probe n)) (port pa) (port pb)) (w_media_relay (nt_world n)) ->
  exists n', (_ <-- send_packets Caller count; send_packets Callee count) n = (Ok tt, n') /\ callee_same n n'.
Proof.
  intros Ha Hs. set (b := rp_local (nt_callee_probe n)) in *.
  destruct (send_packets_run Caller (fun n => rp_local (nt_callee_probe n) = b /\ aimed n pa pb /\
    all_streams (unheard b (port pa) (port pb)) (w_media_relay (nt_world n))) n count)
    as (n1 & E1 & (Hb1 & Ha1 & Hs1) & R1 & L1); [..|done|].
  { intros m (_ & [H _ _ _ _] & _). by eexists. }
  { intros m (Hb & Hm & Hsm). rewrite <-Hb in Hsm.
    destruct (silent_packet m pa pb Hm Hsm) as (m' & E & ? & [? ?] & Hsm'). rewrite Hb in Hsm'.
    exists m'. split_and!; [done|congruence|done..]. }
  destruct (send_packets_run Callee (fun n => rp_local (nt_callee_probe n) = b /\ aimed n pa pb /\
    all_streams (heard b (port pb)) (w_media_relay (nt_world n))) n1 count)
    as (n2 & E2 & _ & R2 & L2).
  { intros m (_ & [_ H _ _ _] & _). by eexists. }
  { intros m (Hb & Hm & Hsm). rewrite <-Hb in Hsm.
    destruct (callee_sends m pa pb Hm Hsm) as (m' & E & ? & [? ?] & Hsm'). rewrite Hb in Hsm'.
    exists m'. split_and!; [done|congruence|done..]. }
  { split_and!; [done..|]. intros cid s Hs'. eapply Forall_impl; [by eapply Hs1|]. by intros st (_ & ? & _ & ?). }
  exists n2. unfold sc_bind. rewrite E1, E2. split; [done|]. split; congruence.
Qed.

(** Signalling does not touch the probes. *)
Lemma deliver_probes ms n : nt_callee_probe (foldl deliver n ms) = nt_callee_probe n.
Proof.
  revert n. induction ms as [|m ms IH]; intros n; [done|]. cbn [foldl]. rewrite IH. unfold deliver.
  by repeat case_match.
Qed.

Section basic_call.
Context (scfg : Config) (secret : str) `{!Digests, !HeaderOrder, !Bcrypt, !WebRtc}.

Lemma transmit_probes p raw n :
  exists n', transmit scfg secret p raw n = (Ok tt, n') /\ nt_callee_probe n' = nt_callee_probe n.
Proof using.
  unfold transmit. destruct (handle_tcp_msg _ _ _ _ _) as [r w]. eexists. split; [reflexivity|].
  unfold deliver_new. rewrite deliver_probes. by destruct r as [[]| |], p.
Qed.

Lemma expect_probes p label pred n : nt_callee_probe (expect_event p label pred n).2 = nt_callee_probe n.
Proof using. unfold expect_event. repeat case_match; by destruct p. Qed.

(** The tester's call cannot pass.  [run_tls_basic_call] lets the caller send all its packets
    before the callee sends its first, and the relay learns where the callee is from the
    callee's packets only.  So when the call is up, both probes send to ports of the relay and the relay
    has not heard the callee, nothing the caller sends arrives, and whatever follows, an outcome
    for a threshold other than zero is a failure that reports zero packets at the callee. *)
Theorem early_media_is_lost caller_rtp callee_rtp threshold n0 tr n pa pb o n' :
  let fresh := set_probes (probe_bind caller_rtp) (probe_bind callee_rtp) n0 in
  let caller := ep_cfg (nt_caller n0) in
  establish scfg secret
    (run_scoped_id ["call"; ec_username caller; ec_username (ep_cfg (nt_callee n0))] (ec_run_token caller)) fresh
    = (Ok tr, n) ->
  aimed n pa pb -> rp_rx (nt_callee_probe n) = 0 ->
  all_streams (unheard (rp_local (nt_callee_probe n)) (port pa) (port pb)) (w_media_relay (nt_world n)) ->
  1 <= threshold ->
  run_tls_basic_call scfg secret caller_rtp callee_rtp threshold n0 = (Ok o, n') ->
  so_status o = Failed /\ so_callee_rx o = 0.
Proof using.
  intros fresh caller He Ha Hrx Hs Ht. unfold run_tls_basic_call.
  unfold sc_bind at 1 2, sc_modify, sc_gets at 1. cbn [nt_caller nt_callee set_probes id]. fold fresh caller.
  unfold sc_bind at 1. rewrite He.
  destruct (media_phase (Z.to_nat (Z.max threshold 8)) n pa pb Ha Hs) as (n1 & E1 & R1 & _).
  unfold sc_bind in E1 |- *. destruct (send_packets Caller _ n) as [[[]|] m]; [|done]. rewrite E1.
  destruct (transmit_probes Caller (build_in_dialog_request "BYE" caller (ec_username (ep_cfg (nt_callee n0)))
    (run_scoped_id ["call"; ec_username caller; ec_username (ep_cfg (nt_callee n0))] (ec_run_token caller)) 2) n1)
    as (n2 & E2 & C2).
  unfold fresh. cbn [ep_cfg nt_callee nt_caller set_probes]. fold caller. rewrite E2.
  match goal with |- context [expect_event Callee ?l ?f n2] =>
    pose proof (expect_probes Callee l f n2) as C3; destruct (expect_event Callee l f n2) as [[|] n3]; [|done] end.
  match goal with |- context [transmit _ _ Callee ?raw n3] =>
    destruct (transmit_probes Callee raw n3) as (n4 & E4 & C4); rewrite E4 end.
  match goal with |- context [expect_event Caller ?l ?f n4] =>
    pose proof (expect_probes Caller l f n4) as C5; destruct (expect_event Caller l f n4) as [[|] n5]; [|done] end.
  cbn [snd] in *. unfold sc_gets. intros [= <- _]. unfold basic_call_outcome, meets_threshold.
  rewrite C5, C4, C3, C2, R1, Hrx. destruct (Z.leb_spec threshold 0); [lia|]. by rewrite andb_false_r.
Qed.
End basic_call.

(** ** Facts: a message from client to client *)

Lemma body_of_render first fs b :
  Str.LF ∉ first -> first <> [] -> Forall wf_field fs -> body_of (render first fs b) = b.
Proof.
  intros Hf Hne Hfs. pose proof (header_lines_text first fs Hf Hne Hfs) as Ht. unfold body_of. fold crlf2.
  change (render first fs b) with (Str.terminated (first :: map header_line fs ++ [[]]) ++ b).
  rewrite find_crlf2_headers by done. rewrite app_comm_cons, Str.terminated_app, terminated_join.
  rewrite <-!app_assoc.
  change (Str.crlf ++ Str.terminated [[]] ++ b) with ((Str.crlf ++ Str.crlf) ++ b).
  rewrite drop_app_add. by rewrite drop_app_length'.
Qed.

Section message.
Context (scfg : Config) (secret : str) `{!Digests, !DigestLaws, !HeaderOrder, !Bcrypt, !WebRtc}.
Context (c : SipEndpointConfig) (Hc : client_ok c) (to_user : str).
Context (Hto : Forall (fun ch => Str.is_digit ch = true) to_user) (Hto' : to_user <> []).

Definition message_cid : str := run_scoped_id ["message"; ec_username c; to_user] (ec_run_token c).

Lemma message_cid_plain : plain message_cid.
Proof using Hc Hto.
  unfold message_cid, run_scoped_id. cbn [Str.join].
  repeat apply plain_app; try by_decide; [by apply user_plain|by apply digits_plain|apply Hc].
Qed.

Definition message_fields (bd : str) : list (str * str) :=
  [("Via", "SIP/2.0/TLS tester.invalid;branch=z9hG4bK-" ++ message_cid ++ ";rport");
   ("From", "<sip:" ++ ec_username c ++ "@" ++ ec_domain c ++ ">;tag=tester");
   ("To", "<sip:" ++ to_user ++ "@" ++ ec_domain c ++ ">");
   ("Call-ID", message_cid); ("CSeq", Str.show_dec 1 ++ " MESSAGE");
   ("Contact", "<sip:" ++ ec_username c ++ "@" ++ ec_domain c ++ ";transport=tls>");
   ("Content-Type", "text/plain"); ("Content-Length", Str.show_dec (Str.len bd))].

Definition message_line : str := "MESSAGE sip:" ++ to_user ++ "@" ++ ec_domain c ++ " SIP/2.0".

Lemma message_text bd :
  build_message_request c to_user bd message_cid 1 = render message_line (message_fields bd) bd.
Proof. reflexivity. Qed.

Lemma message_line_no_lf : Str.LF ∉ message_line.
Proof using Hc Hto.
  pose proof (digits_plain _ Hto). pose proof (co_domain c Hc). unfold message_line. no_elem.
Qed.

Lemma message_fields_wf bd : Forall wf_field (message_fields bd).
Proof using Hc Hto.
  pose proof message_cid_plain as Hcid. pose proof (digits_plain _ Hto) as Ht.
  pose proof (user_plain c Hc) as Hu. pose proof (co_domain c Hc) as Hd. unfold message_fields.
  repeat (apply Forall_cons; split); [..|apply Forall_nil_2]; (split; [by_decide|cbn [snd]; no_elem]).
Qed.

Definition message_msg (bd : str) : SipMessage :=
  {| method := Some "MESSAGE"; request_uri := Some ("sip:" ++ to_user ++ "@" ++ ec_domain c);
     status_code := None; headers := push_fields ∅ (message_fields bd);
     body := Str.join Str.crlf (Str.lines bd); raw := render message_line (message_fields bd) bd |}.

Lemma message_parses bd : parse (render message_line (message_fields bd) bd) = Ok (message_msg bd).
Proof using Hc Hto.
  pose proof (digits_plain _ Hto) as Ht. pose proof (co_domain c Hc) as Hd.
  rewrite parse_render; [|apply message_line_no_lf|apply elem_of_app; left; by_decide|apply message_fields_wf].
  assert (Str.splitn 3 Str.SP message_line = ["MESSAGE"; "sip:" ++ to_user ++ "@" ++ ec_domain c; "SIP/2.0"])
    as ->; [|done].
  unfold message_line. cbn [Str.splitn].
  change ("MESSAGE sip:" ++ ?x) with ("MESSAGE" ++ Str.SP :: "sip:" ++ x).
  rewrite Str.split_once_app by by_decide.
  assert ("sip:" ++ to_user ++ "@" ++ ec_domain c ++ " SIP/2.0" =
    ("sip:" ++ to_user ++ "@" ++ ec_domain c) ++ Str.SP :: "SIP/2.0") as -> by by rewrite <-!app_assoc.
  rewrite Str.split_once_app; [done|]. no_elem.
Qed.

Lemma message_headers bd :
  message_sender (message_msg bd) = ec_username c /\ message_callee (message_msg bd) = to_user /\
  call_id (message_msg bd) = Some (Str.trim message_cid).
Proof using Hc Hto Hto'.
  split_and!.
  - unfold message_sender, from_header. rewrite (msg_header _ (message_fields bd)) by done.
    transitivity (default "" (header_user (Some (Str.trim ("<sip:" ++ ec_username c ++ "@" ++ ec_domain c ++
      ">" ++ ";tag=tester"))))); [reflexivity|]. by rewrite tagged_user by (done || by_decide).
  - unfold message_callee. cbn [request_uri message_msg mbind option_bind].
    rewrite sip_uri_username by done. by destruct to_user.
  - unfold call_id. rewrite (msg_header _ (message_fields bd)) by done. reflexivity.
Qed.

(** What the server does with it. *)
Lemma message_handled msg src w r target :
  w_faults w = [] -> Str.is_empty (message_sender msg) = false ->
  account_enabled w (message_sender msg) (sip_domain scfg) = true ->
  Str.is_empty (message_callee msg) = false -> message_sender msg <> message_callee msg ->
  w_active_dialogs w !! default "" (call_id msg) = None ->
  live_registration w (message_callee msg) (sip_domain scfg) = Some r ->
  parse_addr (addr_text (reg_source_ip r) (reg_source_port r)) = Some target ->
  exists ms, handle_message scfg msg src w = (Val (build (base_response msg 200 "OK")),
    set_messages ms (send_effect (raw msg) target (refreshed w (message_sender msg) (sip_domain scfg) src))).
Proof using.
  intros Hf Hs Hacc Hcal Hne Hdlg Hreg Hpa. unfold handle_message. cbv zeta.
  fold (message_sender msg). rewrite Hs.
  assert (db_account_exists (message_sender msg) (sip_domain scfg) w = (Val true, w)) as E
    by (unfold db_account_exists; rewrite query_ok by done; unfold gets; by rewrite Hacc).
  rewrite (bind_val _ _ _ _ _ E). cbn [negb]. clear E.
  erewrite bind_val by by apply refresh_run. rewrite Hcal.
  set (w1 := refreshed _ _ _ _).
  assert (forall T (f : World -> T), (forall v w, f (set_registrations v w) = f w) -> f w1 = f w) as Hk
    by (intros; by apply refreshed_keeps).
  assert (w_faults w1 = []) as Hf1 by (by rewrite (Hk _ w_faults)).
  assert (live_registration w1 (message_callee msg) (sip_domain scfg) = Some r) as Hreg1.
  { unfold w1, refreshed, live_registration in *. repeat case_match; try done; cbn in *;
      simplify_eq; rewrite ?lookup_insert_ne in * by congruence; congruence. }
  assert (message_target (default "" (call_id msg)) (message_callee msg) (sip_domain scfg) src w1 =
    (Val (Some target), w1)) as Et.
  { unfold message_target.
    assert ((if Str.is_empty (default "" (call_id msg)) then mret None
      else dialog_target (default "" (call_id msg)) src) w1 = (Val None, w1)) as E.
    { case_match; [done|]. unfold dialog_target, gets. by rewrite (Hk _ w_active_dialogs), Hdlg. }
    rewrite (bind_val _ _ _ _ _ E). unfold lookup_registered_target, db_registration, attempt, mbind, M_bind.
    rewrite query_ok by done. unfold gets. by rewrite Hreg1, Hpa. }
  rewrite (bind_val _ _ _ _ _ Et).
  assert (attempt (send_sip (raw msg) target) w1 = (Val (Some tt), send_effect (raw msg) target w1)) as E
    by (unfold attempt; by rewrite send_sip_run).
  rewrite (bind_val _ _ _ _ _ E). unfold persist_message.
  erewrite bind_val by (unfold ignore, attempt, mbind, M_bind; by rewrite query_ok).
  by eexists.
Qed.

Lemma message_dispatch text msg src w r w' :
  parse text = Ok msg -> method msg = Some "MESSAGE" -> handle_message scfg msg src w = (Val r, w') ->
  handle_tcp_msg scfg secret text src w = (Val (Some r), w').
Proof using.
  intros Hp Hm Hr. unfold handle_tcp_msg, process_sip_msg. rewrite Hp, Hm.
  eapply generic_dispatch; [done..|exact Hr].
Qed.

(** The two texts as the clients read them: the answer, and the message passed on. *)
Lemma message_reply_event bd :
  parse_event (build (base_response (message_msg bd) 200 "OK")) = Done (Some (OkResponse "MESSAGE")).
Proof using Hc Hto.
  pose proof (base_fields_wf (message_msg bd) (parse_no_lf _ _ (message_parses bd))) as Hwf.
  assert (cseq (message_msg bd) = Some "1 MESSAGE") as Hcseq
    by (unfold cseq; by rewrite (msg_header _ (message_fields bd)) by done).
  rewrite base_response_eq. set (b := {| rb_status_code := _ |}).
  assert (header_value_case_insensitive (build b) "CSeq" = Some "1 MESSAGE") as Hh.
  { rewrite build_render. apply (header_value_render _ _ _ _ _ ("CSeq", "1 MESSAGE")); [by_decide|done|reflexivity|].
    cbn [rb_headers b]. revert Hwf. unfold base_fields. rewrite Hcseq. intros _.
    unfold from_header, to_header, call_id, via_headers, all_headers_vec.
    rewrite !(msg_header _ (message_fields bd)) by done. cbn [headers message_msg]. by rewrite push_fields_values. }
  unfold parse_event. rewrite Hh.
  assert (Str.starts_with "SIP/2.0 401" (build b) = false) as -> by reflexivity.
  assert (Str.starts_with "SIP/2.0 200" (build b) = true) as -> by reflexivity. reflexivity.
Qed.

Lemma message_received_event bd :
  exists from, parse_event (render message_line (message_fields bd) bd) = Done (Some (MessageReceived from bd)) /\
    message_event_matches (MessageReceived from bd) (ec_username c) bd = true.
Proof using Hc Hto.
  pose proof (message_fields_wf bd) as Hwf. pose proof message_line_no_lf as Hlf.
  set (from := Str.trim ("<sip:" ++ ec_username c ++ "@" ++ ec_domain c ++ ">;tag=tester")).
  exists from. split.
  - assert (header_value_case_insensitive (render message_line (message_fields bd) bd) "From" = Some from) as Hfrom.
    { rewrite <-(app_nil_r (message_fields bd)).
      apply (header_value_render message_line (message_fields bd) [] bd "From"
        ("From", "<sip:" ++ ec_username c ++ "@" ++ ec_domain c ++ ">;tag=tester")); [done..| |reflexivity].
      unfold message_line. change ("MESSAGE sip:" ++ ?x) with ("MESSAGE sip" ++ ":"%char :: x).
      by rewrite Str.split_once_app by by_decide. }
    unfold parse_event. rewrite Hfrom, body_of_render by done. reflexivity.
  - unfold message_event_matches. rewrite bool_decide_eq_true_2 by done. cbn [andb].
    apply bool_decide_eq_true_2. change (extract_uri from ≫= uri_username) with (header_user (Some from)).
    by apply (tagged_user c Hc ";tag=tester"); by_decide.
Qed.
End message.

(** ** Witnesses *)

Definition toy_up : Net :=
  (@register_both sample_config "s3cret" toy_digests list_order toy_bcrypt toy_webrtc a_chance
     (connect client_1001 client_1002 phone_a phone_b two_phones)).2.

Definition toy_established : result DialogTrace * Net :=
  @establish sample_config "s3cret" toy_digests list_order toy_bcrypt toy_webrtc
    (run_scoped_id ["call"; ec_username (ep_cfg (nt_caller toy_up)); ec_username (ep_cfg (nt_callee toy_up))]
       (ec_run_token (ep_cfg (nt_caller toy_up))))
    (set_probes (probe_bind (ch_caller_rtp a_chance)) (probe_bind (ch_callee_rtp a_chance)) toy_up).

Definition toy_call : result ScenarioOutcome * Net :=
  @run_tls_basic_call sample_config "s3cret" toy_digests list_order toy_bcrypt toy_webrtc
    (ch_caller_rtp a_chance) (ch_callee_rtp a_chance) 8 toy_up.

Definition toy_trace : DialogTrace :=
  {| dt_call_id := "call-1001-1002-t7"; dt_state := DEstablished; saw_200_ok := true; saw_ack := true;
     ack_before_200_ok := false; saw_bye := false |}.

Definition toy_outcome : ScenarioOutcome :=
  with_rtp_counts 8 0 (outcome_fail "tls_basic_call" "RTP threshold not met, caller_rx=8 callee_rx=0 threshold=8").

#[export] Instance RelaySide_eq_dec : EqDecision RelaySide.
Proof. solve_decision. Defined.

#[export] Instance unheard_dec b pa pb st : Decision (unheard b pa pb st).
Proof. unfold unheard. apply _. Defined.

Lemma pair_fst {A B} (p : A * B) a : p.1 = a -> p = (a, p.2).
Proof. by destruct p; intros <-. Qed.

Lemma toy_call_fails : toy_call.1 = Ok toy_outcome.
Proof. vm_compute. reflexivity. Qed.

Lemma toy_is_established : toy_established.1 = Ok toy_trace.
Proof. vm_compute. reflexivity. Qed.

Lemma toy_aimed :
  aimed toy_established.2 {| ip := V4 203 0 113 5; port := 10001 |} {| ip := V4 203 0 113 5; port := 10000 |}.
Proof. split; try (vm_compute; reflexivity). by_decide. Qed.

Lemma toy_unheard :
  rp_rx (nt_callee_probe toy_established.2) = 0 /\
  all_streams (unheard (rp_local (nt_callee_probe toy_established.2)) 10001 10000)
    (w_media_relay (nt_world toy_established.2)).
Proof. split; [vm_compute; reflexivity|]. unfold all_streams. by_decide. Qed.

(** These are compared by name before they are run. *)
Strategy 100 [run_tls_basic_call establish register_both toy_up].

(** The run of the sample phones: both endpoints register, the call is established, and fails. *)
Lemma early_media_is_lost_witness : toy_call.1 = Ok toy_outcome /\ so_status toy_outcome = Failed.
Proof.
  split; [exact toy_call_fails|].
  exact (proj1 (@early_media_is_lost sample_config "s3cret" toy_digests list_order toy_bcrypt toy_webrtc
    (ch_caller_rtp a_chance) (ch_callee_rtp a_chance) 8 toy_up toy_trace toy_established.2
    {| ip := V4 203 0 113 5; port := 10001 |} {| ip := V4 203 0 113 5; port := 10000 |} toy_outcome toy_call.2
    (pair_fst toy_established _ toy_is_established) toy_aimed (proj1 toy_unheard) (proj2 toy_unheard)
    ltac:(lia) (pair_fst toy_call _ toy_call_fails))).
Defined.
