(* ===== verification/EndToEnd.v ===== *)
(** * Two clients on one server

    The scenario [tls_message_dual] of [backend/src/test_client/scenario.rs] from its first byte
    to its outcome: two clients connect, register with digests, and send each other a message
    through the dispatcher, the registrar and the proxy. *)

From S2P Require Import Prelude RustStr Net Message Response Stream Forward SecurityGuard Acl.
From S2P Require Import Storage Sdp Media World Gateway Voicemail Presence ConferenceMedia Conference Registrar.
From S2P Require Import HttpApi Accounts Frames Proxy Portal Handler Client Scenario.

Open Scope str_scope.
Open Scope Z_scope.

Definition other (p : Party) : Party := match p with Caller => Callee | Callee => Caller end.

Definition user (p : Party) (n : Net) : str := ec_username (ep_cfg (endpoint p n)).

Lemma endpoint_set_same p e n : endpoint p (set_endpoint p e n) = e.
Proof. by destruct p. Qed.
Lemma endpoint_set_other p e n : endpoint (other p) (set_endpoint p e n) = endpoint (other p) n.
Proof. by destruct p. Qed.
Lemma endpoint_set_world p w n : endpoint p (set_world w n) = endpoint p n.
Proof. by destruct p. Qed.
Lemma nt_world_set_endpoint p e n : nt_world (set_endpoint p e n) = nt_world n.
Proof. by destruct p. Qed.

#[export] Hint Rewrite endpoint_set_same endpoint_set_other endpoint_set_world nt_world_set_endpoint : endpoint.

(** A message of the server for the connection of [other p]. *)
Lemma deliver_other p n dst text :
  ep_addr (endpoint p n) <> dst -> ep_addr (endpoint (other p) n) = dst ->
  deliver n {| out_dst := dst; out_stream := true; out_text := text |} =
  set_endpoint (other p) (read_text text (endpoint (other p) n)) n.
Proof.
  intros Ha Hb. unfold deliver. cbn [negb out_stream out_dst out_text].
  destruct p; cbn [endpoint other] in *.
  - by rewrite bool_decide_eq_false_2, bool_decide_eq_true_2 by congruence.
  - by rewrite bool_decide_eq_true_2 by congruence.
Qed.

(** When the server sends nothing beyond its answer. *)
Lemma deliver_nothing old n : w_outbox (nt_world n) = w_outbox old -> deliver_new old n = n.
Proof. intros E. unfold deliver_new. by rewrite E, drop_all. Qed.

Section dual.
Context (scfg : Config) (secret : str) `{!Digests, !DigestLaws, !HeaderOrder, !Bcrypt, !WebRtc}.

(** ** Messages *)

(** Both parties are registered at their open connections, listen, and have nothing unread. *)
Record both_up (n : Net) : Prop := {
  up_faults : w_faults (nt_world n) = [];
  up_client p : client_ok (ep_cfg (endpoint p n));
  up_users p : user p n <> user (other p) n;
  up_account p : account_enabled (nt_world n) (user p n) (sip_domain scfg) = true;
  up_binding p : exists r, live_registration (nt_world n) (user p n) (sip_domain scfg) = Some r /\
    reg_source_port r = port (ep_addr (endpoint p n)) /\
    parse_addr (addr_text (reg_source_ip r) (reg_source_port r)) = Some (ep_addr (endpoint p n));
  up_open p : w_registry (nt_world n) !! ep_addr (endpoint p n) = Some true;
  up_addr p : ep_addr (endpoint p n) <> ep_addr (endpoint (other p) n);
  up_reading p : ep_reading (endpoint p n) = true;
  up_quiet p : ep_events (endpoint p n) = [];
  up_dialogs p : w_active_dialogs (nt_world n) !!
    Str.trim (message_cid (ep_cfg (endpoint p n)) (user (other p) n)) = None;
}.

(** A message between two clients arrives as it was sent: [send_message] succeeds, and the other
    side's queue gets exactly one event, a message that the scenario takes for one from that
    user with that body, whatever the body. *)
Lemma message_reaches_endpoint p n bd :
  both_up n ->
  exists ms m ev, sc_message scfg secret p (user (other p) n) bd n =
      (Ok tt, set_endpoint (other p) (set_events [ev] (endpoint (other p) n))
         (set_world (set_messages ms (set_outbox m (nt_world n))) n)) /\
    message_event_matches ev (user p n) bd = true.
Proof using.
  intros Hup. set (c := ep_cfg (endpoint p n)). set (to := user (other p) n). set (w := nt_world n).
  pose proof (up_client n Hup p) as Hc. pose proof (up_client n Hup (other p)) as Hc'.
  pose proof (co_digits _ Hc' : Forall (fun ch => Str.is_digit ch = true) to) as Hto.
  pose proof (co_user _ Hc' : to <> []) as Hto'.
  destruct (message_headers c Hc to Hto Hto' bd) as (Hs & Hcal & Hcid).
  destruct (message_received_event c Hc to Hto bd) as (from & Hev & Hm).
  destruct (up_binding n Hup (other p)) as (r & Hreg & _ & Hpa).
  destruct (up_binding n Hup p) as (rs & Hregs & Hport & _).
  destruct (message_handled scfg (message_msg c to bd) (ep_addr (endpoint p n)) w r (ep_addr (endpoint (other p) n)))
    as (ms & Eh); rewrite ?Hs, ?Hcal, ?Hcid; try done; try apply Hup.
  { pose proof (co_user c Hc). by destruct (ec_username c). }
  { by destruct to. }
  assert (refreshed w (message_sender (message_msg c to bd)) (sip_domain scfg) (ep_addr (endpoint p n)) = w) as Hrf.
  { unfold refreshed. rewrite Hs. change (ec_username c) with (user p n). unfold w. rewrite Hregs. unfold should_refresh_registration_source.
    by rewrite Hport, Z.eqb_refl, andb_false_r. }
  rewrite Hrf in Eh. unfold send_effect in Eh.
  set (m := w_outbox w ++ _) in Eh. set (w' := set_messages _ _) in Eh.
  pose proof (message_dispatch scfg secret _ _ _ _ _ _ (message_parses c Hc to Hto bd) eq_refl Eh) as Ed.
  assert (send_message scfg secret c (ep_addr (endpoint p n)) to bd [] w = (Val (Ok []), w')) as E.
  { unfold send_message. fold (message_cid c to). rewrite message_text.
    assert (send_raw scfg secret (ep_addr (endpoint p n)) (render (message_line c to) (message_fields c to bd) bd) [] w =
      (Val [OkResponse "MESSAGE"], w')) as E; [|by rewrite (bind_val _ _ _ _ _ E)].
    unfold send_raw. rewrite (bind_val _ _ _ _ _ Ed). cbv beta iota. by rewrite message_reply_event. }
  exists ms, m, (MessageReceived from bd). split; [|exact Hm].
  unfold sc_message, exchange. cbv zeta. fold c w. rewrite (up_quiet n Hup p), E. f_equal.
  assert (set_endpoint p (set_events [] (endpoint p n)) (set_world w' n) = set_world w' n) as ->.
  { pose proof (up_quiet n Hup p) as Hq. destruct n as [wn [] [] ? ?], p; cbn in *; by subst. }
  unfold deliver_new. fold w. change (w_outbox (nt_world (set_world w' n))) with m. unfold m.
  rewrite drop_app_length. cbn [foldl]. unfold w. rewrite (up_open n Hup (other p)). cbn [default from_option].
  rewrite (deliver_other p) by (autorewrite with endpoint; first [apply Hup|done]).
  autorewrite with endpoint. unfold read_text. rewrite (up_reading n Hup (other p)).
  change (raw (message_msg c to bd)) with (render (message_line c to) (message_fields c to bd) bd). rewrite Hev.
  rewrite (up_quiet n Hup (other p)). unfold w', m, w.
  by rewrite (up_open n Hup (other p)).
Qed.

(** ... and is taken out of the queue by the wait for it: everything is as before, but for the
    stored messages. *)
Lemma message_step p n bd :
  both_up n ->
  exists n', (_ <-- sc_message scfg secret p (user (other p) n) bd;
              _ <-- expect_event (other p) "MESSAGE receipt" (fun e => message_event_matches e (user p n) bd);
              sc_ret tt) n = (Ok tt, n') /\
    both_up n' /\ (forall q, endpoint q n' = endpoint q n).
Proof using.
  intros Hup. destruct (message_reaches_endpoint p n bd Hup) as (ms & m & ev & E & Hm).
  unfold sc_bind. rewrite E. unfold expect_event, sc_ret. autorewrite with endpoint. cbn [ep_events set_events].
  assert (recv_matching_event "MESSAGE receipt" (fun e => message_event_matches e (user p n) bd) [ev] = Ok (ev, []))
    as ->.
  { cbn. destruct ev; try done. by rewrite Hm. }
  set (n' := set_endpoint _ _ _). exists n'.
  assert (forall q, endpoint q n' = endpoint q n) as Hends.
  { pose proof (up_quiet n Hup p) as Hq1. pose proof (up_quiet n Hup (other p)) as Hq2. intros q. unfold n'.
    destruct p, q, n as [wn [] [] ? ?]; cbn in *; by subst. }
  split_and!; [done| |done].
  assert (nt_world n' = set_messages ms (set_outbox m (nt_world n))) as Hw
    by (unfold n'; by autorewrite with endpoint).
  split; unfold user; intros; rewrite ?Hw, ?Hends; apply Hup.
Qed.

Lemma exchange_messages_pass n :
  both_up n -> exists n', exchange_messages scfg secret n = (Ok tt, n') /\ both_up n'.
Proof using.
  intros Hup. destruct (message_step Caller n "hello-from-caller" Hup) as (n1 & E1 & Hup1 & Hends1).
  destruct (message_step Callee n1 "hello-from-callee" Hup1) as (n2 & E2 & Hup2 & _).
  exists n2. split; [|done]. unfold exchange_messages. unfold sc_bind at 1, sc_gets at 1. cbn [id].
  unfold user in E1, E2. rewrite !Hends1 in E2. cbn [endpoint other] in E1, E2. revert E1 E2. unfold sc_bind.
  destruct (sc_message scfg secret Caller _ _ n) as [[[]|] m1]; [|done].
  destruct (expect_event Callee _ _ m1) as [[|] m2]; [|done]. cbn. intros [= ->].
  destruct (sc_message scfg secret Callee _ _ n1) as [[[]|] m3]; [|done].
  by destruct (expect_event Caller _ _ m3) as [[|] m4].
Qed.

(** ** Registering *)

(** What the registration of a client leaves as it was. *)
Record settled (c : SipEndpointConfig) (src : SocketAddr) (delay : Z) (w w' : World) : Prop := {
  se_faults : w_faults w' = [];
  se_outbox : w_outbox w' = w_outbox w;
  se_accounts : w_accounts w' = w_accounts w;
  se_registry : w_registry w' = w_registry w;
  se_dialogs : w_active_dialogs w' = w_active_dialogs w;
  se_subs : w_presence_subs w' = w_presence_subs w;
  se_now : w_now w' = w_now w + delay;
  se_table : w_registrations w' = <[(ec_username c, sip_domain scfg) :=
    client_binding c src ((w_now w + delay) / 1000000000)]> (w_registrations w);
  se_blocks ip : blocked_now w ip = false -> blocked_now w' ip = false;
}.

(** What a client needs to register. *)
Record registrable (c : SipEndpointConfig) (src : SocketAddr) (w : World) : Prop := {
  rg_client : client_ok c;
  rg_free : blocked_now w (show_ip (ip src)) = false;
  rg_account : exists a, w_accounts w !! (ec_username c, sip_domain scfg) = Some a /\ ac_enabled a = 1 /\
    ac_ha1_hash a = Some (md5_hex (ec_username c ++ ":" ++ sip_domain scfg ++ ":" ++ ec_password c));
  rg_unwatched : unwatched w (ec_username c);
}.

Lemma register_settles c src cnonce delay w :
  registrable c src w -> plain (sip_domain scfg) -> plain cnonce -> w_faults w = [] ->
  0 <= delay -> 0 <= w_now w / 1000000000 < 2 ^ 32 ->
  (w_now w + delay) / 1000000000 - w_now w / 1000000000 < nonce_max_age_secs scfg ->
  exists w', register scfg secret c src cnonce delay [] w = (Val (Ok []), w') /\ settled c src delay w w'.
Proof.
  intros [Hc Hb (a & Hacc & Hen & Hha) Hun] Hd Hcn Hf Hdelay Hts Hage.
  destruct (register_run scfg secret c src cnonce delay w a Hc Hd Hcn Hf Hb Hacc) as (r & auth & Hauth & Hnb & E);
    [lia|done..|]. rewrite E. eexists. split; [reflexivity|].
  set (w1 := set_now _ _) in *. set (msg := register_msg _ _ _ _) in *.
  pose proof (register_msg_username c Hc (register_cid c) 2 (Some auth)) as Hu. fold msg in Hu.
  destruct (authenticated_register_world scfg secret msg src w1) as (g & e & d & Hw & Hg);
    [done|rewrite Hu; apply Hc|by rewrite Hu|done|done|by apply client_register_keeps|].
  rewrite Hw. destruct (client_register_effect scfg c src w1 auth Hc) as [_ Htab]. fold msg in Htab.
  split; try reflexivity; [exact Hf|cbn; exact Htab|].
  intros i Hi. apply not_blocked_later. cbn. rewrite Hg. cbn.
  unfold blocked_now, is_blocked in Hi. cbn [fst] in Hi. apply bool_decide_eq_false, eq_None_not_Some in Hi.
  apply map_lookup_filter_None. left. exact Hi.
Qed.

Lemma register_step p n cnonce delay :
  let e := endpoint p n in
  registrable (ep_cfg e) (ep_addr e) (nt_world n) -> ep_events e = [] ->
  plain (sip_domain scfg) -> plain cnonce -> w_faults (nt_world n) = [] ->
  0 <= delay -> 0 <= w_now (nt_world n) / 1000000000 < 2 ^ 32 ->
  (w_now (nt_world n) + delay) / 1000000000 - w_now (nt_world n) / 1000000000 < nonce_max_age_secs scfg ->
  exists w', sc_register scfg secret p cnonce delay n = (Ok tt, set_world w' n) /\
    settled (ep_cfg e) (ep_addr e) delay (nt_world n) w'.
Proof.
  intros e Hr Hq Hd Hcn Hf Hdelay Hts Hage.
  destruct (register_settles _ _ cnonce delay _ Hr Hd Hcn Hf Hdelay Hts Hage) as (w' & E & Hse).
  exists w'. split; [|done]. unfold sc_register, exchange. cbv zeta. fold e. rewrite Hq, E. f_equal.
  rewrite deliver_nothing by (autorewrite with endpoint; apply Hse).
  unfold e in *. destruct n as [wn [] [] ? ?], p; cbn in *; by subst.
Qed.
(** ** The whole run *)

(** The address the server routes to is the one the client is at, when that is an IPv4 one. *)
Lemma binding_routes c src now :
  is_v4 (ip src) = true -> wf_addr src ->
  parse_addr (addr_text (reg_source_ip (client_binding c src now)) (reg_source_port (client_binding c src now))) =
  Some src.
Proof using.
  destruct src as [[x y z t|] prt]; [|done]. intros _ [Hi Hp]. by apply parse_addr_v4.
Qed.

Lemma div_gap t delay : 0 <= delay -> (t + delay) / 1000000000 - t / 1000000000 <= delay / 1000000000 + 1.
Proof using. intros. div_lia. Qed.

(** The connections are open, nothing else is different. *)
Lemma connect_world c1 c2 a b w :
  nt_world (connect c1 c2 a b w) = set_registry (<[b := true]> (<[a := true]> (w_registry w))) w.
Proof using. by destruct w. Qed.

Context (ch : Chance) (caller callee : SipEndpointConfig) (a b : SocketAddr) (w : World).

(** The conditions of a run: two different users with enabled accounts whose passwords they
    know, from two IPv4 addresses that are not blocked; a network fast enough for neither a
    nonce nor a registration to run out; and a database that answers. *)
Record run_ok : Prop := {
  ro_caller : registrable caller a w;
  ro_callee : registrable callee b w;
  ro_users : ec_username caller <> ec_username callee;
  ro_a : is_v4 (ip a) = true /\ wf_addr a;
  ro_b : is_v4 (ip b) = true /\ wf_addr b;
  ro_ab : a <> b;
  ro_domain : plain (sip_domain scfg);
  ro_cnonces : plain (ch_cnonces ch).1 /\ plain (ch_cnonces ch).2;
  ro_faults : w_faults w = [];
  ro_delay : 0 <= ch_delay ch < 299000000000;
  ro_nonce : ch_delay ch / 1000000000 + 1 < nonce_max_age_secs scfg;
  ro_clock : 0 <= w_now w /\ (w_now w + ch_delay ch) / 1000000000 < 2 ^ 32;
  ro_dialogs : w_active_dialogs w !! Str.trim (message_cid caller (ec_username callee)) = None /\
    w_active_dialogs w !! Str.trim (message_cid callee (ec_username caller)) = None;
}.

(** After both registrations everybody can be reached. *)
Lemma settled_both_up w1 w2 :
  run_ok -> let n0 := connect caller callee a b w in
  settled caller a (ch_delay ch) (nt_world n0) w1 -> settled callee b (ch_delay ch) w1 w2 ->
  both_up (set_world w2 n0).
Proof.
  intros Hrun n0 [_ _ A1 R1 D1 _ N1 T1 _] [F2 _ A2 R2 D2 _ N2 T2 _].
  unfold n0 in *. rewrite connect_world in *. cbn in A1, R1, D1, N1, T1.
  destruct (ro_delay Hrun) as [Hd0 Hd1].
  pose proof (ro_users Hrun) as Hus. pose proof (ro_ab Hrun) as Hab. split; cbn [nt_world set_world].
  - exact F2.
  - intros []; apply Hrun.
  - intros []; [exact Hus|by apply not_eq_sym].
  - destruct (ro_caller Hrun) as [_ _ (a1 & Ha1 & He1 & _) _], (ro_callee Hrun) as [_ _ (a2 & Ha2 & He2 & _) _].
    unfold account_enabled. intros []; rewrite A2, A1.
    + change (user _ _) with (ec_username caller). rewrite Ha1. by apply Z.eqb_eq.
    + change (user _ _) with (ec_username callee). rewrite Ha2. by apply Z.eqb_eq.
  - intros p. unfold live_registration. rewrite T2, N2, T1, N1.
    pose proof (div_gap (w_now w + ch_delay ch) (ch_delay ch) Hd0).
    assert (ch_delay ch / 1000000000 < 299) by (apply Z.div_lt_upper_bound; lia).
    destruct p; cbn [user endpoint].
    + rewrite lookup_insert_ne, lookup_insert_eq by (intros [= ?]; by apply Hus).
      cbn [reg_expires_at client_binding]. rewrite (proj2 (Z.ltb_lt _ _)) by lia.
      eexists. split; [reflexivity|]. split; [done|apply binding_routes; apply Hrun].
    + rewrite lookup_insert_eq. cbn [reg_expires_at client_binding]. rewrite (proj2 (Z.ltb_lt _ _)) by lia.
      eexists. split; [reflexivity|]. split; [done|apply binding_routes; apply Hrun].
  - intros p. rewrite R2, R1. destruct p; cbn; [by rewrite lookup_insert_ne, lookup_insert_eq|].
    by rewrite lookup_insert_eq.
  - intros []; cbn; congruence.
  - by intros [].
  - by intros [].
  - destruct (ro_dialogs Hrun). intros []; cbn; by rewrite D2, D1.
Qed.

Lemma register_both_up :
  run_ok -> exists n, register_both scfg secret ch (connect caller callee a b w) = (Ok tt, n) /\ both_up n.
Proof.
  intros Hrun. destruct (ro_delay Hrun) as [Hd0 _]. destruct (ro_clock Hrun) as [Ht0 Ht1].
  set (n0 := connect caller callee a b w). set (t0 := w_now w) in *. set (delay := ch_delay ch) in *.
  pose proof (connect_world caller callee a b w : nt_world n0 = _) as Hw0.
  pose proof (div_gap t0 delay Hd0). pose proof (div_gap (t0 + delay) delay Hd0).
  pose proof (ro_nonce Hrun) as Hnm. fold delay in Hnm.
  assert (0 <= t0 / 1000000000) by (apply Z.div_pos; lia).
  pose proof (Z.div_le_mono t0 (t0 + delay) 1000000000).
  destruct (register_step Caller n0 (ch_cnonces ch).1 delay) as (w1 & E1 & S1); rewrite ?Hw0;
    [|done|apply Hrun|apply Hrun|apply Hrun|done|cbn; fold t0; lia|cbn; fold t0; lia|].
  { destruct (ro_caller Hrun) as [? ? ? ?]. by split. }
  destruct (register_step Callee (set_world w1 n0) (ch_cnonces ch).2 delay) as (w2 & E2 & S2);
    cbn [endpoint nt_callee set_world nt_world] in *;
    [|done|apply Hrun|apply Hrun|apply S1|done|rewrite (se_now _ _ _ _ _ S1), Hw0; cbn; fold t0; lia
     |rewrite (se_now _ _ _ _ _ S1), Hw0; cbn; fold t0; lia|].
  { destruct (ro_callee Hrun) as [? Hb Ha Hu]. split; [done| | |].
    - apply S1. by rewrite Hw0.
    - by rewrite (se_accounts _ _ _ _ _ S1), Hw0.
    - unfold unwatched. by rewrite (se_subs _ _ _ _ _ S1), Hw0. }
  exists (set_world w2 n0). unfold register_both, sc_bind. fold n0 delay. rewrite E1, E2. split; [done|].
  by apply (settled_both_up w1 w2).
Qed.

(** C34: two clients reach each other.  On a server that has accounts for two users, whatever else
    it holds, the scenarios [tls_register_dual] and [tls_message_dual] of the tester pass: both
    clients connect and complete the digest exchange, each one's message is routed to the
    other's connection and recognised there, and at the end both are registered at their
    connections with nothing left unread. *)
Theorem message_scenario_passes threshold :
  run_ok ->
  (exists n, run_scenario scfg secret ch TlsRegisterDual threshold caller callee a b w =
     (Ok (outcome_pass "tls_register_dual" "both endpoints registered over TLS"), n) /\ both_up n) /\
  (exists n, run_scenario scfg secret ch TlsMessageDual threshold caller callee a b w =
     (Ok (outcome_pass "tls_message_dual" "two-way MESSAGE completed over TLS"), n) /\ both_up n).
Proof.
  intros Hrun. destruct (register_both_up Hrun) as (n & E & Hup).
  destruct (exchange_messages_pass n Hup) as (n' & E' & Hup').
  unfold run_scenario, run_connected, sc_bind. rewrite E, E'. split; [by exists n|by exists n'].
Qed.
End dual.

(** The sample phones. *)
Lemma message_scenario_passes_witness :
  (exists n, toy_run TlsMessageDual 8 =
     (Ok (outcome_pass "tls_message_dual" "two-way MESSAGE completed over TLS"), n) /\
   both_up sample_config n).
Proof.
  apply (@message_scenario_passes sample_config "s3cret" toy_digests toy_digests_laws list_order toy_bcrypt
    toy_webrtc a_chance client_1001 client_1002 phone_a phone_b two_phones 8).
  split.
  1: split; [split; by_decide|by_decide|eexists; split_and!; [vm_compute; reflexivity|..]; by_decide|].
  2: split; [split; by_decide|by_decide|eexists; split_and!; [vm_compute; reflexivity|..]; by_decide|].
  1,2: intros k row E; vm_compute in E; discriminate E.
  all: first [by_decide | split; by_decide | vm_compute; reflexivity].
Defined.
