(* ===== verification/Testing.v ===== *)
(** * Checks for the repository's own tests

    The files [SipTests], [MediaTests], [ServiceTests] and [ClientTests] hold the unit tests of
    the sources, one definition each, under the names and with the inputs they have there, and
    run them on the definitions of this development.  This file has what [assert!],
    [assert_eq!], [expect] and [unwrap] come to. *)

From S2P Require Import Prelude RustStr Message.

Open Scope str_scope.
Open Scope Z_scope.

(** [assert_eq!] *)
Definition check_eq {A} `{EqDecision A} (a b : A) : bool := bool_decide (a = b).

Declare Scope test_scope.
Infix "==?" := check_eq (at level 70, no associativity) : test_scope.

(** The assertions of a test, in order. *)
Definition all (checks : list bool) : bool := forallb id checks.

Definition isSome {A} (x : option A) : bool := match x with Some _ => true | None => false end.
Definition isOk {A} (x : result A) : bool := match x with Ok _ => true | Err _ => false end.
Definition isEmpty {A} (l : list A) : bool := match l with [] => true | _ => false end.
Definition len {A} (l : list A) : Z := Z.of_nat (length l).

(** The rest of a test after [expect] or [unwrap]: what is missing fails the test. *)
Definition on_some {A} (x : option A) (k : A -> bool) : bool := match x with Some a => k a | None => false end.
Definition on_ok {A} (x : result A) (k : A -> bool) : bool := match x with Ok a => k a | Err _ => false end.
Definition on_err {A} (x : result A) (k : str -> bool) : bool := match x with Ok _ => false | Err e => k e end.
Definition on_value {A} (x : outcome A) (k : A -> bool) : bool := match x with Done a => k a | Panic => false end.

(** A text with quotation marks between its parts. *)
Definition dq (parts : list str) : str := Str.join [Str.DQUOTE] parts.

#[export] Instance result_eq_dec `{EqDecision A} : EqDecision (result A).
Proof. solve_decision. Defined.
#[export] Instance outcome_eq_dec `{EqDecision A} : EqDecision (outcome A).
Proof. solve_decision. Defined.
