(* ===== verification/SipTests.v ===== *)
(** * Tests of SIP messages

    The tests of [backend/src/sip/message.rs] and [backend/src/sip/response.rs], but for those
    of the digest function, which is a parameter here. *)

From S2P Require Import Prelude RustStr Message Response Testing.

Open Scope str_scope.
Open Scope Z_scope.
Open Scope test_scope.

(** [backend/src/sip/message.rs] *)
Module message_tests.

Definition test_parse_register_request : bool :=
  let raw := Str.terminated ["REGISTER sip:sip.example.com SIP/2.0";
      "Via: SIP/2.0/UDP 192.168.1.100:5060;branch=z9hG4bK776asdhds";
      "From: Alice <sip:alice@sip.example.com>;tag=1928301774";
      "To: Alice <sip:alice@sip.example.com>"; "Call-ID: a84b4c76e66710@192.168.1.100";
      "CSeq: 314159 REGISTER"; "Contact: <sip:alice@192.168.1.100:5060>"; "Expires: 3600";
      "Content-Length: 0"; ""] in
  on_ok (parse raw) (fun msg =>
  all [(method msg) ==? (Some "REGISTER");
    isSome (header msg "via");
    isSome (from_header msg);
    isSome (to_header msg);
    (call_id msg) ==? (Some "a84b4c76e66710@192.168.1.100");
    (expires msg) ==? (Some 3600)]).

Definition test_parse_invite_request : bool :=
  let raw := (Str.terminated ["INVITE sip:bob@sip.example.com SIP/2.0";
      "Via: SIP/2.0/UDP 192.168.1.100:5060;branch=z9hG4bK74bf9";
      "From: Alice <sip:alice@sip.example.com>;tag=9fxced76sl";
      "To: Bob <sip:bob@sip.example.com>"; "Call-ID: 3848276298220188511@192.168.1.100";
      "CSeq: 314159 INVITE"; "Contact: <sip:alice@192.168.1.100:5060>";
      "Content-Type: application/sdp"; "Content-Length: 4"; ""] ++ "Test") in
  on_ok (parse raw) (fun msg =>
  all [(method msg) ==? (Some "INVITE");
    (request_uri msg) ==? (Some "sip:bob@sip.example.com");
    isSome (header msg "content-type");
    (body msg) ==? "Test"]).

Definition test_parse_sip_response : bool :=
  let raw := Str.terminated ["SIP/2.0 180 Ringing";
      "Via: SIP/2.0/UDP sip.example.com;branch=z9hG4bKproxy123";
      "Via: SIP/2.0/UDP 192.168.1.100:5060;branch=z9hG4bKorig";
      "From: Alice <sip:alice@sip.example.com>;tag=abc";
      "To: Bob <sip:bob@sip.example.com>;tag=xyz"; "Call-ID: test-call@192.168.1.100";
      "CSeq: 1 INVITE"; "Content-Length: 0"; ""] in
  on_ok (parse raw) (fun msg =>
  all [negb (isSome (method msg));
    (status_code msg) ==? (Some 180);
    (len (via_headers msg)) ==? 2]).

Definition test_parse_message_request : bool :=
  let raw := (Str.terminated ["MESSAGE sip:1002@sip.example.com SIP/2.0";
      "Via: SIP/2.0/UDP 192.168.1.100:5060;branch=z9hG4bKmsg";
      "From: <sip:1001@sip.example.com>;tag=msg-1"; "To: <sip:1002@sip.example.com>";
      "Call-ID: msg-call-id@192.168.1.100"; "CSeq: 1 MESSAGE"; "Content-Type: text/plain";
      "Content-Length: 5"; ""] ++ "hello") in
  on_ok (parse raw) (fun msg =>
  all [(method msg) ==? (Some "MESSAGE");
    (request_uri msg) ==? (Some "sip:1002@sip.example.com");
    (header msg "content-type") ==? (Some "text/plain");
    (body msg) ==? "hello"]).

Definition test_parse_subscribe_request : bool :=
  let raw := Str.terminated ["SUBSCRIBE sip:alice@sip.example.com SIP/2.0";
      "Via: SIP/2.0/UDP 192.168.1.100:5060;branch=z9hG4bKsub";
      "From: <sip:bob@sip.example.com>;tag=blf-tag"; "To: <sip:alice@sip.example.com>";
      "Call-ID: sub-call-id@192.168.1.100"; "CSeq: 1 SUBSCRIBE"; "Event: presence"; "Expires: 300";
      "Content-Length: 0"; ""] in
  on_ok (parse raw) (fun msg =>
  all [(method msg) ==? (Some "SUBSCRIBE");
    (header msg "event") ==? (Some "presence");
    (expires msg) ==? (Some 300);
    (call_id msg) ==? (Some "sub-call-id@192.168.1.100")]).

Definition test_parse_empty_message : bool :=
  let result := parse "" in
  all [negb (isOk result)].

Definition test_parse_invalid_first_line : bool :=
  let result := parse (Str.terminated ["INVALID LINE"; ""]) in
  all [isOk result] &&
  (on_ok (result) (fun msg =>
  all [(method msg) ==? (Some "INVALID");
    (request_uri msg) ==? (Some "LINE")])).

Definition test_parse_header_folding : bool :=
  let raw := Str.terminated ["INVITE sip:test@sip.example.com SIP/2.0";
      "Via: SIP/2.0/UDP 192.168.1.1"; "From: <sip:alice@sip.example.com>";
      "Contact: <sip:alice@192.168.1.1>;expires=3600"; " ;q=0.5"; "Call-ID: test-fold";
      "CSeq: 1 INVITE"; "Content-Length: 0"; ""] in
  on_ok (parse raw) (fun msg =>
  on_some (contact msg) (fun contact =>
  all [Str.contains "expires=3600" contact;
    Str.contains "q=0.5" contact])).

Definition test_parse_bye_request : bool :=
  let raw := Str.terminated ["BYE sip:1001@sip.example.com SIP/2.0";
      "Via: SIP/2.0/UDP 192.168.1.100:5060"; "From: <sip:1000@sip.example.com>;tag=abc";
      "To: <sip:1001@sip.example.com>;tag=xyz"; "Call-ID: bye-call"; "CSeq: 2 BYE";
      "Content-Length: 0"; ""] in
  on_ok (parse raw) (fun msg =>
  all [(method msg) ==? (Some "BYE");
    (cseq msg) ==? (Some "2 BYE")]).

Definition test_parse_cancel_request : bool :=
  let raw := Str.terminated ["CANCEL sip:1001@sip.example.com SIP/2.0";
      "Via: SIP/2.0/UDP 192.168.1.100:5060"; "From: <sip:1000@sip.example.com>;tag=abc";
      "To: <sip:1001@sip.example.com>"; "Call-ID: cancel-call"; "CSeq: 1 CANCEL";
      "Content-Length: 0"; ""] in
  on_ok (parse raw) (fun msg =>
  all [(method msg) ==? (Some "CANCEL")]).

Definition test_parse_options_request : bool :=
  let raw := Str.terminated ["OPTIONS sip:proxy@sip.example.com SIP/2.0";
      "Via: SIP/2.0/UDP 192.168.1.100:5060"; "From: <sip:1000@sip.example.com>;tag=opt";
      "To: <sip:proxy@sip.example.com>"; "Call-ID: options-call"; "CSeq: 1 OPTIONS";
      "Content-Length: 0"; ""] in
  on_ok (parse raw) (fun msg =>
  all [(method msg) ==? (Some "OPTIONS")]).

Definition test_parse_refer_request : bool :=
  let raw := Str.terminated ["REFER sip:1001@sip.example.com SIP/2.0";
      "Via: SIP/2.0/UDP 192.168.1.100:5060"; "From: <sip:1000@sip.example.com>;tag=ref";
      "To: <sip:1001@sip.example.com>"; "Call-ID: refer-call"; "CSeq: 1 REFER";
      "Refer-To: <sip:1002@sip.example.com>"; "Content-Length: 0"; ""] in
  on_ok (parse raw) (fun msg =>
  all [(method msg) ==? (Some "REFER");
    (isSome (header msg "refer-to")) ==? true]).

Definition test_parse_notify_request : bool :=
  let raw := Str.terminated ["NOTIFY sip:1000@sip.example.com SIP/2.0";
      "Via: SIP/2.0/UDP 192.168.1.100:5060"; "From: <sip:1001@sip.example.com>;tag=nfy";
      "To: <sip:1000@sip.example.com>"; "Call-ID: notify-call"; "CSeq: 1 NOTIFY"; "Event: refer";
      "Content-Length: 0"; ""] in
  on_ok (parse raw) (fun msg =>
  all [(method msg) ==? (Some "NOTIFY");
    (header msg "event") ==? (Some "refer")]).

Definition test_parse_ack_request : bool :=
  let raw := Str.terminated ["ACK sip:1001@sip.example.com SIP/2.0";
      "Via: SIP/2.0/UDP 192.168.1.100:5060"; "From: <sip:1000@sip.example.com>;tag=ack";
      "To: <sip:1001@sip.example.com>"; "Call-ID: ack-call"; "CSeq: 1 ACK"; "Content-Length: 0";
      ""] in
  on_ok (parse raw) (fun msg =>
  all [(method msg) ==? (Some "ACK")]).

Definition test_parse_response_with_sdp : bool :=
  let raw := Str.terminated ["SIP/2.0 200 OK"; "Via: SIP/2.0/UDP 192.168.1.100:5060";
      "From: <sip:1000@sip.example.com>;tag=abc"; "To: <sip:1001@sip.example.com>;tag=xyz";
      "Call-ID: 200ok-call"; "CSeq: 1 INVITE"; "Content-Type: application/sdp";
      "Content-Length: 26"; ""; "v=0"; "s=-"; "c=IN IP4 10.0.0.1"] in
  on_ok (parse raw) (fun msg =>
  all [negb (isSome (method msg));
    (status_code msg) ==? (Some 200);
    Str.contains "v=0" (body msg)]).

Definition test_normalize_header_name : bool :=
  all [(normalize_header_name "f") ==? "from";
    (normalize_header_name "v") ==? "via";
    (normalize_header_name "i") ==? "call-id";
    (normalize_header_name "Via") ==? "via";
    (normalize_header_name "Content-Length") ==? "content-length";
    (normalize_header_name "F") ==? "from";
    (normalize_header_name "C") ==? "content-type";
    (normalize_header_name "L") ==? "content-length";
    (normalize_header_name "M") ==? "contact";
    (normalize_header_name "E") ==? "content-encoding"].

Definition test_extract_uri_from_address_with_angle_brackets : bool :=
  all [(extract_uri "Alice <sip:alice@sip.example.com>") ==? (Some "sip:alice@sip.example.com");
    (extract_uri "<sip:bob@192.168.1.1:5060>") ==? (Some "sip:bob@192.168.1.1:5060")].

Definition test_extract_uri_from_plain_uri : bool :=
  all [(extract_uri "sip:charlie@sip.example.com") ==? (Some "sip:charlie@sip.example.com")].

Definition test_extract_uri_with_parameters : bool :=
  all [(extract_uri "<sip:alice@proxy.com;transport=tls>") ==?
      (Some "sip:alice@proxy.com;transport=tls")].

Definition test_extract_uri_rejects_non_sip : bool :=
  all [(extract_uri "tel:+1234567890") ==? (Some "tel:+1234567890");
    (extract_uri "invalid") ==? None].

Definition test_uri_username_extraction : bool :=
  all [(uri_username "sip:alice@sip.example.com") ==? (Some "alice");
    (uri_username "sip:bob@192.168.1.1:5060") ==? (Some "bob");
    (uri_username "sip:charlie@domain.com;transport=udp") ==? (Some "charlie");
    (uri_username "sip:sip.example.com") ==? None;
    (uri_username "sip:@example.com") ==? (Some "")].

Definition test_uri_host_extraction : bool :=
  all [(uri_host "sip:alice@sip.example.com") ==? (Some "sip.example.com");
    (uri_host "sip:bob@192.168.1.1:5060") ==? (Some "192.168.1.1:5060");
    (uri_host "sip:charlie@proxy.com;transport=udp") ==? (Some "proxy.com")].

Definition test_parse_auth_params_basic : bool :=
  let auth_header := dq ["Digest username="; "alice"; ", realm="; "sip.example.com"; ", nonce=";
      "abcdef123456"; ", uri="; "sip:sip.example.com"; ", response="; "abc123def456"; ""] in
  on_value (parse_auth_params auth_header) (fun params =>
  all [(params !! "username") ==? (Some "alice");
    (params !! "realm") ==? (Some "sip.example.com");
    (params !! "nonce") ==? (Some "abcdef123456");
    (params !! "uri") ==? (Some "sip:sip.example.com");
    (params !! "response") ==? (Some "abc123def456")]).

Definition test_parse_auth_params_with_quoted_values : bool :=
  let auth_header := dq ["Digest realm="; "test realm"; ", nonce="; "abc\"; "def"; ", algorithm=MD5"]
      in
  on_value (parse_auth_params auth_header) (fun params =>
  all [(params !! "realm") ==? (Some "test realm");
    (params !! "nonce") ==? (Some (dq ["abc\"; "def"]));
    (params !! "algorithm") ==? (Some "MD5")]).

Definition test_parse_auth_params_empty_header : bool :=
  on_value (parse_auth_params "") (fun params =>
  all [params ==? ∅] &&
  (on_value (parse_auth_params "Digest") (fun params =>
  all [params ==? ∅]))).

Definition test_parse_auth_params_unquoted_values : bool :=
  let header := "Digest username=alice, realm=sip.example.com" in
  on_value (parse_auth_params header) (fun params =>
  all [(params !! "username") ==? (Some "alice");
    (params !! "realm") ==? (Some "sip.example.com")]).

Definition test_make_www_authenticate : bool :=
  let challenge := make_www_authenticate "sip.example.com" "testnonce123" in
  all [Str.contains (dq ["Digest realm="; "sip.example.com"; ""]) challenge;
    Str.contains (dq ["nonce="; "testnonce123"; ""]) challenge;
    Str.contains "algorithm=MD5" challenge;
    Str.contains (dq ["qop="; "auth"; ""]) challenge].

Definition test_strip_proxy_via_removes_domain_via : bool :=
  let raw := Str.terminated ["SIP/2.0 180 Ringing";
      "Via: SIP/2.0/UDP sip.example.com;branch=z9hG4bKproxy42";
      "Via: SIP/2.0/UDP 192.168.1.100:5060;branch=z9hG4bKorig"; "From: Alice"; "To: Bob";
      "Call-ID: test@192.168.1.100"; "CSeq: 1 INVITE"; "Content-Length: 0"; ""] in
  let stripped := strip_proxy_via raw "sip.example.com" in
  all [negb (Str.contains "z9hG4bKproxy42" stripped);
    Str.contains "z9hG4bKorig" stripped;
    Str.contains "From: Alice" stripped].

Definition test_strip_proxy_via_preserves_multiple_vias : bool :=
  let raw := Str.terminated ["SIP/2.0 200 OK"; "Via: SIP/2.0/UDP proxy1.com;branch=z9hG4bK1";
      "Via: SIP/2.0/UDP proxy2.com;branch=z9hG4bK2";
      "Via: SIP/2.0/UDP 192.168.1.100:5060;branch=z9hG4bKorig"; "Call-ID: test"; "CSeq: 1 INVITE";
      "Content-Length: 0"; ""] in
  let stripped := strip_proxy_via raw "proxy1.com" in
  all [negb (Str.contains "z9hG4bK1" stripped);
    Str.contains "z9hG4bK2" stripped;
    Str.contains "z9hG4bKorig" stripped].

Definition test_strip_proxy_via_no_match_leaves_intact : bool :=
  let raw := Str.terminated ["SIP/2.0 200 OK"; "Via: SIP/2.0/UDP other.domain.com;branch=z9hG4bK123";
      "Call-ID: test"; "CSeq: 1 INVITE"; "Content-Length: 0"; ""] in
  let stripped := strip_proxy_via raw "sip.example.com" in
  all [stripped ==? raw].

Definition test_parse_response_with_multiple_via_headers : bool :=
  let raw := Str.terminated ["SIP/2.0 200 OK"; "Via: SIP/2.0/UDP proxy1.com;branch=z9hG4bK1";
      "Via: SIP/2.0/UDP proxy2.com;branch=z9hG4bK2"; "From: <sip:alice@example.com>;tag=abc";
      "To: <sip:bob@example.com>;tag=xyz"; "Call-ID: multi-via-test"; "CSeq: 1 INVITE";
      "Content-Length: 0"; ""] in
  on_ok (parse raw) (fun msg =>
  let vias := via_headers msg in
  all [(len vias) ==? 2;
    Str.contains "proxy1.com" (vias !!! 0%nat);
    Str.contains "proxy2.com" (vias !!! 1%nat)]).

Definition test_parse_message_with_sdp_body : bool :=
  let raw := Str.terminated ["INVITE sip:1001@sip.example.com SIP/2.0";
      "Via: SIP/2.0/UDP 192.168.1.100:5060"; "From: <sip:1000@sip.example.com>;tag=abc";
      "To: <sip:1001@sip.example.com>"; "Call-ID: sdp-test"; "CSeq: 1 INVITE";
      "Content-Type: application/sdp"; "Content-Length: 30"; ""; "v=0";
      "o=user 1 1 IN IP4 0.0.0.0"; "s=-"; "                   c=IN IP4 0.0.0.0"] in
  on_ok (parse raw) (fun msg =>
  all [Str.contains "v=0" (body msg);
    Str.contains "o=user" (body msg);
    Str.contains "c=IN IP4 0.0.0.0" (body msg)]).

Definition test_normalize_header_name_short_forms : bool :=
  all [(normalize_header_name "k") ==? "k";
    (normalize_header_name "t") ==? "to";
    (normalize_header_name "s") ==? "s"].

Definition test_parse_auth_params_with_escaped_quotes : bool :=
  let auth_header := dq ["Digest realm="; "test\"; "realm"; ", nonce="; "abc\"; "def\"; "ghi";
      ", algorithm=MD5"] in
  on_value (parse_auth_params auth_header) (fun params =>
  all [(params !! "realm") ==? (Some (dq ["test\"; "realm"]));
    (params !! "nonce") ==? (Some (dq ["abc\"; "def\"; "ghi"]));
    (params !! "algorithm") ==? (Some "MD5")]).

Definition test_parse_auth_params_with_comma_in_quoted_value : bool :=
  let auth_header := dq ["Digest realm="; "test, realm"; ", nonce="; "abc,def"; ", uri=";
      "sip:test,test.com"; ""] in
  on_value (parse_auth_params auth_header) (fun params =>
  all [(params !! "realm") ==? (Some "test, realm");
    (params !! "nonce") ==? (Some "abc,def");
    (params !! "uri") ==? (Some "sip:test,test.com")]).

Definition test_uri_username_with_sips : bool :=
  all [(uri_username "sips:alice@sip.example.com") ==? (Some "alice");
    (uri_username "sips:bob@sip.example.com") ==? (Some "bob")].

Definition test_uri_host_with_port_and_params : bool :=
  all [(uri_host "sip:alice@192.168.1.1:5060;transport=tls") ==? (Some "192.168.1.1:5060")].

Definition test_extract_uri_from_sip_uri_with_port : bool :=
  all [(extract_uri "Alice <sip:alice@192.168.1.1:5060>") ==? (Some "sip:alice@192.168.1.1:5060")].

Definition test_make_www_authenticate_with_special_chars : bool :=
  let www := make_www_authenticate "test realm" "abc123" in
  all [Str.contains (dq ["realm="; "test realm"; ""]) www;
    Str.contains (dq ["nonce="; "abc123"; ""]) www;
    Str.contains "algorithm=MD5" www;
    Str.contains (dq ["qop="; "auth"; ""]) www].

Definition test_strip_proxy_via_removes_first_matching : bool :=
  let raw := Str.terminated ["INVITE sip:test@sip.example.com SIP/2.0";
      "Via: SIP/2.0/UDP sip.example.com;branch=z9hG4bKfirst";
      "Via: SIP/2.0/UDP other.com;branch=z9hG4bKsecond"; "Call-ID: strip-first"; "CSeq: 1 INVITE";
      "Content-Length: 0"; ""] in
  let stripped := strip_proxy_via raw "sip.example.com" in
  all [negb (Str.contains "z9hG4bKfirst" stripped);
    Str.contains "z9hG4bKsecond" stripped].

Example message_tests_pass :
  all [test_parse_register_request; test_parse_invite_request; test_parse_sip_response;
      test_parse_message_request; test_parse_subscribe_request; test_parse_empty_message;
      test_parse_invalid_first_line; test_parse_header_folding; test_parse_bye_request;
      test_parse_cancel_request; test_parse_options_request; test_parse_refer_request;
      test_parse_notify_request; test_parse_ack_request; test_parse_response_with_sdp;
      test_normalize_header_name; test_extract_uri_from_address_with_angle_brackets;
      test_extract_uri_from_plain_uri; test_extract_uri_with_parameters;
      test_extract_uri_rejects_non_sip; test_uri_username_extraction; test_uri_host_extraction;
      test_parse_auth_params_basic; test_parse_auth_params_with_quoted_values;
      test_parse_auth_params_empty_header; test_parse_auth_params_unquoted_values;
      test_make_www_authenticate; test_strip_proxy_via_removes_domain_via;
      test_strip_proxy_via_preserves_multiple_vias; test_strip_proxy_via_no_match_leaves_intact;
      test_parse_response_with_multiple_via_headers; test_parse_message_with_sdp_body;
      test_normalize_header_name_short_forms; test_parse_auth_params_with_escaped_quotes;
      test_parse_auth_params_with_comma_in_quoted_value; test_uri_username_with_sips;
      test_uri_host_with_port_and_params; test_extract_uri_from_sip_uri_with_port;
      test_make_www_authenticate_with_special_chars; test_strip_proxy_via_removes_first_matching] = true.
Proof. vm_compute. reflexivity. Qed.

End message_tests.

(** [backend/src/sip/response.rs] *)
Module response_tests.

Definition test_response_builder_basic : bool :=
  let response := build (builder_header (builder_header (builder_new 200 "OK") "Via"
      "SIP/2.0/UDP 192.168.1.1") "Call-ID" "test-call") in
  all [Str.starts_with (Str.terminated ["SIP/2.0 200 OK"]) response;
    Str.contains (Str.terminated ["Via: SIP/2.0/UDP 192.168.1.1"]) response;
    Str.contains (Str.terminated ["Call-ID: test-call"]) response;
    Str.contains (Str.terminated ["Content-Length: 0"]) response].

Definition test_response_builder_with_body : bool :=
  let sdp := Str.terminated ["v=0"; "s=-"; "c=IN IP4 10.0.0.1"] in
  let response := build (builder_body (builder_header (builder_new 200 "OK") "Content-Type"
      "application/sdp") sdp) in
  all [Str.contains (Str.terminated ["Content-Length: 29"]) response;
    Str.ends_with sdp response].

Definition test_response_builder_chaining : bool :=
  let response := build (builder_header (builder_header (builder_new 180 "Ringing") "Via"
      "SIP/2.0/UDP 192.168.1.1") "Call-ID" "test-call") in
  all [Str.starts_with (Str.terminated ["SIP/2.0 180 Ringing"]) response].

Definition test_base_response_copies_via : bool :=
  let raw := Str.terminated ["INVITE sip:1001@sip.example.com SIP/2.0";
      "Via: SIP/2.0/UDP 192.168.1.100:5060;branch=z9hG4bKtest";
      "From: <sip:1000@sip.example.com>;tag=from-tag"; "To: <sip:1001@sip.example.com>";
      "Call-ID: call-123"; "CSeq: 1 INVITE"; "Content-Length: 0"; ""] in
  on_ok (parse raw) (fun req =>
  let response := build (base_response req 100 "Trying") in
  all [Str.contains "Via: SIP/2.0/UDP 192.168.1.100:5060;branch=z9hG4bKtest" response;
    Str.contains "From: <sip:1000@sip.example.com>;tag=from-tag" response;
    Str.contains "To: <sip:1001@sip.example.com>" response;
    Str.contains "Call-ID: call-123" response;
    Str.contains "CSeq: 1 INVITE" response;
    Str.contains "Server: SIP3/0.1.0" response;
    Str.starts_with (Str.terminated ["SIP/2.0 100 Trying"]) response]).

Definition test_base_response_handles_missing_headers : bool :=
  let raw := Str.terminated ["INVITE sip:1001@sip.example.com SIP/2.0"; "Call-ID: call-456";
      "CSeq: 1 INVITE"; "Content-Length: 0"; ""] in
  on_ok (parse raw) (fun req =>
  let response := build (base_response req 200 "OK") in
  all [Str.contains "Call-ID: call-456" response;
    Str.contains "CSeq: 1 INVITE" response;
    Str.starts_with (Str.terminated ["SIP/2.0 200 OK"]) response]).

Definition test_finalize_response_passes_through_ok : bool :=
  let raw := Str.terminated ["REGISTER sip:sip.example.com SIP/2.0"; "Call-ID: reg-123";
      "CSeq: 1 REGISTER"; "Content-Length: 0"; ""] in
  on_ok (parse raw) (fun req =>
  let result := finalize_response req (Ok (Str.terminated ["SIP/2.0 200 OK"])) "REGISTER" in
  all [isOk result;
    result ==? Ok (Some (Str.terminated ["SIP/2.0 200 OK"]))]).

Definition test_finalize_response_converts_err_to_500 : bool :=
  let raw := Str.terminated ["REGISTER sip:sip.example.com SIP/2.0"; "Via: SIP/2.0/UDP 192.168.1.1";
      "From: <sip:1000@sip.example.com>;tag=t"; "To: <sip:1000@sip.example.com>";
      "Call-ID: reg-456"; "CSeq: 1 REGISTER"; "Content-Length: 0"; ""] in
  on_ok (parse raw) (fun req =>
  let result := finalize_response req (Err "Database error") "REGISTER" in
  all [isOk result] &&
  (on_ok (result) (fun value => on_some value (fun response =>
  all [Str.starts_with (Str.terminated ["SIP/2.0 500 Internal Server Error"]) response])))).

Definition test_response_builder_multiple_via_headers : bool :=
  let response := build (builder_header (builder_header (builder_new 200 "OK") "Via"
      "SIP/2.0/UDP proxy1.com;branch=1") "Via" "SIP/2.0/UDP 192.168.1.1;branch=2") in
  all [Str.contains (Str.terminated ["Via: SIP/2.0/UDP proxy1.com;branch=1"]) response;
    Str.contains (Str.terminated ["Via: SIP/2.0/UDP 192.168.1.1;branch=2"]) response].

Definition test_response_builder_with_special_chars_in_header : bool :=
  let response := build (builder_header (builder_new 200 "OK") "WWW-Authenticate" (dq
      ["Digest realm="; "test\"; "realm"; ", nonce="; "abc123"; ""])) in
  all [Str.contains (dq ["WWW-Authenticate: Digest realm="; "test\"; "realm"; ", nonce="; "abc123";
      ""]) response].

Definition test_response_builder_empty_body : bool :=
  let response := build (builder_header (builder_new 200 "OK") "Via" "SIP/2.0/UDP 192.168.1.1") in
  all [Str.contains (Str.terminated ["Content-Length: 0"]) response;
    Str.ends_with (Str.terminated [""; ""]) response].

Definition test_base_response_with_multiple_vias : bool :=
  let raw := Str.terminated ["INVITE sip:1001@sip.example.com SIP/2.0";
      "Via: SIP/2.0/UDP proxy1.com;branch=z9hG4bK1"; "Via: SIP/2.0/UDP proxy2.com;branch=z9hG4bK2";
      "From: <sip:1000@sip.example.com>;tag=abc"; "To: <sip:1001@sip.example.com>";
      "Call-ID: multi-via-req"; "CSeq: 1 INVITE"; "Content-Length: 0"; ""] in
  on_ok (parse raw) (fun req =>
  let response := build (base_response req 180 "Ringing") in
  let vias := List.filter (fun l => Str.starts_with "Via:" l) (Str.lines response) in
  all [(len vias) ==? 2]).

Definition test_response_builder_with_unicode_header_value : bool :=
  let response := build (builder_header (builder_new 200 "OK") "X-Custom" "value with spaces") in
  all [Str.contains (Str.terminated ["X-Custom: value with spaces"]) response].

Definition test_finalize_response_err_preserves_server_header : bool :=
  let raw := Str.terminated ["REGISTER sip:sip.example.com SIP/2.0"; "Via: SIP/2.0/UDP 192.168.1.1";
      "From: <sip:1000@sip.example.com>;tag=t"; "To: <sip:1000@sip.example.com>";
      "Call-ID: err-test"; "CSeq: 1 REGISTER"; "Content-Length: 0"; ""] in
  on_ok (parse raw) (fun req =>
  let result := finalize_response req (Err "Error") "REGISTER" in
  on_ok (result) (fun value => on_some value (fun response =>
  all [Str.contains "Server: SIP3/0.1.0" response]))).

Example response_tests_pass :
  all [test_response_builder_basic; test_response_builder_with_body; test_response_builder_chaining;
      test_base_response_copies_via; test_base_response_handles_missing_headers;
      test_finalize_response_passes_through_ok; test_finalize_response_converts_err_to_500;
      test_response_builder_multiple_via_headers;
      test_response_builder_with_special_chars_in_header; test_response_builder_empty_body;
      test_base_response_with_multiple_vias; test_response_builder_with_unicode_header_value;
      test_finalize_response_err_preserves_server_header] = true.
Proof. vm_compute. reflexivity. Qed.

End response_tests.
