(* ===== verification/MediaTests.v ===== *)
(** * Tests of media

    The tests of [backend/src/sip/g711.rs], [backend/src/sip/voicemail_sdp.rs],
    [backend/src/sip/conference_sdp.rs], [backend/src/sip/conference_media.rs],
    [backend/src/sip/voicemail_media.rs] and [backend/src/storage/voicemail.rs].  Where a test
    opens sockets, the packets it sends are given to the loop that would receive them; where it
    takes random names, they are fixed. *)

From S2P Require Import Prelude RustStr Net Message SecurityGuard Acl G711 Storage Sdp Media World Settings.
From S2P Require Import VoicemailSdp VoicemailMedia ConferenceMedia Testing.

Open Scope str_scope.
Open Scope Z_scope.
Open Scope test_scope.

#[export] Instance VoicemailDtmf_eq_dec : EqDecision VoicemailDtmf.
Proof. solve_decision. Defined.

(** [ConferenceCodec::static_pt] *)
Definition conf_static_pt (c : ConferenceCodec) : Z := match c with ConfPcmu => 0 | ConfPcma => 8 end.

(** [backend/src/sip/g711.rs] *)
Module g711_tests.

Definition ulaw_zero_round_trip : bool := Z.abs (ulaw_to_linear (linear_to_ulaw 0)) <=? 8.

Definition alaw_zero_round_trip : bool := Z.abs (alaw_to_linear (linear_to_alaw 0)) <=? 16.

Definition within_quantization (encode decode : Z -> Z) : bool :=
  forallb (fun sample =>
    let decoded := decode (encode sample) in
    let tolerance := Z.max (Z.abs sample / 8) 64 in
    let diff := Z.abs (decoded - sample) in
    diff <=? tolerance) [100; 500; 1000; 5000; 10000; 20000; (-100); (-500); (-10000)].

Definition ulaw_round_trip_within_quantization : bool := within_quantization linear_to_ulaw ulaw_to_linear.

Definition alaw_round_trip_within_quantization : bool := within_quantization linear_to_alaw alaw_to_linear.

Definition buffer_helpers_match_lengths : bool :=
  let pcm := map (fun i => Int.wrap_i16 (Z.of_nat i * 100)) (seq 0 160) in
  all [len (encode_ulaw pcm) ==? len pcm;
    len (encode_alaw pcm) ==? len pcm;
    len (decode_ulaw (encode_ulaw pcm)) ==? len pcm;
    len (decode_alaw (encode_alaw pcm)) ==? len pcm].

Definition ulaw_silence_is_silence : bool := linear_to_ulaw 0 ==? 255.

Definition alaw_silence_is_silence : bool := linear_to_alaw 0 ==? 213.

Example g711_tests_pass :
  all [ulaw_zero_round_trip; alaw_zero_round_trip; ulaw_round_trip_within_quantization;
      alaw_round_trip_within_quantization; buffer_helpers_match_lengths; ulaw_silence_is_silence;
      alaw_silence_is_silence] = true.
Proof. vm_compute. reflexivity. Qed.

End g711_tests.

(** [backend/src/sip/voicemail_sdp.rs] *)
Module voicemail_sdp_tests.

Definition negotiates_linphone_pcmu_offer : bool :=
  let offer := Str.terminated ["v=0"; "m=audio 7078 RTP/AVP 0 8 101"; "a=rtpmap:0 PCMU/8000";
      "a=rtpmap:8 PCMA/8000"; "a=rtpmap:101 telephone-event/8000"] in
  on_ok (negotiate_offer offer) (fun n =>
  all [(codec n) ==? Pcmu;
    (audio_pt n) ==? 0;
    (telephone_event_pt n) ==? (Some 101)]).

Definition rejects_srtp_only_offer : bool :=
  let offer := Str.terminated ["v=0"; "m=audio 7078 RTP/SAVP 0"; "a=rtpmap:0 PCMU/8000"] in
  all [negb (isOk (negotiate_offer offer))].

Definition answer_includes_codec_and_dtmf : bool :=
  let n := {| codec := Pcma; audio_pt := 8; telephone_event_pt := Some 101 |} in
  let answer := build_answer "203.0.113.10" 10200 n 1234 in
  all [Str.contains "m=audio 10200 RTP/AVP 8 101" answer;
    Str.contains "a=rtpmap:8 PCMA/8000" answer;
    Str.contains "a=rtpmap:101 telephone-event/8000" answer;
    Str.contains "a=fmtp:101 0-15" answer;
    Str.contains "s=SIP3 Voicemail" answer].

Definition answer_without_dtmf_omits_telephone_event : bool :=
  let n := {| codec := Pcmu; audio_pt := 0; telephone_event_pt := None |} in
  let answer := build_answer "203.0.113.10" 10200 n 1234 in
  all [Str.contains (Str.terminated ["m=audio 10200 RTP/AVP 0"]) answer;
    Str.contains "a=rtpmap:0 PCMU/8000" answer;
    negb (Str.contains "telephone-event" answer)].

Definition captures_dtmf_when_pcma_listed_before_pcmu : bool :=
  let offer := Str.terminated ["v=0"; "m=audio 5000 RTP/AVP 8 101 0"; "a=rtpmap:8 PCMA/8000";
      "a=rtpmap:101 telephone-event/8000"; "a=rtpmap:0 PCMU/8000"] in
  on_ok (negotiate_offer offer) (fun n =>
  all [(codec n) ==? Pcmu;
    (audio_pt n) ==? 0;
    (telephone_event_pt n) ==? (Some 101)]).

Definition picks_pcmu_over_pcma_when_pcma_first : bool :=
  let offer := Str.terminated ["v=0"; "m=audio 5000 RTP/AVP 8 0"; "a=rtpmap:8 PCMA/8000";
      "a=rtpmap:0 PCMU/8000"] in
  on_ok (negotiate_offer offer) (fun n =>
  all [(codec n) ==? Pcmu;
    (audio_pt n) ==? 0;
    (telephone_event_pt n) ==? None]).

Definition rejects_offer_without_g711 : bool :=
  let offer := Str.terminated ["v=0"; "m=audio 5000 RTP/AVP 96"; "a=rtpmap:96 opus/48000/2"] in
  all [negb (isOk (negotiate_offer offer))].

Definition rejects_offer_without_audio : bool :=
  let offer := Str.terminated ["v=0"; "m=video 5000 RTP/AVP 96"] in
  all [negb (isOk (negotiate_offer offer))].

Example voicemail_sdp_tests_pass :
  all [negotiates_linphone_pcmu_offer; rejects_srtp_only_offer; answer_includes_codec_and_dtmf;
      answer_without_dtmf_omits_telephone_event; captures_dtmf_when_pcma_listed_before_pcmu;
      picks_pcmu_over_pcma_when_pcma_first; rejects_offer_without_g711; rejects_offer_without_audio] = true.
Proof. vm_compute. reflexivity. Qed.

End voicemail_sdp_tests.

(** [backend/src/sip/conference_sdp.rs] *)
Module conference_sdp_tests.

Definition LINPHONE_OFFER : str := Str.terminated
  ["v=0"; "o=alice 1 1 IN IP4 192.168.1.10"; "s=Talk"; "c=IN IP4 192.168.1.10"; "t=0 0";
   "m=audio 7078 RTP/AVP 96 8 0 101"; "a=rtpmap:96 opus/48000/2"; "a=rtpmap:8 PCMA/8000";
   "a=rtpmap:0 PCMU/8000"; "a=rtpmap:101 telephone-event/8000"; "a=fmtp:101 0-15"].

Definition negotiates_pcma_from_linphone_offer : bool :=
  on_ok (conf_negotiate_offer LINPHONE_OFFER) (fun n =>
  all [(cn_codec n) ==? ConfPcma;
    (cn_audio_pt n) ==? 8;
    (cn_telephone_event_pt n) ==? (Some 101)]).

Definition rejects_savp_only_offer : bool :=
  let sdp := Str.terminated ["v=0"; "m=audio 5000 RTP/SAVP 0"; "a=rtpmap:0 PCMU/8000"] in
  all [negb (isOk (conf_negotiate_offer sdp))].

Definition rejects_offer_without_g711 : bool :=
  let sdp := Str.terminated ["v=0"; "m=audio 5000 RTP/AVP 96"; "a=rtpmap:96 opus/48000/2"] in
  all [negb (isOk (conf_negotiate_offer sdp))].

Definition rejects_offer_without_audio : bool :=
  let sdp := Str.terminated ["v=0"; "m=video 5000 RTP/AVP 96"] in
  all [negb (isOk (conf_negotiate_offer sdp))].

Definition picks_pcmu_when_pcma_absent : bool :=
  let sdp := Str.terminated ["v=0"; "m=audio 5000 RTP/AVP 0 101"; "a=rtpmap:0 PCMU/8000";
      "a=rtpmap:101 telephone-event/8000"] in
  on_ok (conf_negotiate_offer sdp) (fun n =>
  all [(cn_codec n) ==? ConfPcmu;
    (cn_audio_pt n) ==? 0;
    (cn_telephone_event_pt n) ==? (Some 101)]).

Definition answer_includes_codec_and_dtmf : bool :=
  let n := {| cn_codec := ConfPcmu; cn_audio_pt := 0; cn_telephone_event_pt := Some 101 |} in
  let sdp := conf_build_answer "203.0.113.5" 10100 n 42 in
  all [Str.contains "m=audio 10100 RTP/AVP 0 101" sdp;
    Str.contains "a=rtpmap:0 PCMU/8000" sdp;
    Str.contains "a=rtpmap:101 telephone-event/8000" sdp;
    Str.contains "a=fmtp:101 0-15" sdp;
    Str.contains "a=ptime:20" sdp;
    Str.contains "a=sendrecv" sdp;
    Str.contains "c=IN IP4 203.0.113.5" sdp].

Definition answer_without_dtmf_lists_only_audio_pt : bool :=
  let n := {| cn_codec := ConfPcma; cn_audio_pt := 8; cn_telephone_event_pt := None |} in
  let sdp := conf_build_answer "198.51.100.7" 10120 n 7 in
  all [Str.contains (Str.terminated ["m=audio 10120 RTP/AVP 8"]) sdp;
    negb (Str.contains "telephone-event" sdp)].

Example conference_sdp_tests_pass :
  all [negotiates_pcma_from_linphone_offer; rejects_savp_only_offer; rejects_offer_without_g711;
      rejects_offer_without_audio; picks_pcmu_when_pcma_absent; answer_includes_codec_and_dtmf;
      answer_without_dtmf_lists_only_audio_pt] = true.
Proof. vm_compute. reflexivity. Qed.

End conference_sdp_tests.

(** [backend/src/sip/conference_media.rs] *)
Module conference_media_tests.

Definition dummy_participant (codec : ConferenceCodec) : Participant :=
  {| relay_port := 0; pt_codec := codec; pt_audio_pt := conf_static_pt codec;
     pt_telephone_event_pt := Some 101; muted := false; pt_peer := None; latest_frame := []; frame_locked := false;
     out_seq := 0; out_ts := 0; out_ssrc := 0;
     dtmf_state := {| last_digit := None; last_event_ts := None |} |}.

(** Keys pressed within the same second. *)
Definition dtmf_star_then_six_toggles_mute : bool :=
  let p := dummy_participant ConfPcmu in
  all [negb (muted p)] &&
  (let '(star, p) := record_dtmf 0 10 p in
  let '(toggled, p) := record_dtmf 0 6 p in
  all [negb (isSome star); toggled ==? Some true; muted p] &&
  (let '(star, p) := record_dtmf 0 10 p in
  let '(toggled, p) := record_dtmf 0 6 p in
  all [negb (isSome star); toggled ==? Some false; negb (muted p)])).

Definition dtmf_stray_six_does_not_toggle : bool :=
  let p := dummy_participant ConfPcmu in
  let '(toggled, p) := record_dtmf 0 6 p in
  all [negb (isSome toggled); negb (muted p)].

Definition dtmf_other_digit_breaks_sequence : bool :=
  let p := dummy_participant ConfPcmu in
  let '(a, p) := record_dtmf 0 10 p in
  let '(b, p) := record_dtmf 0 3 p in
  let '(c, p) := record_dtmf 0 6 p in
  all [negb (isSome a); negb (isSome b); negb (isSome c); negb (muted p)].

(** Participants are told apart by name here. *)
Definition mixer_excludes_self_and_muted : bool :=
  let frames := [("a", Some (replicate SAMPLES_PER_FRAME 1000));
                 ("b", Some (replicate SAMPLES_PER_FRAME 2000)); ("c", None)] in
  all [mix_for_receiver "a" frames !! 0%nat ==? Some 2000;
    mix_for_receiver "b" frames !! 0%nat ==? Some 1000].

Definition mixer_clips_to_i16 : bool :=
  let frames := [("a", Some (replicate SAMPLES_PER_FRAME 20000));
                 ("b", Some (replicate SAMPLES_PER_FRAME 20000)); ("c", None)] in
  mix_for_receiver "c" frames !! 0%nat ==? Some Int.i16_max.

Definition rtp_packet_has_correct_header : bool :=
  let payload := replicate 160 255 in
  let pkt := build_rtp_packet 0 4660 3405691582 3735928559 payload in
  all [len pkt ==? 12 + 160;
    pkt !! 0%nat ==? Some 128;
    pkt !! 1%nat ==? Some 0;
    slice 2 4 pkt ==? be_bytes 2 4660;
    slice 4 8 pkt ==? be_bytes 4 3405691582;
    slice 8 12 pkt ==? be_bytes 4 3735928559].

Definition rtp_payload_offset_skips_csrcs_and_extension : bool :=
  let pkt := [146; 0; 0; 0; 0; 0; 0; 0; 0; 0; 0; 0] ++ replicate 8 0 ++ [0; 0; 0; 1] ++
             [170; 187; 204; 221] ++ [66] in
  pkt !! conf_payload_offset pkt ==? Some 66.

Example conference_media_tests_pass :
  all [dtmf_star_then_six_toggles_mute; dtmf_stray_six_does_not_toggle; dtmf_other_digit_breaks_sequence;
      mixer_excludes_self_and_muted; mixer_clips_to_i16; rtp_packet_has_correct_header;
      rtp_payload_offset_skips_csrcs_and_extension] = true.
Proof. vm_compute. reflexivity. Qed.

End conference_media_tests.

(** [backend/src/sip/voicemail_media.rs] *)
Module voicemail_media_tests.

Definition maps_dtmf_relay_signal_to_control : bool :=
  all [parse_dtmf_relay (Str.terminated ["Signal=#"; "Duration=160"]) ==? Some Pound;
    parse_dtmf_relay (Str.terminated ["Signal=7"; "Duration=160"]) ==? Some Seven;
    parse_dtmf_relay (Str.terminated ["Signal=*"; "Duration=160"]) ==? Some Star].

Definition builds_rtp_packet_with_header : bool :=
  let payload := [255; 254; 253] in
  let packet := build_rtp_packet 0 7 160 287454020 payload in
  all [len packet ==? 15;
    packet !! 0%nat ==? Some 128;
    packet !! 1%nat ==? Some 0;
    slice 2 4 packet ==? be_bytes 2 7;
    slice 4 8 packet ==? be_bytes 4 160;
    slice 8 12 packet ==? be_bytes 4 287454020;
    drop 12 packet ==? payload].

Definition rtp_payload_offset_handles_csrc_and_extension : bool :=
  let packet := [146; 0; 0; 1; 0; 0; 0; 2; 0; 0; 0; 3] ++ [0; 0; 0; 4] ++ [0; 0; 0; 5] ++
                [190; 222; 0; 1] ++ [1; 2; 3; 4] ++ [170; 187] in
  rtp_payload_offset packet ==? Some 28%nat.

Definition rtp_payload_offset_rejects_truncated_packets : bool :=
  let truncated_extension :=
    [144; 0; 0; 1; 0; 0; 0; 2; 0; 0; 0; 3] ++ [190; 222; 0; 2] ++ [1; 2; 3; 4] in
  all [rtp_payload_offset (replicate 11 128) ==? None;
    rtp_payload_offset (replicate 12 129) ==? None;
    rtp_payload_offset truncated_extension ==? None].

Definition parse_dtmf_relay_trims_and_rejects_unknown_signals : bool :=
  all [parse_dtmf_relay (Str.terminated ["Duration=160"; "Signal = 9"]) ==? Some Nine;
    parse_dtmf_relay (Str.terminated ["Signal=3"; "Duration=160"]) ==? Some (Digit "3");
    parse_dtmf_relay (Str.terminated ["Duration=160"]) ==? None].

Definition rtp_dtmf_rejects_invalid_event_values : bool :=
  all [dtmf_from_rtp_event 11 ==? Some Pound; dtmf_from_rtp_event 27 ==? None].

(** The configuration of [VoicemailMedia::new]. *)
Definition port_range (lo hi : Z) : Config := config_of
  {[ "server.voicemail_rtp_port_min" := FInt lo; "server.voicemail_rtp_port_max" := FInt hi ]}.

Definition allocate_rejects_invalid_port_range : bool :=
  match (media_allocate (port_range 20000 19999) "call-a" Pcmu 0 (Some 101) sample_world).1 with
  | Val r => negb (isOk r)
  | _ => false
  end.

Definition allocate_rejects_invalid_payload_type : bool :=
  match (media_allocate (port_range 20000 20000) "call-a" Pcmu 128 None sample_world).1 with
  | Val r => negb (isOk r)
  | _ => false
  end.

Definition allocate_test_session (codec : VoicemailCodec) : VmSession :=
  {| vs_port := 20000; vs_codec := codec; vs_audio_pt := static_pt codec;
     vs_telephone_event_pt := Some 101 |}.

Definition local (p : Z) : SocketAddr := {| ip := V4 127 0 0 1; port := p |}.

(** The socket delivers the packets and then stays silent until the recording has gone idle. *)
Definition delivered (packets : list (list Z * SocketAddr)) : list RecTurn :=
  map (fun '(p, src) => {| rt_active := true; rt_now := 0; rt_recv := RecvPacket p src; rt_after := 0 |}) packets ++
  [{| rt_active := true; rt_now := 1; rt_recv := RecvTimeout; rt_after := 1 |}].

Definition record_to_storage_rejects_zero_max_secs : bool :=
  negb (isOk (record_samples (allocate_test_session Pcmu) None 0 1 0 [])).

Definition record_to_storage_decodes_audio_and_stops_on_pound : bool :=
  let s := allocate_test_session Pcmu in
  let audio := build_rtp_packet 0 1 160 16909060 (replicate SAMPLES_PER_FRAME 255) in
  let pound := build_rtp_packet 101 2 320 16909060 [11; 128; 0; 160] in
  on_ok (record_samples s None 1 1 0 (delivered [(audio, local 4000); (pound, local 4000)]))
    (fun '(samples, duration_secs) =>
  all [duration_secs ==? 1; length samples ==? SAMPLES_PER_FRAME] &&
  on_value (pcm16_wav_bytes samples SAMPLE_RATE) (fun wav =>
  on_ok (read_pcm16_wav wav) (fun decoded =>
  all [sample_rate decoded ==? SAMPLE_RATE; length (Storage.samples decoded) ==? SAMPLES_PER_FRAME]))).

Definition play_wav_sends_rtp_to_learned_peer : bool :=
  let s := allocate_test_session Pcma in
  let wav := {| sample_rate := SAMPLE_RATE; Storage.samples := replicate SAMPLES_PER_FRAME 0 |} in
  let inbound := build_rtp_packet 8 1 160 16909060 (replicate SAMPLES_PER_FRAME 213) in
  let idle := fun _ : nat => {| pl_active := true; pl_queue := []; pl_sends := true |} in
  match play_to_peer s 1 1 1 wav 0 (delivered [(inbound, local 4000)]) idle None with
  | Some ([(packet, dst)], Ok _) =>
      all [dst ==? local 4000;
        packet !! 0%nat ==? Some 128;
        packet !! 1%nat ==? Some 8;
        rtp_payload_offset packet ==? Some 12%nat;
        length packet ==? (RTP_HEADER_LEN + SAMPLES_PER_FRAME)%nat]
  | _ => false
  end.

(** The peer the loop has learnt. *)
Definition record_ignores_malformed_packets_when_learning_peer : bool :=
  on_ok (record_loop (allocate_test_session Pcmu) 16000 0 2 1 (delivered [([128; 0; 0], local 4000)])
           {| rec_samples := []; rec_last_activity := 0; rec_peer := None |})
    (fun st => rec_peer st ==? None).

Definition wait_for_peer_skips_mismatched_payload_type : bool :=
  let wrong := build_rtp_packet 96 1 160 16909060 (replicate SAMPLES_PER_FRAME 170) in
  let valid := build_rtp_packet 0 2 320 16909060 (replicate SAMPLES_PER_FRAME 255) in
  match wait_for_peer (allocate_test_session Pcmu) 0 (delivered [(wrong, local 4000); (valid, local 4001)]) None with
  | Some (Ok peer, _) => peer ==? local 4001
  | _ => false
  end.

Definition refresh_peer_ignores_different_source_once_peer_known : bool :=
  let attack := build_rtp_packet 0 1 160 16909060 (replicate SAMPLES_PER_FRAME 255) in
  refresh_peer_nonblocking (allocate_test_session Pcmu) [(attack, local 4001)] (Some (local 4000)) ==?
  (None, Some (local 4000)).

Example voicemail_media_tests_pass :
  all [maps_dtmf_relay_signal_to_control; builds_rtp_packet_with_header;
      rtp_payload_offset_handles_csrc_and_extension; rtp_payload_offset_rejects_truncated_packets;
      parse_dtmf_relay_trims_and_rejects_unknown_signals; rtp_dtmf_rejects_invalid_event_values;
      allocate_rejects_invalid_port_range; allocate_rejects_invalid_payload_type;
      record_to_storage_rejects_zero_max_secs; record_to_storage_decodes_audio_and_stops_on_pound;
      play_wav_sends_rtp_to_learned_peer; record_ignores_malformed_packets_when_learning_peer;
      wait_for_peer_skips_mismatched_payload_type;
      refresh_peer_ignores_different_source_once_peer_known] = true.
Proof. vm_compute. reflexivity. Qed.

End voicemail_media_tests.

(** [backend/src/storage/voicemail.rs] *)
Module storage_tests.

Definition wav_round_trip_preserves_samples : bool :=
  let xs := [(-32768); (-123); 0; 123; 32767] in
  on_value (pcm16_wav_bytes xs 8000) (fun wav =>
  on_ok (read_pcm16_wav wav) (fun decoded =>
  all [sample_rate decoded ==? 8000; samples decoded ==? xs])).

Definition wav_empty_samples_round_trip : bool :=
  on_value (pcm16_wav_bytes [] 8000) (fun wav =>
  on_ok (read_pcm16_wav wav) (fun decoded =>
  all [sample_rate decoded ==? 8000; samples decoded ==? []])).

(** [should_panic] *)
Definition wav_zero_sample_rate_panics : bool := pcm16_wav_bytes [100] 0 ==? Panic.

Definition read_pcm16_wav_rejects_empty_input : bool :=
  on_err (read_pcm16_wav []) (fun e => Str.contains "not a WAV file" e).

Definition read_pcm16_wav_rejects_truncated_header : bool :=
  on_err (read_pcm16_wav (byte_list "RIFF" ++ [0; 0; 0; 0] ++ byte_list "WAVE"))
    (fun e => Str.contains "not a WAV file" e).

Definition read_pcm16_wav_rejects_stereo : bool :=
  on_value (pcm16_wav_bytes [100] 8000) (fun wav =>
  on_err (read_pcm16_wav (<[23%nat := 0]> (<[22%nat := 2]> wav)))
    (fun e => Str.contains "WAV must be mono PCM16" e)).

(** The header of the next two tests. *)
Definition mono_header : list Z :=
  byte_list "RIFF" ++ le_bytes 4 100 ++ byte_list "WAVEfmt " ++ le_bytes 4 16 ++ le_bytes 2 1 ++
  le_bytes 2 1 ++ le_bytes 4 8000 ++ le_bytes 4 16000 ++ le_bytes 2 2 ++ le_bytes 2 16.

Definition read_pcm16_wav_rejects_malformed_chunk_overflow : bool :=
  on_err (read_pcm16_wav (mono_header ++ byte_list "junk" ++ le_bytes 4 4294967295))
    (fun e => Str.contains "chunk extends past file end" e || Str.contains "overflow" e).

Definition read_pcm16_wav_rejects_data_chunk_past_eof : bool :=
  on_err (read_pcm16_wav (mono_header ++ byte_list "data" ++ le_bytes 4 1000))
    (fun e => Str.contains "truncated WAV data" e).

Definition sanitize_key_part_removes_dangerous_chars : bool :=
  all [sanitize_key_part "foo/bar" ==? "foo_bar";
    sanitize_key_part ("foo" ++ [Str.BACKSLASH] ++ "bar") ==? "foo_bar";
    sanitize_key_part "C:Users" ==? "C_Users";
    sanitize_key_part ("foo" ++ [Str.NUL] ++ "bar") ==? "foo_bar";
    sanitize_key_part "safe-123.wav" ==? "safe-123.wav"].

Definition path_for_key_rejects_traversal : bool :=
  all [negb (isOk (path_for_key "/tmp/vm" "../etc/passwd"));
    negb (isOk (path_for_key "/tmp/vm" "foo/../bar"))].

Definition path_for_key_rejects_absolute_unix : bool := negb (isOk (path_for_key "/tmp/vm" "/etc/passwd")).

Definition local_storage_writes_and_reads_message : bool :=
  let root := "/tmp/sip3-vm-test-1" in
  let '(key, fs) := write_message root "1001" "call-a" (byte_list "hello") ["u1"] no_fault ∅ in
  on_ok key (fun key =>
  all [Str.ends_with ".wav" key; read_key root key fs ==? Ok (byte_list "hello")] &&
  (let '(deleted, fs) := delete_key root key false fs in
  all [isOk deleted; fs !! path_join root key ==? None])).

Definition local_storage_does_not_overwrite_same_call_id_messages : bool :=
  let root := "/tmp/sip3-vm-collision-test-1" in
  let '(first_key, fs) :=
    write_message root "1001" "duplicate-call" (byte_list "first") ["u1"] no_fault ∅ in
  let '(second_key, fs) :=
    write_message root "1001" "duplicate-call" (byte_list "second") ["u2"] no_fault fs in
  on_ok first_key (fun first_key => on_ok second_key (fun second_key =>
  all [negb (first_key ==? second_key);
    read_key root first_key fs ==? Ok (byte_list "first");
    read_key root second_key fs ==? Ok (byte_list "second")])).

Example storage_tests_pass :
  all [wav_round_trip_preserves_samples; wav_empty_samples_round_trip; wav_zero_sample_rate_panics;
      read_pcm16_wav_rejects_empty_input; read_pcm16_wav_rejects_truncated_header;
      read_pcm16_wav_rejects_stereo; read_pcm16_wav_rejects_malformed_chunk_overflow;
      read_pcm16_wav_rejects_data_chunk_past_eof; sanitize_key_part_removes_dangerous_chars;
      path_for_key_rejects_traversal; path_for_key_rejects_absolute_unix;
      local_storage_writes_and_reads_message;
      local_storage_does_not_overwrite_same_call_id_messages] = true.
Proof. vm_compute. reflexivity. Qed.

End storage_tests.
