(* ===== verification/ServiceTests.v ===== *)
(** * Tests of services

    The tests of [backend/src/sip/voicemail.rs], [backend/src/sip/voicemail_mwi.rs],
    [backend/src/sip/conference.rs], [backend/src/sip/handler.rs] and of the models.  State that
    the tests share behind a lock is the state of the world; digests are those of the examples. *)

From S2P Require Import Prelude RustStr Net Message Response Forward SecurityGuard Acl Storage Sdp Media World.
From S2P Require Import Gateway VoicemailSdp NoAnswer Mwi Voicemail Presence ConferenceMedia Conference.
From S2P Require Import HttpApi Mailboxes Proxy Handler Settings Testing.

Open Scope str_scope.
Open Scope Z_scope.
Open Scope test_scope.

#[export] Instance RecordingPersistenceDecision_eq_dec : EqDecision RecordingPersistenceDecision.
Proof. solve_decision. Defined.
#[export] Instance NoAnswerTimerEntry_eq_dec : EqDecision NoAnswerTimerEntry.
Proof. solve_decision. Defined.

(** A test of shared state, from a world that has none. *)
Definition run_test (m : M bool) : bool := match (m sample_world).1 with Val b => b | _ => false end.

(** [backend/src/sip/voicemail.rs] *)
Module voicemail_tests.

Definition recognizes_access_extension : bool :=
  all [is_voicemail_access_target "*97" "*97";
    negb (is_voicemail_access_target "1001" "*97")].

Definition access_target_requires_exact_match : bool :=
  all [negb (is_voicemail_access_target "*970" "*97");
    negb (is_voicemail_access_target " *97" "*97")].

Definition message_summary_event_matches_event_token_with_parameters : bool :=
  all [is_message_summary_event (Some "message-summary");
    is_message_summary_event (Some "message-summary;id=1001");
    is_message_summary_event (Some " MESSAGE-SUMMARY ; id=1001")].

Definition message_summary_event_rejects_other_events_and_empty_headers : bool :=
  all [negb (is_message_summary_event None);
    negb (is_message_summary_event (Some "presence"));
    negb (is_message_summary_event (Some "dialog"));
    negb (is_message_summary_event (Some "message-summary-extra"))].

Definition no_answer_cancel_rewrites_invite_cseq_method_to_cancel : bool :=
  let raw := Str.terminated ["INVITE sip:1003@sip.air32.cn SIP/2.0";
      "Via: SIP/2.0/UDP 192.168.1.2:56473;branch=z9hG4bK.NMNgTadYq;rport"; "Max-Forwards: 70";
      "From: sip:1001@sip.air32.cn;tag=fromtag"; "To: sip:1003@sip.air32.cn";
      "Call-ID: NO4pEKSYw-"; "CSeq: 20 INVITE"; "Content-Length: 0"; ""] in
  on_ok (parse raw) (fun msg =>
  let cancel := @build_forwarded_cancel_for_target toy_digests list_order msg
      "sip:1003@192.168.1.2:43453;transport=udp" 69 "sip.air32.cn" in
  all [Str.contains (Str.terminated ["CSeq: 20 CANCEL"]) cancel;
    negb (Str.contains (Str.terminated ["CSeq: 20 INVITE"]) cancel)]).

Definition adds_to_tag_when_missing : bool :=
  let out := with_to_tag "<sip:1001@sip.air32.cn>" "vm-abc" in
  all [Str.contains "tag=vm-abc" out].

Definition preserves_existing_to_tag : bool :=
  let out := with_to_tag "<sip:1001@sip.air32.cn>;tag=existing" "vm-abc" in
  all [out ==? "<sip:1001@sip.air32.cn>;tag=existing"].

Definition adds_outer_to_tag_when_tag_exists_only_inside_uri : bool :=
  let out := with_to_tag "<sip:1001@sip.air32.cn;tag=uri-param>" "vm-abc" in
  all [out ==? "<sip:1001@sip.air32.cn;tag=uri-param>;tag=vm-abc"].

Definition adds_outer_to_tag_when_tag_exists_only_inside_quoted_display_name : bool :=
  let out := with_to_tag (dq [""; "Bob;tag=not-param"; " <sip:1001@sip.air32.cn>"]) "vm-abc" in
  all [out ==? (dq [""; "Bob;tag=not-param"; " <sip:1001@sip.air32.cn>;tag=vm-abc"])].

Definition quoted_display_name_tag_scanner_honors_backslash_escaped_quote : bool :=
  let out := with_to_tag (dq [""; "Bob \"; ";tag=not-param"; " <sip:1001@sip.air32.cn>"]) "vm-abc" in
  all [out ==? (dq [""; "Bob \"; ";tag=not-param"; " <sip:1001@sip.air32.cn>;tag=vm-abc"])].

Definition empty_recording_completion_is_not_persisted : bool :=
  all [(recording_persistence_decision true 0) ==? DiscardEmpty;
    (recording_persistence_decision true 1) ==? Insert].

Definition canceled_recording_completion_is_not_persisted : bool :=
  all [(recording_persistence_decision false 1) ==? DiscardCanceled].

Definition delivery_caller_rejects_missing_or_unparseable_from : bool :=
  all [(delivery_caller None) ==? None;
    (delivery_caller (Some "not a sip address")) ==? None;
    (delivery_caller (Some "<tel:1001>")) ==? None].

Definition delivery_caller_rejects_literal_unknown_sentinel : bool :=
  all [(delivery_caller (Some "<sip:unknown@sip.air32.cn>")) ==? None].

Definition no_answer_timer_claim_records_fired_state_until_cleanup : bool :=
  let timers := {[ "call-123" := Ringing 0 ]} in
  let '(claimed, timers) := claim_no_answer_timer_to_fire timers "call-123" in
  let '(again, _) := claim_no_answer_timer_to_fire timers "call-123" in
  all [claimed; timers !! "call-123" ==? Some Firing; negb again].

Definition caller_cancel_after_no_answer_fire_blocks_delivery : bool :=
  let timers := {[ "call-123" := Ringing 0 ]} in
  let '(claimed, timers) := claim_no_answer_timer_to_fire timers "call-123" in
  let before := no_answer_timer_should_continue timers "call-123" in
  let '(marked, timers) := mark_fired_no_answer_timer_canceled timers "call-123" in
  all [claimed; before; marked; negb (no_answer_timer_should_continue timers "call-123")].

Definition cancelled_recording_completion_is_consumed_and_not_persisted : bool := run_test (
  _ ← track_recording_candidate "call-123";
  marked ← mark_recording_canceled "call-123";
  first ← should_persist_recording "call-123";
  second ← should_persist_recording "call-123";
  mret (all [marked; negb first; second])).

(** Nothing is left of a recording. *)
Definition no_recording : M bool :=
  gets (fun w => all [recording (w_recording_state w) ==? ∅; canceled (w_recording_state w) ==? ∅]).

Definition cancel_for_untracked_call_does_not_leave_cancellation_marker : bool := run_test (
  marked ← mark_recording_canceled "call-123";
  clean ← no_recording;
  mret (all [negb marked; clean])).

Definition discarded_recording_candidate_removes_cancellation_marker : bool := run_test (
  tracked ← track_recording_candidate "call-123";
  marked ← mark_recording_canceled "call-123";
  _ ← discard_recording_candidate "call-123" true;
  clean ← no_recording;
  mret (all [tracked; marked; clean])).

Definition duplicate_recording_candidate_cleanup_preserves_original_state : bool := run_test (
  tracked ← track_recording_candidate "call-123";
  again ← track_recording_candidate "call-123";
  marked ← mark_recording_canceled "call-123";
  _ ← discard_recording_candidate "call-123" false;
  persist ← should_persist_recording "call-123";
  mret (all [tracked; negb again; marked; negb persist])).

Definition duplicate_access_candidate_is_detected_before_active_insert : bool := run_test (
  tracked ← track_access_candidate "call-123";
  again ← track_access_candidate "call-123";
  mret (all [tracked; negb again])).

Example voicemail_tests_pass :
  all [recognizes_access_extension; access_target_requires_exact_match;
      message_summary_event_matches_event_token_with_parameters;
      message_summary_event_rejects_other_events_and_empty_headers;
      no_answer_cancel_rewrites_invite_cseq_method_to_cancel; adds_to_tag_when_missing;
      preserves_existing_to_tag; adds_outer_to_tag_when_tag_exists_only_inside_uri;
      adds_outer_to_tag_when_tag_exists_only_inside_quoted_display_name;
      quoted_display_name_tag_scanner_honors_backslash_escaped_quote;
      empty_recording_completion_is_not_persisted; canceled_recording_completion_is_not_persisted;
      delivery_caller_rejects_missing_or_unparseable_from;
      delivery_caller_rejects_literal_unknown_sentinel;
      no_answer_timer_claim_records_fired_state_until_cleanup;
      caller_cancel_after_no_answer_fire_blocks_delivery;
      cancelled_recording_completion_is_consumed_and_not_persisted;
      cancel_for_untracked_call_does_not_leave_cancellation_marker;
      discarded_recording_candidate_removes_cancellation_marker;
      duplicate_recording_candidate_cleanup_preserves_original_state;
      duplicate_access_candidate_is_detected_before_active_insert] = true.
Proof. vm_compute. reflexivity. Qed.

End voicemail_tests.

(** [backend/src/sip/voicemail_mwi.rs] *)
Module mwi_tests.

Definition extract_header_value (msg header : str) : option str :=
  find_first (fun line => Str.starts_with (Str.to_lower header) (Str.to_lower line)) (Str.lines msg).

(** [c.is_ascii_alphanumeric() || c == '-'] *)
Definition token_char (c : ascii) : bool :=
  Str.is_digit c || Str.between 65 90 c || Str.between 97 122 c || bool_decide (c = "-"%char).

Definition mwi_server_tag_is_token_safe_for_common_call_ids : bool :=
  let call_id := "abc@client.example" in
  let tag := @mwi_server_tag toy_digests call_id in
  let response_to := @mwi_subscribe_to_header toy_digests "<sip:1001@sip.air32.cn>" call_id in
  let notify := @mwi_build_notify toy_digests "1001" "sip.air32.cn" call_id "subscriber-tag" 1 0 0 in
  on_some (extract_header_value notify "From") (fun notify_from =>
  all [Str.starts_with "sip3-mwi-" tag;
    forallb token_char tag;
    Str.contains ("tag=" ++ tag) response_to;
    Str.contains ("tag=" ++ tag) notify_from]).

Definition notify_branch_is_token_safe_for_common_call_ids : bool :=
  let notify := @mwi_build_notify toy_digests "1001" "sip.air32.cn" "abc@client.example" "subscriber-tag" 1 0 0 in
  on_some (extract_header_value notify "Via") (fun via =>
  on_some (Str.split_str "branch=" via !! 1%nat) (fun branch =>
  forallb token_char branch)).

Definition formats_waiting_body_with_new_and_saved_counts : bool :=
  let body := build_message_summary_body "1001" "sip.air32.cn" 2 1 in
  all [Str.contains "Messages-Waiting: yes" body;
    Str.contains "Message-Account: sip:1001@sip.air32.cn" body;
    Str.contains "Voice-Message: 2/1 (0/0)" body].

Definition formats_empty_body_without_waiting : bool :=
  let body := build_message_summary_body "1001" "sip.air32.cn" 0 0 in
  all [Str.contains "Messages-Waiting: no" body;
    Str.contains "Voice-Message: 0/0 (0/0)" body].

Definition notify_includes_required_headers_and_correct_content_length : bool :=
  let notify := @mwi_build_notify toy_digests "1001" "sip.air32.cn" "test-call-123" "user-tag" 5 2 1
      in
  all [Str.contains "Max-Forwards: 70" notify;
    Str.contains "Event: message-summary" notify;
    Str.contains "Subscription-State: active" notify;
    Str.contains "Content-Type: application/simple-message-summary" notify] &&
  (let body := build_message_summary_body "1001" "sip.air32.cn" 2 1 in
  let expected_length := ("Content-Length: " ++ (Str.show_dec (len body))) in
  all [Str.contains expected_length notify;
    Str.contains "branch=z9hG4bK-vm-" notify;
    Str.contains "-5" notify]).

Definition notify_produces_unique_branches_for_different_call_ids : bool :=
  let notify1 := @mwi_build_notify toy_digests "1001" "sip.air32.cn" "call-aaa" "tag1" 3 0 0 in
  let notify2 := @mwi_build_notify toy_digests "1001" "sip.air32.cn" "call-bbb" "tag2" 3 0 0 in
  on_some (extract_header_value notify1 "Via") (fun branch1 =>
  on_some (extract_header_value notify2 "Via") (fun branch2 =>
  all [negb (branch1 ==? branch2);
    Str.contains (@mwi_server_tag toy_digests "call-aaa") branch1;
    Str.contains (@mwi_server_tag toy_digests "call-bbb") branch2])).

Definition notify_produces_unique_from_tags_for_different_call_ids : bool :=
  let notify1 := @mwi_build_notify toy_digests "1001" "sip.air32.cn" "call-aaa" "tag1" 1 0 0 in
  let notify2 := @mwi_build_notify toy_digests "1001" "sip.air32.cn" "call-bbb" "tag2" 1 0 0 in
  on_some (extract_header_value notify1 "From") (fun from1 =>
  on_some (extract_header_value notify2 "From") (fun from2 =>
  all [negb (from1 ==? from2);
    Str.contains (@mwi_server_tag toy_digests "call-aaa") from1;
    Str.contains (@mwi_server_tag toy_digests "call-bbb") from2])).

Definition subscribe_ok_to_tag_matches_notify_from_tag : bool :=
  let call_id := "call-aaa" in
  let tag := @mwi_server_tag toy_digests call_id in
  let response_to := @mwi_subscribe_to_header toy_digests "<sip:1001@sip.air32.cn>" call_id in
  let notify := @mwi_build_notify toy_digests "1001" "sip.air32.cn" call_id "subscriber-tag" 1 0 0
      in
  on_some (extract_header_value notify "From") (fun notify_from =>
  all [Str.contains ("tag=" ++ tag) response_to;
    Str.contains ("tag=" ++ tag) notify_from]).

Definition registered_source_match_requires_same_ip_and_port : bool :=
  on_some (parse_addr "192.0.2.10:5062") (fun src =>
  all [registered_source_matches "192.0.2.10" 5062 src;
    negb (registered_source_matches "192.0.2.10" 5063 src);
    negb (registered_source_matches "192.0.2.11" 5062 src);
    negb (registered_source_matches "not-an-ip" 5062 src)]).

Example mwi_tests_pass :
  all [formats_waiting_body_with_new_and_saved_counts; formats_empty_body_without_waiting;
      notify_includes_required_headers_and_correct_content_length;
      notify_produces_unique_branches_for_different_call_ids;
      notify_produces_unique_from_tags_for_different_call_ids;
      subscribe_ok_to_tag_matches_notify_from_tag;
      registered_source_match_requires_same_ip_and_port;
      mwi_server_tag_is_token_safe_for_common_call_ids;
      notify_branch_is_token_safe_for_common_call_ids] = true.
Proof. vm_compute. reflexivity. Qed.

End mwi_tests.

(** [backend/src/sip/conference.rs] *)
Module conference_tests.

Definition with_to_tag_appends_when_missing : bool :=
  let to := "<sip:900000000@sip.air32.cn>" in
  all [(conf_with_to_tag to "abc123") ==? "<sip:900000000@sip.air32.cn>;tag=abc123"].

Definition with_to_tag_preserves_existing : bool :=
  let to := "<sip:900000000@sip.air32.cn>;tag=existing" in
  all [(conf_with_to_tag to "abc123") ==? to].

Example conference_tests_pass :
  all [with_to_tag_appends_when_missing; with_to_tag_preserves_existing] = true.
Proof. vm_compute. reflexivity. Qed.

End conference_tests.

(** [backend/src/models/voicemail.rs] *)
Module voicemail_model_tests.

Definition validates_message_statuses : bool :=
  all [isOk (validate_voicemail_status "new");
    isOk (validate_voicemail_status "saved");
    isOk (validate_voicemail_status "deleted");
    negb (isOk (validate_voicemail_status "heard"))].

Definition validates_box_limits : bool :=
  all [isOk (validate_box_limits 25 120 100);
    isOk (validate_box_limits 1 1 1);
    isOk (validate_box_limits 600 1250 10000);
    negb (isOk (validate_box_limits 25 1251 100));
    negb (isOk (validate_box_limits 0 120 100));
    negb (isOk (validate_box_limits 25 0 100));
    negb (isOk (validate_box_limits 25 120 0));
    negb (isOk (validate_box_limits 601 120 100))].

Definition validates_enabled_flag_values : bool :=
  all [isOk (validate_enabled_flag (Some 1));
    isOk (validate_enabled_flag (Some 0));
    isOk (validate_enabled_flag None);
    negb (isOk (validate_enabled_flag (Some 2)));
    negb (isOk (validate_enabled_flag (Some (- 1))))].

Example voicemail_model_tests_pass :
  all [validates_message_statuses; validates_box_limits; validates_enabled_flag_values] = true.
Proof. vm_compute. reflexivity. Qed.

End voicemail_model_tests.

(** [backend/src/models/conference.rs] *)
Module conference_model_tests.

Definition validates_nine_digit_extension : bool :=
  all [validate_conference_extension "900000000";
    validate_conference_extension "123456789"].

Definition rejects_wrong_length_or_non_digits : bool :=
  all [negb (validate_conference_extension "");
    negb (validate_conference_extension "12345678");
    negb (validate_conference_extension "1234567890");
    negb (validate_conference_extension "90000000a");
    negb (validate_conference_extension "900 000 00")].

Example conference_model_tests_pass :
  all [validates_nine_digit_extension; rejects_wrong_length_or_non_digits] = true.
Proof. vm_compute. reflexivity. Qed.

End conference_model_tests.

(** [backend/src/sip/handler.rs] *)
Module handler_tests.

(** The configuration is the one without file and environment; the stream of the caller is open,
    the call is up and has a session of the relay. *)
Definition relay_response_rewrites_200ok_sdp_for_stream_to_stream_plain_sip_calls : bool :=
  let cfg := config_from by_default in
  let call_id := "stream-to-stream-sdp-1" in
  let caller := {| ip := V4 127 0 0 1; port := 55060 |} in
  let callee := {| ip := V4 127 0 0 1; port := 55061 |} in
  let relay := media_relay_new (public_ip cfg) (rtp_port_min cfg) (rtp_port_max cfg) in
  let '(ports, relay) := allocate_session 0 ∅ call_id relay in
  on_ok ports (fun '(_, relay_b) =>
  let w := set_registry {[ caller := true ]} (set_media_relay relay
    (set_pending_dialogs {[ call_id := caller ]}
      (set_active_dialogs {[ call_id := {| caller_addr := caller; callee_addr := callee;
         caller_is_stream := true; callee_is_stream := true |} ]} sample_world))) in
  let raw_response := Str.terminated
    ["SIP/2.0 200 OK"; "Via: SIP/2.0/UDP sip.air32.cn;branch=z9hG4bKproxy123";
     "Via: SIP/2.0/TLS 192.0.2.10:5061;branch=z9hG4bKorig";
     "From: <sip:1001@sip.air32.cn>;tag=caller"; "To: <sip:1003@sip.air32.cn>;tag=callee";
     "Call-ID: " ++ call_id; "CSeq: 1 INVITE";
     "Contact: <sip:1003@192.168.31.27:56044;transport=tls>"; "Content-Type: application/sdp";
     "Content-Length: 117"; ""; "v=0"; "o=- 0 0 IN IP4 192.168.31.27"; "s=-";
     "c=IN IP4 192.168.31.27"; "t=0 0"; "m=audio 56044 RTP/AVP 0 8"; "a=rtpmap:0 PCMU/8000";
     "a=rtpmap:8 PCMA/8000"] in
  on_ok (parse raw_response) (fun msg =>
  match w_outbox (@relay_response cfg toy_webrtc msg w).2 with
  | [relayed] =>
      all [out_dst relayed ==? caller;
        Str.contains (Str.terminated ["c=IN IP4 " ++ public_ip cfg]) (out_text relayed);
        Str.contains (Str.terminated ["m=audio " ++ Str.show_dec relay_b ++ " RTP/AVP 0 8"])
          (out_text relayed)]
  | _ => false
  end)).

Example handler_tests_pass :
  all [relay_response_rewrites_200ok_sdp_for_stream_to_stream_plain_sip_calls] = true.
Proof. vm_compute. reflexivity. Qed.

End handler_tests.
