(* ===== verification/ClientTests.v ===== *)
(** * Tests of the test client

    The tests of [backend/src/test_client] and of [backend/src/bin/headless_call_tester.rs], but
    for those of random tokens and of the sockets of a probe.  A stream that the tests write and
    close is its text; events that are queued are the list of them. *)

From S2P Require Import Prelude RustStr Net Message Response Stream Forward SecurityGuard Acl.
From S2P Require Import Storage Sdp Media World Gateway Voicemail Presence ConferenceMedia Conference Registrar.
From S2P Require Import HttpApi Accounts Frames Proxy Portal Handler Client Scenario Testing.

Open Scope str_scope.
Open Scope Z_scope.
Open Scope test_scope.

#[export] Instance SipEvent_eq_dec : EqDecision SipEvent.
Proof. solve_decision. Defined.
#[export] Instance DialogState_eq_dec : EqDecision DialogState.
Proof. solve_decision. Defined.
#[export] Instance ScenarioName_eq_dec : EqDecision ScenarioName.
Proof. solve_decision. Defined.
#[export] Instance ScenarioStatus_eq_dec : EqDecision ScenarioStatus.
Proof. solve_decision. Defined.
#[export] Instance ReadResult_eq_dec : EqDecision ReadResult.
Proof. solve_decision. Defined.

(** [backend/src/test_client/endpoint.rs] *)
Module endpoint_tests.

(** The configuration of the tests. *)
Definition cfg (password : str) : SipEndpointConfig :=
  {| ec_label := "caller"; ec_host := "sip.air32.cn"; ec_tls_port := 5061; ec_domain := "sip.air32.cn";
     ec_realm := "sip.air32.cn"; ec_username := "1001"; ec_password := password;
     ec_run_token := "run123"; ec_insecure_tls := true |}.

Definition read_one_sip_message_respects_content_length : bool :=
  match read_one_sip_message (Str.terminated ["SIP/2.0 200 OK"; "Content-Length: 4"; ""] ++ "body") with
  | ReadMessage message _ => Str.ends_with (Str.terminated [""; ""] ++ "body") message
  | _ => false
  end.

Definition build_message_request_keeps_transport_tls : bool :=
  let raw := build_message_request (cfg "secret") "1003" "hello" "call-1" 1 in
  all [Str.starts_with (Str.terminated ["MESSAGE sip:1003@sip.air32.cn SIP/2.0"]) raw;
    Str.contains (Str.terminated ["Via: SIP/2.0/TLS tester.invalid;branch=z9hG4bK-call-1;rport"]) raw;
    Str.contains (Str.terminated ["Contact: <sip:1001@sip.air32.cn;transport=tls>"]) raw;
    Str.contains (Str.terminated ["Content-Length: 5"; ""] ++ "hello") raw].

Definition build_register_and_message_requests_include_run_token : bool :=
  let register := build_register_request (cfg "secret") "register-1001-run123" 1 None in
  let message := build_message_request (cfg "secret") "1003" "hello" "message-1001-1003-run123" 1 in
  all [Str.contains (Str.terminated ["Call-ID: register-1001-run123"]) register;
    Str.contains "branch=z9hG4bK-register-1001-run123" register;
    Str.contains (Str.terminated ["Call-ID: message-1001-1003-run123"]) message;
    Str.contains "branch=z9hG4bK-message-1001-1003-run123" message].

Definition parse_event_200_register_becomes_registered : bool :=
  parse_event (Str.terminated ["SIP/2.0 200 OK"; "CSeq: 1 REGISTER"; "Call-ID: reg-1";
      "Content-Length: 0"; ""]) ==?
  Done (Some (Client.Registered)).

Definition parse_event_200_message_becomes_ok : bool :=
  parse_event (Str.terminated ["SIP/2.0 200 OK"; "CSeq: 7 MESSAGE"; "Call-ID: msg-1";
      "Content-Length: 0"; ""]) ==?
  Done (Some (OkResponse "MESSAGE")).

Definition parse_event_486_invite_becomes_error_response : bool :=
  parse_event (Str.terminated ["SIP/2.0 486 Busy Here"; "CSeq: 1 INVITE"; "Call-ID: call-1";
      "Content-Length: 0"; ""]) ==?
  Done (Some (ErrorResponse 486 "Busy Here" "INVITE")).

Definition parse_event_180_invite_becomes_ringing : bool :=
  parse_event (Str.terminated ["SIP/2.0 180 Ringing"; "CSeq: 1 INVITE"; "Call-ID: ring-1";
      "Content-Length: 0"; ""]) ==?
  Done (Some (Client.Ringing "ring-1")).

Definition parse_event_200_invite_becomes_answered : bool :=
  parse_event (Str.terminated ["SIP/2.0 200 OK"; "CSeq: 1 INVITE"; "Call-ID: ans-1";
      "Content-Type: application/sdp"; "Content-Length: 7"; ""; "v=0"; ""]) ==?
  Done (Some (Answered "ans-1" (Str.terminated ["v=0"; ""]))).

Definition parse_event_invite_request_becomes_invite_received : bool :=
  parse_event (Str.terminated ["INVITE sip:1001@sip.air32.cn SIP/2.0"; "Call-ID: inv-1";
      "From: <sip:1002@sip.air32.cn>;tag=x"; "Content-Type: application/sdp"; "Content-Length: 7";
      ""; "v=0"; ""]) ==?
  Done (Some (InviteReceived "inv-1" "<sip:1002@sip.air32.cn>;tag=x" (Str.terminated ["v=0"; ""]))).

Definition parse_event_message_request_becomes_message_received : bool :=
  parse_event (Str.terminated ["MESSAGE sip:1001@sip.air32.cn SIP/2.0";
      "From: <sip:1002@sip.air32.cn>;tag=x"; "Content-Type: text/plain"; "Content-Length: 5";
      ""] ++ "hello") ==?
  Done (Some (MessageReceived "<sip:1002@sip.air32.cn>;tag=x" "hello")).

Definition parse_event_ack_request_becomes_ack_received : bool :=
  parse_event (Str.terminated ["ACK sip:1001@sip.air32.cn SIP/2.0"; "Call-ID: ack-1"; ""]) ==?
  Done (Some (AckReceived "ack-1")).

Definition parse_event_bye_request_becomes_bye_received : bool :=
  parse_event (Str.terminated ["BYE sip:1001@sip.air32.cn SIP/2.0"; "Call-ID: bye-1"; ""]) ==?
  Done (Some (ByeReceived "bye-1")).

Definition parse_event_cancel_request_becomes_cancel_received : bool :=
  parse_event (Str.terminated ["CANCEL sip:1001@sip.air32.cn SIP/2.0"; "Call-ID: cancel-1"; ""]) ==?
  Done (Some (CancelReceived "cancel-1")).

Definition parse_event_handles_lowercase_header_names_case_insensitively : bool :=
  parse_event (Str.terminated ["INVITE sip:1001@sip.air32.cn SIP/2.0"; "call-id: lc-1";
      "from: <sip:1002@sip.air32.cn>;tag=x"; "cseq: 1 INVITE"; "Content-Length: 7"; ""; "v=0";
      ""]) ==?
  Done (Some (InviteReceived "lc-1" "<sip:1002@sip.air32.cn>;tag=x" (Str.terminated ["v=0"; ""]))).

Definition parse_event_401_register_becomes_auth_challenge : bool :=
  match parse_event (Str.terminated ["SIP/2.0 401 Unauthorized"; "CSeq: 1 REGISTER"; "Call-ID: reg-1";
      dq ["WWW-Authenticate: Digest realm="; "sip.air32.cn"; ", nonce="; "abc123";
          ", algorithm=MD5, qop="; "auth"; ""]; "Content-Length: 0"; ""]) with
  | Done (Some (AuthChallenge cseq_method auth_params)) =>
      all [cseq_method ==? "REGISTER";
        auth_params !! "realm" ==? Some "sip.air32.cn";
        auth_params !! "nonce" ==? Some "abc123";
        auth_params !! "qop" ==? Some "auth"]
  | _ => false
  end.

(** But for the value of the digest, which is that of the examples here. *)
Definition build_register_authorization_uses_digest_auth_fields : bool :=
  let auth := @build_register_authorization (cfg "secret1") toy_digests "abc123" "sip.air32.cn" "00000001" "deadbeef" in
  all [Str.starts_with "Digest " auth;
    Str.contains (dq ["username="; "1001"; ""]) auth;
    Str.contains (dq ["realm="; "sip.air32.cn"; ""]) auth;
    Str.contains (dq ["nonce="; "abc123"; ""]) auth;
    Str.contains (dq ["uri="; "sip:sip.air32.cn"; ""]) auth;
    Str.contains "qop=auth" auth;
    Str.contains "nc=00000001" auth;
    Str.contains (dq ["cnonce="; "deadbeef"; ""]) auth].

Definition recv_matching_event_skips_unrelated_events : bool :=
  recv_matching_event "MESSAGE" (fun e => e ==? OkResponse "MESSAGE")
    [MessageReceived "<sip:1002@sip.air32.cn>;tag=x" "hello"; OkResponse "MESSAGE"] ==?
  Ok (OkResponse "MESSAGE", []).

Definition recv_matching_event_returns_explicit_sip_failure : bool :=
  on_err (recv_matching_event "INVITE" (fun e => match e with Answered _ _ => true | _ => false end)
            [ErrorResponse 486 "Busy Here" "INVITE"])
    (fun err => all [Str.contains "486" err; Str.contains "Busy Here" err; Str.contains "INVITE" err]).

Definition read_one_sip_message_errors_on_truncated_headers : bool :=
  read_one_sip_message (Str.terminated ["SIP/2.0 200 OK"] ++ "Content-L") ==? ReadError.

Example endpoint_tests_pass :
  all [read_one_sip_message_respects_content_length; build_message_request_keeps_transport_tls;
      build_register_and_message_requests_include_run_token;
      parse_event_200_register_becomes_registered; parse_event_200_message_becomes_ok;
      parse_event_486_invite_becomes_error_response; parse_event_180_invite_becomes_ringing;
      parse_event_200_invite_becomes_answered; parse_event_invite_request_becomes_invite_received;
      parse_event_message_request_becomes_message_received;
      parse_event_ack_request_becomes_ack_received; parse_event_bye_request_becomes_bye_received;
      parse_event_cancel_request_becomes_cancel_received;
      parse_event_handles_lowercase_header_names_case_insensitively;
      parse_event_401_register_becomes_auth_challenge;
      build_register_authorization_uses_digest_auth_fields;
      recv_matching_event_skips_unrelated_events; recv_matching_event_returns_explicit_sip_failure;
      read_one_sip_message_errors_on_truncated_headers] = true.
Proof. vm_compute. reflexivity. Qed.

End endpoint_tests.

(** [backend/src/test_client/dialog.rs] *)
Module dialog_tests.

Definition answered_flow_requires_200_before_ack : bool :=
  let trace := on_ack_sent (on_ringing (on_invite_sent (trace_new "call-42"))) in
  on_err (require_established trace) (fun err => Str.contains "200 OK" err).

Definition answered_flow_rejects_late_200_after_early_ack : bool :=
  let trace := on_answered (on_ack_sent (on_ringing (on_invite_sent (trace_new "call-43")))) in
  on_err (require_established trace) (fun err => Str.contains "ACK" err).

Definition answered_flow_becomes_established_after_ack : bool :=
  let trace := on_ack_sent (on_answered (on_ringing (on_invite_sent (trace_new "call-44")))) in
  all [dt_state trace ==? DEstablished; isOk (require_established trace)].

Definition bye_moves_dialog_to_terminated : bool :=
  let trace := on_bye (on_ack_sent (on_answered (on_invite_sent (trace_new "call-45")))) in
  dt_state trace ==? DTerminated.

Example dialog_tests_pass :
  all [answered_flow_requires_200_before_ack; answered_flow_rejects_late_200_after_early_ack;
      answered_flow_becomes_established_after_ack; bye_moves_dialog_to_terminated] = true.
Proof. vm_compute. reflexivity. Qed.

End dialog_tests.

(** [backend/src/test_client/assertions.rs] *)
Module assertions_tests.

Definition failure_render_includes_name_detail_and_rtp_counts : bool :=
  let rendered := outcome_render (with_rtp_counts 0 47
    (outcome_fail "tls_rtp_bidirectional" "RTP one-way, caller_rx=0 callee_rx=47")) in
  all [Str.contains "tls_rtp_bidirectional" rendered;
    Str.contains "FAILED" rendered;
    Str.contains "RTP one-way, caller_rx=0 callee_rx=47" rendered;
    Str.contains "caller_rx=0" rendered;
    Str.contains "callee_rx=47" rendered].

Example assertions_tests_pass :
  all [failure_render_includes_name_detail_and_rtp_counts] = true.
Proof. vm_compute. reflexivity. Qed.

End assertions_tests.

(** [backend/src/test_client/scenario.rs] *)
Module scenario_tests.

Definition test_endpoint (label username : str) : SipEndpointConfig :=
  {| ec_label := label; ec_host := "127.0.0.1"; ec_tls_port := 5061; ec_domain := "sip.air32.cn";
     ec_realm := "sip.air32.cn"; ec_username := username; ec_password := "secret";
     ec_run_token := "test-run"; ec_insecure_tls := true |}.

Definition scenario_name_rejects_unknown_values : bool :=
  on_err (scenario_parse "not-real") (fun err => Str.contains "unknown scenario" err).

Definition scenario_name_parses_all_supported_tls_names : bool :=
  all [scenario_parse "tls_register_dual" ==? Ok TlsRegisterDual;
    scenario_parse "tls_message_dual" ==? Ok TlsMessageDual;
    scenario_parse "tls_basic_call" ==? Ok TlsBasicCall].

Definition scenario_name_formats_all_supported_tls_names : bool :=
  all [scenario_as_str TlsRegisterDual ==? "tls_register_dual";
    scenario_as_str TlsMessageDual ==? "tls_message_dual";
    scenario_as_str TlsBasicCall ==? "tls_basic_call"].

Definition message_event_matches_requires_expected_sender_and_body : bool :=
  let event := MessageReceived "<sip:1001@sip.air32.cn>;tag=abc" "hello-from-caller" in
  all [message_event_matches event "1001" "hello-from-caller";
    negb (message_event_matches event "1002" "hello-from-caller");
    negb (message_event_matches event "1001" "wrong-body")].

Definition build_invite_request_includes_run_token : bool :=
  let invite := build_invite_request (test_endpoint "caller" "1001") "1002" "call-1001-1002-test-run"
    (Str.terminated ["v=0"; "m=audio 1234 RTP/AVP 0"]) in
  all [Str.contains (Str.terminated ["Call-ID: call-1001-1002-test-run"]) invite;
    Str.contains "branch=z9hG4bK-call-1001-1002-test-run" invite].

Definition require_relay_target_rejects_direct_answer_target : bool :=
  on_some (parse_addr "127.0.0.1:40000") (fun direct =>
  on_err (require_relay_target "answer" direct direct) (fun err => Str.contains "relay target" err)).

Definition require_relay_target_rejects_direct_offer_target : bool :=
  on_some (parse_addr "127.0.0.1:40002") (fun direct =>
  on_err (require_relay_target "offer" direct direct)
    (fun err => all [Str.contains "offer" err; Str.contains "relay target" err])).

Example scenario_tests_pass :
  all [scenario_name_rejects_unknown_values; scenario_name_parses_all_supported_tls_names;
      scenario_name_formats_all_supported_tls_names;
      message_event_matches_requires_expected_sender_and_body;
      build_invite_request_includes_run_token; require_relay_target_rejects_direct_answer_target;
      require_relay_target_rejects_direct_offer_target] = true.
Proof. vm_compute. reflexivity. Qed.

End scenario_tests.

(** [backend/src/bin/headless_call_tester.rs] *)
Module tester_tests.

Definition parse_args_accepts_tls_basic_call : bool :=
  let args := ["headless_call_tester"; "--target"; "sip.air32.cn"; "--tls-port"; "5061"; "--domain";
    "sip.air32.cn"; "--realm"; "sip.air32.cn"; "--scenario"; "tls_basic_call"; "--caller"; "1001";
    "--caller-password"; "secret1"; "--callee"; "1003"; "--callee-password"; "secret3"] in
  on_ok (cli_parse args) (fun cli =>
  all [cli_target cli ==? "sip.air32.cn";
    scenario_as_str (cli_scenario cli) ==? "tls_basic_call";
    cli_tls_port cli ==? 5061]).

Example tester_tests_pass :
  all [parse_args_accepts_tls_basic_call] = true.
Proof. vm_compute. reflexivity. Qed.

End tester_tests.
